(** * Verification model of adam_os: canonical JSON codec, artifact and
    inference registries, pipeline stages and inference tools.

    Python values are modelled as follows.
    - A Python [str] is a list of Unicode code points ([list Z]).
    - JSON values (the inputs and outputs of the tools, and the payloads
      they hash) are the inductive [json]; a Python [dict] is an
      association list in insertion order with distinct keys.
    - Python floats are kept abstract behind the [FloatModel] class.
    - SHA-256 is an abstract function on the hashed text.
    - Effects on the file system and registries are explicit state passing
      in the monad [M]; exceptions are values of [exn] and do not undo the
      effects performed before they are raised. *)

From Stdlib Require Import ZArith List String Ascii Bool Lia.
From Stdlib Require Import Sorting.Permutation Sorting.Sorted.
From Stdlib Require Import Numbers.DecimalZ Numbers.DecimalPos.
Import ListNotations.
Set Warnings "-register-all,-notation-for-abbreviation".
Open Scope Z_scope.
Open Scope list_scope.

(* ------------------------------------------------------------------ *)
(** ** Python strings *)

Notation pystr := (list Z).

(** Code points of an ASCII literal. *)
Definition cps (s : string) : pystr :=
  map (fun a => Z.of_nat (nat_of_ascii a)) (list_ascii_of_string s).

(** [str.isspace()] / regex [\s] on a Unicode pattern. *)
Definition isspace (c : Z) : bool :=
  ((9 <=? c) && (c <=? 13)) || ((28 <=? c) && (c <=? 32)) || (c =? 133)
  || (c =? 160) || (c =? 5760) || ((8192 <=? c) && (c <=? 8202))
  || (c =? 8232) || (c =? 8233) || (c =? 8239) || (c =? 8287) || (c =? 12288).

Fixpoint lstrip (s : pystr) : pystr :=
  match s with
  | c :: r => if isspace c then lstrip r else s
  | [] => []
  end.

(** [str.strip()] *)
Definition strip (s : pystr) : pystr := rev (lstrip (rev (lstrip s))).

(** [bool(s.strip())] : the string has a non-whitespace character. *)
Definition nonblank (s : pystr) : bool := negb (forallb isspace s).

Fixpoint prefixb (p s : pystr) : bool :=
  match p, s with
  | [], _ => true
  | x :: p', y :: s' => (x =? y) && prefixb p' s'
  | _ :: _, [] => false
  end.

(** [needle in s] for strings. *)
Fixpoint infixb (p s : pystr) : bool :=
  prefixb p s || match s with [] => false | _ :: s' => infixb p s' end.

(** [s.endswith(p)] *)
Definition endswithb (p s : pystr) : bool := prefixb (rev p) (rev s).

(** Lexicographic order on code points: Python's [<] on [str]. *)
Fixpoint str_ltb (a b : pystr) : bool :=
  match a, b with
  | [], [] => false
  | [], _ :: _ => true
  | _ :: _, [] => false
  | x :: a', y :: b' =>
      if x <? y then true else if y <? x then false else str_ltb a' b'
  end.

Fixpoint str_eqb (a b : pystr) : bool :=
  match a, b with
  | [], [] => true
  | x :: a', y :: b' => (x =? y) && str_eqb a' b'
  | _, _ => false
  end.

(** [sep.join(parts)] *)
Fixpoint join (sep : pystr) (parts : list pystr) : pystr :=
  match parts with
  | [] => []
  | [p] => p
  | p :: ps => p ++ sep ++ join sep ps
  end.

(* ------------------------------------------------------------------ *)
(** ** Exceptions and results *)

Inductive exn_class :=
| ValueError | TypeError | FileNotFoundError | CanonicalizationError
| JSONDecodeError | EngineeringLogValidationError
| IsADirectoryError | OverflowError | OpenAIHTTPError | AnthropicHTTPError | OtherError.

(** [type(e).__name__]; [OtherError] stands for any other exception class. *)
Definition exn_name (c : exn_class) : string :=
  match c with
  | ValueError => "ValueError" | TypeError => "TypeError"
  | FileNotFoundError => "FileNotFoundError" | CanonicalizationError => "CanonicalizationError"
  | JSONDecodeError => "JSONDecodeError"
  | EngineeringLogValidationError => "EngineeringLogValidationError"
  | IsADirectoryError => "IsADirectoryError" | OverflowError => "OverflowError"
  | OpenAIHTTPError => "OpenAIHTTPError"
  | AnthropicHTTPError => "AnthropicHTTPError" | OtherError => "Exception"
  end.

(** [isinstance(e, ValueError)] *)
Definition is_value_error (c : exn_class) : bool :=
  match c with
  | ValueError | CanonicalizationError | JSONDecodeError
  | EngineeringLogValidationError => true
  | _ => false
  end.

Record exn := Exn { exn_cls : exn_class; exn_msg : pystr }.

Inductive res (A : Type) : Type :=
| Ok (a : A)
| Exc (e : exn).
Arguments Ok {A} a.
Arguments Exc {A} e.

Definition raise {A} (c : exn_class) (msg : string) : res A := Exc (Exn c (cps msg)).

(* ------------------------------------------------------------------ *)
(** ** Python floats *)

(** The operations of Python's [float] that the code uses. *)
Class FloatModel (F : Type) := {
  f_of_Z : Z -> option F;     (* float(i); None: OverflowError *)
  f_ltb : F -> F -> bool;     (* a < b *)
  f_zero : F;                 (* 0.0 *)
  f_one : F;                  (* 1.0 *)
  f_truthy : F -> bool;       (* bool(f) *)
  f_finite : F -> bool;       (* not NaN and not +-inf *)
  f_repr : F -> pystr;        (* float.__repr__ *)
  f_special : F -> pystr;     (* 'NaN', 'Infinity', '-Infinity' in json.dumps *)
  f_parse : pystr -> F;       (* float(numeric literal) *)
  f_nan : F; f_inf : F; f_ninf : F
}.

(* ------------------------------------------------------------------ *)
(** ** JSON values *)

Inductive json (F : Type) : Type :=
| JNull
| JBool (b : bool)
| JInt (z : Z)
| JFloat (f : F)
| JStr (s : pystr)
| JArr (l : list (json F))
| JObj (l : list (pystr * json F)).
Arguments JNull {F}.
Arguments JBool {F} b.
Arguments JInt {F} z.
Arguments JFloat {F} f.
Arguments JStr {F} s.
Arguments JArr {F} l.
Arguments JObj {F} l.

(** Induction principle that sees through the nested lists. *)
Section JsonInd.
Context {F : Type} (P : json F -> Prop).
Hypotheses (Hnull : P JNull) (Hbool : forall b, P (JBool b))
  (Hint : forall z, P (JInt z)) (Hflt : forall f, P (JFloat f))
  (Hstr : forall s, P (JStr s))
  (Harr : forall l, Forall P l -> P (JArr l))
  (Hobj : forall l, Forall (fun kv => P (snd kv)) l -> P (JObj l)).

Fixpoint json_ind' (v : json F) : P v :=
  match v with
  | JNull => Hnull
  | JBool b => Hbool b
  | JInt z => Hint z
  | JFloat f => Hflt f
  | JStr s => Hstr s
  | JArr l =>
      Harr l ((fix go (l : list (json F)) : Forall P l :=
                 match l with
                 | [] => Forall_nil _
                 | x :: xs => Forall_cons x (json_ind' x) (go xs)
                 end) l)
  | JObj l =>
      Hobj l ((fix go (l : list (pystr * json F)) : Forall (fun kv => P (snd kv)) l :=
                 match l with
                 | [] => Forall_nil _
                 | kv :: xs => Forall_cons kv (json_ind' (snd kv)) (go xs)
                 end) l)
  end.
End JsonInd.

Section Dict.
Context {F : Type}.

(** [d.get(k)], with a missing key read as [None]. *)
Fixpoint dget (d : list (pystr * json F)) (k : pystr) : json F :=
  match d with
  | [] => JNull
  | (k', v) :: d' => if str_eqb k' k then v else dget d' k
  end.

Fixpoint dmem (d : list (pystr * json F)) (k : pystr) : bool :=
  match d with
  | [] => false
  | (k', _) :: d' => str_eqb k' k || dmem d' k
  end.

(** [d[k] = v]: in place when the key exists, appended otherwise. *)
Fixpoint dset (d : list (pystr * json F)) (k : pystr) (v : json F) :=
  match d with
  | [] => [(k, v)]
  | (k', v') :: d' => if str_eqb k' k then (k', v) :: d' else (k', v') :: dset d' k v
  end.

(** [d.pop(k, None)] (the dictionary part). *)
Fixpoint dpop (d : list (pystr * json F)) (k : pystr) :=
  match d with
  | [] => []
  | (k', v') :: d' => if str_eqb k' k then d' else (k', v') :: dpop d' k
  end.

Definition jget (v : json F) (k : string) : json F :=
  match v with JObj d => dget d (cps k) | _ => JNull end.
End Dict.

(** Python truthiness, as used by [x or default]. *)
Definition truthy {F} `{FloatModel F} (v : json F) : bool :=
  match v with
  | JNull => false
  | JBool b => b
  | JInt z => negb (z =? 0)
  | JFloat f => f_truthy f
  | JStr s => negb (match s with [] => true | _ => false end)
  | JArr l => negb (match l with [] => true | _ => false end)
  | JObj l => negb (match l with [] => true | _ => false end)
  end.

(** [isinstance(x, str) and x.strip()] *)
Definition is_nonblank_str {F} (v : json F) : bool :=
  match v with JStr s => nonblank s | _ => false end.

(* ------------------------------------------------------------------ *)
(** ** [json.dumps(obj, sort_keys=True, separators=(',', ':'),
       ensure_ascii=False, allow_nan=...)] *)

Definition hexdig (n : Z) : Z := if n <? 10 then 48 + n else 87 + n.

(** The escape table of [json.encoder] for [ensure_ascii=False]. *)
Definition esc_char (c : Z) : pystr :=
  if c =? 34 then [92; 34]
  else if c =? 92 then [92; 92]
  else if c =? 8 then [92; 98]
  else if c =? 12 then [92; 102]
  else if c =? 10 then [92; 110]
  else if c =? 13 then [92; 114]
  else if c =? 9 then [92; 116]
  else if c <? 32 then [92; 117; 48; 48; hexdig (c / 16); hexdig (c mod 16)]
  else [c].

Definition dumps_str (s : pystr) : pystr := 34 :: flat_map esc_char s ++ [34].

Fixpoint uint_chars (d : Decimal.uint) : pystr :=
  match d with
  | Decimal.Nil => []
  | Decimal.D0 r => 48 :: uint_chars r
  | Decimal.D1 r => 49 :: uint_chars r
  | Decimal.D2 r => 50 :: uint_chars r
  | Decimal.D3 r => 51 :: uint_chars r
  | Decimal.D4 r => 52 :: uint_chars r
  | Decimal.D5 r => 53 :: uint_chars r
  | Decimal.D6 r => 54 :: uint_chars r
  | Decimal.D7 r => 55 :: uint_chars r
  | Decimal.D8 r => 56 :: uint_chars r
  | Decimal.D9 r => 57 :: uint_chars r
  end.

(** [int.__repr__] *)
Definition int_repr (z : Z) : pystr :=
  match Z.to_int z with
  | Decimal.Pos u => uint_chars u
  | Decimal.Neg u => 45 :: uint_chars u
  end.

(** [sorted(dct.items())]: keys of a dict are distinct, so the order is
    the order of the keys; insertion sort keeps equal keys stable. *)
Fixpoint insert_item {A} (kv : pystr * A) (l : list (pystr * A)) :=
  match l with
  | [] => [kv]
  | kv' :: l' => if str_ltb (fst kv) (fst kv') then kv :: l else kv' :: insert_item kv l'
  end.

Fixpoint sort_items {A} (l : list (pystr * A)) : list (pystr * A) :=
  match l with
  | [] => []
  | kv :: l' => insert_item kv (sort_items l')
  end.

Section Dumps.
Context {F : Type} `{FloatModel F}.

Fixpoint seq_items (l : list (pystr * res pystr)) : res (list (pystr * pystr)) :=
  match l with
  | [] => Ok []
  | (k, Exc e) :: _ => Exc e
  | (k, Ok s) :: l' =>
      match seq_items l' with Ok r => Ok ((k, s) :: r) | Exc e => Exc e end
  end.

Fixpoint json_dumps (allow_nan : bool) (v : json F) : res pystr :=
  match v with
  | JNull => Ok (cps "null")
  | JBool true => Ok (cps "true")
  | JBool false => Ok (cps "false")
  | JInt z => Ok (int_repr z)
  | JFloat f =>
      if f_finite f then Ok (f_repr f)
      else if allow_nan then Ok (f_special f)
      else raise ValueError "Out of range float values are not JSON compliant"
  | JStr s => Ok (dumps_str s)
  | JArr l =>
      match (fix go (l : list (json F)) : res (list pystr) :=
               match l with
               | [] => Ok []
               | x :: xs =>
                   match json_dumps allow_nan x with
                   | Exc e => Exc e
                   | Ok s => match go xs with Ok ss => Ok (s :: ss) | Exc e => Exc e end
                   end
               end) l with
      | Ok ss => Ok ([91] ++ join [44] ss ++ [93])
      | Exc e => Exc e
      end
  | JObj l =>
      let items := (fix go (l : list (pystr * json F)) : list (pystr * res pystr) :=
                      match l with
                      | [] => []
                      | (k, x) :: xs => (k, json_dumps allow_nan x) :: go xs
                      end) l in
      match seq_items (sort_items items) with
      | Ok kvs => Ok ([123] ++ join [44] (map (fun kv => dumps_str (fst kv) ++ [58] ++ snd kv) kvs) ++ [125])
      | Exc e => Exc e
      end
  end.

(** [adam_os.memory.canonical.canonical_dumps] *)
Definition canonical_dumps (v : json F) : res pystr :=
  match json_dumps false v with
  | Ok s => Ok s
  | Exc e => Exc (Exn CanonicalizationError
                   (cps "canonical_dumps: non-serializable input: " ++ exn_msg e))
  end.
End Dumps.

(* ------------------------------------------------------------------ *)
(** ** [json.loads] (the C scanner of CPython's [_json] module) *)

Definition is_json_ws (c : Z) : bool := (c =? 32) || (c =? 9) || (c =? 10) || (c =? 13).

Fixpoint skip_ws (s : pystr) : pystr :=
  match s with
  | c :: r => if is_json_ws c then skip_ws r else s
  | [] => []
  end.

Definition is_digit (c : Z) : bool := (48 <=? c) && (c <=? 57).

Definition hex_val (c : Z) : option Z :=
  if is_digit c then Some (c - 48)
  else if (97 <=? c) && (c <=? 102) then Some (c - 87)
  else if (65 <=? c) && (c <=? 70) then Some (c - 55)
  else None.

Definition hex4 (a b c d : Z) : option Z :=
  match hex_val a, hex_val b, hex_val c, hex_val d with
  | Some x, Some y, Some z, Some w => Some (((x * 16 + y) * 16 + z) * 16 + w)
  | _, _, _, _ => None
  end.

Definition cons_fst {B} (c : Z) (o : option (pystr * B)) : option (pystr * B) :=
  match o with Some (x, r) => Some (c :: x, r) | None => None end.

(** [scanstring] from just after the opening quote (strict mode). *)
Fixpoint scanstring (s : pystr) : option (pystr * pystr) :=
  match s with
  | [] => None
  | 34 :: r => Some ([], r)
  | 92 :: r =>
      match r with
      | 34 :: r' => cons_fst 34 (scanstring r')
      | 92 :: r' => cons_fst 92 (scanstring r')
      | 47 :: r' => cons_fst 47 (scanstring r')
      | 98 :: r' => cons_fst 8 (scanstring r')
      | 102 :: r' => cons_fst 12 (scanstring r')
      | 110 :: r' => cons_fst 10 (scanstring r')
      | 114 :: r' => cons_fst 13 (scanstring r')
      | 116 :: r' => cons_fst 9 (scanstring r')
      | 117 :: a :: b :: c :: d :: r' =>
          match hex4 a b c d with
          | None => None
          | Some u =>
              if (55296 <=? u) && (u <=? 56319) then
                match r' with
                | 92 :: 117 :: a2 :: b2 :: c2 :: d2 :: (_ :: _) as r'' =>
                    match hex4 a2 b2 c2 d2 with
                    | None => None
                    | Some u2 =>
                        if (56320 <=? u2) && (u2 <=? 57343) then
                          cons_fst (65536 + (u - 55296) * 1024 + (u2 - 56320)) (scanstring r'')
                        else cons_fst u (scanstring r')
                    end
                | _ => cons_fst u (scanstring r')
                end
              else cons_fst u (scanstring r')
          end
      | _ => None
      end
  | c :: r => if c <? 32 then None else cons_fst c (scanstring r)
  end.

Fixpoint take_digits (s : pystr) : pystr * pystr :=
  match s with
  | c :: r => if is_digit c then let (d, r') := take_digits r in (c :: d, r') else ([], s)
  | [] => ([], [])
  end.

(** [_match_number_unicode]: the number token, whether it is a float, and
    the rest of the input. *)
Definition scan_number (s : pystr) : option (pystr * bool * pystr) :=
  let '(sign, s1) := match s with 45 :: r => ([45], r) | _ => ([], s) end in
  let int_part :=
    match s1 with
    | 48 :: r => Some ([48], r)
    | c :: r => if is_digit c then let (d, r') := take_digits r in Some (c :: d, r') else None
    | [] => None
    end in
  match int_part with
  | None => None
  | Some (ip, r2) =>
      let '(frac, r3) :=
        match r2 with
        | 46 :: d :: r => if is_digit d then let (ds, r') := take_digits r in (46 :: d :: ds, r')
                          else ([], r2)
        | _ => ([], r2)
        end in
      let '(ex, r4) :=
        match r3 with
        | e :: r => if (e =? 101) || (e =? 69) then
                      let '(sg, r5) := match r with
                                       | c :: r' => if (c =? 45) || (c =? 43) then ([c], r') else ([], r)
                                       | [] => ([], r)
                                       end in
                      match take_digits r5 with
                      | ([], _) => ([], r3)
                      | (ds, r') => (e :: sg ++ ds, r')
                      end
                    else ([], r3)
        | [] => ([], r3)
        end in
      let is_float := match frac, ex with [], [] => false | _, _ => true end in
      Some (sign ++ ip ++ frac ++ ex, is_float, r4)
  end.

Fixpoint chars_uint (s : pystr) : Decimal.uint :=
  match s with
  | [] => Decimal.Nil
  | c :: r =>
      match c - 48 with
      | 0 => Decimal.D0 (chars_uint r) | 1 => Decimal.D1 (chars_uint r)
      | 2 => Decimal.D2 (chars_uint r) | 3 => Decimal.D3 (chars_uint r)
      | 4 => Decimal.D4 (chars_uint r) | 5 => Decimal.D5 (chars_uint r)
      | 6 => Decimal.D6 (chars_uint r) | 7 => Decimal.D7 (chars_uint r)
      | 8 => Decimal.D8 (chars_uint r) | _ => Decimal.D9 (chars_uint r)
      end
  end.

(** [int(token)] for an integer token of the scanner. *)
Definition parse_int (tok : pystr) : Z :=
  match tok with
  | 45 :: r => Z.of_int (Decimal.Neg (chars_uint r))
  | _ => Z.of_int (Decimal.Pos (chars_uint tok))
  end.

Section Loads.
Context {F : Type} `{FloatModel F}.

Fixpoint scan_once (n : nat) (s : pystr) {struct n} : option (json F * pystr) :=
  match n with
  | O => None
  | S n' =>
      match s with
      | 34 :: r =>
          match scanstring r with Some (x, r') => Some (JStr x, r') | None => None end
      | 123 :: r =>
          match skip_ws r with
          | 125 :: r2 => Some (JObj [], r2)
          | r1 => parse_members n' r1 []
          end
      | 91 :: r =>
          match skip_ws r with
          | 93 :: r2 => Some (JArr [], r2)
          | r1 => parse_elems n' r1 []
          end
      | 110 :: 117 :: 108 :: 108 :: r => Some (JNull, r)
      | 116 :: 114 :: 117 :: 101 :: r => Some (JBool true, r)
      | 102 :: 97 :: 108 :: 115 :: 101 :: r => Some (JBool false, r)
      | 78 :: 97 :: 78 :: r => Some (JFloat f_nan, r)
      | 73 :: 110 :: 102 :: 105 :: 110 :: 105 :: 116 :: 121 :: r => Some (JFloat f_inf, r)
      | 45 :: 73 :: 110 :: 102 :: 105 :: 110 :: 105 :: 116 :: 121 :: r => Some (JFloat f_ninf, r)
      | _ =>
          match scan_number s with
          | Some (tok, true, r) => Some (JFloat (f_parse tok), r)
          | Some (tok, false, r) => Some (JInt (parse_int tok), r)
          | None => None
          end
      end
  end
with parse_members (n : nat) (s : pystr) (acc : list (pystr * json F)) {struct n}
  : option (json F * pystr) :=
  match n with
  | O => None
  | S n' =>
      match s with
      | 34 :: r =>
          match scanstring r with
          | None => None
          | Some (k, r1) =>
              match skip_ws r1 with
              | 58 :: r2 =>
                  match scan_once n' (skip_ws r2) with
                  | None => None
                  | Some (v, r3) =>
                      match skip_ws r3 with
                      | 125 :: r4 => Some (JObj (dset acc k v), r4)
                      | 44 :: r4 => parse_members n' (skip_ws r4) (dset acc k v)
                      | _ => None
                      end
                  end
              | _ => None
              end
          end
      | _ => None
      end
  end
with parse_elems (n : nat) (s : pystr) (acc : list (json F)) {struct n}
  : option (json F * pystr) :=
  match n with
  | O => None
  | S n' =>
      match scan_once n' s with
      | None => None
      | Some (v, r3) =>
          match skip_ws r3 with
          | 93 :: r4 => Some (JArr (acc ++ [v]), r4)
          | 44 :: r4 => parse_elems n' (skip_ws r4) (acc ++ [v])
          | _ => None
          end
      end
  end.

(** [json.loads(s)]; each step of the scanner consumes input, so
    [length s + 1] steps never run out on any input. *)
Definition json_loads (s : pystr) : res (json F) :=
  match s with
  | 65279 :: _ => raise JSONDecodeError "Unexpected UTF-8 BOM"
  | _ =>
      match scan_once (S (List.length s)) (skip_ws s) with
      | None => raise JSONDecodeError "Expecting value"
      | Some (v, r) =>
          match skip_ws r with
          | [] => Ok v
          | _ => raise JSONDecodeError "Extra data"
          end
      end
  end.
End Loads.

(* ------------------------------------------------------------------ *)
(** ** The world: files, registries and the engineering activity log *)

(** One line of [artifact_registry.jsonl] or [inference_registry.jsonl]
    ([ArtifactRecord] / [InferenceArtifactRecord], same fields). *)
Record RegRecord := mkRec {
  r_artifact_id : pystr;
  r_kind : pystr;
  r_created_at_utc : pystr;
  r_sha256 : pystr;
  r_byte_size : Z;
  r_media_type : pystr;
  r_parent_artifact_ids : list pystr;
  r_notes : option pystr;
  r_tags : option (list pystr)
}.

(** The registries hold their records in file order; the file's bytes are
    the canonical lines of these records, so equal lists mean byte-identical
    registry files. *)
Record World := mkWorld {
  w_files : list (pystr * pystr); (* path -> text content, one entry per path *)
  w_dirs : list pystr;           (* directories created with mkdir *)
  w_art : list RegRecord;        (* .adam_os/artifacts/artifact_registry.jsonl *)
  w_inf : list RegRecord;        (* .adam_os/inference/inference_registry.jsonl *)
  w_log : list pystr             (* .adam_os/engineering/activity_log.jsonl *)
}.

Definition M (A : Type) : Type := World -> res A * World.

Definition retM {A} (a : A) : M A := fun w => (Ok a, w).
Definition bindM {A B} (c : M A) (k : A -> M B) : M B :=
  fun w => match c w with
           | (Ok a, w') => k a w'
           | (Exc e, w') => (Exc e, w')
           end.
Definition throw {A} (c : exn_class) (msg : pystr) : M A := fun w => (Exc (Exn c msg), w).
Definition liftR {A} (r : res A) : M A := fun w => (r, w).

Notation "'let*' x ':=' c1 'in' c2" := (bindM c1 (fun x => c2))
  (at level 200, x pattern, c1 at level 100, c2 at level 200).

(** [if not ok: raise cls(msg)] *)
Definition check (ok : bool) (c : exn_class) (msg : string) : M unit :=
  if ok then retM tt else throw c (cps msg).

(** What the model takes from the platform rather than from this
    repository: the SHA-256 digest ([hashlib.sha256(text.encode()).hexdigest()]),
    the Unicode tables behind [str.lower] and the regex class [\w] for
    code points outside ASCII, and the resolution of a [raw_path] argument. *)
Class Env := {
  sha256 : pystr -> pystr;
  u_lower : Z -> pystr;            (* [chr(c).lower()] for c >= 128 *)
  u_isalnum : Z -> bool;           (* [\w] minus ['_'] for c >= 128 *)
  within_raw_dir : pystr -> bool;  (* [_ensure_within_raw_dir] passes *)
  path_stem : pystr -> pystr;      (* [Path(p).stem] *)
  u_decimal : Z -> option Z        (* [unicodedata.decimal(chr(c))] for c >= 128 *)
}.

(** [str(Path(p) / name)].  Paths are plain strings: the file system is
    keyed by them, and [pathlib]'s normalisation (an absolute [name],
    repeated or trailing separators, ['.'] components) is not modelled. *)
Definition path_join (p name : pystr) : pystr := p ++ [47] ++ name.

(** UTF-8 length of a text: [Path.stat().st_size] after [write_text]. *)
Definition utf8_len (s : pystr) : Z :=
  fold_right (fun c n => (if c <? 128 then 1 else if c <? 2048 then 2
                          else if c <? 65536 then 3 else 4) + n) 0 s.

Fixpoint fs_get (fs : list (pystr * pystr)) (p : pystr) : option pystr :=
  match fs with
  | [] => None
  | (q, s) :: fs' => if str_eqb q p then Some s else fs_get fs' p
  end.

Fixpoint fs_set (fs : list (pystr * pystr)) (p s : pystr) : list (pystr * pystr) :=
  match fs with
  | [] => [(p, s)]
  | (q, t) :: fs' => if str_eqb q p then (q, s) :: fs' else (q, t) :: fs_set fs' p s
  end.

(** A directory: created with [mkdir], or holding a file. *)
Definition is_dir (w : World) (p : pystr) : bool :=
  existsb (str_eqb p) (w_dirs w) || existsb (fun kv => prefixb (p ++ [47]) (fst kv)) (w_files w).

(** [Path.exists()]: a file or a directory. *)
Definition path_exists (w : World) (p : pystr) : bool :=
  match fs_get (w_files w) p with Some _ => true | None => is_dir w p end.

Definition file_exists (p : pystr) : M bool := fun w => (Ok (path_exists w p), w).

Definition read_text (p : pystr) : M pystr :=
  fun w => match fs_get (w_files w) p with
           | Some s => (Ok s, w)
           | None =>
               if is_dir w p
               then (Exc (Exn IsADirectoryError (cps "[Errno 21] Is a directory: '" ++ p ++ cps "'")), w)
               else (Exc (Exn FileNotFoundError
                              (cps "[Errno 2] No such file or directory: '" ++ p ++ cps "'")), w)
           end.

(** [Path.write_text(s)] (every tool creates the parent directory first). *)
Definition write_text (p s : pystr) : M unit :=
  fun w => if is_dir w p
           then (Exc (Exn IsADirectoryError (cps "[Errno 21] Is a directory: '" ++ p ++ cps "'")), w)
           else (Ok tt, mkWorld (fs_set (w_files w) p s) (w_dirs w) (w_art w) (w_inf w) (w_log w)).

(** [Path.unlink()] on an existing file. *)
Fixpoint fs_del (fs : list (pystr * pystr)) (p : pystr) : list (pystr * pystr) :=
  match fs with
  | [] => []
  | (q, t) :: fs' => if str_eqb q p then fs' else (q, t) :: fs_del fs' p
  end.

Definition unlink (p : pystr) : M unit :=
  fun w => (Ok tt, mkWorld (fs_del (w_files w) p) (w_dirs w) (w_art w) (w_inf w) (w_log w)).

(** [Path.mkdir(parents=True, exist_ok=True)] *)
Definition mkdir (p : pystr) : M unit :=
  fun w => (Ok tt, mkWorld (w_files w) (if existsb (str_eqb p) (w_dirs w) then w_dirs w else p :: w_dirs w)
                           (w_art w) (w_inf w) (w_log w)).

Section Store.
Context {F : Type} `{FloatModel F} `{Env}.

(** [sha256_file] / [sha256_hex]: the digest of the UTF-8 bytes. *)
Definition sha256_file (p : pystr) : M pystr :=
  let* s := read_text p in retM (sha256 s).

Definition file_size_bytes (p : pystr) : M Z :=
  let* s := read_text p in retM (utf8_len s).

Definition jstrs (l : list pystr) : json F := JArr (map JStr l).

(** [ArtifactRecord.to_dict] *)
Definition rec_to_dict (r : RegRecord) : json F :=
  JObj ([(cps "artifact_id", JStr (r_artifact_id r));
         (cps "kind", JStr (r_kind r));
         (cps "created_at_utc", JStr (r_created_at_utc r));
         (cps "sha256", JStr (r_sha256 r));
         (cps "byte_size", JInt (r_byte_size r));
         (cps "media_type", JStr (r_media_type r));
         (cps "parent_artifact_ids", jstrs (r_parent_artifact_ids r))]
        ++ match r_notes r with Some n => [(cps "notes", JStr n)] | None => [] end
        ++ match r_tags r with Some t => [(cps "tags", jstrs t)] | None => [] end).

(** The registry line of a record (without its newline). *)
Definition rec_line (r : RegRecord) : pystr :=
  match canonical_dumps (rec_to_dict r) with Ok s => s | Exc _ => [] end.

(** [_registry_has]: a substring search on each registry line. *)
Definition registry_has (reg : list RegRecord) (artifact_id kind : pystr) : bool :=
  let needle_id := [34] ++ cps "artifact_id" ++ [34; 58; 34] ++ artifact_id ++ [34] in
  let needle_kind := [34] ++ cps "kind" ++ [34; 58; 34] ++ kind ++ [34] in
  existsb (fun r => infixb needle_id (rec_line r) && infixb needle_kind (rec_line r)) reg.
End Store.

Definition ART_ALLOWED_KINDS : list pystr :=
  map cps ["RAW"; "SANITIZED"; "BUNDLE_MANIFEST"; "BUILD_SPEC"; "WORK_ORDER"; "SNAPSHOT_ARCHIVE"]%string.

Definition INF_ALLOWED_KINDS : list pystr :=
  map cps ["INFERENCE_REQUEST"; "INFERENCE_RESPONSE"; "INFERENCE_ERROR"; "INFERENCE_RECEIPT"]%string.

(** [ArtifactRecord.validate] / [InferenceArtifactRecord.validate]. *)
Definition validate_record (allowed : list pystr) (kinds_msg : string) (r : RegRecord) : res unit :=
  if negb (match r_artifact_id r with [] => false | _ => true end)
  then raise ValueError "artifact_id must be a non-empty string"
  else if negb (existsb (str_eqb (r_kind r)) allowed)
  then raise ValueError kinds_msg
  else if negb (match r_created_at_utc r with [] => false | _ => true end)
  then raise ValueError "created_at_utc must be a non-empty injected string"
  else if negb (Nat.eqb (List.length (r_sha256 r)) 64)
  then raise ValueError "sha256 must be a 64-char hex string"
  else if r_byte_size r <? 0
  then raise ValueError "byte_size must be a non-negative int"
  else if negb (match r_media_type r with [] => false | _ => true end)
  then raise ValueError "media_type must be a non-empty string"
  else if negb (forallb (fun p => match p with [] => false | _ => true end) (r_parent_artifact_ids r))
  then raise ValueError "parent_artifact_ids entries must be non-empty strings"
  else if negb (match r_tags r with
                | Some t => forallb (fun p => match p with [] => false | _ => true end) t
                | None => true end)
  then raise ValueError "tags entries must be non-empty strings"
  else Ok tt.

Inductive which_registry := ArtifactReg | InferenceReg.

Definition reg_of (which : which_registry) (w : World) : list RegRecord :=
  match which with ArtifactReg => w_art w | InferenceReg => w_inf w end.

Definition allowed_of (which : which_registry) : list pystr :=
  match which with ArtifactReg => ART_ALLOWED_KINDS | InferenceReg => INF_ALLOWED_KINDS end.

(** [f"kind must be one of {sorted(ALLOWED_KINDS)}"] *)
Definition kinds_msg_of (which : which_registry) : string :=
  match which with
  | ArtifactReg => "kind must be one of ['BUILD_SPEC', 'BUNDLE_MANIFEST', 'RAW', 'SANITIZED', 'SNAPSHOT_ARCHIVE', 'WORK_ORDER']"
  | InferenceReg => "kind must be one of ['INFERENCE_ERROR', 'INFERENCE_RECEIPT', 'INFERENCE_REQUEST', 'INFERENCE_RESPONSE']"
  end.

(** The registry's root directory ([ensure_dirs]). *)
Definition root_of (which : which_registry) : pystr :=
  match which with ArtifactReg => cps ".adam_os/artifacts" | InferenceReg => cps ".adam_os/inference" end.

(** [registry.append(record)]: validate, [ensure_dirs], then append one line. *)
Definition push_record (which : which_registry) (r : RegRecord) : M unit :=
  fun w => (Ok tt, match which with
                | ArtifactReg => mkWorld (w_files w) (w_dirs w) (w_art w ++ [r]) (w_inf w) (w_log w)
                | InferenceReg => mkWorld (w_files w) (w_dirs w) (w_art w) (w_inf w ++ [r]) (w_log w)
                end).

Definition reg_append (which : which_registry) (r : RegRecord) : M unit :=
  let* _ := liftR (validate_record (allowed_of which) (kinds_msg_of which) r) in
  let* _ := mkdir (root_of which) in
  push_record which r.

Definition reg_has {F} `{FloatModel F} (which : which_registry) (id kind : pystr) : M bool :=
  fun w => (Ok (registry_has (F:=F) (reg_of which w) id kind), w).

Section AppendFromFile.
Context `{Env}.

(** [registry.append_from_file(...)] *)
Definition append_from_file (which : which_registry) (artifact_id kind created_at_utc file_path
    media_type : pystr) (parents : list pystr) (notes : pystr) (tags : list pystr) : M unit :=
  let* sha := sha256_file file_path in
  let* size := file_size_bytes file_path in
  reg_append which (mkRec artifact_id kind created_at_utc sha size media_type parents
                          (Some notes) (Some tags)).
End AppendFromFile.

(** A [str] field of a JSON dictionary. *)
Definition as_str {F} (v : json F) : pystr := match v with JStr s => s | _ => [] end.

(** [tool_input.get(k) or default] *)
Definition get_or {F} `{FloatModel F} (d : list (pystr * json F)) (k : string) (dflt : json F) : json F :=
  let v := dget d (cps k) in if truthy v then v else dflt.

Definition JS {F} (s : string) : json F := JStr (cps s).

(** [d.get(k)] with a literal key. *)
Definition dg {F} (d : list (pystr * json F)) (k : string) : json F := dget d (cps k).

(* ------------------------------------------------------------------ *)
(** ** [log_tool_execution] and [append_engineering_event] *)

Section ActivityLog.
Context {F : Type} `{FloatModel F}.

Definition ACTIVITY_LOG_DIR : pystr := cps ".adam_os/engineering".

(** [_validate_event] on an event built by [log_tool_execution] (the
    three required keys are always present). *)
Definition validate_event (ev : list (pystr * json F)) : res unit :=
  if negb (is_nonblank_str (dget ev (cps "created_at_utc")))
  then raise EngineeringLogValidationError "created_at_utc must be a non-empty string"
  else if negb (is_nonblank_str (dget ev (cps "event_type")))
  then raise EngineeringLogValidationError "event_type must be a non-empty string"
  else if negb (is_nonblank_str (dget ev (cps "status")))
  then raise EngineeringLogValidationError "status must be a non-empty string"
  else Ok tt.

Definition append_log_line (line : pystr) : M unit :=
  fun w => (Ok tt, mkWorld (w_files w) (w_dirs w) (w_art w) (w_inf w) (w_log w ++ [line])).

(** [append_engineering_event(event)] *)
Definition append_engineering_event (ev : list (pystr * json F)) : M unit :=
  let* _ := liftR (validate_event ev) in
  let* _ := mkdir ACTIVITY_LOG_DIR in
  let* line := liftR (json_dumps true (JObj ev)) in
  append_log_line (line ++ [10]).

Definition opt_item (k : string) (v : option pystr) : list (pystr * json F) :=
  match v with Some x => [(cps k, JStr x)] | None => [] end.

(** [log_tool_execution(...)]: the optional ids, then [extra] merged with
    [event[k] = v]. *)
Definition log_tool_execution (created_at_utc tool_name status : pystr)
    (request_id artifact_id error_id : option pystr) (extra : list (pystr * json F)) : M unit :=
  let base := [(cps "created_at_utc", JStr created_at_utc); (cps "event_type", JS "tool_execute");
               (cps "tool_name", JStr tool_name); (cps "status", JStr status)]
              ++ opt_item "request_id" request_id ++ opt_item "artifact_id" artifact_id
              ++ opt_item "error_id" error_id in
  let ev := fold_left (fun e kv => dset e (fst kv) (snd kv)) extra base in
  append_engineering_event ev.

(** The [try: log_tool_execution(...) except Exception: pass] of the
    error paths: the log line is written when it can be. *)
Definition best_effort (c : M unit) : M unit :=
  fun w => match c w with (Ok _, w') => (Ok tt, w') | (Exc _, w') => (Ok tt, w') end.
End ActivityLog.

(* ------------------------------------------------------------------ *)
(** ** [artifact.sanitize] *)

Section Sanitize.
Context `{Env}.

(** [re.sub(r"\s+", " ", s)]: [\s] is [str.isspace]. *)
Fixpoint collapse_runs (in_ws : bool) (s : pystr) : pystr :=
  match s with
  | [] => []
  | c :: r => if isspace c then (if in_ws then collapse_runs true r else 32 :: collapse_runs true r)
              else c :: collapse_runs false r
  end.

Definition _collapse_ws (s : pystr) : pystr := strip (collapse_runs false s).

(** [text.replace("\r\n", "\n").replace("\r", "\n")] *)
Fixpoint norm_nl (s : pystr) : pystr :=
  match s with
  | [] => []
  | c :: r =>
      if c =? 13 then
        match r with
        | d :: r' => if d =? 10 then 10 :: norm_nl r' else 10 :: norm_nl r
        | [] => [10]
        end
      else c :: norm_nl r
  end.

(** [s.split(sep)] for a one-character separator. *)
Fixpoint split_on (sep : Z) (s : pystr) (cur : pystr) : list pystr :=
  match s with
  | [] => [rev cur]
  | c :: r => if c =? sep then rev cur :: split_on sep r [] else split_on sep r (c :: cur)
  end.

Definition is_punct (c : Z) : bool := (c =? 46) || (c =? 33) || (c =? 63).

(** [re.split(r"(?<=[\.\!\?])\s+", line)]: a maximal run of white space
    right after ['.'], ['!'] or ['?'] separates two parts.  [pp]: the
    previous character is one of them; [sk]: inside a separating run. *)
Fixpoint split_sent (s : pystr) (cur : pystr) (pp sk : bool) : list pystr :=
  match s with
  | [] => [rev cur]
  | c :: r =>
      if sk && isspace c then split_sent r cur false true
      else if pp && isspace c then rev cur :: split_sent r [] false true
      else split_sent r (c :: cur) (is_punct c) false
  end.

Definition _split_statements (text : pystr) : list pystr :=
  match text with
  | [] => []
  | _ =>
      flat_map (fun line0 =>
                  let line := strip line0 in
                  match line with
                  | [] => []
                  | _ => flat_map (fun p => match _collapse_ws p with [] => [] | q => [q] end)
                                  (split_sent line [] false false)
                  end)
               (split_on 10 (norm_nl text) [])
  end.

(** [str.lower()], character by character (the final-sigma rule only
    chooses between two non-ASCII letters). *)
Definition lower_char (c : Z) : pystr :=
  if (65 <=? c) && (c <=? 90) then [c + 32] else if c <? 128 then [c] else u_lower c.

Definition lower (s : pystr) : pystr := flat_map lower_char s.

(** A pattern letter [lc] under [re.IGNORECASE]: the characters whose
    simple lower case is [lc], and sre's extra equivalents
    (U+0131 for i, U+017F for s). *)
Definition ci_match (lc c : Z) : bool :=
  (c =? lc) || (c =? lc - 32)
  || ((lc =? 105) && ((c =? 304) || (c =? 305)))
  || ((lc =? 115) && (c =? 383))
  || ((lc =? 107) && (c =? 8490)).

(** [\w] *)
Definition is_word (c : Z) : bool :=
  ((48 <=? c) && (c <=? 57)) || ((65 <=? c) && (c <=? 90)) || ((97 <=? c) && (c <=? 122))
  || (c =? 95) || ((128 <=? c) && u_isalnum c).

Fixpoint ci_prefix (p s : pystr) : option pystr :=
  match p, s with
  | [], _ => Some s
  | a :: p', c :: s' => if ci_match a c then ci_prefix p' s' else None
  | _ :: _, [] => None
  end.

Definition Q_WORDS : list pystr :=
  map cps ["what"; "why"; "how"; "when"; "where"; "who"; "which"; "can"; "could"; "should";
           "would"; "do"; "does"; "did"; "is"; "are"; "am"; "may"; "might"]%string.

(** [_Q_START.match(s)]: some alternative matches at the start and is
    followed by a word boundary. *)
Definition q_start (s : pystr) : bool :=
  existsb (fun w => match ci_prefix w s with
                    | Some [] => true
                    | Some (c :: _) => negb (is_word c)
                    | None => false
                    end) Q_WORDS.

Definition ASSUMPTION_MARKERS : list pystr :=
  map cps ["assume"; "assumption"; "probably"; "likely"; "unlikely"; "maybe"; "might"; "i think";
           "we think"; "it seems"; "seems"; "estimate"; "guess"; "roughly"; "approximately";
           "perhaps"]%string.

Definition _classify (stmt : pystr) : pystr :=
  let s := strip stmt in
  if endswithb [63] s || q_start s then cps "QUESTION"
  else let s_lower := lower s in
       if existsb (fun m => infixb m s_lower) ASSUMPTION_MARKERS then cps "ASSUMPTION"
       else cps "SOURCE-BASED".
End Sanitize.

Section SanitizeTool.
Context {F : Type} `{FloatModel F} `{Env}.

(** [res]-valued [map] over a list, stopping at the first exception. *)
Fixpoint map_res {A B} (f : A -> res B) (l : list A) : res (list B) :=
  match l with
  | [] => Ok []
  | a :: l' => match f a with
               | Exc e => Exc e
               | Ok b => match map_res f l' with Ok bs => Ok (b :: bs) | Exc e => Exc e end
               end
  end.

Definition _to_jsonl (statements : list pystr) : res pystr :=
  match map_res (fun stmt => canonical_dumps (F:=F)
                   (JObj [(cps "type", JStr (_classify stmt)); (cps "text", JStr stmt)]))
                statements with
  | Exc e => Exc e
  | Ok [] => Ok []
  | Ok lines => Ok (join [10] lines ++ [10])
  end.

Definition ARTIFACT_ROOT : pystr := cps ".adam_os/artifacts".
Definition RAW_DIR : pystr := path_join ARTIFACT_ROOT (cps "raw").
Definition SANITIZED_DIR : pystr := path_join ARTIFACT_ROOT (cps "sanitized").
Definition ART_REGISTRY_PATH : pystr := path_join ARTIFACT_ROOT (cps "artifact_registry.jsonl").

(** [_resolve_raw(tool_input)]: [(raw_id, raw_path)]. *)
Definition _resolve_raw (d : list (pystr * json F)) : res (pystr * pystr) :=
  match dget d (cps "raw_artifact_id") with
  | JNull =>
      match dget d (cps "raw_path") with
      | JNull => raise ValueError "must provide tool_input.raw_artifact_id or tool_input.raw_path"
      | v =>
          if negb (is_nonblank_str v)
          then raise ValueError "tool_input.raw_path must be a non-empty string if provided"
          else if negb (within_raw_dir (as_str v))
          then raise ValueError "raw_path must be within .adam_os/artifacts/raw/"
          else match path_stem (as_str v) with
               | [] => raise ValueError "raw_path must have a filename stem usable as raw_artifact_id"
               | rid => Ok (rid, as_str v)
               end
      end
  | v =>
      if negb (is_nonblank_str v)
      then raise ValueError "tool_input.raw_artifact_id must be a non-empty string if provided"
      else let rid := strip (as_str v) in Ok (rid, path_join RAW_DIR (rid ++ cps ".txt"))
  end.

Definition sanitize_descriptor (sanitized_id raw_id raw_path sanitized_path sha : pystr)
    (size : Z) (media_type : json F) : json F :=
  JObj [(cps "artifact_id", JStr sanitized_id); (cps "kind", JS "SANITIZED");
        (cps "raw_artifact_id", JStr raw_id); (cps "raw_path", JStr raw_path);
        (cps "sanitized_path", JStr sanitized_path); (cps "registry_path", JStr ART_REGISTRY_PATH);
        (cps "sha256", JStr sha); (cps "byte_size", JInt size); (cps "media_type", media_type)].

(** What [artifact_sanitize] has computed when it reaches the idempotency
    gate. *)
Record SanitizePrep := {
  sp_created_at_utc : pystr;
  sp_media_type : json F;
  sp_raw_id : pystr;
  sp_raw_path : pystr;
  sp_sanitized_id : pystr;
  sp_sanitized_path : pystr
}.

(** Everything before the idempotency gate. *)
Definition sanitize_prepare (tool_input : json F) : M SanitizePrep :=
  match tool_input with
  | JObj d =>
      let created_at_utc := dget d (cps "created_at_utc") in
      let* _ := check (is_nonblank_str created_at_utc) ValueError
                  "tool_input.created_at_utc must be a non-empty injected string" in
      let media_type := get_or d "media_type" (JS "application/jsonl") in
      let* _ := check (is_nonblank_str media_type) ValueError
                  "tool_input.media_type must be a non-empty string" in
      let* rr := liftR (_resolve_raw d) in
      let (raw_id, raw_path) := rr in
      let* ex := file_exists raw_path in
      let* _ := if ex then retM tt
                else throw FileNotFoundError (cps "RAW artifact not found at: " ++ raw_path) in
      let sid := get_or d "sanitized_artifact_id" (JStr (raw_id ++ cps "--sanitized")) in
      let* _ := check (is_nonblank_str sid) ValueError
                  "tool_input.sanitized_artifact_id must be a non-empty string if provided" in
      let sanitized_id := strip (as_str sid) in
      let* _ := mkdir SANITIZED_DIR in
      retM {| sp_created_at_utc := as_str created_at_utc; sp_media_type := media_type;
              sp_raw_id := raw_id; sp_raw_path := raw_path; sp_sanitized_id := sanitized_id;
              sp_sanitized_path := path_join SANITIZED_DIR (sanitized_id ++ cps ".jsonl") |}
  | _ => throw TypeError (cps "tool_input must be dict")
  end.

(** [sanitized_path.exists() and _registry_has(...)] *)
Definition sanitize_gate (p : SanitizePrep) : M bool :=
  let* ex := file_exists (sp_sanitized_path p) in
  if ex then reg_has (F:=F) ArtifactReg (sp_sanitized_id p) (cps "SANITIZED") else retM false.

Definition sanitize_idempotent (p : SanitizePrep) : M (json F) :=
  let* sha := sha256_file (sp_sanitized_path p) in
  let* size := file_size_bytes (sp_sanitized_path p) in
  retM (sanitize_descriptor (sp_sanitized_id p) (sp_raw_id p) (sp_raw_path p)
          (sp_sanitized_path p) sha size (sp_media_type p)).

Definition sanitize_fresh (p : SanitizePrep) : M (json F) :=
  let* raw_text := read_text (sp_raw_path p) in
  let* sanitized_text := liftR (_to_jsonl (_split_statements raw_text)) in
  let* _ := write_text (sp_sanitized_path p) sanitized_text in
  let* sha := sha256_file (sp_sanitized_path p) in
  let* size := file_size_bytes (sp_sanitized_path p) in
  let* _ := append_from_file ArtifactReg (sp_sanitized_id p) (cps "SANITIZED")
              (sp_created_at_utc p) (sp_sanitized_path p) (as_str (sp_media_type p))
              [sp_raw_id p] (cps "artifact.sanitize") (map cps ["phase7"; "sanitized"]%string) in
  retM (sanitize_descriptor (sp_sanitized_id p) (sp_raw_id p) (sp_raw_path p)
          (sp_sanitized_path p) sha size (sp_media_type p)).

Definition artifact_sanitize (tool_input : json F) : M (json F) :=
  let* p := sanitize_prepare tool_input in
  let* g := sanitize_gate p in
  if g then sanitize_idempotent p else sanitize_fresh p.
End SanitizeTool.

(** [try: body except Exception as e: <handler>; raise]: the handler's
    effects stay, the exception is re-raised. *)
Definition on_error {A} (handler : exn -> M unit) (body : M A) : M A :=
  fun w => match body w with
           | (Exc e, w') => (Exc e, snd (handler e w'))
           | r => r
           end.

(* ------------------------------------------------------------------ *)
(** ** [artifact.canon_select] *)

Section CanonSelect.
Context {F : Type} `{FloatModel F} `{Env}.

Definition BUNDLES_DIR : pystr := path_join ARTIFACT_ROOT (cps "bundles").

(** Iterating a text file opened with universal newlines, each line
    stripped, blank lines skipped. *)
Definition text_lines (text : pystr) : list pystr :=
  filter (fun l => match l with [] => false | _ => true end)
         (map strip (split_on 10 (norm_nl text) [])).

(** [_load_sanitized(path)] on the file's text: [(type, text)] pairs. *)
Definition load_sanitized_text (text : pystr) : res (list (pystr * pystr)) :=
  map_res (fun line =>
             match json_loads (F:=F) line with
             | Exc e => Exc e
             | Ok (JObj o) =>
                 let t := dget o (cps "type") in
                 let txt := dget o (cps "text") in
                 if negb (is_nonblank_str t) then raise ValueError "sanitized line missing non-empty 'type'"
                 else if negb (is_nonblank_str txt) then raise ValueError "sanitized line missing non-empty 'text'"
                 else Ok (as_str t, as_str txt)
             | Ok _ => raise ValueError "sanitized JSONL must contain JSON objects per line"
             end) (text_lines text).

Definition _load_sanitized (path : pystr) : M (list (pystr * pystr)) :=
  let* text := read_text path in liftR (load_sanitized_text text).

(** The canon text written for the loaded items. *)
Definition canon_text_of (items : list (pystr * pystr)) : res pystr :=
  let selected := filter (fun it => str_eqb (fst it) (cps "SOURCE-BASED")) items in
  match map_res (fun it => canonical_dumps (F:=F)
                   (JObj [(cps "type", JS "SOURCE-BASED"); (cps "text", JStr (snd it))])) selected with
  | Exc e => Exc e
  | Ok [] => Ok []
  | Ok lines => Ok (join [10] lines ++ [10])
  end.

Record CanonPrep := {
  cp_created_at_utc : pystr;
  cp_media_type : json F;
  cp_sanitized_id : pystr;
  cp_sanitized_path : pystr;
  cp_canon_id : pystr;
  cp_canon_path : pystr
}.

Definition canon_descriptor (p : CanonPrep) (sha : pystr) (size : Z) : json F :=
  JObj [(cps "artifact_id", JStr (cp_canon_id p)); (cps "kind", JS "BUNDLE_MANIFEST");
        (cps "sanitized_artifact_id", JStr (cp_sanitized_id p));
        (cps "sanitized_path", JStr (cp_sanitized_path p));
        (cps "canon_path", JStr (cp_canon_path p)); (cps "registry_path", JStr ART_REGISTRY_PATH);
        (cps "sha256", JStr sha); (cps "byte_size", JInt size); (cps "media_type", cp_media_type p)].

(** The part of the [try] block before [canon_id] is bound. *)
Definition canon_prepare (created_at_utc : pystr) (d : list (pystr * json F)) : M CanonPrep :=
  let media_type := get_or d "media_type" (JS "application/jsonl") in
  let* _ := check (is_nonblank_str media_type) ValueError
              "tool_input.media_type must be a non-empty string" in
  let sa := dget d (cps "sanitized_artifact_id") in
  let* _ := check (is_nonblank_str sa) ValueError
              "tool_input.sanitized_artifact_id must be a non-empty string" in
  let sanitized_id := strip (as_str sa) in
  let sanitized_path := path_join SANITIZED_DIR (sanitized_id ++ cps ".jsonl") in
  let* ex := file_exists sanitized_path in
  let* _ := if ex then retM tt
            else throw FileNotFoundError (cps "SANITIZED artifact not found at: " ++ sanitized_path) in
  let ca := get_or d "canon_artifact_id" (JStr (sanitized_id ++ cps "--canon")) in
  let* _ := check (is_nonblank_str ca) ValueError
              "tool_input.canon_artifact_id must be a non-empty string if provided" in
  let canon_id := strip (as_str ca) in
  retM {| cp_created_at_utc := created_at_utc; cp_media_type := media_type;
          cp_sanitized_id := sanitized_id; cp_sanitized_path := sanitized_path;
          cp_canon_id := canon_id;
          cp_canon_path := path_join BUNDLES_DIR (canon_id ++ cps ".jsonl") |}.

Definition canon_log (p : CanonPrep) (status : string) : M unit :=
  log_tool_execution (cp_created_at_utc p) (cps "artifact.canon_select") (cps status) None
    (Some (cp_canon_id p)) None
    [(cps "kind", JS "BUNDLE_MANIFEST"); (cps "media_type", cp_media_type p)].

Definition canon_gate (p : CanonPrep) : M bool :=
  let* ex := file_exists (cp_canon_path p) in
  if ex then reg_has (F:=F) ArtifactReg (cp_canon_id p) (cps "BUNDLE_MANIFEST") else retM false.

Definition canon_idempotent (p : CanonPrep) : M (json F) :=
  let* sha := sha256_file (cp_canon_path p) in
  let* size := file_size_bytes (cp_canon_path p) in
  let* _ := canon_log p "idempotent" in
  retM (canon_descriptor p sha size).

Definition canon_fresh (p : CanonPrep) : M (json F) :=
  let* items := _load_sanitized (cp_sanitized_path p) in
  let* canon_text := liftR (canon_text_of items) in
  let* _ := write_text (cp_canon_path p) canon_text in
  let* sha := sha256_file (cp_canon_path p) in
  let* size := file_size_bytes (cp_canon_path p) in
  let* _ := append_from_file ArtifactReg (cp_canon_id p) (cps "BUNDLE_MANIFEST")
              (cp_created_at_utc p) (cp_canon_path p) (as_str (cp_media_type p))
              [cp_sanitized_id p] (cps "artifact.canon_select")
              (map cps ["phase7"; "canon"; "bundle_manifest"]%string) in
  let* _ := canon_log p "success" in
  retM (canon_descriptor p sha size).

Definition canon_error_log (created_at_utc : pystr) (canon_id : option pystr) (e : exn) : M unit :=
  best_effort (log_tool_execution created_at_utc (cps "artifact.canon_select") (cps "error") None
                 canon_id None [(cps "error_type", JS (exn_name (exn_cls e)));
                                (cps "error_message", JStr (exn_msg e))]).

Definition artifact_canon_select (tool_input : json F) : M (json F) :=
  match tool_input with
  | JObj d =>
      let created_at_utc := dget d (cps "created_at_utc") in
      let* _ := check (is_nonblank_str created_at_utc) ValueError
                  "tool_input.created_at_utc must be a non-empty injected string" in
      let ca := as_str created_at_utc in
      let* p := on_error (canon_error_log ca None) (canon_prepare ca d) in
      on_error (canon_error_log ca (Some (cp_canon_id p)))
        (let* _ := mkdir BUNDLES_DIR in
         let* g := canon_gate p in
         if g then canon_idempotent p else canon_fresh p)
  | _ => throw TypeError (cps "tool_input must be dict")
  end.
End CanonSelect.

(* ------------------------------------------------------------------ *)
(** ** [_is_hex64]: [len(s) == 64] and [int(s, 16)] succeeds *)

Section Hex64.
Context `{Env}.

(** [_PyUnicode_TransformDecimalAndSpaceToASCII]: non-ASCII white space
    becomes [' '], non-ASCII decimal digits their ASCII digit, anything
    else non-ASCII ['?']. *)
Definition int_transform (c : Z) : Z :=
  if c <? 128 then c
  else if isspace c then 32
  else match u_decimal c with Some d => 48 + d | None => 63 end.

(** [Py_ISSPACE] on ASCII. *)
Definition c_isspace (c : Z) : bool :=
  (c =? 32) || ((9 <=? c) && (c <=? 13)).

Fixpoint skip_c_space (s : pystr) : pystr :=
  match s with c :: r => if c_isspace c then skip_c_space r else s | [] => [] end.

Definition is_hexdigit (c : Z) : bool :=
  ((48 <=? c) && (c <=? 57)) || ((97 <=? c) && (c <=? 102)) || ((65 <=? c) && (c <=? 70)).

(** The digit loop of [long_from_string_base]: digits and single
    underscores; returns the number of digits, the last character read
    and the rest. *)
Fixpoint digit_run (s : pystr) (prev : Z) (n : nat) : option (nat * Z * pystr) :=
  match s with
  | c :: r =>
      if c =? 95 then (if prev =? 95 then None else digit_run r 95 n)
      else if is_hexdigit c then digit_run r c (S n)
      else Some (n, prev, s)
  | [] => Some (n, prev, [])
  end.

(** [PyLong_FromString(s, 16)] succeeds on the transformed text. *)
Definition int16_ok (s0 : pystr) : bool :=
  let s1 := skip_c_space (map int_transform s0) in
  let s2 := match s1 with c :: r => if (c =? 43) || (c =? 45) then r else s1 | [] => [] end in
  let s3 := match s2 with
            | c :: d :: r => if (c =? 48) && ((d =? 120) || (d =? 88))
                             then match r with u :: r' => if u =? 95 then r' else r | [] => [] end
                             else s2
            | _ => s2
            end in
  match s3 with
  | c :: _ => if c =? 95 then false else
      match digit_run s3 0 O with
      | Some (S _, prev, rest) => negb (prev =? 95) && match skip_c_space rest with [] => true | _ => false end
      | _ => false
      end
  | [] => false
  end.

Definition _is_hex64 (s : pystr) : bool := Nat.eqb (List.length s) 64 && int16_ok s.
End Hex64.

(* ------------------------------------------------------------------ *)
(** ** [enforce_policy_gate] and [build_inference_request] *)

Definition OPENAI_ALLOWED_MODELS : list pystr := map cps ["gpt-4o"; "gpt-4.1"; "gpt-4.1-mini"]%string.
Definition ANTHROPIC_ALLOWED_MODELS : list pystr :=
  map cps ["claude-3-opus"; "claude-3-sonnet"; "claude-3-haiku"]%string.

Definition mem_str (x : pystr) (l : list pystr) : bool := existsb (str_eqb x) l.

Section Policy.
Context {F : Type} `{FloatModel F}.

(** The result of the gate: provider, model, temperature, max_tokens and
    the cap. *)
Record Policy := { pol_provider : pystr; pol_model : pystr; pol_temperature : F;
                   pol_max_tokens : Z; pol_cap : Z }.

Definition enforce_policy_gate (provider model : pystr) (t : F) (max_tokens cap : Z) : res Policy :=
  if negb (mem_str provider (map cps ["openai"; "anthropic"]%string))
  then raise ValueError "policy_reject: provider must be 'openai' or 'anthropic'"
  else
    let allowed := if str_eqb provider (cps "openai") then OPENAI_ALLOWED_MODELS
                   else ANTHROPIC_ALLOWED_MODELS in
    if negb (mem_str model allowed)
    then raise ValueError "policy_reject: model not allowlisted by SPEC-008D"
    else if f_ltb t f_zero || f_ltb f_one t
    then raise ValueError "policy_reject: temperature out of bounds [0.0, 1.0]"
    else if max_tokens <=? 0
    then raise ValueError "policy_reject: max_tokens must be a positive int"
    else if cap <=? 0
    then raise ValueError "policy_reject: provider_max_tokens_cap must be injected (positive int)"
    else if cap <? max_tokens
    then raise ValueError "policy_reject: max_tokens exceeds provider hard cap"
    else Ok {| pol_provider := provider; pol_model := model; pol_temperature := t;
               pol_max_tokens := max_tokens; pol_cap := cap |}.

(** [isinstance(x, (int, float))] and [isinstance(x, int)] ([bool] is an
    [int]). *)
Definition is_number (v : json F) : bool :=
  match v with JInt _ | JBool _ | JFloat _ => true | _ => false end.

Definition as_int (v : json F) : option Z :=
  match v with JInt z => Some z | JBool b => Some (if b then 1 else 0) | _ => None end.

(** [isinstance(x, int) and x > 0] *)
Definition is_pos_int (v : json F) : bool :=
  match as_int v with Some z => 0 <? z | None => false end.

(** [float(x)] on a number. *)
Definition to_float (v : json F) : res F :=
  match v with
  | JFloat f => Ok f
  | _ => match f_of_Z (match as_int v with Some z => z | None => 0 end) with
         | Some f => Ok f
         | None => raise OverflowError "int too large to convert to float"
         end
  end.
End Policy.

Section BuildRequest.
Context {F : Type} `{FloatModel F} `{Env}.

(** The payload before the hash fields are added. *)
Definition request_payload (created_at_utc snapshot_hash : pystr) (pol : Policy (F:=F))
    (system_prompt user_prompt : pystr) : list (pystr * json F) :=
  [(cps "kind", JS "inference.request");
   (cps "created_at_utc", JStr created_at_utc);
   (cps "snapshot_hash", JStr snapshot_hash);
   (cps "provider", JStr (pol_provider pol));
   (cps "model", JStr (pol_model pol));
   (cps "params", JObj [(cps "temperature", JFloat (pol_temperature pol));
                        (cps "max_tokens", JInt (pol_max_tokens pol))]);
   (cps "prompts", JObj [(cps "system_prompt", JStr system_prompt);
                         (cps "user_prompt", JStr user_prompt)])].

(** [sha256_hex(canonical_dumps(obj))] *)
Definition hash_of (obj : json F) : res pystr :=
  match canonical_dumps obj with Ok s => Ok (sha256 s) | Exc e => Exc e end.

(** The field validation of [build_inference_request], up to the policy
    gate's arguments. *)
Record ReqFields := {
  rf_created_at_utc : pystr; rf_snapshot_hash : pystr; rf_provider : pystr; rf_model : pystr;
  rf_system_prompt : pystr; rf_user_prompt : pystr; rf_temperature : json F;
  rf_max_tokens : Z; rf_cap : Z; rf_request_id : option pystr
}.

Definition validate_request_fields (tool_input : json F) : res ReqFields :=
  match tool_input with
  | JObj d =>
      if negb (is_nonblank_str (dg d "created_at_utc"))
      then raise ValueError "tool_input.created_at_utc must be injected"
      else if negb (match dg d "snapshot_hash" with JStr h => _is_hex64 h | _ => false end)
      then raise ValueError "tool_input.snapshot_hash must be a 64-hex string"
      else if negb (is_nonblank_str (dg d "provider"))
      then raise ValueError "tool_input.provider must be a non-empty string"
      else if negb (is_nonblank_str (dg d "model"))
      then raise ValueError "tool_input.model must be a non-empty string (no aliases)"
      else if negb (match dg d "system_prompt" with JStr _ => true | _ => false end)
      then raise ValueError "tool_input.system_prompt must be a string (can be empty)"
      else if negb (is_nonblank_str (dg d "user_prompt"))
      then raise ValueError "tool_input.user_prompt must be a non-empty string"
      else if negb (is_number (dg d "temperature"))
      then raise ValueError "tool_input.temperature must be a number"
      else if negb (is_pos_int (dg d "max_tokens"))
      then raise ValueError "tool_input.max_tokens must be a positive int"
      else if negb (is_pos_int (dg d "provider_max_tokens_cap"))
      then raise ValueError "tool_input.provider_max_tokens_cap must be injected (positive int)"
      else match match dg d "request_id" with
                 | JNull => Ok None
                 | v => if is_nonblank_str v then Ok (Some (as_str v))
                        else raise ValueError "tool_input.request_id must be a non-empty string if provided"
                 end with
      | Exc e => Exc e
      | Ok rid =>
      Ok {| rf_created_at_utc := as_str (dg d "created_at_utc");
            rf_snapshot_hash := as_str (dg d "snapshot_hash");
            rf_provider := as_str (dg d "provider"); rf_model := as_str (dg d "model");
            rf_system_prompt := as_str (dg d "system_prompt"); rf_user_prompt := as_str (dg d "user_prompt");
            rf_temperature := dg d "temperature";
            rf_max_tokens := match as_int (dg d "max_tokens") with Some z => z | None => 0 end;
            rf_cap := match as_int (dg d "provider_max_tokens_cap") with Some z => z | None => 0 end;
            rf_request_id := rid |}
      end
  | _ => raise TypeError "tool_input must be dict"
  end.

(** [build_inference_request(tool_input)]: the returned dictionary. *)
Definition build_inference_request (tool_input : json F) : res (list (pystr * json F)) :=
  match validate_request_fields tool_input with
  | Exc e => Exc e
  | Ok rf =>
      match to_float (rf_temperature rf) with
      | Exc e => Exc e
      | Ok t =>
          match enforce_policy_gate (strip (rf_provider rf)) (strip (rf_model rf)) t
                  (rf_max_tokens rf) (rf_cap rf) with
          | Exc e => Exc e
          | Ok pol =>
              let req := request_payload (rf_created_at_utc rf) (rf_snapshot_hash rf) pol
                           (rf_system_prompt rf) (rf_user_prompt rf) in
              match hash_of (JObj req) with
              | Exc e => Exc e
              | Ok req_hash =>
                  let req := dset req (cps "request_hash") (JStr req_hash) in
                  Ok (dset req (cps "request_id")
                        (JStr (match rf_request_id rf with None => req_hash | Some r => strip r end)))
              end
          end
      end
  end.
End BuildRequest.

Definition throwE {A} (e : exn) : M A := fun w => (Exc e, w).

Definition INFERENCE_ROOT : pystr := cps ".adam_os/inference".
Definition INF_REGISTRY_PATH : pystr := path_join INFERENCE_ROOT (cps "inference_registry.jsonl").
Definition REQUESTS_DIR : pystr := path_join INFERENCE_ROOT (cps "requests").
Definition RESPONSES_DIR : pystr := path_join INFERENCE_ROOT (cps "responses").
Definition ERRORS_DIR : pystr := path_join INFERENCE_ROOT (cps "errors").
Definition RECEIPTS_DIR : pystr := path_join INFERENCE_ROOT (cps "receipts").

(* ------------------------------------------------------------------ *)
(** ** [inference.request_emit] *)

Section RequestEmit.
Context {F : Type} `{FloatModel F} `{Env}.

Record ReqPrep := {
  rp_req : list (pystr * json F);
  rp_created_at_utc : pystr;
  rp_request_id : pystr;
  rp_media_type : json F;
  rp_request_path : pystr
}.

Definition request_descriptor (p : ReqPrep) (sha : pystr) (size : Z) : json F :=
  JObj [(cps "artifact_id", JStr (rp_request_id p)); (cps "kind", JS "INFERENCE_REQUEST");
        (cps "request_path", JStr (rp_request_path p)); (cps "registry_path", JStr INF_REGISTRY_PATH);
        (cps "sha256", JStr sha); (cps "byte_size", JInt size); (cps "media_type", rp_media_type p);
        (cps "request_hash", dg (rp_req p) "request_hash")].

Definition request_log (p : ReqPrep) (idem : bool) : M unit :=
  log_tool_execution (rp_created_at_utc p) (cps "inference.request_emit") (cps "success")
    (Some (rp_request_id p)) (Some (rp_request_id p)) None
    [(cps "kind", JS "INFERENCE_REQUEST"); (cps "idempotent", JBool idem)].

(** The [except] handler: logs only when [req] was bound and carries
    non-blank [created_at_utc] and [request_id]. *)
Definition request_error_log (req : list (pystr * json F)) (e : exn) : M unit :=
  let c := dg req "created_at_utc" in
  let r := dg req "request_id" in
  if is_nonblank_str c && is_nonblank_str r then
    best_effort (log_tool_execution (as_str c) (cps "inference.request_emit") (cps "error")
                   (Some (as_str r)) (Some (as_str r)) None
                   [(cps "error_type", JS (exn_name (exn_cls e))); (cps "error", JStr (exn_msg e))])
  else retM tt.

(** From [req] to the idempotency gate. *)
Definition request_prepare (d : list (pystr * json F)) (req : list (pystr * json F)) : M ReqPrep :=
  let media_type := get_or d "media_type" (JS "application/json") in
  let* _ := check (is_nonblank_str media_type) ValueError "media_type must be a non-empty string" in
  let* _ := mkdir REQUESTS_DIR in
  let request_id := as_str (dg req "request_id") in
  retM {| rp_req := req; rp_created_at_utc := as_str (dg req "created_at_utc");
          rp_request_id := request_id; rp_media_type := media_type;
          rp_request_path := path_join REQUESTS_DIR (request_id ++ cps ".json") |}.

Definition request_gate (p : ReqPrep) : M bool :=
  let* ex := file_exists (rp_request_path p) in
  if ex then reg_has (F:=F) InferenceReg (rp_request_id p) (cps "INFERENCE_REQUEST") else retM false.

Definition request_idempotent (p : ReqPrep) : M (json F) :=
  let* sha := sha256_file (rp_request_path p) in
  let* size := file_size_bytes (rp_request_path p) in
  let* _ := request_log p true in
  retM (request_descriptor p sha size).

Definition request_fresh (p : ReqPrep) : M (json F) :=
  let* txt := liftR (json_dumps true (JObj (rp_req p))) in
  let* _ := write_text (rp_request_path p) (txt ++ [10]) in
  let* sha := sha256_file (rp_request_path p) in
  let* size := file_size_bytes (rp_request_path p) in
  let* _ := append_from_file InferenceReg (rp_request_id p) (cps "INFERENCE_REQUEST")
              (rp_created_at_utc p) (rp_request_path p) (as_str (rp_media_type p)) []
              (cps "inference.request_emit") (map cps ["phase8"; "inference"; "request"]%string) in
  let* _ := request_log p false in
  retM (request_descriptor p sha size).

Definition inference_request_emit (tool_input : json F) : M (json F) :=
  match tool_input with
  | JObj d =>
      match build_inference_request tool_input with
      | Exc e => throwE e   (* [req] unbound: the handler's NameError is swallowed *)
      | Ok req =>
          on_error (request_error_log req)
            (let* p := request_prepare d req in
             let* g := request_gate p in
             if g then request_idempotent p else request_fresh p)
      end
  | _ => throw TypeError (cps "tool_input must be dict")
  end.
End RequestEmit.

(** [isinstance(x, str) and len(x) == 64] *)
Definition is_len64_str {F} (v : json F) : bool :=
  match v with JStr s => Nat.eqb (List.length s) 64 | _ => false end.

(* ------------------------------------------------------------------ *)
(** ** [inference.response_emit] *)

Section ResponseEmit.
Context {F : Type} `{FloatModel F} `{Env}.

Record RespPrep := {
  sp2_created_at_utc : pystr;   (* stripped *)
  sp2_request_id : pystr;       (* stripped *)
  sp2_request_hash : pystr;
  sp2_snapshot_hash : pystr;
  sp2_provider : pystr;
  sp2_model : pystr;
  sp2_output_text : pystr;
  sp2_response_id : pystr;
  sp2_media_type : json F;
  sp2_response_path : pystr
}.

Definition response_prepare (tool_input : json F) : M RespPrep :=
  match tool_input with
  | JObj d =>
      let* _ := check (is_nonblank_str (dg d "created_at_utc")) ValueError
                  "tool_input.created_at_utc must be injected" in
      let* _ := check (is_nonblank_str (dg d "request_id")) ValueError
                  "tool_input.request_id must be a non-empty string" in
      let* _ := check (is_len64_str (dg d "request_hash")) ValueError
                  "tool_input.request_hash must be a 64-hex string" in
      let* _ := check (is_len64_str (dg d "snapshot_hash")) ValueError
                  "tool_input.snapshot_hash must be a 64-hex string" in
      let* _ := check (is_nonblank_str (dg d "provider")) ValueError
                  "tool_input.provider must be a non-empty string" in
      let* _ := check (is_nonblank_str (dg d "model")) ValueError
                  "tool_input.model must be a non-empty string" in
      let* _ := check (match dg d "output_text" with JStr _ => true | _ => false end) ValueError
                  "tool_input.output_text must be a string" in
      let request_id := as_str (dg d "request_id") in
      let rin := get_or d "response_id" (JStr (request_id ++ cps "--response")) in
      let* _ := check (is_nonblank_str rin) ValueError "tool_input.response_id invalid" in
      let response_id := strip (as_str rin) in
      let media_type := get_or d "media_type" (JS "application/json") in
      let* _ := check (is_nonblank_str media_type) ValueError "media_type must be a non-empty string" in
      let* _ := mkdir RESPONSES_DIR in
      retM {| sp2_created_at_utc := strip (as_str (dg d "created_at_utc"));
              sp2_request_id := strip request_id;
              sp2_request_hash := as_str (dg d "request_hash");
              sp2_snapshot_hash := as_str (dg d "snapshot_hash");
              sp2_provider := as_str (dg d "provider"); sp2_model := as_str (dg d "model");
              sp2_output_text := as_str (dg d "output_text");
              sp2_response_id := response_id; sp2_media_type := media_type;
              sp2_response_path := path_join RESPONSES_DIR (response_id ++ cps ".json") |}
  | _ => throw TypeError (cps "tool_input must be dict")
  end.

Definition response_descriptor (p : RespPrep) (sha : pystr) (size : Z) : json F :=
  JObj [(cps "artifact_id", JStr (sp2_response_id p)); (cps "kind", JS "INFERENCE_RESPONSE");
        (cps "response_path", JStr (sp2_response_path p));
        (cps "registry_path", JStr INF_REGISTRY_PATH);
        (cps "sha256", JStr sha); (cps "byte_size", JInt size); (cps "media_type", sp2_media_type p)].

Definition response_log (p : RespPrep) (idem : bool) : M unit :=
  log_tool_execution (sp2_created_at_utc p) (cps "inference.response_emit") (cps "success")
    (Some (sp2_request_id p)) (Some (sp2_response_id p)) None
    [(cps "kind", JS "INFERENCE_RESPONSE"); (cps "idempotent", JBool idem)].

Definition response_gate (p : RespPrep) : M bool :=
  let* ex := file_exists (sp2_response_path p) in
  if ex then reg_has (F:=F) InferenceReg (sp2_response_id p) (cps "INFERENCE_RESPONSE")
  else retM false.

Definition response_idempotent (p : RespPrep) : M (json F) :=
  let* sha := sha256_file (sp2_response_path p) in
  let* size := file_size_bytes (sp2_response_path p) in
  let* _ := response_log p true in
  retM (response_descriptor p sha size).

Definition response_obj (p : RespPrep) : json F :=
  JObj [(cps "kind", JS "inference.response");
        (cps "created_at_utc", JStr (sp2_created_at_utc p));
        (cps "request_id", JStr (sp2_request_id p));
        (cps "request_hash", JStr (sp2_request_hash p));
        (cps "snapshot_hash", JStr (sp2_snapshot_hash p));
        (cps "provider", JStr (strip (sp2_provider p)));
        (cps "model", JStr (strip (sp2_model p)));
        (cps "output_text", JStr (sp2_output_text p))].

Definition response_fresh (p : RespPrep) : M (json F) :=
  let* txt := liftR (json_dumps true (response_obj p)) in
  let* _ := write_text (sp2_response_path p) (txt ++ [10]) in
  let* sha := sha256_file (sp2_response_path p) in
  let* size := file_size_bytes (sp2_response_path p) in
  let* _ := append_from_file InferenceReg (sp2_response_id p) (cps "INFERENCE_RESPONSE")
              (sp2_created_at_utc p) (sp2_response_path p) (as_str (sp2_media_type p))
              [sp2_request_id p] (cps "inference.response_emit")
              (map cps ["phase8"; "inference"; "response"]%string) in
  let* _ := response_log p false in
  retM (response_descriptor p sha size).

Definition inference_response_emit (tool_input : json F) : M (json F) :=
  let* p := response_prepare tool_input in
  let* g := response_gate p in
  if g then response_idempotent p else response_fresh p.
End ResponseEmit.

(* ------------------------------------------------------------------ *)
(** ** [inference.error_emit] *)

Section ErrorEmit.
Context {F : Type} `{FloatModel F} `{Env}.

Record ErrPrep := {
  ep_created_at_utc : pystr;
  ep_request_id : pystr;
  ep_request_hash : pystr;
  ep_snapshot_hash : pystr;
  ep_provider : pystr;
  ep_model : pystr;
  ep_error_type : pystr;
  ep_message : pystr;
  ep_details : option pystr;
  ep_error_id : pystr;
  ep_media_type : json F;
  ep_error_path : pystr
}.

Definition error_prepare (tool_input : json F) : M ErrPrep :=
  match tool_input with
  | JObj d =>
      let* _ := check (is_nonblank_str (dg d "created_at_utc")) ValueError
                  "tool_input.created_at_utc must be injected" in
      let* _ := check (is_nonblank_str (dg d "request_id")) ValueError
                  "tool_input.request_id must be a non-empty string" in
      let* _ := check (is_len64_str (dg d "request_hash")) ValueError
                  "tool_input.request_hash must be a 64-hex string" in
      let* _ := check (is_len64_str (dg d "snapshot_hash")) ValueError
                  "tool_input.snapshot_hash must be a 64-hex string" in
      let* _ := check (is_nonblank_str (dg d "provider")) ValueError
                  "tool_input.provider must be a non-empty string" in
      let* _ := check (is_nonblank_str (dg d "model")) ValueError
                  "tool_input.model must be a non-empty string" in
      let* _ := check (is_nonblank_str (dg d "error_type")) ValueError
                  "tool_input.error_type must be a non-empty string" in
      let* _ := check (is_nonblank_str (dg d "message")) ValueError
                  "tool_input.message must be a non-empty string" in
      let details := dg d "details" in
      let* _ := check (match details with JNull | JStr _ => true | _ => false end) ValueError
                  "tool_input.details must be a string if provided" in
      let request_id := as_str (dg d "request_id") in
      let ein := get_or d "error_id" (JStr (request_id ++ cps "--error")) in
      let* _ := check (is_nonblank_str ein) ValueError "tool_input.error_id invalid" in
      let error_id := strip (as_str ein) in
      let media_type := get_or d "media_type" (JS "application/json") in
      let* _ := check (is_nonblank_str media_type) ValueError "media_type must be a non-empty string" in
      let* _ := mkdir ERRORS_DIR in
      retM {| ep_created_at_utc := as_str (dg d "created_at_utc"); ep_request_id := request_id;
              ep_request_hash := as_str (dg d "request_hash");
              ep_snapshot_hash := as_str (dg d "snapshot_hash");
              ep_provider := as_str (dg d "provider"); ep_model := as_str (dg d "model");
              ep_error_type := as_str (dg d "error_type"); ep_message := as_str (dg d "message");
              ep_details := match details with JStr s => Some s | _ => None end;
              ep_error_id := error_id; ep_media_type := media_type;
              ep_error_path := path_join ERRORS_DIR (error_id ++ cps ".json") |}
  | _ => throw TypeError (cps "tool_input must be dict")
  end.

Definition error_descriptor (p : ErrPrep) (sha : pystr) (size : Z) : json F :=
  JObj [(cps "artifact_id", JStr (ep_error_id p)); (cps "kind", JS "INFERENCE_ERROR");
        (cps "error_path", JStr (ep_error_path p)); (cps "registry_path", JStr INF_REGISTRY_PATH);
        (cps "sha256", JStr sha); (cps "byte_size", JInt size); (cps "media_type", ep_media_type p)].

Definition error_gate (p : ErrPrep) : M bool :=
  let* ex := file_exists (ep_error_path p) in
  if ex then reg_has (F:=F) InferenceReg (ep_error_id p) (cps "INFERENCE_ERROR") else retM false.

Definition error_idempotent (p : ErrPrep) : M (json F) :=
  let* sha := sha256_file (ep_error_path p) in
  let* size := file_size_bytes (ep_error_path p) in
  retM (error_descriptor p sha size).

Definition error_obj (p : ErrPrep) : json F :=
  JObj ([(cps "kind", JS "inference.error");
         (cps "created_at_utc", JStr (ep_created_at_utc p));
         (cps "request_id", JStr (strip (ep_request_id p)));
         (cps "request_hash", JStr (ep_request_hash p));
         (cps "snapshot_hash", JStr (ep_snapshot_hash p));
         (cps "provider", JStr (strip (ep_provider p)));
         (cps "model", JStr (strip (ep_model p)));
         (cps "error_type", JStr (strip (ep_error_type p)));
         (cps "message", JStr (strip (ep_message p)))]
        ++ match ep_details p with Some s => [(cps "details", JStr s)] | None => [] end).

Definition error_fresh (p : ErrPrep) : M (json F) :=
  let* txt := liftR (json_dumps true (error_obj p)) in
  let* _ := write_text (ep_error_path p) (txt ++ [10]) in
  let* sha := sha256_file (ep_error_path p) in
  let* size := file_size_bytes (ep_error_path p) in
  let* _ := append_from_file InferenceReg (ep_error_id p) (cps "INFERENCE_ERROR")
              (ep_created_at_utc p) (ep_error_path p) (as_str (ep_media_type p))
              [strip (ep_request_id p)] (cps "inference.error_emit")
              (map cps ["phase8"; "inference"; "error"]%string) in
  retM (error_descriptor p sha size).

Definition inference_error_emit (tool_input : json F) : M (json F) :=
  let* p := error_prepare tool_input in
  let* g := error_gate p in
  if g then error_idempotent p else error_fresh p.
End ErrorEmit.

(* ------------------------------------------------------------------ *)
(** ** [inference.receipt_emit] *)

Section ReceiptEmit.
Context {F : Type} `{FloatModel F} `{Env}.

Record RcptPrep := {
  cp2_created_at_utc : pystr;
  cp2_request_id : pystr;       (* stripped *)
  cp2_request_hash : pystr;
  cp2_snapshot_hash : pystr;
  cp2_provider : pystr;         (* stripped *)
  cp2_model : pystr;            (* stripped *)
  cp2_result_kind : pystr;
  cp2_result_id : pystr;
  cp2_receipt_id : pystr;
  cp2_media_type : json F;
  cp2_request_path : pystr;
  cp2_result_path : pystr;
  cp2_receipt_path : pystr
}.

Definition opt_id_ok (v : json F) : bool :=
  match v with JNull => true | _ => is_nonblank_str v end.

Definition receipt_prepare (tool_input : json F) : M RcptPrep :=
  match tool_input with
  | JObj d =>
      let* _ := check (is_nonblank_str (dg d "created_at_utc")) ValueError
                  "tool_input.created_at_utc must be injected" in
      let* _ := check (is_nonblank_str (dg d "request_id")) ValueError
                  "tool_input.request_id must be a non-empty string" in
      let request_id := strip (as_str (dg d "request_id")) in
      let* _ := check (match dg d "request_hash" with JStr h => _is_hex64 h | _ => false end) ValueError
                  "tool_input.request_hash must be a 64-hex string" in
      let* _ := check (match dg d "snapshot_hash" with JStr h => _is_hex64 h | _ => false end) ValueError
                  "tool_input.snapshot_hash must be a 64-hex string" in
      let* _ := check (is_nonblank_str (dg d "provider")) ValueError
                  "tool_input.provider must be a non-empty string" in
      let* _ := check (is_nonblank_str (dg d "model")) ValueError
                  "tool_input.model must be a non-empty string" in
      let response_id := dg d "response_id" in
      let error_id := dg d "error_id" in
      let* _ := check (opt_id_ok response_id) ValueError "tool_input.response_id invalid if provided" in
      let* _ := check (opt_id_ok error_id) ValueError "tool_input.error_id invalid if provided" in
      let* _ := check (negb (Bool.eqb (truthy response_id) (truthy error_id))) ValueError
                  "receipt_emit: exactly one of response_id or error_id must be provided" in
      let rin := get_or d "receipt_id" (JStr (request_id ++ cps "--receipt")) in
      let* _ := check (is_nonblank_str rin) ValueError "tool_input.receipt_id invalid" in
      let receipt_id := strip (as_str rin) in
      let media_type := get_or d "media_type" (JS "application/json") in
      let* _ := check (is_nonblank_str media_type) ValueError "media_type must be a non-empty string" in
      let request_path := path_join REQUESTS_DIR (request_id ++ cps ".json") in
      let* ex := file_exists request_path in
      let* _ := if ex then retM tt
                else throw ValueError (cps "receipt_emit: missing request artifact file: " ++ request_path) in
      let '(result_kind, result_id, result_path) :=
        match response_id with
        | JStr r => (cps "response", strip r, path_join RESPONSES_DIR (strip r ++ cps ".json"))
        | _ => (cps "error", strip (as_str error_id),
                path_join ERRORS_DIR (strip (as_str error_id) ++ cps ".json"))
        end in
      let* ex2 := file_exists result_path in
      let* _ := if ex2 then retM tt
                else throw ValueError (cps "receipt_emit: missing " ++ result_kind
                                       ++ cps " artifact file: " ++ result_path) in
      let* _ := mkdir RECEIPTS_DIR in
      retM {| cp2_created_at_utc := as_str (dg d "created_at_utc"); cp2_request_id := request_id;
              cp2_request_hash := as_str (dg d "request_hash");
              cp2_snapshot_hash := as_str (dg d "snapshot_hash");
              cp2_provider := strip (as_str (dg d "provider"));
              cp2_model := strip (as_str (dg d "model"));
              cp2_result_kind := result_kind; cp2_result_id := result_id;
              cp2_receipt_id := receipt_id; cp2_media_type := media_type;
              cp2_request_path := request_path; cp2_result_path := result_path;
              cp2_receipt_path := path_join RECEIPTS_DIR (receipt_id ++ cps ".json") |}
  | _ => throw TypeError (cps "tool_input must be dict")
  end.

Definition receipt_gate (p : RcptPrep) : M bool :=
  let* ex := file_exists (cp2_receipt_path p) in
  if ex then reg_has (F:=F) InferenceReg (cp2_receipt_id p) (cps "INFERENCE_RECEIPT") else retM false.

(** The return value of the idempotent path. *)
Definition receipt_descriptor (p : RcptPrep) (sha : pystr) (size : Z) : list (pystr * json F) :=
  [(cps "artifact_id", JStr (cp2_receipt_id p)); (cps "kind", JS "INFERENCE_RECEIPT");
   (cps "receipt_path", JStr (cp2_receipt_path p)); (cps "registry_path", JStr INF_REGISTRY_PATH);
   (cps "sha256", JStr sha); (cps "byte_size", JInt size); (cps "media_type", cp2_media_type p)].

Definition receipt_idempotent (p : RcptPrep) : M (json F) :=
  let* sha := sha256_file (cp2_receipt_path p) in
  let* size := file_size_bytes (cp2_receipt_path p) in
  retM (JObj (receipt_descriptor p sha size)).

Definition receipt_base (p : RcptPrep) (request_sha256 result_sha256 : pystr) : list (pystr * json F) :=
  [(cps "kind", JS "inference.receipt");
   (cps "created_at_utc", JStr (cp2_created_at_utc p));
   (cps "request_id", JStr (cp2_request_id p));
   (cps "request_hash", JStr (cp2_request_hash p));
   (cps "snapshot_hash", JStr (cp2_snapshot_hash p));
   (cps "provider", JStr (cp2_provider p));
   (cps "model", JStr (cp2_model p));
   (cps "result", JObj [(cps "kind", JStr (cp2_result_kind p));
                        (cps "artifact_id", JStr (cp2_result_id p))]);
   (cps "inputs_sha256", JObj [(cps "request_sha256", JStr request_sha256);
                               (cps "result_sha256", JStr result_sha256)])].

Definition receipt_fresh (p : RcptPrep) : M (json F) :=
  let* request_sha256 := sha256_file (cp2_request_path p) in
  let* result_sha256 := sha256_file (cp2_result_path p) in
  let base := receipt_base p request_sha256 result_sha256 in
  let* receipt_hash := liftR (hash_of (JObj base)) in
  let obj := dset base (cps "receipt_hash") (JStr receipt_hash) in
  let* txt := liftR (json_dumps true (JObj obj)) in
  let* _ := write_text (cp2_receipt_path p) (txt ++ [10]) in
  let* sha := sha256_file (cp2_receipt_path p) in
  let* size := file_size_bytes (cp2_receipt_path p) in
  let* _ := append_from_file InferenceReg (cp2_receipt_id p) (cps "INFERENCE_RECEIPT")
              (cp2_created_at_utc p) (cp2_receipt_path p) (as_str (cp2_media_type p))
              [cp2_request_id p; cp2_result_id p] (cps "inference.receipt_emit")
              (map cps ["phase8"; "inference"; "receipt"]%string) in
  retM (JObj (receipt_descriptor p sha size
              ++ [(cps "receipt_hash", JStr receipt_hash); (cps "request_sha256", JStr request_sha256);
                  (cps "result_sha256", JStr result_sha256)])).

Definition inference_receipt_emit (tool_input : json F) : M (json F) :=
  let* p := receipt_prepare tool_input in
  let* g := receipt_gate p in
  if g then receipt_idempotent p else receipt_fresh p.
End ReceiptEmit.

(* ------------------------------------------------------------------ *)
(** ** [dispatch_text] and [inference.execute] *)

Record ProviderTextResult := {
  ptr_provider : pystr; ptr_model : pystr; ptr_provider_response_id : pystr; ptr_output_text : pystr
}.

(** [d.get(k, default)] *)
Definition dget_default {F} (d : list (pystr * json F)) (k : string) (dflt : json F) : json F :=
  if dmem d (cps k) then dget d (cps k) else dflt.

Section Execute.
Context {F : Type} `{FloatModel F} `{Env}.
(** [responses_create_text(model=..., user_input=..., instructions=...,
    temperature=..., max_output_tokens=...)]: the network call, with its
    outcome [(model, response_id, output_text)] or the exception it raises. *)
Variable responses_create_text : pystr -> pystr -> pystr -> F -> Z -> res (pystr * pystr * pystr).

Definition dispatch_text (provider model user_input instructions : pystr) (t : F) (mt : Z)
    : res ProviderTextResult :=
  if negb (nonblank provider) then raise ValueError "dispatch_text_invalid_provider"
  else
    let p := strip provider in
    if str_eqb p (cps "openai") then
      match responses_create_text model user_input instructions t mt with
      | Exc e => Exc e
      | Ok (m, rid, out) => Ok {| ptr_provider := cps "openai"; ptr_model := m;
                                 ptr_provider_response_id := rid; ptr_output_text := out |}
      end
    else Exc (Exn ValueError (cps "dispatch_text_unsupported_provider: " ++ p)).

Definition _load_request (request_id : pystr) : M (list (pystr * json F)) :=
  let req_path := path_join REQUESTS_DIR (request_id ++ cps ".json") in
  let* ex := file_exists req_path in
  let* _ := if ex then retM tt
            else throw ValueError (cps "inference_execute_missing_request: " ++ req_path) in
  let* text := read_text req_path in
  let* obj := liftR (json_loads (F:=F) text) in
  match obj with
  | JObj o =>
      match dg o "kind" with
      | JStr k => if str_eqb k (cps "inference.request") then retM o
                  else throw ValueError (cps "inference_execute_invalid_request_kind: expected inference.request")
      | _ => throw ValueError (cps "inference_execute_invalid_request_kind: expected inference.request")
      end
  | _ => throw ValueError (cps "inference_execute_invalid_request_json: not an object")
  end.

(** [x.get(k)] on [req.get("params") or {}]: a non-dict value has no
    [get]. *)
Definition get_on (v : json F) (k : string) : res (json F) :=
  match v with
  | JObj o => Ok (dg o k)
  | _ => raise OtherError "AttributeError: object has no attribute 'get'"
  end.

Definition get_on_default (v : json F) (k : string) (dflt : json F) : res (json F) :=
  match v with
  | JObj o => Ok (dget_default o k dflt)
  | _ => raise OtherError "AttributeError: object has no attribute 'get'"
  end.

(** What [inference_execute] has validated before its [try]. *)
Record ExecPrep := {
  xp_created_at_utc : pystr;   (* stripped *)
  xp_request_id : pystr;       (* stripped *)
  xp_request_hash : pystr;
  xp_snapshot_hash : pystr;
  xp_provider : pystr;         (* stripped *)
  xp_model : pystr;            (* stripped *)
  xp_temperature : json F;
  xp_max_tokens : Z;
  xp_system_prompt : pystr;
  xp_user_prompt : pystr
}.

Definition execute_prepare (tool_input : json F) : M ExecPrep :=
  match tool_input with
  | JObj d =>
      let* _ := check (is_nonblank_str (dg d "created_at_utc")) ValueError
                  "tool_input.created_at_utc must be injected" in
      let* _ := check (is_nonblank_str (dg d "request_id")) ValueError
                  "tool_input.request_id must be a non-empty string" in
      let request_id_s := strip (as_str (dg d "request_id")) in
      let created_at_utc_s := strip (as_str (dg d "created_at_utc")) in
      let* req := _load_request request_id_s in
      let provider := dg req "provider" in
      let model := dg req "model" in
      let snapshot_hash := dg req "snapshot_hash" in
      let request_hash := dg req "request_hash" in
      let params := get_or req "params" (JObj []) in
      let prompts := get_or req "prompts" (JObj []) in
      let* _ := check (is_nonblank_str provider) ValueError "inference_execute_request_missing_provider" in
      let* _ := check (is_nonblank_str model) ValueError "inference_execute_request_missing_model" in
      let* _ := check (is_len64_str snapshot_hash) ValueError
                  "inference_execute_request_missing_snapshot_hash" in
      let* _ := check (is_len64_str request_hash) ValueError
                  "inference_execute_request_missing_request_hash" in
      let* temperature := liftR (get_on params "temperature") in
      let* max_tokens := liftR (get_on params "max_tokens") in
      let* _ := check (is_number temperature) ValueError "inference_execute_request_missing_temperature" in
      let* _ := check (is_pos_int max_tokens) ValueError "inference_execute_request_missing_max_tokens" in
      let* system_prompt := liftR (get_on_default prompts "system_prompt" (JS "")) in
      let* user_prompt := liftR (get_on_default prompts "user_prompt" (JS "")) in
      let* _ := check (match system_prompt with JStr _ => true | _ => false end) ValueError
                  "inference_execute_request_system_prompt_invalid" in
      let* _ := check (is_nonblank_str user_prompt) ValueError
                  "inference_execute_request_user_prompt_invalid" in
      retM {| xp_created_at_utc := created_at_utc_s; xp_request_id := request_id_s;
              xp_request_hash := as_str request_hash; xp_snapshot_hash := as_str snapshot_hash;
              xp_provider := strip (as_str provider); xp_model := strip (as_str model);
              xp_temperature := temperature;
              xp_max_tokens := match as_int max_tokens with Some z => z | None => 0 end;
              xp_system_prompt := as_str system_prompt; xp_user_prompt := as_str user_prompt |}
  | _ => throw TypeError (cps "tool_input must be dict")
  end.

Definition response_id_of (x : ExecPrep) : pystr := xp_request_id x ++ cps "--response".
Definition error_id_of (x : ExecPrep) : pystr := xp_request_id x ++ cps "--error".

Definition common_fields (x : ExecPrep) : list (pystr * json F) :=
  [(cps "created_at_utc", JStr (xp_created_at_utc x)); (cps "request_id", JStr (xp_request_id x));
   (cps "request_hash", JStr (xp_request_hash x)); (cps "snapshot_hash", JStr (xp_snapshot_hash x))].

(** The [try] body. *)
Definition execute_try (x : ExecPrep) : M (json F) :=
  let* t := liftR (to_float (xp_temperature x)) in
  let* r := liftR (dispatch_text (xp_provider x) (xp_model x) (xp_user_prompt x) (xp_system_prompt x)
                     t (xp_max_tokens x)) in
  let* out_resp := inference_response_emit
                     (JObj (common_fields x
                            ++ [(cps "provider", JStr (ptr_provider r)); (cps "model", JStr (ptr_model r));
                                (cps "output_text", JStr (ptr_output_text r));
                                (cps "response_id", JStr (response_id_of x))])) in
  let* out_receipt := inference_receipt_emit
                        (JObj (common_fields x
                               ++ [(cps "provider", JStr (ptr_provider r)); (cps "model", JStr (ptr_model r));
                                   (cps "response_id", JStr (response_id_of x))])) in
  retM (JObj [(cps "ok", JBool true); (cps "provider_response_id", JStr (ptr_provider_response_id r));
              (cps "emitted_response", out_resp); (cps "emitted_receipt", out_receipt)]).

(** The [error_type] each [except] clause records. *)
Definition anthropic_preflight (x : ExecPrep) (msg : pystr) : bool :=
  str_eqb (xp_provider x) (cps "anthropic")
  && (prefixb (cps "ANTHROPIC_") msg || prefixb (cps "anthropic_") msg).

Definition error_type_of (x : ExecPrep) (e : exn) : pystr :=
  match exn_cls e with
  | OpenAIHTTPError | AnthropicHTTPError => cps "provider_http_error"
  | _ => if anthropic_preflight x (exn_msg e) then cps "provider_http_error"
         else cps "inference_execute_error"
  end.

(** The body shared by the [except] clauses. *)
Definition execute_handler (x : ExecPrep) (e : exn) : M (json F) :=
  let* out_err := inference_error_emit
                    (JObj (common_fields x
                           ++ [(cps "provider", JStr (xp_provider x)); (cps "model", JStr (xp_model x));
                               (cps "error_type", JStr (error_type_of x e));
                               (cps "message", JStr (exn_msg e)); (cps "error_id", JStr (error_id_of x))])) in
  let* out_receipt := inference_receipt_emit
                        (JObj (common_fields x
                               ++ [(cps "provider", JStr (xp_provider x)); (cps "model", JStr (xp_model x));
                                   (cps "error_id", JStr (error_id_of x))])) in
  retM (JObj [(cps "ok", JBool false); (cps "emitted_error", out_err); (cps "emitted_receipt", out_receipt)]).

Definition inference_execute (tool_input : json F) : M (json F) :=
  let* x := execute_prepare tool_input in
  fun w => match execute_try x w with
           | (Exc e, w') => execute_handler x e w'
           | r => r
           end.
End Execute.

(* ------------------------------------------------------------------ *)
(** ** [inference.replay] *)

Section Replay.
Context {F : Type} `{FloatModel F} `{Env}.

Definition js_eqb (v : json F) (s : string) : bool :=
  match v with JStr x => str_eqb x (cps s) | _ => false end.

(** [inputs_sha.get(k)] compared with a computed digest. *)
Definition digest_matches (actual : pystr) (v : json F) : bool :=
  match v with JStr x => str_eqb actual x | _ => false end.

Definition replay_descriptor (receipt_id request_sha result_sha receipt_hash : pystr) : json F :=
  JObj [(cps "status", JS "replay_ok"); (cps "receipt_id", JStr receipt_id);
        (cps "request_sha256", JStr request_sha); (cps "result_sha256", JStr result_sha);
        (cps "receipt_hash", JStr receipt_hash)].

Definition inference_replay (tool_input : json F) : M (json F) :=
  match tool_input with
  | JObj d =>
      let* _ := check (is_nonblank_str (dg d "receipt_id")) ValueError
                  "tool_input.receipt_id must be non-empty string" in
      let receipt_id := strip (as_str (dg d "receipt_id")) in
      let receipt_path := path_join RECEIPTS_DIR (receipt_id ++ cps ".json") in
      let* ex := file_exists receipt_path in
      let* _ := if ex then retM tt
                else throw ValueError (cps "replay_reject: receipt file missing: " ++ receipt_path) in
      let* text := read_text receipt_path in
      let* objv := liftR (json_loads (F:=F) text) in
      match objv with
      | JObj obj =>
          let* _ := check (js_eqb (dg obj "kind") "inference.receipt") ValueError
                      "replay_reject: invalid receipt kind" in
          let stored := dg obj "receipt_hash" in
          let* _ := check (match stored with JStr h => _is_hex64 h | _ => false end) ValueError
                      "replay_reject: invalid stored receipt_hash" in
          let request_id := dg obj "request_id" in
          let result := dg obj "result" in
          let inputs_sha := dg obj "inputs_sha256" in
          let* _ := check (match request_id with JStr (_ :: _) => true | _ => false end) ValueError
                      "replay_reject: invalid request_id" in
          match result, inputs_sha with
          | JObj result_o, JObj inputs_o =>
              let result_kind := dg result_o "kind" in
              let result_id := dg result_o "artifact_id" in
              let* _ := match result_kind with
                        | JArr _ | JObj _ => throw TypeError (cps "unhashable type")
                        | _ => retM tt
                        end in
              let* _ := check (js_eqb result_kind "response" || js_eqb result_kind "error") ValueError
                          "replay_reject: invalid result.kind" in
              let* _ := check (match result_id with JStr (_ :: _) => true | _ => false end) ValueError
                          "replay_reject: invalid result.artifact_id" in
              let request_path := path_join REQUESTS_DIR (as_str request_id ++ cps ".json") in
              let* ex1 := file_exists request_path in
              let* _ := check ex1 ValueError "replay_reject: request file missing" in
              let result_path := if js_eqb result_kind "response"
                                 then path_join RESPONSES_DIR (as_str result_id ++ cps ".json")
                                 else path_join ERRORS_DIR (as_str result_id ++ cps ".json") in
              let* ex2 := file_exists result_path in
              let* _ := check ex2 ValueError "replay_reject: result file missing" in
              let* request_sha_actual := sha256_file request_path in
              let* result_sha_actual := sha256_file result_path in
              let* _ := check (digest_matches request_sha_actual (dg inputs_o "request_sha256")) ValueError
                          "replay_reject: request sha mismatch" in
              let* _ := check (digest_matches result_sha_actual (dg inputs_o "result_sha256")) ValueError
                          "replay_reject: result sha mismatch" in
              let base := dpop obj (cps "receipt_hash") in
              let* recomputed := liftR (hash_of (JObj base)) in
              let* _ := check (str_eqb recomputed (as_str stored)) ValueError
                          "replay_reject: receipt_hash mismatch" in
              retM (replay_descriptor receipt_id request_sha_actual result_sha_actual recomputed)
          | JObj _, _ => throw ValueError (cps "replay_reject: invalid inputs_sha256 block")
          | _, _ => throw ValueError (cps "replay_reject: invalid result block")
          end
      | _ => throw OtherError (cps "AttributeError: object has no attribute 'get'")
      end
  | _ => throw TypeError (cps "tool_input must be dict")
  end.
End Replay.

(* ------------------------------------------------------------------ *)
(** ** [artifact.snapshot_export] *)

Section SnapshotExport.
Context {F : Type} `{FloatModel F} `{Env}.
(** The steps that leave the interpreter: [_build_plain_tar(tar_path,
    roots)] gives the archive's contents and [file_count] for the files
    under the roots (or raises), and [openssl enc] the ciphertext of a
    plaintext under a passphrase (or raises [RuntimeError]).  Binary
    contents are texts standing for their bytes. *)
Variable build_plain_tar : World -> list pystr -> res (pystr * Z).
Variable openssl_enc : pystr -> pystr -> res pystr.

Definition SNAPSHOTS_DIR : pystr := path_join ARTIFACT_ROOT (cps "snapshots").
Definition WORK_ORDERS_DIR : pystr := path_join ARTIFACT_ROOT (cps "work_orders").

Record SnapPrep := {
  np_created_at_utc : pystr;
  np_work_order_id : pystr;
  np_passphrase : pystr;
  np_snapshot_id : pystr;
  np_media_type_archive : pystr;
  np_media_type_manifest : pystr;
  np_encryption_scheme : json F;
  np_included_roots : list pystr;
  np_work_order_path : pystr
}.

Definition snapshot_dir (p : SnapPrep) : pystr := path_join SNAPSHOTS_DIR (np_snapshot_id p).
Definition enc_path (p : SnapPrep) : pystr := path_join (snapshot_dir p) (cps "snapshot.enc").
Definition manifest_path (p : SnapPrep) : pystr := path_join (snapshot_dir p) (cps "snapshot_manifest.json").
Definition plain_tar_path (p : SnapPrep) : pystr := path_join (snapshot_dir p) (cps "snapshot.tar.tmp").

Definition snapshot_prepare (tool_input : json F) : M SnapPrep :=
  match tool_input with
  | JObj d =>
      let* _ := check (is_nonblank_str (dg d "created_at_utc")) ValueError
                  "tool_input.created_at_utc must be a non-empty injected string" in
      let* _ := check (is_nonblank_str (dg d "work_order_artifact_id")) ValueError
                  "tool_input.work_order_artifact_id must be a non-empty string" in
      let work_order_id := strip (as_str (dg d "work_order_artifact_id")) in
      let* _ := check (is_nonblank_str (dg d "encryption_passphrase")) ValueError
                  "tool_input.encryption_passphrase must be a non-empty string" in
      let sid := match dg d "snapshot_id" with JNull => JStr (work_order_id ++ cps "--snapshot") | v => v end in
      let* _ := check (is_nonblank_str sid) ValueError
                  "tool_input.snapshot_id must be a non-empty string if provided" in
      let mta := get_or d "media_type_archive" (JS "application/octet-stream") in
      let mtm := get_or d "media_type_manifest" (JS "application/json") in
      let* _ := check (is_nonblank_str mta) ValueError "media_type_archive must be a non-empty string" in
      let* _ := check (is_nonblank_str mtm) ValueError "media_type_manifest must be a non-empty string" in
      let scheme := get_or d "encryption_scheme" (JS "openssl-enc-aes-256-cbc-pbkdf2-salt") in
      let* _ := check (is_nonblank_str scheme) ValueError "encryption_scheme must be a non-empty string" in
      let roots_in := get_or d "included_roots" (JArr [JS ".adam_os/artifacts"; JS ".adam_os/runs"]) in
      let* roots := match roots_in with
                    | JArr l => if forallb is_nonblank_str l then retM (map (fun x => strip (as_str x)) l)
                                else throw ValueError (cps "included_roots must be a list of non-empty strings")
                    | _ => throw ValueError (cps "included_roots must be a list of non-empty strings")
                    end in
      let work_order_path := path_join WORK_ORDERS_DIR (work_order_id ++ cps ".json") in
      let* ex := file_exists work_order_path in
      let* _ := if ex then retM tt
                else throw FileNotFoundError (cps "WORK_ORDER not found: " ++ work_order_path) in
      let* _ := mkdir SNAPSHOTS_DIR in
      retM {| np_created_at_utc := as_str (dg d "created_at_utc"); np_work_order_id := work_order_id;
              np_passphrase := as_str (dg d "encryption_passphrase");
              np_snapshot_id := strip (as_str sid);
              np_media_type_archive := as_str mta; np_media_type_manifest := as_str mtm;
              np_encryption_scheme := scheme; np_included_roots := roots;
              np_work_order_path := work_order_path |}
  | _ => throw TypeError (cps "tool_input must be dict")
  end.

(** The idempotent return: facts read back from the manifest. *)
Definition snapshot_idempotent (p : SnapPrep) : M (json F) :=
  let* sha_enc := sha256_file (enc_path p) in
  let* size_enc := file_size_bytes (enc_path p) in
  fun w =>
    let m := match fs_get (w_files w) (manifest_path p) with
             | Some t => match json_loads (F:=F) t with Ok v => v | Exc _ => JObj [] end
             | None => JObj []
             end in
    match m with
    | JObj mo =>
        (Ok (JObj [(cps "snapshot_id", JStr (np_snapshot_id p)); (cps "kind", JS "SNAPSHOT_ARCHIVE");
                   (cps "snapshot_dir", JStr (snapshot_dir p));
                   (cps "encrypted_archive_path", JStr (enc_path p));
                   (cps "manifest_path", JStr (manifest_path p));
                   (cps "registry_path", JStr ART_REGISTRY_PATH);
                   (cps "archive_plain_sha256", dg mo "archive_plain_sha256");
                   (cps "archive_enc_sha256", JStr sha_enc); (cps "byte_size_enc", JInt size_enc);
                   (cps "encryption_scheme", dg mo "encryption_scheme")]), w)
    | _ => (Exc (Exn OtherError (cps "AttributeError: object has no attribute 'get'")), w)
    end.

Definition snapshot_manifest_obj (p : SnapPrep) (file_count total_plain_bytes : Z)
    (archive_plain_sha archive_enc_sha work_order_sha : pystr) (work_order_hash : json F)
    (lineage : list (pystr * json F)) : json F :=
  JObj [(cps "snapshot_id", JStr (np_snapshot_id p)); (cps "kind", JS "SNAPSHOT_MANIFEST");
        (cps "created_at_utc", JStr (np_created_at_utc p));
        (cps "included_roots", JArr (map JStr (np_included_roots p)));
        (cps "file_count", JInt file_count); (cps "total_plain_bytes", JInt total_plain_bytes);
        (cps "archive_plain_sha256", JStr archive_plain_sha);
        (cps "archive_enc_sha256", JStr archive_enc_sha);
        (cps "encryption_scheme", np_encryption_scheme p);
        (cps "parents", JObj [(cps "work_order_artifact_id", JStr (np_work_order_id p));
                              (cps "work_order_sha256", JStr work_order_sha);
                              (cps "work_order_hash", work_order_hash);
                              (cps "build_spec_artifact_id", dg lineage "build_spec_artifact_id");
                              (cps "build_spec_sha256", dg lineage "build_spec_sha256");
                              (cps "bundle_hash", dg lineage "bundle_hash");
                              (cps "prompt_hash", dg lineage "prompt_hash")]);
        (cps "notes", JS "artifact.snapshot_export");
        (cps "tags", JArr [JS "phase7"; JS "snapshot"; JS "encrypted"; JS "append_only"])].

(** The [try] block of the fresh path. *)
Definition snapshot_fresh_body (p : SnapPrep) : M (json F) :=
  let* stats := (fun w => (build_plain_tar w (np_included_roots p), w)) in
  let (tar, file_count) := stats in
  let* _ := write_text (plain_tar_path p) tar in
  let* total_plain_bytes := file_size_bytes (plain_tar_path p) in
  let* archive_plain_sha := sha256_file (plain_tar_path p) in
  let* plain := read_text (plain_tar_path p) in
  let* enc := liftR (openssl_enc (strip (np_passphrase p)) plain) in
  let* _ := write_text (enc_path p) enc in
  let* archive_enc_sha := sha256_file (enc_path p) in
  let* enc_size := file_size_bytes (enc_path p) in
  let* _ := unlink (plain_tar_path p) in
  let* wo_text := read_text (np_work_order_path p) in
  let* wo := liftR (json_loads (F:=F) wo_text) in
  let* work_order_sha := sha256_file (np_work_order_path p) in
  let* wo_o := match wo with
               | JObj o => retM o
               | _ => throw OtherError (cps "AttributeError: object has no attribute 'get'")
               end in
  let* lineage := match dget_default wo_o "lineage" (JObj []) with
                  | JObj l => retM l
                  | _ => throw OtherError (cps "AttributeError: object has no attribute 'get'")
                  end in
  let manifest_obj := snapshot_manifest_obj p file_count total_plain_bytes archive_plain_sha
                        archive_enc_sha work_order_sha (dg wo_o "work_order_hash") lineage in
  let* manifest_text := liftR (canonical_dumps manifest_obj) in
  let* _ := write_text (manifest_path p) (manifest_text ++ [10]) in
  let* _ := append_from_file ArtifactReg (np_snapshot_id p) (cps "SNAPSHOT_ARCHIVE")
              (np_created_at_utc p) (enc_path p) (strip (np_media_type_archive p))
              [np_work_order_id p] (cps "artifact.snapshot_export")
              (map cps ["phase7"; "snapshot_archive"]%string) in
  let* _ := append_from_file ArtifactReg (np_snapshot_id p ++ cps "--manifest") (cps "SNAPSHOT_MANIFEST")
              (np_created_at_utc p) (manifest_path p) (strip (np_media_type_manifest p))
              [np_work_order_id p] (cps "artifact.snapshot_export")
              (map cps ["phase7"; "snapshot_manifest"]%string) in
  retM (JObj [(cps "snapshot_id", JStr (np_snapshot_id p)); (cps "kind", JS "SNAPSHOT_ARCHIVE");
              (cps "snapshot_dir", JStr (snapshot_dir p)); (cps "encrypted_archive_path", JStr (enc_path p));
              (cps "manifest_path", JStr (manifest_path p)); (cps "registry_path", JStr ART_REGISTRY_PATH);
              (cps "archive_plain_sha256", JStr archive_plain_sha);
              (cps "archive_enc_sha256", JStr archive_enc_sha); (cps "byte_size_enc", JInt enc_size);
              (cps "total_plain_bytes", JInt total_plain_bytes); (cps "file_count", JInt file_count);
              (cps "encryption_scheme", np_encryption_scheme p);
              (cps "work_order_artifact_id", JStr (np_work_order_id p))]).

(** [finally]: the plaintext archive is removed whatever happened. *)
Definition cleanup_plain (p : SnapPrep) : M unit :=
  fun w => match fs_get (w_files w) (plain_tar_path p) with
           | Some _ => unlink (plain_tar_path p) w
           | None => (Ok tt, w)
           end.

Definition artifact_snapshot_export (tool_input : json F) : M (json F) :=
  let* p := snapshot_prepare tool_input in
  let* dir_ex := file_exists (snapshot_dir p) in
  if dir_ex then
    let* e1 := file_exists (enc_path p) in
    let* e2 := file_exists (manifest_path p) in
    let* g := if e1 && e2 then reg_has (F:=F) ArtifactReg (np_snapshot_id p) (cps "SNAPSHOT_ARCHIVE")
              else retM false in
    if g then snapshot_idempotent p
    else throw ValueError (cps "snapshot directory already exists without valid registry-backed idempotency")
  else
    let* _ := mkdir (snapshot_dir p) in
    fun w => match snapshot_fresh_body p w with
             | (r, w') => (r, snd (cleanup_plain p w'))
             end.
End SnapshotExport.

(* ------------------------------------------------------------------ *)
(** ** [artifact.ingest] *)

Section Ingest.
Context {F : Type} `{FloatModel F} `{Env}.

Definition ingest_error_log (ca : pystr) (aid : option pystr) (e : exn) : M unit :=
  best_effort (log_tool_execution ca (cps "artifact.ingest") (cps "error") None aid None
                 [(cps "exception_type", JS (exn_name (exn_cls e)));
                  (cps "exception_message", JStr (exn_msg e))]).

(** [uuid4] is the id [str(uuid.uuid4())] would produce on this call. *)
Definition artifact_ingest (uuid4 : pystr) (tool_input : json F) : M (json F) :=
  match tool_input with
  | JObj d =>
      let created_at_utc := dg d "created_at_utc" in
      let* _ := check (is_nonblank_str created_at_utc) ValueError
                  "tool_input.created_at_utc must be a non-empty injected string" in
      let ca := as_str created_at_utc in
      let content := dg d "content" in
      let media_type := get_or d "media_type" (JS "text/plain") in
      (* before [artifact_id] is bound in the [try] block *)
      let* _ := on_error (ingest_error_log ca None)
                  (let* _ := check (match content with JStr (_ :: _) => true | _ => false end) ValueError
                               "tool_input.content must be a non-empty string" in
                   check (is_nonblank_str media_type) ValueError
                     "tool_input.media_type must be a non-empty string") in
      let aid := match dg d "artifact_id" with JNull => JStr uuid4 | v => v end in
      on_error (ingest_error_log ca (match aid with JStr a => Some a | _ => None end))
        (let* _ := check (is_nonblank_str aid) ValueError
                     "tool_input.artifact_id must be a non-empty string if provided" in
         let artifact_id := as_str aid in
         let* _ := mkdir RAW_DIR in
         let raw_path := path_join RAW_DIR (artifact_id ++ cps ".txt") in
         let* _ := write_text raw_path (as_str content) in
         let* sha := sha256_file raw_path in
         let* size := file_size_bytes raw_path in
         let* _ := append_from_file ArtifactReg artifact_id (cps "RAW") ca raw_path (as_str media_type) []
                     (cps "artifact.ingest") (map cps ["phase7"; "raw"]%string) in
         let* _ := log_tool_execution ca (cps "artifact.ingest") (cps "success") None (Some artifact_id) None
                     [(cps "kind", JS "RAW"); (cps "media_type", media_type)] in
         retM (JObj [(cps "artifact_id", JStr artifact_id); (cps "kind", JS "RAW");
                     (cps "raw_path", JStr raw_path); (cps "registry_path", JStr ART_REGISTRY_PATH);
                     (cps "sha256", JStr sha); (cps "byte_size", JInt size); (cps "media_type", media_type)]))
  | _ => throw TypeError (cps "tool_input must be dict")
  end.
End Ingest.

(* ------------------------------------------------------------------ *)
(** ** A concrete platform, for running the model on examples *)

(** Floats with integral values, and the three special values. *)
Inductive tfloat := TFin (z : Z) | TNaN | TInf | TNInf.

Fixpoint int_part (s : pystr) : pystr :=
  match s with
  | [] => []
  | c :: r => if (c =? 46) || (c =? 101) || (c =? 69) then [] else c :: int_part r
  end.

#[export] Instance tfloat_model : FloatModel tfloat := {
  f_of_Z := fun z => Some (TFin z);
  f_ltb := fun a b => match a, b with
                      | TFin x, TFin y => x <? y
                      | TNInf, TFin _ | TNInf, TInf | TFin _, TInf => true
                      | _, _ => false
                      end;
  f_zero := TFin 0; f_one := TFin 1;
  f_truthy := fun a => match a with TFin z => negb (z =? 0) | _ => true end;
  f_finite := fun a => match a with TFin _ => true | _ => false end;
  f_repr := fun a => match a with
                     | TFin z => int_repr z ++ cps ".0"
                     | TNaN => cps "nan" | TInf => cps "inf" | TNInf => cps "-inf"
                     end;
  f_special := fun a => match a with
                        | TNaN => cps "NaN" | TInf => cps "Infinity" | TNInf => cps "-Infinity"
                        | TFin z => int_repr z ++ cps ".0"
                        end;
  f_parse := fun s => TFin (parse_int (int_part s));
  f_nan := TNaN; f_inf := TInf; f_ninf := TNInf
}.

Fixpoint hex_digits (n : nat) (z : Z) : pystr :=
  match n with O => [] | S n' => hex_digits n' (z / 16) ++ [hexdig (z mod 16)] end.

(** A stand-in digest: 64 lowercase hex digits of a polynomial hash. *)
Definition toy_sha256 (s : pystr) : pystr :=
  hex_digits 64 (fold_left (fun h c => (h * 131 + c + 1) mod 2 ^ 256) s 7).

Fixpoint last_sep (s : pystr) (acc cur : pystr) : pystr :=
  match s with
  | [] => rev cur
  | c :: r => if c =? 47 then last_sep r acc [] else last_sep r acc (c :: cur)
  end.

Fixpoint drop_ext (s : pystr) : pystr :=
  match s with
  | [] => []
  | c :: r => if (c =? 46) && negb (infixb [46] r) then [] else c :: drop_ext r
  end.

#[export] Instance toy_env : Env := {
  sha256 := toy_sha256;
  u_lower := fun c => if (192 <=? c) && (c <=? 222) && negb (c =? 215) then [c + 32] else [c];
  u_isalnum := fun c => ((192 <=? c) && (c <=? 255) && negb (c =? 215) && negb (c =? 247));
  within_raw_dir := fun p => prefixb (cps ".adam_os/artifacts/raw/") p;
  path_stem := fun p => drop_ext (last_sep p [] []);
  u_decimal := fun c => if (1632 <=? c) && (c <=? 1641) then Some (c - 1632) else None
}.

(** A request input on the concrete platform. *)
Definition HEX_A : pystr := repeat 97 64.

Definition example_request_input : json tfloat :=
  JObj [(cps "created_at_utc", JS "2026-02-12T00:00:00Z");
        (cps "snapshot_hash", JStr HEX_A);
        (cps "provider", JS "openai"); (cps "model", JS "gpt-4o");
        (cps "system_prompt", JS ""); (cps "user_prompt", JS "hello");
        (cps "temperature", JInt 0); (cps "max_tokens", JInt 16);
        (cps "provider_max_tokens_cap", JInt 64)].

Definition example_request : list (pystr * json tfloat) :=
  match build_inference_request example_request_input with Ok r => r | Exc _ => [] end.

(** The keys of a returned dictionary, in insertion order. *)
Definition obj_keys {F} (v : json F) : list pystr :=
  match v with JObj d => map fst d | _ => [] end.

(** Whether a call of [inference_receipt_emit] takes the idempotent path. *)
Definition receipt_took_gate {F} `{FloatModel F} `{Env} (ti : json F) (w : World) : bool :=
  match receipt_prepare ti w with
  | (Ok p, w') => match receipt_gate p w' with (Ok g, _) => g | _ => false end
  | _ => false
  end.

(** A computation that writes no artifact file and appends to no registry. *)
Definition stable {A} (c : M A) : Prop :=
  forall w, w_files (snd (c w)) = w_files w /\ w_art (snd (c w)) = w_art w
            /\ w_inf (snd (c w)) = w_inf w.

(** A computation that appends nothing to the engineering log. *)
Definition log_kept {A} (c : M A) : Prop := forall w, w_log (snd (c w)) = w_log w.

(** The keys returned by [inference_receipt_emit] on each path. *)
Definition RECEIPT_IDEMPOTENT_KEYS : list pystr :=
  map cps ["artifact_id"; "kind"; "receipt_path"; "registry_path"; "sha256"; "byte_size";
           "media_type"]%string.

Definition RECEIPT_FRESH_KEYS : list pystr :=
  RECEIPT_IDEMPOTENT_KEYS ++ map cps ["receipt_hash"; "request_sha256"; "result_sha256"]%string.

(** Two calls of [inference_receipt_emit] on the concrete platform. *)
Definition example_receipt_input : json tfloat :=
  JObj [(cps "created_at_utc", JS "2026-02-12T00:00:00Z"); (cps "request_id", JS "req1");
        (cps "request_hash", JStr HEX_A); (cps "snapshot_hash", JStr HEX_A);
        (cps "provider", JS "openai"); (cps "model", JS "gpt-4o"); (cps "response_id", JS "resp1")].

Definition example_receipt_world : World :=
  mkWorld [(cps ".adam_os/inference/requests/req1.json", cps "{}");
           (cps ".adam_os/inference/responses/resp1.json", cps "{}")] [] [] [] [].

Definition res_val {A} (dflt : A) (r : res A) : A := match r with Ok a => a | Exc _ => dflt end.

Definition receipt_call1 := inference_receipt_emit example_receipt_input example_receipt_world.
Definition receipt_r1 : json tfloat := res_val JNull (fst receipt_call1).
Definition receipt_w1 : World := snd receipt_call1.
Definition receipt_call2 := inference_receipt_emit example_receipt_input receipt_w1.
Definition receipt_r2 : json tfloat := res_val JNull (fst receipt_call2).
Definition receipt_w2 : World := snd receipt_call2.

(** A sanitize run on a blank RAW file. *)
Definition blank_raw_world : World :=
  mkWorld [(cps ".adam_os/artifacts/raw/r0.txt", cps " 
 ")] [] [] [] [].

Definition blank_sanitize_input : json tfloat :=
  JObj [(cps "created_at_utc", JS "2026-02-12T00:00:00Z"); (cps "raw_artifact_id", JS "r0")].

Definition blank_prep : SanitizePrep (F:=tfloat) :=
  res_val {| sp_created_at_utc := []; sp_media_type := JNull; sp_raw_id := []; sp_raw_path := [];
             sp_sanitized_id := []; sp_sanitized_path := [] |}
          (fst (sanitize_prepare blank_sanitize_input blank_raw_world)).

Definition blank_prep_world : World := snd (sanitize_prepare blank_sanitize_input blank_raw_world).

(** A text literal with ['] standing for a double quote. *)
Definition dq (s : string) : pystr := map (fun c => if c =? 39 then 34 else c) (cps s).

(** The RAW text of the pipeline walk-through, sanitized and then
    canon-selected. *)
Definition walk_raw_text : pystr := cps "The sky is blue. What is gamma? Probably tomorrow.".

Definition walk_world0 : World :=
  mkWorld [(cps ".adam_os/artifacts/raw/walk.txt", walk_raw_text)] [] [] [] [].

Definition walk_sanitize_input : json tfloat :=
  JObj [(cps "created_at_utc", JS "2026-02-12T00:00:00Z"); (cps "raw_artifact_id", JS "walk")].

Definition walk_canon_input : json tfloat :=
  JObj [(cps "created_at_utc", JS "2026-02-12T00:00:00Z");
        (cps "sanitized_artifact_id", JS "walk--sanitized")].

Definition walk_sanitize_run := artifact_sanitize walk_sanitize_input walk_world0.
Definition walk_canon_run := artifact_canon_select walk_canon_input (snd walk_sanitize_run).

Definition walk_line1 : pystr := dq "{'text':'The sky is blue.','type':'SOURCE-BASED'}".
Definition walk_line2 : pystr := dq "{'text':'What is gamma?','type':'QUESTION'}".
Definition walk_line3 : pystr := dq "{'text':'Probably tomorrow.','type':'ASSUMPTION'}".

Definition is_ok {A} (r : res A) : bool := match r with Ok _ => true | Exc _ => false end.

(** A snapshot export on the concrete platform, with stand-ins for the tar
    builder and the cipher. *)
Definition snap_build (_ : World) (_ : list pystr) : res (pystr * Z) := Ok (cps "TAR", 1).
Definition snap_enc (_ plain : pystr) : res pystr := Ok (cps "ENC:" ++ plain).

Definition snap_input : json tfloat :=
  JObj [(cps "created_at_utc", JS "2026-02-12T00:00:00Z"); (cps "work_order_artifact_id", JS "wo1");
        (cps "encryption_passphrase", JS "pw")].

Definition snap_world0 : World :=
  mkWorld [(cps ".adam_os/artifacts/work_orders/wo1.json", cps "{}")] [] [] [] [].

Definition snap_fresh_run := artifact_snapshot_export snap_build snap_enc snap_input snap_world0.

(** A world where the snapshot already exists and is registered. *)
Definition snap_world_done : World :=
  mkWorld [(cps ".adam_os/artifacts/work_orders/wo1.json", cps "{}");
           (cps ".adam_os/artifacts/snapshots/wo1--snapshot/snapshot.enc", cps "ENC");
           (cps ".adam_os/artifacts/snapshots/wo1--snapshot/snapshot_manifest.json", cps "{}")]
          [] [mkRec (cps "wo1--snapshot") (cps "SNAPSHOT_ARCHIVE") (cps "2026-02-12T00:00:00Z")
                    HEX_A 3 (cps "application/octet-stream") [cps "wo1"] None None] [] [].

Definition snap_done_run := artifact_snapshot_export snap_build snap_enc snap_input snap_world_done.

(** A request input with an unlisted model and no [created_at_utc]. *)
Definition unlisted_model_input : json tfloat :=
  JObj [(cps "snapshot_hash", JStr HEX_A);
        (cps "provider", JS "openai"); (cps "model", JS "gpt-5");
        (cps "system_prompt", JS ""); (cps "user_prompt", JS "hello");
        (cps "temperature", JInt 0); (cps "max_tokens", JInt 16);
        (cps "provider_max_tokens_cap", JInt 64)].

Definition empty_world : World := mkWorld [] [] [] [] [].

(** The model allowlist of a provider, as [enforce_policy_gate] picks it. *)
Definition allowed_models_of (provider : pystr) : list pystr :=
  if str_eqb provider (cps "openai") then OPENAI_ALLOWED_MODELS else ANTHROPIC_ALLOWED_MODELS.

(** The violations the policy gate rejects. *)
Definition policy_violation {F} `{FloatModel F} (provider model : pystr) (t : F) (max_tokens cap : Z) : bool :=
  negb (mem_str model (allowed_models_of provider)) || f_ltb t f_zero || f_ltb f_one t || (cap <? max_tokens).

Definition unlisted_model_input_full : json tfloat :=
  JObj [(cps "created_at_utc", JS "2026-02-12T00:00:00Z");
        (cps "snapshot_hash", JStr HEX_A);
        (cps "provider", JS "openai"); (cps "model", JS "gpt-5");
        (cps "system_prompt", JS ""); (cps "user_prompt", JS "hello");
        (cps "temperature", JInt 0); (cps "max_tokens", JInt 16);
        (cps "provider_max_tokens_cap", JInt 64)].

Definition unlisted_model_fields : ReqFields (F:=tfloat) :=
  res_val {| rf_created_at_utc := []; rf_snapshot_hash := []; rf_provider := []; rf_model := [];
             rf_system_prompt := []; rf_user_prompt := []; rf_temperature := JNull;
             rf_max_tokens := 0; rf_cap := 0; rf_request_id := None |}
          (validate_request_fields unlisted_model_input_full).

(** A character that [json.dumps] writes as itself inside a string: not a
    double quote, not a backslash, not a control character. *)
Definition json_plain (c : Z) : bool := negb (c =? 34) && negb (c =? 92) && (32 <=? c).

(** Whether some registry record carries this [(artifact_id, kind)]. *)
Definition has_record (reg : list RegRecord) (id kind : pystr) : bool :=
  existsb (fun r => str_eqb (r_artifact_id r) id && str_eqb (r_kind r) kind) reg.

(** A RAW artifact whose id holds a double quote, sanitized twice. *)
Definition quote_raw_id : pystr := dq "a'b".

Definition quote_sanitized_path : pystr :=
  path_join SANITIZED_DIR (quote_raw_id ++ cps "--sanitized.jsonl").

Definition quote_world0 : World :=
  mkWorld [(path_join RAW_DIR (quote_raw_id ++ cps ".txt"), cps "Hi.")] [] [] [] [].

Definition quote_sanitize_input : json tfloat :=
  JObj [(cps "created_at_utc", JS "2026-02-12T00:00:00Z"); (cps "raw_artifact_id", JStr quote_raw_id)].

Definition quote_world1 : World := snd (artifact_sanitize quote_sanitize_input quote_world0).
Definition quote_world2 : World := snd (artifact_sanitize quote_sanitize_input quote_world1).

(** [artifact.ingest] with an explicit id, run twice. *)
Definition ingest_input : json tfloat :=
  JObj [(cps "created_at_utc", JS "2026-02-12T00:00:00Z"); (cps "content", JS "Hi.");
        (cps "artifact_id", JS "x")].

Definition ingest_world1 : World := snd (artifact_ingest (cps "unused") ingest_input empty_world).
Definition ingest_world2 : World := snd (artifact_ingest (cps "unused") ingest_input ingest_world1).

(** An [inference.error_emit] input and a world where its ERROR artifact
    is already written and registered. *)
Definition err_input : json tfloat :=
  JObj [(cps "created_at_utc", JS "2026-02-12T00:00:00Z"); (cps "request_id", JS "req1");
        (cps "request_hash", JStr HEX_A); (cps "snapshot_hash", JStr HEX_A);
        (cps "provider", JS "openai"); (cps "model", JS "gpt-4.1-mini");
        (cps "error_type", JS "RuntimeError"); (cps "message", JS "boom")].

Definition walk_world1 : World := snd walk_sanitize_run.

Definition err_world1 : World := snd (inference_error_emit err_input empty_world).

(** What the second calls compute before their idempotency gates, and the
    content of the file an idempotent call finds. *)
Definition walk_prep2 : SanitizePrep (F:=tfloat) :=
  res_val {| sp_created_at_utc := []; sp_media_type := JNull; sp_raw_id := []; sp_raw_path := [];
             sp_sanitized_id := []; sp_sanitized_path := [] |}
          (fst (sanitize_prepare walk_sanitize_input walk_world1)).

Definition err_prep2 : ErrPrep (F:=tfloat) :=
  res_val {| ep_created_at_utc := []; ep_request_id := []; ep_request_hash := [];
             ep_snapshot_hash := []; ep_provider := []; ep_model := []; ep_error_type := [];
             ep_message := []; ep_details := None; ep_error_id := []; ep_media_type := JNull;
             ep_error_path := [] |}
          (fst (error_prepare err_input err_world1)).

Definition receipt_prep2 : RcptPrep (F:=tfloat) :=
  res_val {| cp2_created_at_utc := []; cp2_request_id := []; cp2_request_hash := [];
             cp2_snapshot_hash := []; cp2_provider := []; cp2_model := []; cp2_result_kind := [];
             cp2_result_id := []; cp2_receipt_id := []; cp2_media_type := JNull;
             cp2_request_path := []; cp2_result_path := []; cp2_receipt_path := [] |}
          (fst (receipt_prepare example_receipt_input receipt_w1)).

Definition file_text (w : World) (p : pystr) : pystr :=
  match fs_get (w_files w) p with Some s => s | None => [] end.

(** The receipt written by the first call of the receipt example, read
    back, and copies of it with one field changed. *)
Definition receipt_path_ex : pystr := cps ".adam_os/inference/receipts/req1--receipt.json".

Definition dict_of {F} (r : res (json F)) : list (pystr * json F) :=
  match r with Ok (JObj o) => o | _ => [] end.

Definition receipt_obj_ex : list (pystr * json tfloat) :=
  dict_of (json_loads (file_text receipt_w1 receipt_path_ex)).

Definition tampered_world (k : string) (v : json tfloat) : World :=
  let txt := res_val [] (json_dumps true (JObj (dset receipt_obj_ex (cps k) v))) in
  mkWorld (fs_set (w_files receipt_w1) receipt_path_ex (txt ++ [10])) (w_dirs receipt_w1)
          (w_art receipt_w1) (w_inf receipt_w1) (w_log receipt_w1).

Definition replay_input : json tfloat := JObj [(cps "receipt_id", JS "req1--receipt")].

Definition dict_field {F} (o : list (pystr * json F)) (k : string) : list (pystr * json F) :=
  match dg o k with JObj x => x | _ => [] end.

Definition tampered_obj (k : string) (v : json tfloat) : list (pystr * json tfloat) :=
  dict_of (json_loads (file_text (tampered_world k v) receipt_path_ex)).

(** The canonical text the replay hashes, for a receipt dictionary. *)
Definition replay_base_text (o : list (pystr * json tfloat)) : pystr :=
  res_val [] (canonical_dumps (JObj (dpop o (cps "receipt_hash")))).

(* ------------------------------------------------------------------ *)
(** ** What an [inference.execute] call adds to the inference registry *)

(** The number of registry records of a kind. *)
Definition count_kind (reg : list RegRecord) (kind : pystr) : nat :=
  List.length (filter (fun r => str_eqb (r_kind r) kind) reg).

(** The receipt path [inference_receipt_emit] computes for the inputs
    [inference_execute] gives it ([receipt_id] defaults to
    [f"{request_id}--receipt"], both stripped), and the error path of
    [inference_error_emit] for the [error_id] it is given. *)
Definition execute_receipt_path {F} (x : ExecPrep (F:=F)) : pystr :=
  path_join RECEIPTS_DIR (strip (strip (xp_request_id x) ++ cps "--receipt") ++ cps ".json").

Definition execute_error_path {F} (x : ExecPrep (F:=F)) : pystr :=
  path_join ERRORS_DIR (strip (error_id_of x) ++ cps ".json").

(** A path under one of the prefixes [ps]. *)
Definition under (ps : list pystr) (q : pystr) : bool := existsb (fun a => prefixb a q) ps.

(** How the steps of [inference_execute] before its last receipt emission
    may change the world: no file is removed, the inference registry only
    grows and gets no INFERENCE_RECEIPT, a path under [As] that does not
    exist still does not, and a path under [Bs] that is not a directory
    still is not. *)
Definition exec_frame (As Bs : list pystr) (w w' : World) : Prop :=
  (forall p s, fs_get (w_files w) p = Some s -> exists s', fs_get (w_files w') p = Some s')
  /\ (exists new, w_inf w' = w_inf w ++ new /\ count_kind new (cps "INFERENCE_RECEIPT") = 0%nat)
  /\ (forall q, under As q = true -> path_exists w q = false -> path_exists w' q = false)
  /\ (forall q, under Bs q = true -> is_dir w q = false -> is_dir w' q = false).

(** An exception whose [str(e)] is not blank (the [message] an error
    artifact requires). *)
Definition msg_ok {A} (r : res A) : Prop :=
  match r with Exc e => nonblank (exn_msg e) = true | Ok _ => True end.

(** A computation keeps [exec_frame] and raises only exceptions with a
    non-blank message. *)
Definition frame_ok {A} (As Bs : list pystr) (c : M A) : Prop :=
  forall w, exec_frame As Bs w (snd (c w)) /\ msg_ok (fst (c w)).

(** A provider that answers; the request of [example_request_input],
    emitted; an [inference.execute] input naming it, and one naming a
    request that was never emitted. *)
Definition toy_provider : pystr -> pystr -> pystr -> tfloat -> Z -> res (pystr * pystr * pystr) :=
  fun _ _ _ _ _ => Ok (cps "gpt-4o", cps "resp-1", cps "hello").

Definition exec_world0 : World := snd (inference_request_emit example_request_input empty_world).

Definition exec_input : json tfloat :=
  JObj [(cps "created_at_utc", JS "2026-02-12T00:00:00Z");
        (cps "request_id", JStr (as_str (dg example_request "request_id")))].

Definition exec_world1 : World := snd (inference_execute toy_provider exec_input exec_world0).

Definition exec_missing_input : json tfloat :=
  JObj [(cps "created_at_utc", JS "2026-02-12T00:00:00Z"); (cps "request_id", JS "nope")].

Definition exec_prep0 : ExecPrep (F:=tfloat) :=
  res_val {| xp_created_at_utc := []; xp_request_id := []; xp_request_hash := [];
             xp_snapshot_hash := []; xp_provider := []; xp_model := []; xp_temperature := JNull;
             xp_max_tokens := 0; xp_system_prompt := []; xp_user_prompt := [] |}
          (fst (execute_prepare exec_input exec_world0)).

(** The prefixes of the receipt paths and of the error paths. *)
Definition RCPT_PREFIXES : list pystr := [RECEIPTS_DIR ++ [47]].
Definition ERR_PREFIXES : list pystr := [ERRORS_DIR ++ [47]].

(* ------------------------------------------------------------------ *)

(** Notions used to state the laws of the canonical codec. *)
Section CodecLaws.
Context {F : Type} `{FloatModel F}.

(** The value holds a NaN or an infinity somewhere. *)
Fixpoint has_nonfinite (v : json F) : bool :=
  match v with
  | JFloat f => negb (f_finite f)
  | JArr l => (fix go (l : list (json F)) : bool :=
                 match l with [] => false | x :: xs => has_nonfinite x || go xs end) l
  | JObj l => (fix go (l : list (pystr * json F)) : bool :=
                 match l with [] => false | (_, x) :: xs => has_nonfinite x || go xs end) l
  | _ => false
  end.

(** A code point of a Python [str]. *)
Definition is_code_point (c : Z) : bool := (0 <=? c) && (c <=? 1114111).

Fixpoint keys_distinct (ks : list pystr) : bool :=
  match ks with
  | [] => true
  | k :: ks' => forallb (fun k' => negb (str_eqb k k')) ks' && keys_distinct ks'
  end.

(** A value Python can hold: strings are sequences of code points and the
    keys of a dict are distinct. *)
Fixpoint json_wf (v : json F) : bool :=
  match v with
  | JStr s => forallb is_code_point s
  | JArr l => (fix go (l : list (json F)) : bool :=
                 match l with [] => true | x :: xs => json_wf x && go xs end) l
  | JObj l => keys_distinct (map fst l)
              && (fix go (l : list (pystr * json F)) : bool :=
                    match l with
                    | [] => true
                    | (k, x) :: xs => forallb is_code_point k && json_wf x && go xs
                    end) l
  | _ => true
  end.
End CodecLaws.

(** What may follow a value in the output of [json.dumps]: nothing, a
    comma, or a closing bracket or brace. *)
Definition good_rest (r : pystr) : bool :=
  match r with [] => true | c :: _ => (c =? 44) || (c =? 93) || (c =? 125) end.

(** Items ordered by strictly increasing keys. *)
Definition key_lt {A} (a b : pystr * A) : Prop := str_ltb (fst a) (fst b) = true.

(** The first character of an output of [json.dumps]. *)
Definition head_class (c : Z) : Prop :=
  c = 110 \/ c = 116 \/ c = 102 \/ c = 34 \/ c = 91 \/ c = 123 \/ c = 45 \/ 48 <= c <= 57.

(** A value exercising the laws of the codec. *)
Definition codec_example : json tfloat :=
  JObj [(cps "b", JFloat (TFin 2)); (cps "a", JArr [JInt (-17); JStr [120; 10; 34; 233]; JNull; JBool true]);
        (cps "c", JObj [])].
Definition codec_example_text : pystr := res_val [] (canonical_dumps codec_example).


(** ** Definitions used by the further properties *)

(** A computation that leaves the whole world as it found it. *)
Definition leaves_world {A} (c : M A) : Prop := forall w, snd (c w) = w.

(** A request input whose temperature is NaN. *)
Definition nan_request_input : json tfloat :=
  JObj [(cps "created_at_utc", JS "2026-02-12T00:00:00Z");
        (cps "snapshot_hash", JStr HEX_A);
        (cps "provider", JS "openai"); (cps "model", JS "gpt-4o");
        (cps "system_prompt", JS ""); (cps "user_prompt", JS "hello");
        (cps "temperature", JFloat TNaN); (cps "max_tokens", JInt 16);
        (cps "provider_max_tokens_cap", JInt 64)].

(** Its validated fields. *)
Definition nan_request_fields : ReqFields (F:=tfloat) :=
  res_val {| rf_created_at_utc := []; rf_snapshot_hash := []; rf_provider := []; rf_model := [];
             rf_system_prompt := []; rf_user_prompt := []; rf_temperature := JNull;
             rf_max_tokens := 0; rf_cap := 0; rf_request_id := None |}
          (validate_request_fields nan_request_input).

(** The line [json.dumps({"type": c, "text": s}, sort_keys=True, separators=(',', ':'))]
    for code-point strings [c] and [s]. *)
Definition jsonl_line (c s : pystr) : pystr :=
  123 :: 34 :: 116 :: 101 :: 120 :: 116 :: 34 :: 58 :: 34 ::
  (flat_map esc_char s ++ 34 :: 44 :: 34 :: 116 :: 121 :: 112 :: 101 :: 34 :: 58 :: 34 ::
   (flat_map esc_char c ++ [34; 125])).

Section HashRecord.
Context {F : Type} `{FloatModel F} `{Env}.

(** [adam_os.memory.canonical.hash_record_fields] *)
Definition hash_record_fields (record_dict_without_hash : json F) : res pystr :=
  match record_dict_without_hash with
  | JObj d =>
      if dmem d (cps "hash") then raise ValueError "hash_record_fields: input must not contain 'hash' field"
      else hash_of record_dict_without_hash
  | _ => raise TypeError "hash_record_fields: record_dict_without_hash must be dict"
  end.
End HashRecord.

(** [it["type"] == "SOURCE-BASED"], the filter of the canon text. *)
Definition is_source_based (it : pystr * pystr) : bool := str_eqb (fst it) (cps "SOURCE-BASED").

(** The world effects [artifact_sanitize] may have before and after its
    registry append. *)
Definition san_keep (w w' : World) : Prop :=
  w_inf w' = w_inf w /\ w_log w' = w_log w /\ w_art w' = w_art w
  /\ forall q, prefixb (SANITIZED_DIR ++ [47]) q = false -> fs_get (w_files w') q = fs_get (w_files w) q.

Definition san_frame (w w' : World) : Prop :=
  w_inf w' = w_inf w /\ w_log w' = w_log w
  /\ (forall q, prefixb (SANITIZED_DIR ++ [47]) q = false -> fs_get (w_files w') q = fs_get (w_files w) q)
  /\ (w_art w' = w_art w \/ exists r, w_art w' = w_art w ++ [r] /\ r_kind r = cps "SANITIZED").

(** Computations whose every outcome is within [san_keep] or [san_frame]. *)
Definition keeps {A} (c : M A) : Prop := forall w, san_keep w (snd (c w)).
Definition frames {A} (c : M A) : Prop := forall w, san_frame w (snd (c w)).

(** Every successful result of [c] satisfies [P]. *)
Definition ok_post {A} (c : M A) (P : A -> Prop) : Prop :=
  forall w a w', c w = (Ok a, w') -> P a.


(** * Properties *)

(** ** Dictionaries *)

Lemma validate_request_fields_no_id {F} `{FloatModel F} `{Env} (ti : json F) (rf : ReqFields (F:=F)) :
  validate_request_fields ti = Ok rf -> jget ti "request_id" = JNull -> rf_request_id rf = None.
Proof.
  unfold validate_request_fields, jget.
  destruct ti; try discriminate.
  intros V Hn. unfold dg in V. rewrite Hn in V.
  repeat match type of V with
         | (if ?b then _ else _) = _ => destruct b; [discriminate|]
         end.
  inversion V; reflexivity.
Qed.

(** ** C5: the request hash *)

(** C5. Whenever [build_inference_request] accepts its input, the returned
    [request_hash] is the digest of the canonical serialization of the
    returned payload with [request_hash] and [request_id] removed; and when
    the input has no [request_id], the [request_id] field equals
    [request_hash]. *)
Theorem build_inference_request_hash {F} `{FloatModel F} `{Env} ti req :
  build_inference_request ti = Ok req ->
  exists s, canonical_dumps (JObj (dpop (dpop req (cps "request_hash")) (cps "request_id"))) = Ok s
         /\ dg req "request_hash" = JStr (sha256 s)
         /\ (jget ti "request_id" = JNull -> dg req "request_id" = dg req "request_hash").
Proof.
  unfold build_inference_request.
  destruct (validate_request_fields ti) as [rf|] eqn:V; [|discriminate].
  destruct (to_float (rf_temperature rf)) as [t|]; [|discriminate].
  destruct (enforce_policy_gate _ _ t _ _) as [pol|]; [|discriminate].
  unfold hash_of.
  destruct (canonical_dumps (JObj (request_payload _ _ pol _ _))) as [s|] eqn:C; [|discriminate].
  intros E; inversion E; subst req; clear E.
  exists s. split; [|split].
  - exact C.
  - reflexivity.
  - intros Hn. rewrite (validate_request_fields_no_id ti rf V Hn). reflexivity.
Qed.

Lemma build_inference_request_hash_witness :
  build_inference_request example_request_input = Ok example_request /\
  exists s, canonical_dumps (JObj (dpop (dpop example_request (cps "request_hash")) (cps "request_id"))) = Ok s
         /\ dg example_request "request_hash" = JStr (sha256 s)
         /\ (jget example_request_input "request_id" = JNull ->
             dg example_request "request_id" = dg example_request "request_hash").
Proof.
  split; [vm_compute; reflexivity|].
  apply build_inference_request_hash. vm_compute. reflexivity.
Defined.

(** ** Computations that leave the store alone *)

Create HintDb stable.

Lemma stable_ret {A} (a : A) : stable (retM a).
Proof. intro w; repeat split. Qed.

Lemma stable_throw {A} c msg : stable (throw (A:=A) c msg).
Proof. intro w; repeat split. Qed.

Lemma stable_liftR {A} (r : res A) : stable (liftR r).
Proof. intro w; repeat split. Qed.

Lemma stable_bind {A B} (c : M A) (k : A -> M B) :
  stable c -> (forall a, stable (k a)) -> stable (bindM c k).
Proof.
  intros Hc Hk w. unfold bindM.
  destruct (Hc w) as (E1 & E2 & E3).
  destruct (c w) as [[a|e] w']; simpl in *.
  - destruct (Hk a w') as (F1 & F2 & F3). rewrite F1, F2, F3. auto.
  - auto.
Qed.

Lemma stable_check ok c msg : stable (check ok c msg).
Proof. unfold check; destruct ok; [apply stable_ret | apply stable_throw]. Qed.

Lemma stable_file_exists p : stable (file_exists p).
Proof. intro w; repeat split. Qed.

Lemma stable_read_text p : stable (read_text p).
Proof.
  intro w; unfold read_text.
  destruct (fs_get (w_files w) p); [|destruct (is_dir w p)]; repeat split.
Qed.

Lemma stable_mkdir p : stable (mkdir p).
Proof. intro w; repeat split. Qed.

Lemma stable_reg_has {F} `{FloatModel F} which id kind : stable (reg_has (F:=F) which id kind).
Proof. intro w; repeat split. Qed.

Lemma stable_sha256_file `{Env} p : stable (sha256_file p).
Proof. apply stable_bind; [apply stable_read_text | intro; apply stable_ret]. Qed.

Lemma stable_file_size_bytes p : stable (file_size_bytes p).
Proof. apply stable_bind; [apply stable_read_text | intro; apply stable_ret]. Qed.

#[export] Hint Resolve stable_ret stable_throw stable_liftR stable_check stable_file_exists
  stable_read_text stable_mkdir stable_reg_has stable_sha256_file stable_file_size_bytes : stable.

(** Proves [stable] for a composite computation by unfolding its binds. *)
Ltac solve_stable :=
  repeat (apply stable_bind; [|intro]);
  first [ solve [eauto with stable]
        | match goal with
          | |- stable (match ?x with _ => _ end) => destruct x; solve_stable
          | |- stable (if ?b then _ else _) => destruct b; solve_stable
          | |- stable (let '(_, _) := ?x in _) => destruct x as [[? ?] ?]; solve_stable
          end ].

Lemma stable_receipt_prepare {F} `{FloatModel F} `{Env} ti : stable (receipt_prepare (F:=F) ti).
Proof. unfold receipt_prepare. destruct ti; solve_stable. Qed.

(** Splits a hypothesis [run = (r, w)] at its first bind. *)
Ltac split_run H :=
  match type of H with
  | context [match ?c ?w with (_, _) => _ end] =>
      let r := fresh "r" in let w' := fresh "w" in let E := fresh "E" in
      destruct (c w) as [r w'] eqn:E; destruct r; [|try discriminate H]
  end.

Ltac run_all H := repeat (split_run H; simpl in H).

Lemma receipt_fresh_returns {F} `{FloatModel F} `{Env} p w r w' :
  receipt_fresh (F:=F) p w = (Ok r, w') -> obj_keys r = RECEIPT_FRESH_KEYS.
Proof.
  unfold receipt_fresh, bindM. intro R. run_all R.
  unfold retM in R. inversion R. reflexivity.
Qed.

Lemma receipt_idempotent_returns {F} `{FloatModel F} `{Env} p w r w' :
  receipt_idempotent (F:=F) p w = (Ok r, w') -> obj_keys r = RECEIPT_IDEMPOTENT_KEYS.
Proof.
  unfold receipt_idempotent, bindM. intro R. run_all R.
  unfold retM in R. inversion R. reflexivity.
Qed.

Lemma stable_receipt_gate {F} `{FloatModel F} `{Env} p : stable (receipt_gate (F:=F) p).
Proof. unfold receipt_gate. solve_stable. Qed.

Lemma stable_receipt_idempotent {F} `{FloatModel F} `{Env} p : stable (receipt_idempotent (F:=F) p).
Proof. unfold receipt_idempotent. solve_stable. Qed.

(** ** C9: the receipt return values of a fresh and an idempotent call *)

(** C9. If a first call of [inference_receipt_emit] writes the receipt and a
    second call with the same input takes the idempotent path, the second
    call returns exactly the keys artifact_id, kind, receipt_path,
    registry_path, sha256, byte_size, media_type, the first one returns
    these and receipt_hash, request_sha256, result_sha256, so the two
    return values differ, and the second call leaves the artifact files and
    the registries as the first one left them. *)
Theorem receipt_emit_second_call_keys {F} `{FloatModel F} `{Env} (ti : json F) w r1 w1 r2 w2 :
  inference_receipt_emit ti w = (Ok r1, w1) -> receipt_took_gate ti w = false ->
  inference_receipt_emit ti w1 = (Ok r2, w2) -> receipt_took_gate ti w1 = true ->
  obj_keys r1 = RECEIPT_FRESH_KEYS /\ obj_keys r2 = RECEIPT_IDEMPOTENT_KEYS /\ r1 <> r2
  /\ w_files w2 = w_files w1 /\ w_art w2 = w_art w1 /\ w_inf w2 = w_inf w1.
Proof.
  unfold inference_receipt_emit, receipt_took_gate, bindM.
  intros R1 G1 R2 G2.
  destruct (receipt_prepare ti w) as [[p|e] wa]; [|discriminate].
  destruct (receipt_gate p wa) as [[g|e] wb]; [|discriminate].
  subst g. apply receipt_fresh_returns in R1.
  destruct (receipt_prepare ti w1) as [[q|e] wc] eqn:P2; [|discriminate].
  destruct (receipt_gate q wc) as [[g|e] wd] eqn:Q2; [|discriminate].
  subst g.
  destruct (stable_receipt_prepare ti w1) as (A1 & A2 & A3). rewrite P2 in A1, A2, A3.
  destruct (stable_receipt_gate q wc) as (B1 & B2 & B3). rewrite Q2 in B1, B2, B3.
  destruct (stable_receipt_idempotent q wd) as (C1 & C2 & C3). rewrite R2 in C1, C2, C3.
  simpl in *.
  apply receipt_idempotent_returns in R2.
  split; [exact R1|]. split; [exact R2|]. split.
  - intro E. subst r2. rewrite R1 in R2. discriminate R2.
  - repeat split; congruence.
Qed.

Lemma receipt_emit_second_call_keys_witness :
  inference_receipt_emit example_receipt_input example_receipt_world = (Ok receipt_r1, receipt_w1)
  /\ receipt_took_gate example_receipt_input example_receipt_world = false
  /\ inference_receipt_emit example_receipt_input receipt_w1 = (Ok receipt_r2, receipt_w2)
  /\ receipt_took_gate example_receipt_input receipt_w1 = true
  /\ obj_keys receipt_r1 = RECEIPT_FRESH_KEYS /\ obj_keys receipt_r2 = RECEIPT_IDEMPOTENT_KEYS
  /\ receipt_r1 <> receipt_r2 /\ w_files receipt_w2 = w_files receipt_w1
  /\ w_art receipt_w2 = w_art receipt_w1 /\ w_inf receipt_w2 = w_inf receipt_w1.
Proof.
  assert (R1 : inference_receipt_emit example_receipt_input example_receipt_world
               = (Ok receipt_r1, receipt_w1)) by (vm_compute; reflexivity).
  assert (G1 : receipt_took_gate example_receipt_input example_receipt_world = false)
    by (vm_compute; reflexivity).
  assert (R2 : inference_receipt_emit example_receipt_input receipt_w1 = (Ok receipt_r2, receipt_w2))
    by (vm_compute; reflexivity).
  assert (G2 : receipt_took_gate example_receipt_input receipt_w1 = true) by (vm_compute; reflexivity).
  split; [exact R1|]. split; [exact G1|]. split; [exact R2|]. split; [exact G2|].
  exact (receipt_emit_second_call_keys example_receipt_input example_receipt_world
           receipt_r1 receipt_w1 receipt_r2 receipt_w2 R1 G1 R2 G2).
Defined.

(** ** Strings *)

Lemma str_eqb_refl s : str_eqb s s = true.
Proof. induction s; simpl; [reflexivity|]. rewrite Z.eqb_refl. exact IHs. Qed.

Lemma str_eqb_eq a b : str_eqb a b = true -> a = b.
Proof.
  revert b; induction a as [|x a IH]; destruct b as [|y b]; simpl; try discriminate; auto.
  intros E. apply andb_prop in E as [E1 E2]. apply Z.eqb_eq in E1. subst. f_equal. auto.
Qed.

Lemma forallb_rev {A} (f : A -> bool) l : forallb f (rev l) = forallb f l.
Proof.
  induction l as [|a l IH]; simpl; [reflexivity|].
  rewrite forallb_app, IH. simpl. rewrite andb_true_r, andb_comm. reflexivity.
Qed.

Lemma lstrip_blank s : forallb isspace s = false -> forallb isspace (lstrip s) = false.
Proof.
  induction s as [|c s IH]; simpl; [discriminate|].
  destruct (isspace c) eqn:E; simpl; [exact IH|]. intros _. rewrite E. reflexivity.
Qed.

Lemma strip_nonblank s : nonblank s = true -> strip s <> [].
Proof.
  unfold nonblank, strip. intros N E.
  assert (B : forallb isspace (rev (lstrip (rev (lstrip s)))) = false).
  { rewrite forallb_rev. apply lstrip_blank. rewrite forallb_rev. apply lstrip_blank.
    destruct (forallb isspace s); [discriminate|reflexivity]. }
  rewrite E in B. discriminate.
Qed.

Lemma nonblank_nil s : nonblank s = true -> s <> [].
Proof. intros N E; subst; discriminate. Qed.

Lemma is_nonblank_str_inv {F} (v : json F) :
  is_nonblank_str v = true -> exists s, v = JStr s /\ nonblank s = true.
Proof. destruct v; try discriminate. eauto. Qed.

(** ** Files *)

Lemma fs_get_set_same fs p s : fs_get (fs_set fs p s) p = Some s.
Proof.
  induction fs as [|[q t] fs IH]; simpl.
  - rewrite str_eqb_refl. reflexivity.
  - destruct (str_eqb q p) eqn:E; simpl; rewrite ?E; [|exact IH].
    reflexivity.
Qed.

(** ** [artifact_sanitize] *)

Lemma resolve_raw_id {F} `{FloatModel F} `{Env} (d : list (pystr * json F)) rid rp :
  _resolve_raw d = Ok (rid, rp) -> rid <> [].
Proof.
  unfold _resolve_raw. intro R.
  destruct (dget d (cps "raw_artifact_id")) as [| | | | s | |] eqn:A.
  2-7: cbv zeta in R; destruct (is_nonblank_str _) eqn:N; simpl in R; [|discriminate];
       inversion R; subst;
       destruct (is_nonblank_str_inv _ N) as (s' & Es & Ns); inversion Es; subst; simpl;
       apply strip_nonblank; exact Ns.
  destruct (dget d (cps "raw_path")); try discriminate;
  (destruct (is_nonblank_str _); simpl in R; [|discriminate];
   destruct (within_raw_dir _); simpl in R; [|discriminate];
   destruct (path_stem _) eqn:P; [discriminate|]; inversion R; discriminate).
Qed.

Lemma sanitize_prepare_ok {F} `{FloatModel F} `{Env} (ti : json F) w p w1 :
  sanitize_prepare ti w = (Ok p, w1) ->
  sp_created_at_utc p <> [] /\ (exists m, sp_media_type p = JStr m /\ nonblank m = true)
  /\ sp_raw_id p <> [] /\ sp_sanitized_id p <> []
  /\ sp_sanitized_path p = path_join SANITIZED_DIR (sp_sanitized_id p ++ cps ".jsonl").
Proof.
  unfold sanitize_prepare, bindM, check, retM, throw, liftR, file_exists, mkdir.
  intro R. destruct ti; try discriminate R.
  destruct (is_nonblank_str (dget l (cps "created_at_utc"))) eqn:N1; [|discriminate R].
  destruct (is_nonblank_str (get_or l "media_type" (JS "application/jsonl"))) eqn:N2; [|discriminate R].
  destruct (_resolve_raw l) as [[rid rp]|e] eqn:RR; [|discriminate R].
  destruct (path_exists w rp); [|discriminate R].
  destruct (is_nonblank_str (get_or l "sanitized_artifact_id" (JStr (rid ++ cps "--sanitized"))))
    eqn:N3; [|discriminate R].
  inversion R; subst; clear R; simpl.
  destruct (is_nonblank_str_inv _ N1) as (c & Ec & Nc). rewrite Ec.
  destruct (is_nonblank_str_inv _ N2) as (m & Em & Nm). rewrite Em.
  destruct (is_nonblank_str_inv _ N3) as (s & Es & Ns). rewrite Es. simpl.
  repeat split.
  - apply nonblank_nil; exact Nc.
  - exists m; auto.
  - exact (resolve_raw_id _ _ _ RR).
  - apply strip_nonblank; exact Ns.
Qed.

(** ** Running the primitives *)

Lemma bind_ok {A B} (c : M A) (k : A -> M B) w a w' :
  c w = (Ok a, w') -> bindM c k w = k a w'.
Proof. unfold bindM; intros E; rewrite E; reflexivity. Qed.

Lemma read_text_at w p s : fs_get (w_files w) p = Some s -> read_text p w = (Ok s, w).
Proof. unfold read_text; intros E; rewrite E; reflexivity. Qed.

Lemma sha256_file_at `{Env} w p s : fs_get (w_files w) p = Some s -> sha256_file p w = (Ok (sha256 s), w).
Proof. intros E. unfold sha256_file. rewrite (bind_ok _ _ _ _ _ (read_text_at _ _ _ E)). reflexivity. Qed.

Lemma file_size_bytes_at w p s :
  fs_get (w_files w) p = Some s -> file_size_bytes p w = (Ok (utf8_len s), w).
Proof.
  intros E. unfold file_size_bytes. rewrite (bind_ok _ _ _ _ _ (read_text_at _ _ _ E)). reflexivity.
Qed.

Lemma write_text_at w p s :
  is_dir w p = false ->
  write_text p s w = (Ok tt, mkWorld (fs_set (w_files w) p s) (w_dirs w) (w_art w) (w_inf w) (w_log w)).
Proof. unfold write_text; intros E; rewrite E; reflexivity. Qed.

Lemma ret_at {A} (a : A) w : retM a w = (Ok a, w).
Proof. reflexivity. Qed.

Lemma liftR_at {A} (a : A) w : liftR (Ok a) w = (Ok a, w).
Proof. reflexivity. Qed.

Lemma mkdir_at p w :
  mkdir p w = (Ok tt, mkWorld (w_files w) (if existsb (str_eqb p) (w_dirs w) then w_dirs w
                                             else p :: w_dirs w) (w_art w) (w_inf w) (w_log w)).
Proof. reflexivity. Qed.

Lemma push_record_at which r w :
  push_record which r w =
  (Ok tt, match which with
          | ArtifactReg => mkWorld (w_files w) (w_dirs w) (w_art w ++ [r]) (w_inf w) (w_log w)
          | InferenceReg => mkWorld (w_files w) (w_dirs w) (w_art w) (w_inf w ++ [r]) (w_log w)
          end).
Proof. reflexivity. Qed.

Lemma reg_append_at which r w :
  validate_record (allowed_of which) (kinds_msg_of which) r = Ok tt ->
  exists w', reg_append which r w = (Ok tt, w') /\ w_files w' = w_files w
    /\ reg_of which w' = reg_of which w ++ [r]
    /\ (match which with ArtifactReg => w_inf w' = w_inf w | InferenceReg => w_art w' = w_art w end)
    /\ w_log w' = w_log w.
Proof.
  intros V. unfold reg_append. rewrite (bind_ok _ _ _ _ _ (eq_trans (f_equal (fun r => liftR r w) V) (liftR_at tt w))).
  rewrite (bind_ok _ _ _ _ _ (mkdir_at _ _)). rewrite push_record_at.
  destruct which; eexists; (split; [reflexivity|]); simpl; auto.
Qed.

Lemma bind_assoc_at {A B C} (c : M A) (k1 : A -> M B) (k2 : B -> M C) w :
  bindM (bindM c k1) k2 w = bindM c (fun a => bindM (k1 a) k2) w.
Proof. unfold bindM. destruct (c w) as [[a|e] w']; reflexivity. Qed.

Lemma stable_sanitize_prepare {F} `{FloatModel F} `{Env} ti : stable (sanitize_prepare (F:=F) ti).
Proof. unfold sanitize_prepare. destruct ti; solve_stable. Qed.

(** ** C10: sanitize on a RAW text without statements *)

(** C10. When [artifact_sanitize] takes its fresh path on a RAW text that
    splits into no statement (and the platform's digest of the empty text
    has 64 characters, as the registry requires), the call succeeds, the
    SANITIZED file holds the empty text (no newline), and exactly one
    SANITIZED record with byte_size 0 is appended to the artifact registry. *)
Theorem sanitize_empty_output {F} `{FloatModel F} `{Env} (ti : json F) w p w1 raw :
  sanitize_prepare ti w = (Ok p, w1) ->
  sanitize_gate p w1 = (Ok false, w1) ->
  fs_get (w_files w1) (sp_raw_path p) = Some raw ->
  _split_statements raw = [] ->
  is_dir w1 (sp_sanitized_path p) = false ->
  List.length (sha256 []) = 64%nat ->
  exists r w2, artifact_sanitize ti w = (Ok r, w2)
    /\ fs_get (w_files w2) (sp_sanitized_path p) = Some []
    /\ w_art w2 = w_art w ++ [mkRec (sp_sanitized_id p) (cps "SANITIZED") (sp_created_at_utc p)
                                 (sha256 []) 0 (as_str (sp_media_type p)) [sp_raw_id p]
                                 (Some (cps "artifact.sanitize"))
                                 (Some (map cps ["phase7"; "sanitized"]%string))].
Proof.
  intros P G R S D L.
  destruct (sanitize_prepare_ok ti w p w1 P) as (C & (m & Em & Nm) & Ri & Si & Sp).
  destruct (stable_sanitize_prepare ti w) as (_ & A1 & _). rewrite P in A1; simpl in A1.
  unfold artifact_sanitize. rewrite (bind_ok _ _ _ _ _ P), (bind_ok _ _ _ _ _ G).
  unfold sanitize_fresh.
  rewrite (bind_ok _ _ _ _ _ (read_text_at _ _ _ R)), S.
  rewrite (bind_ok _ _ _ _ _ (liftR_at [] w1 : liftR (_to_jsonl (F:=F) []) w1 = (Ok [], w1))).
  rewrite (bind_ok _ _ _ _ _ (write_text_at _ _ _ D)).
  set (w2 := mkWorld _ _ _ _ _).
  assert (G2 : fs_get (w_files w2) (sp_sanitized_path p) = Some []) by apply fs_get_set_same.
  rewrite (bind_ok _ _ _ _ _ (sha256_file_at _ _ _ G2)).
  rewrite (bind_ok _ _ _ _ _ (file_size_bytes_at _ _ _ G2)).
  cbv beta. unfold append_from_file.
  rewrite bind_assoc_at.
  rewrite (bind_ok _ _ _ _ _ (sha256_file_at _ _ _ G2)).
  cbv beta. rewrite bind_assoc_at.
  rewrite (bind_ok _ _ _ _ _ (file_size_bytes_at _ _ _ G2)).
  cbv beta.
  edestruct reg_append_at as (w3 & E3 & F3 & R3 & _).
  2: rewrite (bind_ok _ _ _ _ _ E3).
  - unfold validate_record. simpl. rewrite L, Em. simpl.
    destruct (sp_sanitized_id p); [congruence|].
    destruct (sp_created_at_utc p); [congruence|].
    destruct (sp_raw_id p); [congruence|].
    destruct m; [discriminate|]. reflexivity.
  - eexists; eexists; split; [reflexivity|]. split.
    + rewrite F3. exact G2.
    + simpl in R3. rewrite R3. simpl. rewrite A1. reflexivity.
Qed.

Lemma sanitize_empty_output_witness :
  exists r w2, artifact_sanitize blank_sanitize_input blank_raw_world = (Ok r, w2)
    /\ fs_get (w_files w2) (sp_sanitized_path blank_prep) = Some []
    /\ w_art w2 = w_art blank_raw_world
                  ++ [mkRec (sp_sanitized_id blank_prep) (cps "SANITIZED") (sp_created_at_utc blank_prep)
                        (sha256 []) 0 (as_str (sp_media_type blank_prep)) [sp_raw_id blank_prep]
                        (Some (cps "artifact.sanitize"))
                        (Some (map cps ["phase7"; "sanitized"]%string))].
Proof.
  apply (sanitize_empty_output blank_sanitize_input blank_raw_world blank_prep blank_prep_world
           (cps " 
 ")); vm_compute; reflexivity.
Defined.

(** ** C8: statement classification and the pipeline walk-through *)

(** C8. [_classify] answers QUESTION exactly when the stripped statement
    ends with ['?'] or starts with an interrogative word, whatever
    assumption markers it contains; otherwise a marker gives ASSUMPTION.
    On the RAW text "The sky is blue. What is gamma? Probably tomorrow.",
    sanitize writes exactly the three lines typed SOURCE-BASED, QUESTION,
    ASSUMPTION in this order, and canon_select on its output writes exactly
    the first of them. *)
Theorem classify_question_first_walkthrough :
  (forall (E : Env) stmt,
      _classify stmt = cps "QUESTION" <-> (endswithb [63] (strip stmt) || q_start (strip stmt)) = true)
  /\ (forall (E : Env) stmt,
      (endswithb [63] (strip stmt) || q_start (strip stmt)) = false ->
      existsb (fun m => infixb m (lower (strip stmt))) ASSUMPTION_MARKERS = true ->
      _classify stmt = cps "ASSUMPTION")
  /\ is_ok (fst walk_sanitize_run) = true
  /\ fs_get (w_files (snd walk_sanitize_run)) (cps ".adam_os/artifacts/sanitized/walk--sanitized.jsonl")
     = Some (walk_line1 ++ [10] ++ walk_line2 ++ [10] ++ walk_line3 ++ [10])
  /\ is_ok (fst walk_canon_run) = true
  /\ fs_get (w_files (snd walk_canon_run)) (cps ".adam_os/artifacts/bundles/walk--sanitized--canon.jsonl")
     = Some (walk_line1 ++ [10]).
Proof.
  split; [|split].
  - intros E stmt. unfold _classify.
    destruct (endswithb [63] (strip stmt) || q_start (strip stmt)); [tauto|].
    split; [|discriminate].
    destruct (existsb _ _); discriminate.
  - intros E stmt N A. unfold _classify. rewrite N, A. reflexivity.
  - vm_compute. repeat split.
Qed.

(** ** Computations that never return normally *)

Definition never_ok {A} (c : M A) : Prop := forall w a w', c w <> (Ok a, w').

Lemma never_ok_bind_l {A B} (c : M A) (k : A -> M B) : never_ok c -> never_ok (bindM c k).
Proof.
  intros N w b w' E. unfold bindM in E.
  destruct (c w) as [[a|e] w1] eqn:C; [|discriminate E].
  exact (N w a w1 C).
Qed.

Lemma never_ok_bind_r {A B} (c : M A) (k : A -> M B) : (forall a, never_ok (k a)) -> never_ok (bindM c k).
Proof.
  intros N w b w' E. unfold bindM in E.
  destruct (c w) as [[a|e] w1]; [exact (N a w1 b w' E)|discriminate E].
Qed.

Lemma validate_manifest_kind r :
  r_kind r = cps "SNAPSHOT_MANIFEST" ->
  r_artifact_id r <> [] ->
  validate_record (allowed_of ArtifactReg) (kinds_msg_of ArtifactReg) r
  = Exc (Exn ValueError (cps (kinds_msg_of ArtifactReg))).
Proof.
  intros K I. unfold validate_record. rewrite K.
  destruct (r_artifact_id r); [congruence|]. reflexivity.
Qed.

Lemma append_manifest_never_ok `{Env} id created path media parents notes tags :
  id <> [] ->
  never_ok (append_from_file ArtifactReg id (cps "SNAPSHOT_MANIFEST") created path media parents notes tags).
Proof.
  intros I. unfold append_from_file.
  apply never_ok_bind_r; intro sha. apply never_ok_bind_r; intro size.
  unfold reg_append. apply never_ok_bind_l.
  intros w a w' E. unfold liftR in E. rewrite validate_manifest_kind in E by first [reflexivity | assumption].
  discriminate E.
Qed.

Lemma app_nonnil_r {A} (l r : list A) : r <> [] -> l ++ r <> [].
Proof. destruct l, r; simpl; congruence. Qed.

Lemma snapshot_fresh_body_never_ok {F} `{FloatModel F} `{Env} build openssl p :
  never_ok (snapshot_fresh_body (F:=F) build openssl p).
Proof.
  unfold snapshot_fresh_body.
  apply never_ok_bind_r; intros [tar fc].
  repeat match goal with
         | |- never_ok (bindM (append_from_file _ _ (cps "SNAPSHOT_MANIFEST") _ _ _ _ _ _) _) =>
             apply never_ok_bind_l, append_manifest_never_ok, app_nonnil_r; discriminate
         | |- never_ok (bindM _ _) => apply never_ok_bind_r; intro
         end.
Qed.

Lemma stable_snapshot_prepare {F} `{FloatModel F} `{Env} ti : stable (snapshot_prepare (F:=F) ti).
Proof.
  unfold snapshot_prepare. destruct ti; solve_stable.
  all: match goal with |- stable (match ?x with _ => _ end) => destruct x end; solve_stable.
Qed.

Lemma stable_snapshot_idempotent {F} `{FloatModel F} `{Env} p : stable (snapshot_idempotent (F:=F) p).
Proof.
  unfold snapshot_idempotent. apply stable_bind; [eauto with stable|intro].
  apply stable_bind; [eauto with stable|intro].
  intro w. destruct (fs_get (w_files w) (manifest_path p)) as [t|];
    [destruct (json_loads t) as [[]|]|]; simpl; repeat split.
Qed.

(** ** C7: the manifest record of [snapshot_export] *)

(** C7 (the code diverges from the spec). SNAPSHOT_MANIFEST is not an
    allowed kind of the artifact registry, so the manifest append of the
    fresh path always raises; hence a successful [artifact_snapshot_export]
    never appends any record.  On a concrete fresh export, the call raises
    the registry's kind error after the SNAPSHOT_ARCHIVE record has been
    appended. *)
Theorem snapshot_export_manifest_rejected :
  existsb (str_eqb (cps "SNAPSHOT_MANIFEST")) ART_ALLOWED_KINDS = false
  /\ (forall (F : Type) (FM : FloatModel F) (E : Env) build openssl (ti : json F) w r w',
        artifact_snapshot_export build openssl ti w = (Ok r, w') -> w_art w' = w_art w)
  /\ fst snap_fresh_run = Exc (Exn ValueError (cps (kinds_msg_of ArtifactReg)))
  /\ map r_kind (w_art (snd snap_fresh_run)) = [cps "SNAPSHOT_ARCHIVE"].
Proof.
  split; [reflexivity|]. split; [|vm_compute; split; reflexivity].
  intros F FM E build openssl ti w r w' R.
  unfold artifact_snapshot_export, bindM at 1 in R.
  destruct (snapshot_prepare ti w) as [[p|e] w1] eqn:P; [|discriminate R].
  destruct (stable_snapshot_prepare ti w) as (_ & A1 & _). rewrite P in A1. simpl in A1.
  unfold bindM at 1, file_exists in R.
  destruct (path_exists w1 (snapshot_dir p)).
  - unfold bindM at 1, file_exists in R. unfold bindM at 1, file_exists in R.
    unfold bindM at 1 in R.
    assert (Gs : exists b, (if path_exists w1 (enc_path p) && path_exists w1 (manifest_path p)
              then reg_has (F:=F) ArtifactReg (np_snapshot_id p) (cps "SNAPSHOT_ARCHIVE") else retM false) w1
              = (Ok b, w1)) by (destruct (_ && _); eexists; reflexivity).
    destruct Gs as [b Gb]. rewrite Gb in R. cbv beta iota in R.
    destruct b; [|discriminate R].
    destruct (stable_snapshot_idempotent p w1) as (_ & A2 & _). rewrite R in A2. simpl in A2.
    congruence.
  - unfold bindM at 1, mkdir in R. cbv beta iota in R.
    match type of R with context [match ?x with (_, _) => _ end] => destruct x as [[a|e] w2] eqn:B end.
    + exfalso. exact (snapshot_fresh_body_never_ok _ _ _ _ _ _ B).
    + discriminate R.
Qed.

Lemma snapshot_export_manifest_rejected_witness :
  snap_done_run = (Ok (res_val JNull (fst snap_done_run)), snd snap_done_run)
  /\ w_art (snd snap_done_run) = w_art snap_world_done.
Proof.
  assert (R : snap_done_run = (Ok (res_val JNull (fst snap_done_run)), snd snap_done_run))
    by (vm_compute; reflexivity).
  split; [exact R|].
  destruct snapshot_export_manifest_rejected as (_ & G & _).
  exact (G tfloat tfloat_model toy_env snap_build snap_enc snap_input snap_world_done _ _ R).
Defined.

(** ** C3: the policy gate of [inference.request_emit] *)

Lemma enforce_policy_gate_msg {F} `{FloatModel F} provider model t mt cap e :
  enforce_policy_gate provider model t mt cap = Exc e ->
  exn_cls e = ValueError /\ prefixb (cps "policy_reject:") (exn_msg e) = true.
Proof.
  unfold enforce_policy_gate, raise.
  repeat match goal with |- context [if ?b then _ else _] => destruct b end;
  intro E; inversion E; subst; split; reflexivity.
Qed.

Lemma enforce_policy_gate_rejects {F} `{FloatModel F} provider model t mt cap :
  policy_violation provider model t mt cap = true ->
  exists e, enforce_policy_gate provider model t mt cap = Exc e.
Proof.
  unfold policy_violation, enforce_policy_gate, allowed_models_of, raise.
  destruct (mem_str provider _); cbn [negb orb]; [|eexists; reflexivity].
  destruct (mem_str model _); cbn [negb orb]; [|eexists; reflexivity].
  destruct (f_ltb t f_zero || f_ltb f_one t); cbn [negb orb]; [eexists; reflexivity|].
  intro C. destruct (mt <=? 0); [eexists; reflexivity|].
  destruct (cap <=? 0); [eexists; reflexivity|]. rewrite C. eexists; reflexivity.
Qed.

Lemma validate_request_fields_dict {F} `{FloatModel F} `{Env} (ti : json F) rf :
  validate_request_fields ti = Ok rf -> exists d, ti = JObj d.
Proof. destruct ti; try discriminate. eauto. Qed.

(** C3, counterexample: an input with the unlisted model "gpt-5" but no
    [created_at_utc] is rejected by the field validation, before the policy
    gate, with a message that does not start with "policy_reject:". *)
Lemma request_emit_unlisted_model_counterexample :
  mem_str (cps "gpt-5") (allowed_models_of (cps "openai")) = false
  /\ inference_request_emit unlisted_model_input empty_world
     = (Exc (Exn ValueError (cps "tool_input.created_at_utc must be injected")), empty_world)
  /\ prefixb (cps "policy_reject:") (cps "tool_input.created_at_utc must be injected") = false.
Proof. vm_compute. repeat split. Qed.

(** C3, amended. For every [inference_request_emit] input that passes the
    field validation of [build_inference_request] (its type checks and the
    float conversion of the temperature), and whose stripped model is not in
    the allowlist of its stripped provider, or whose temperature compares
    below 0.0 or above 1.0, or whose max_tokens exceeds
    provider_max_tokens_cap, the call raises a ValueError whose message
    starts with "policy_reject:" and leaves the files, the registries and
    the activity log unchanged. *)
Theorem request_emit_policy_reject {F} `{FloatModel F} `{Env} (ti : json F) w rf t :
  validate_request_fields ti = Ok rf ->
  to_float (rf_temperature rf) = Ok t ->
  policy_violation (strip (rf_provider rf)) (strip (rf_model rf)) t (rf_max_tokens rf) (rf_cap rf) = true ->
  exists msg, inference_request_emit ti w = (Exc (Exn ValueError msg), w)
              /\ prefixb (cps "policy_reject:") msg = true.
Proof.
  intros V T P.
  destruct (validate_request_fields_dict ti rf V) as [d ->].
  destruct (enforce_policy_gate_rejects _ _ _ _ _ P) as [e G].
  destruct (enforce_policy_gate_msg _ _ _ _ _ _ G) as [C M].
  exists (exn_msg e).
  unfold inference_request_emit, build_inference_request.
  rewrite V, T, G. split; [|exact M].
  destruct e as [cls msg]; simpl in *. subst cls. reflexivity.
Qed.

Lemma request_emit_policy_reject_witness :
  validate_request_fields unlisted_model_input_full = Ok unlisted_model_fields
  /\ to_float (rf_temperature unlisted_model_fields) = Ok (TFin 0)
  /\ exists msg, inference_request_emit unlisted_model_input_full empty_world = (Exc (Exn ValueError msg), empty_world)
              /\ prefixb (cps "policy_reject:") msg = true.
Proof.
  assert (V : validate_request_fields unlisted_model_input_full = Ok unlisted_model_fields)
    by (vm_compute; reflexivity).
  assert (T : to_float (rf_temperature unlisted_model_fields) = Ok (TFin 0)) by (vm_compute; reflexivity).
  split; [exact V|]. split; [exact T|].
  apply (request_emit_policy_reject unlisted_model_input_full empty_world unlisted_model_fields (TFin 0) V T).
  vm_compute. reflexivity.
Defined.

(** ** C6: re-running a stage *)

Lemma esc_plain s : forallb json_plain s = true -> flat_map esc_char s = s.
Proof.
  induction s as [|c s IH]; simpl; auto.
  intros Hs. apply andb_true_iff in Hs as [Hc Hs].
  unfold json_plain in Hc. apply andb_true_iff in Hc as [Hc H32].
  apply andb_true_iff in Hc as [H34 H92].
  apply negb_true_iff in H34, H92. apply Z.leb_le in H32.
  unfold esc_char. rewrite H34, H92.
  repeat match goal with |- context [?a =? ?b] =>
    let E := fresh in destruct (Z.eqb_spec a b) as [E|E]; [lia|] end.
  destruct (Z.ltb_spec c 32); [lia|]. simpl. f_equal. auto.
Qed.

Lemma prefixb_app p s : prefixb p (p ++ s) = true.
Proof. induction p; simpl; auto. rewrite Z.eqb_refl; auto. Qed.

Lemma infixb_app_l p a b : infixb p b = true -> infixb p (a ++ b) = true.
Proof. induction a; simpl; auto. intros H. rewrite IHa; auto with bool. Qed.

Lemma infixb_eq p s a b : s = a ++ p ++ b -> infixb p s = true.
Proof.
  intros ->. apply infixb_app_l.
  destruct p as [|z p]; simpl; [destruct b; auto|]. rewrite Z.eqb_refl, prefixb_app. auto.
Qed.

Lemma go_jstrs {F} `{FloatModel F} b l : (fix go (l : list (json F)) : res (list pystr) :=
               match l with
               | [] => Ok []
               | x :: xs =>
                   match json_dumps b x with
                   | Exc e => Exc e
                   | Ok s => match go xs with Ok ss => Ok (s :: ss) | Exc e => Exc e end
                   end
               end) (map JStr l) = Ok (map dumps_str l).
Proof. induction l as [|a l IH]; [reflexivity|]. simpl. rewrite IH. reflexivity. Qed.

(** The canonical line of a record starts with its artifact_id, byte_size,
    created_at_utc and kind, in this order. *)
Lemma rec_line_shape {F} `{FloatModel F} r :
  exists post, rec_line (F:=F) r =
    [123] ++ dumps_str (cps "artifact_id") ++ [58] ++ dumps_str (r_artifact_id r) ++ [44]
    ++ dumps_str (cps "byte_size") ++ [58] ++ int_repr (r_byte_size r) ++ [44]
    ++ dumps_str (cps "created_at_utc") ++ [58] ++ dumps_str (r_created_at_utc r) ++ [44]
    ++ dumps_str (cps "kind") ++ [58] ++ dumps_str (r_kind r) ++ post.
Proof.
  destruct r as [id k ca sha bs mt ps [n|] [t|]];
    unfold rec_line, canonical_dumps, rec_to_dict, jstrs; simpl.
  all: rewrite ?go_jstrs; simpl.
  all: eexists; f_equal; unfold dumps_str; simpl; repeat (rewrite <- app_assoc; simpl); reflexivity.
Qed.

(** [_registry_has] finds every record whose id and kind need no escaping. *)
Lemma registry_has_found {F} `{FloatModel F} reg r id kind :
  In r reg -> r_artifact_id r = id -> r_kind r = kind ->
  forallb json_plain id = true -> forallb json_plain kind = true ->
  registry_has (F:=F) reg id kind = true.
Proof.
  intros Hin Hid Hk Pid Pk. unfold registry_has. apply existsb_exists. exists r. split; [exact Hin|].
  destruct (rec_line_shape (F:=F) r) as [post E]. rewrite E, Hid, Hk.
  apply andb_true_iff; split.
  - apply infixb_app_l. eapply infixb_eq with (a := []).
    unfold dumps_str. rewrite (esc_plain id Pid). simpl. repeat (rewrite <- app_assoc; simpl). reflexivity.
  - do 13 apply infixb_app_l. eapply infixb_eq with (a := []).
    unfold dumps_str. rewrite (esc_plain kind Pk). simpl. repeat (rewrite <- app_assoc; simpl). reflexivity.
Qed.

Lemma has_record_in reg id kind :
  has_record reg id kind = true -> exists r, In r reg /\ r_artifact_id r = id /\ r_kind r = kind.
Proof.
  unfold has_record. intros E. apply existsb_exists in E as [r [Hin E]].
  apply andb_true_iff in E as [E1 E2]. exists r. auto using str_eqb_eq.
Qed.

(** The idempotency gate [path.exists() and _registry_has(...)] passes. *)
Lemma gate_fires {F} `{FloatModel F} which path id kind w s :
  fs_get (w_files w) path = Some s -> has_record (reg_of which w) id kind = true ->
  forallb json_plain id = true -> forallb json_plain kind = true ->
  bindM (file_exists path) (fun ex => if ex then reg_has (F:=F) which id kind else retM false) w
  = (Ok true, w).
Proof.
  intros E R Pid Pk. unfold bindM, file_exists, path_exists. rewrite E.
  destruct (has_record_in _ _ _ R) as (r & Hin & Hid & Hk).
  unfold reg_has. rewrite (registry_has_found _ r id kind Hin Hid Hk Pid Pk). reflexivity.
Qed.

(** The descriptor computed on the idempotent path of a file that exists. *)
Lemma descriptor_at `{Env} {A} path w s (k : pystr -> Z -> A) :
  fs_get (w_files w) path = Some s ->
  (let* sha := sha256_file path in let* size := file_size_bytes path in retM (k sha size)) w
  = (Ok (k (sha256 s) (utf8_len s)), w).
Proof.
  intros E. rewrite (bind_ok _ _ _ _ _ (sha256_file_at _ _ _ E)).
  rewrite (bind_ok _ _ _ _ _ (file_size_bytes_at _ _ _ E)). reflexivity.
Qed.

Lemma stable_error_prepare {F} `{FloatModel F} `{Env} ti : stable (error_prepare (F:=F) ti).
Proof. unfold error_prepare. destruct ti; solve_stable. Qed.

(** ** The engineering log on the idempotent paths *)

Create HintDb logkept.

Lemma log_kept_ret {A} (a : A) : log_kept (retM a).
Proof. intro w; reflexivity. Qed.

Lemma log_kept_throw {A} c msg : log_kept (throw (A:=A) c msg).
Proof. intro w; reflexivity. Qed.

Lemma log_kept_liftR {A} (r : res A) : log_kept (liftR r).
Proof. intro w; reflexivity. Qed.

Lemma log_kept_bind {A B} (c : M A) (k : A -> M B) :
  log_kept c -> (forall a, log_kept (k a)) -> log_kept (bindM c k).
Proof.
  intros Hc Hk w. unfold bindM. specialize (Hc w).
  destruct (c w) as [[a|e] w']; cbn [snd] in *; [rewrite Hk|]; exact Hc.
Qed.

Lemma log_kept_check ok c msg : log_kept (check ok c msg).
Proof. unfold check; destruct ok; [apply log_kept_ret | apply log_kept_throw]. Qed.

Lemma log_kept_file_exists p : log_kept (file_exists p).
Proof. intro w; reflexivity. Qed.

Lemma log_kept_read_text p : log_kept (read_text p).
Proof.
  intro w; unfold read_text.
  destruct (fs_get (w_files w) p); [|destruct (is_dir w p)]; reflexivity.
Qed.

Lemma log_kept_mkdir p : log_kept (mkdir p).
Proof. intro w; reflexivity. Qed.

Lemma log_kept_reg_has {F} `{FloatModel F} which id kind : log_kept (reg_has (F:=F) which id kind).
Proof. intro w; reflexivity. Qed.

Lemma log_kept_sha256_file `{Env} p : log_kept (sha256_file p).
Proof. apply log_kept_bind; [apply log_kept_read_text | intro; apply log_kept_ret]. Qed.

Lemma log_kept_file_size_bytes p : log_kept (file_size_bytes p).
Proof. apply log_kept_bind; [apply log_kept_read_text | intro; apply log_kept_ret]. Qed.

#[export] Hint Resolve log_kept_ret log_kept_throw log_kept_liftR log_kept_check log_kept_file_exists
  log_kept_read_text log_kept_mkdir log_kept_reg_has log_kept_sha256_file log_kept_file_size_bytes : logkept.

Ltac solve_log_kept :=
  repeat (apply log_kept_bind; [|intro]);
  first [ solve [eauto with logkept]
        | match goal with
          | |- log_kept (match ?x with _ => _ end) => destruct x; solve_log_kept
          | |- log_kept (if ?b then _ else _) => destruct b; solve_log_kept
          | |- log_kept (let '(_, _) := ?x in _) => destruct x as [[? ?] ?]; solve_log_kept
          end ].

Lemma log_kept_sanitize_prepare {F} `{FloatModel F} `{Env} ti : log_kept (sanitize_prepare (F:=F) ti).
Proof. unfold sanitize_prepare. destruct ti; solve_log_kept. Qed.

Lemma log_kept_error_prepare {F} `{FloatModel F} `{Env} ti : log_kept (error_prepare (F:=F) ti).
Proof. unfold error_prepare. destruct ti; solve_log_kept. Qed.

Lemma log_kept_receipt_prepare {F} `{FloatModel F} `{Env} ti : log_kept (receipt_prepare (F:=F) ti).
Proof. unfold receipt_prepare. destruct ti; solve_log_kept. Qed.

(** C6, code bug. A second call with the same input is not always a no-op,
    although no two records with equal (artifact_id, kind) may be appended.
    A RAW id holding a double quote defeats the gate of [artifact.sanitize]:
    the registry line escapes the quote, the substring search of
    [_registry_has] misses it, and the second call writes the SANITIZED
    file again and appends a second SANITIZED record although the file and
    its record exist. And [artifact.ingest] has no idempotency gate: run
    twice with the same artifact_id, its second call appends a second RAW
    record although the RAW file and its record exist. *)
Lemma stage_rerun_duplicate_counterexample :
  fs_get (w_files ingest_world1) (cps ".adam_os/artifacts/raw/x.txt") <> None
  /\ has_record (w_art ingest_world1) (cps "x") (cps "RAW") = true
  /\ List.length (w_art ingest_world1) = 1%nat /\ List.length (w_art ingest_world2) = 2%nat
  /\ fs_get (w_files quote_world1) quote_sanitized_path <> None
  /\ has_record (w_art quote_world1) (quote_raw_id ++ cps "--sanitized") (cps "SANITIZED") = true
  /\ List.length (w_art quote_world1) = 1%nat /\ List.length (w_art quote_world2) = 2%nat.
Proof. vm_compute. repeat split; discriminate. Qed.

(** X14: for the gated stages [artifact.sanitize], [inference.error_emit]
    and [inference.receipt_emit]: when the call's input checks pass, the
    target output file exists, the registry holds a record with the
    expected (artifact_id, kind), and the artifact_id has no character that
    JSON escapes (double quote, backslash, control character), the call
    returns a descriptor and changes no file, neither registry and not the
    engineering log. *)
Theorem gated_stage_rerun_unchanged {F} `{FloatModel F} `{Env} :
  (forall (ti : json F) w p w1 s,
     sanitize_prepare ti w = (Ok p, w1) ->
     fs_get (w_files w) (sp_sanitized_path p) = Some s ->
     has_record (w_art w) (sp_sanitized_id p) (cps "SANITIZED") = true ->
     forallb json_plain (sp_sanitized_id p) = true ->
     exists d w2, artifact_sanitize ti w = (Ok d, w2)
       /\ w_files w2 = w_files w /\ w_art w2 = w_art w /\ w_inf w2 = w_inf w
       /\ w_log w2 = w_log w)
  /\ (forall (ti : json F) w p w1 s,
     error_prepare ti w = (Ok p, w1) ->
     fs_get (w_files w) (ep_error_path p) = Some s ->
     has_record (w_inf w) (ep_error_id p) (cps "INFERENCE_ERROR") = true ->
     forallb json_plain (ep_error_id p) = true ->
     exists d w2, inference_error_emit ti w = (Ok d, w2)
       /\ w_files w2 = w_files w /\ w_art w2 = w_art w /\ w_inf w2 = w_inf w
       /\ w_log w2 = w_log w)
  /\ (forall (ti : json F) w p w1 s,
     receipt_prepare ti w = (Ok p, w1) ->
     fs_get (w_files w) (cp2_receipt_path p) = Some s ->
     has_record (w_inf w) (cp2_receipt_id p) (cps "INFERENCE_RECEIPT") = true ->
     forallb json_plain (cp2_receipt_id p) = true ->
     exists d w2, inference_receipt_emit ti w = (Ok d, w2)
       /\ w_files w2 = w_files w /\ w_art w2 = w_art w /\ w_inf w2 = w_inf w
       /\ w_log w2 = w_log w).
Proof.
  split; [|split]; intros ti w p w1 s P E R Pid.
  - destruct (stable_sanitize_prepare ti w) as (A1 & A2 & A3). pose proof (log_kept_sanitize_prepare ti w) as A4.
    rewrite P in A1, A2, A3, A4. simpl in *.
    rewrite <- A1 in E. rewrite <- A2 in R.
    unfold artifact_sanitize. rewrite (bind_ok _ _ _ _ _ P).
    unfold sanitize_gate.
    rewrite (bind_ok _ _ _ _ _ (gate_fires ArtifactReg _ _ _ _ _ E R Pid eq_refl)).
    unfold sanitize_idempotent. rewrite (descriptor_at _ _ _ _ E).
    do 2 eexists. split; [reflexivity|]. auto.
  - destruct (stable_error_prepare ti w) as (A1 & A2 & A3). pose proof (log_kept_error_prepare ti w) as A4.
    rewrite P in A1, A2, A3, A4. simpl in *.
    rewrite <- A1 in E. rewrite <- A3 in R.
    unfold inference_error_emit. rewrite (bind_ok _ _ _ _ _ P).
    unfold error_gate.
    rewrite (bind_ok _ _ _ _ _ (gate_fires InferenceReg _ _ _ _ _ E R Pid eq_refl)).
    unfold error_idempotent. rewrite (descriptor_at _ _ _ _ E).
    do 2 eexists. split; [reflexivity|]. auto.
  - destruct (stable_receipt_prepare ti w) as (A1 & A2 & A3). pose proof (log_kept_receipt_prepare ti w) as A4.
    rewrite P in A1, A2, A3, A4. simpl in *.
    rewrite <- A1 in E. rewrite <- A3 in R.
    unfold inference_receipt_emit. rewrite (bind_ok _ _ _ _ _ P).
    unfold receipt_gate.
    rewrite (bind_ok _ _ _ _ _ (gate_fires InferenceReg _ _ _ _ _ E R Pid eq_refl)).
    unfold receipt_idempotent.
    rewrite (descriptor_at _ _ _ (fun sha size => JObj (receipt_descriptor p sha size)) E).
    do 2 eexists. split; [reflexivity|]. auto.
Qed.

Lemma gated_stage_rerun_unchanged_witness :
  (exists d w2, artifact_sanitize walk_sanitize_input walk_world1 = (Ok d, w2)
     /\ w_files w2 = w_files walk_world1 /\ w_art w2 = w_art walk_world1 /\ w_inf w2 = w_inf walk_world1
     /\ w_log w2 = w_log walk_world1)
  /\ (exists d w2, inference_error_emit err_input err_world1 = (Ok d, w2)
     /\ w_files w2 = w_files err_world1 /\ w_art w2 = w_art err_world1 /\ w_inf w2 = w_inf err_world1
     /\ w_log w2 = w_log err_world1)
  /\ (exists d w2, inference_receipt_emit example_receipt_input receipt_w1 = (Ok d, w2)
     /\ w_files w2 = w_files receipt_w1 /\ w_art w2 = w_art receipt_w1 /\ w_inf w2 = w_inf receipt_w1
     /\ w_log w2 = w_log receipt_w1).
Proof.
  destruct (gated_stage_rerun_unchanged (F:=tfloat)) as (S & Er & Rc).
  split; [|split].
  - apply (S walk_sanitize_input walk_world1 walk_prep2
             (snd (sanitize_prepare walk_sanitize_input walk_world1))
             (file_text walk_world1 (sp_sanitized_path walk_prep2)));
      vm_compute; reflexivity.
  - apply (Er err_input err_world1 err_prep2 (snd (error_prepare err_input err_world1))
             (file_text err_world1 (ep_error_path err_prep2)));
      vm_compute; reflexivity.
  - apply (Rc example_receipt_input receipt_w1 receipt_prep2
             (snd (receipt_prepare example_receipt_input receipt_w1))
             (file_text receipt_w1 (cp2_receipt_path receipt_prep2)));
      vm_compute; reflexivity.
Defined.

(** ** C1: replaying a receipt *)

Lemma check_true c m w : check true c m w = (Ok tt, w).
Proof. reflexivity. Qed.

(** C1, counterexample. Changing a receipt field other than provider does not
    always reach the hash comparison: with request_id set to "tampered" the
    replay fails earlier with "replay_reject: request file missing", and with
    the stored receipt_hash set to "00" with "replay_reject: invalid stored
    receipt_hash", although in both receipts the stored receipt_hash differs
    from the recomputed one. *)
Lemma replay_tamper_counterexample :
  Ok (as_str (dg (tampered_obj "request_id" (JS "tampered")) "receipt_hash"))
    <> hash_of (JObj (dpop (tampered_obj "request_id" (JS "tampered")) (cps "receipt_hash")))
  /\ fst (inference_replay replay_input (tampered_world "request_id" (JS "tampered")))
     = Exc (Exn ValueError (cps "replay_reject: request file missing"))
  /\ Ok (as_str (dg (tampered_obj "receipt_hash" (JS "00")) "receipt_hash"))
    <> hash_of (JObj (dpop (tampered_obj "receipt_hash" (JS "00")) (cps "receipt_hash")))
  /\ fst (inference_replay replay_input (tampered_world "receipt_hash" (JS "00")))
     = Exc (Exn ValueError (cps "replay_reject: invalid stored receipt_hash")).
Proof. vm_compute. repeat split; discriminate. Qed.

(** C1, amended. Once [inference_replay] has loaded the receipt object and
    its checks before the hash comparison pass (kind is inference.receipt,
    the stored receipt_hash is a 64-hex string, request_id, result and
    inputs_sha256 are well formed, the referenced request and result files
    exist and their sha256 digests equal inputs_sha256), the call raises
    ValueError("replay_reject: receipt_hash mismatch") if
    sha256(canonical_dumps(receipt without receipt_hash)) differs from the
    stored receipt_hash, and otherwise returns {status: replay_ok,
    receipt_id, request_sha256, result_sha256, receipt_hash}; it changes
    nothing in either case. *)
Theorem replay_receipt_hash_check {F} `{FloatModel F} `{Env} (d : list (pystr * json F)) w rid text
    obj h rq ro ri io rqtext rstext s (resp : bool) :
  dg d "receipt_id" = JStr rid -> nonblank rid = true ->
  fs_get (w_files w) (path_join RECEIPTS_DIR (strip rid ++ cps ".json")) = Some text ->
  json_loads text = Ok (JObj obj) ->
  dg obj "kind" = JS "inference.receipt" ->
  dg obj "receipt_hash" = JStr h -> _is_hex64 h = true ->
  dg obj "request_id" = JStr rq -> rq <> [] ->
  dg obj "result" = JObj ro -> dg ro "kind" = JS (if resp then "response" else "error") ->
  dg ro "artifact_id" = JStr ri -> ri <> [] ->
  dg obj "inputs_sha256" = JObj io ->
  fs_get (w_files w) (path_join REQUESTS_DIR (rq ++ cps ".json")) = Some rqtext ->
  fs_get (w_files w) (path_join (if resp then RESPONSES_DIR else ERRORS_DIR) (ri ++ cps ".json"))
    = Some rstext ->
  dg io "request_sha256" = JStr (sha256 rqtext) -> dg io "result_sha256" = JStr (sha256 rstext) ->
  canonical_dumps (JObj (dpop obj (cps "receipt_hash"))) = Ok s ->
  inference_replay (JObj d) w =
    (if str_eqb (sha256 s) h
     then Ok (replay_descriptor (strip rid) (sha256 rqtext) (sha256 rstext) (sha256 s))
     else Exc (Exn ValueError (cps "replay_reject: receipt_hash mismatch")), w).
Proof.
  intros Rid NB Ft L K Hh Hx Rq Rqn Ro Rk Ri Rin Io Freq Fres Sq Sr C.
  unfold inference_replay. rewrite Rid. simpl is_nonblank_str. simpl as_str. rewrite NB.
  rewrite (bind_ok _ _ _ _ _ (check_true _ _ _)).
  unfold file_exists at 1. rewrite bind_ok with (a := true) (w' := w)
    by (unfold path_exists; rewrite Ft; reflexivity).
  rewrite (bind_ok _ _ _ _ _ (ret_at _ _)).
  rewrite (bind_ok _ _ _ _ _ (read_text_at _ _ _ Ft)).
  rewrite (bind_ok _ _ _ _ _ (eq_trans (f_equal (fun r => liftR r w) L) (liftR_at _ w))).
  rewrite K. unfold js_eqb, JS. rewrite str_eqb_refl.
  rewrite (bind_ok _ _ _ _ _ (check_true _ _ _)).
  rewrite Hh, Hx. rewrite (bind_ok _ _ _ _ _ (check_true _ _ _)).
  rewrite Rq. destruct rq as [|c rq]; [congruence|].
  rewrite (bind_ok _ _ _ _ _ (check_true _ _ _)).
  rewrite Ro, Io, Rk.
  rewrite bind_ok with (a := tt) (w' := w) by (destruct resp; reflexivity).
  unfold js_eqb, JS.
  assert (KE : str_eqb (cps (if resp then "response" else "error")) (cps "response")
               || str_eqb (cps (if resp then "response" else "error")) (cps "error") = true)
    by (destruct resp; reflexivity).
  rewrite KE. rewrite (bind_ok _ _ _ _ _ (check_true _ _ _)).
  rewrite Ri. destruct ri as [|c' ri]; [congruence|].
  rewrite (bind_ok _ _ _ _ _ (check_true _ _ _)).
  unfold file_exists at 1. rewrite bind_ok with (a := true) (w' := w)
    by (unfold path_exists; simpl as_str; rewrite Freq; reflexivity).
  rewrite (bind_ok _ _ _ _ _ (check_true _ _ _)).
  assert (RP : (if str_eqb (cps (if resp then "response" else "error")) (cps "response")
                then path_join RESPONSES_DIR (as_str (F:=F) (JStr (c' :: ri)) ++ cps ".json")
                else path_join ERRORS_DIR (as_str (F:=F) (JStr (c' :: ri)) ++ cps ".json"))
               = path_join (if resp then RESPONSES_DIR else ERRORS_DIR) ((c' :: ri) ++ cps ".json"))
    by (destruct resp; reflexivity).
  rewrite RP.
  unfold file_exists at 1. rewrite bind_ok with (a := true) (w' := w)
    by (unfold path_exists; rewrite Fres; reflexivity).
  rewrite (bind_ok _ _ _ _ _ (check_true _ _ _)).
  simpl as_str.
  rewrite (bind_ok _ _ _ _ _ (sha256_file_at _ _ _ Freq)).
  rewrite (bind_ok _ _ _ _ _ (sha256_file_at _ _ _ Fres)).
  rewrite Sq, Sr. unfold digest_matches. rewrite !str_eqb_refl.
  rewrite (bind_ok _ _ _ _ _ (check_true _ _ _)).
  rewrite (bind_ok _ _ _ _ _ (check_true _ _ _)).
  unfold hash_of. rewrite C.
  rewrite (bind_ok _ _ _ _ _ (liftR_at _ _)).
  simpl as_str.
  destruct (str_eqb (sha256 s) h); reflexivity.
Qed.

Lemma replay_receipt_hash_check_witness :
  inference_replay replay_input receipt_w1
  = (Ok (replay_descriptor (cps "req1--receipt") (sha256 (cps "{}")) (sha256 (cps "{}"))
           (sha256 (replay_base_text receipt_obj_ex))), receipt_w1)
  /\ inference_replay replay_input (tampered_world "provider" (JS "tampered"))
     = (Exc (Exn ValueError (cps "replay_reject: receipt_hash mismatch")),
        tampered_world "provider" (JS "tampered")).
Proof.
  split.
  - rewrite (replay_receipt_hash_check (dict_of (Ok replay_input)) receipt_w1 (cps "req1--receipt")
      (file_text receipt_w1 receipt_path_ex) receipt_obj_ex
      (as_str (dg receipt_obj_ex "receipt_hash")) (cps "req1") (dict_field receipt_obj_ex "result")
      (cps "resp1") (dict_field receipt_obj_ex "inputs_sha256") (cps "{}") (cps "{}")
      (replay_base_text receipt_obj_ex) true);
      vm_compute; try reflexivity; discriminate.
  - rewrite (replay_receipt_hash_check (dict_of (Ok replay_input)) (tampered_world "provider" (JS "tampered"))
      (cps "req1--receipt")
      (file_text (tampered_world "provider" (JS "tampered")) receipt_path_ex)
      (tampered_obj "provider" (JS "tampered"))
      (as_str (dg (tampered_obj "provider" (JS "tampered")) "receipt_hash")) (cps "req1")
      (dict_field (tampered_obj "provider" (JS "tampered")) "result")
      (cps "resp1") (dict_field (tampered_obj "provider" (JS "tampered")) "inputs_sha256")
      (cps "{}") (cps "{}") (replay_base_text (tampered_obj "provider" (JS "tampered"))) true);
      vm_compute; try reflexivity; discriminate.
Defined.

(* ------------------------------------------------------------------ *)
(** ** C2: the receipt of [inference.execute] *)

(** C2, counterexample. An [inference.execute] call naming a request that was
    never emitted raises ValueError before its [try] and appends no receipt;
    a first call on an emitted request appends one receipt, and a second
    identical call appends nothing. *)
Lemma execute_receipt_count_counterexample :
  fst (inference_execute toy_provider exec_missing_input exec_world0)
    = Exc (Exn ValueError (cps "inference_execute_missing_request: "
                           ++ path_join REQUESTS_DIR (cps "nope.json")))
  /\ w_inf (snd (inference_execute toy_provider exec_missing_input exec_world0)) = w_inf exec_world0
  /\ count_kind (w_inf exec_world0) (cps "INFERENCE_RECEIPT") = 0%nat
  /\ count_kind (w_inf exec_world1) (cps "INFERENCE_RECEIPT") = 1%nat
  /\ w_inf (snd (inference_execute toy_provider exec_input exec_world1)) = w_inf exec_world1.
Proof. vm_compute. repeat split. Qed.

(** *** Strings, paths and files *)
(** ** C2: one receipt per [inference.execute] call *)

(** *** Strings and paths *)

Lemma prefixb_inv p s : prefixb p s = true -> exists t, s = p ++ t.
Proof.
  revert s; induction p as [|x p IH]; intros s H; [exists s; reflexivity|].
  destruct s as [|y s]; [discriminate|]. simpl in H.
  apply andb_prop in H as [E H]. apply Z.eqb_eq in E. subst y.
  destruct (IH s H) as [t ->]. exists t. reflexivity.
Qed.

Lemma prefixb_app_r p t s : prefixb (p ++ t) s = true -> prefixb p s = true.
Proof.
  intro H. destruct (prefixb_inv _ _ H) as [u ->]. rewrite <- app_assoc. apply prefixb_app.
Qed.

(** Two prefixes of one string are comparable. *)
Lemma prefixb_comparable a b s :
  prefixb a s = true -> prefixb b s = true -> prefixb a b = true \/ prefixb b a = true.
Proof.
  revert b s; induction a as [|x a IH]; intros b s Ha Hb; [left; reflexivity|].
  destruct b as [|y b]; [right; reflexivity|].
  destruct s as [|z s]; [discriminate|]. simpl in *.
  apply andb_prop in Ha as [E1 Ha]. apply andb_prop in Hb as [E2 Hb].
  apply Z.eqb_eq in E1, E2. subst x y. rewrite Z.eqb_refl. simpl.
  exact (IH b s Ha Hb).
Qed.

(** A path under [a] and one under [b], for prefixes that diverge, are
    different, and the first is not a directory holding the second. *)
Lemma diverge_paths a b q p t :
  prefixb a q = true -> prefixb b p = true -> prefixb a b = false -> prefixb b a = false ->
  str_eqb p q = false /\ prefixb (q ++ t) p = false.
Proof.
  intros Hq Hp D1 D2. split.
  - destruct (str_eqb p q) eqn:E; [|reflexivity].
    apply str_eqb_eq in E. subst p.
    destruct (prefixb_comparable _ _ _ Hq Hp) as [C|C]; congruence.
  - destruct (prefixb (q ++ t) p) eqn:E; [|reflexivity].
    destruct (prefixb_inv _ _ Hq) as [u ->].
    rewrite <- app_assoc in E. apply prefixb_app_r in E.
    destruct (prefixb_comparable _ _ _ E Hp) as [C|C]; congruence.
Qed.

Lemma under_neq ps q d : under ps q = true -> under ps d = false -> str_eqb q d = false.
Proof.
  intros U D. destruct (str_eqb q d) eqn:E; [|reflexivity].
  apply str_eqb_eq in E. subst. congruence.
Qed.

Lemma under_diverge ps b q p t :
  under ps q = true -> prefixb b p = true ->
  forallb (fun a => negb (prefixb a b) && negb (prefixb b a)) ps = true ->
  str_eqb p q = false /\ prefixb (q ++ t) p = false.
Proof.
  unfold under. intros U Hp D.
  apply existsb_exists in U as [a [Ia Ha]].
  rewrite forallb_forall in D. specialize (D a Ia).
  apply andb_prop in D as [D1 D2]. apply negb_true_iff in D1, D2.
  exact (diverge_paths a b q p t Ha Hp D1 D2).
Qed.

Lemma lstrip_idem s : lstrip (lstrip s) = lstrip s.
Proof.
  induction s as [|c s IH]; simpl; [reflexivity|].
  destruct (isspace c) eqn:E; [exact IH|]. simpl. rewrite E. reflexivity.
Qed.

Lemma lstrip_head s : lstrip s = [] \/ exists c t, lstrip s = c :: t /\ isspace c = false.
Proof.
  induction s as [|c s IH]; simpl; [left; reflexivity|].
  destruct (isspace c) eqn:E; [exact IH|]. right. exists c, s. auto.
Qed.

Lemma lstrip_keep s : (s = [] \/ exists c t, s = c :: t /\ isspace c = false) -> lstrip s = s.
Proof. intros [->|(c & t & -> & E)]; simpl; [reflexivity|]. rewrite E. reflexivity. Qed.

(** [lstrip] keeps a non-space last character. *)
Lemma lstrip_last s c : isspace c = false -> exists t, lstrip (s ++ [c]) = t ++ [c].
Proof.
  intro E. induction s as [|d s IH]; simpl.
  - rewrite E. exists []. reflexivity.
  - destruct (isspace d); [exact IH|]. exists (d :: s). reflexivity.
Qed.

Lemma strip_idem s : strip (strip s) = strip s.
Proof.
  unfold strip. set (u := lstrip s).
  destruct (lstrip_head s) as [Hs|(c & t & Hs & Ec)]; fold u in Hs.
  - rewrite Hs. reflexivity.
  - assert (Hr : rev u = rev t ++ [c]) by (rewrite Hs; reflexivity).
    destruct (lstrip_last (rev t) c Ec) as [v Hv].
    rewrite Hr, Hv.
    assert (Hv' : lstrip (v ++ [c]) = v ++ [c]) by (rewrite <- Hv; apply lstrip_idem).
    rewrite rev_app_distr. simpl. rewrite Ec.
    change (rev (c :: rev v)) with (rev (rev v) ++ [c]).
    rewrite rev_involutive, Hv', rev_app_distr. reflexivity.
Qed.

Lemma nonblank_strip s : nonblank s = true -> nonblank (strip s) = true.
Proof.
  unfold nonblank, strip. intro N. apply negb_true_iff in N. apply negb_true_iff.
  rewrite forallb_rev. apply lstrip_blank. rewrite forallb_rev. apply lstrip_blank. exact N.
Qed.

Lemma nonblank_app_l a b : nonblank a = true -> nonblank (a ++ b) = true.
Proof.
  unfold nonblank. intro N. apply negb_true_iff in N. apply negb_true_iff.
  rewrite forallb_app, N. reflexivity.
Qed.

Lemma nonblank_app_r a b : nonblank b = true -> nonblank (a ++ b) = true.
Proof.
  unfold nonblank. intro N. apply negb_true_iff in N. apply negb_true_iff.
  rewrite forallb_app, N. apply andb_false_r.
Qed.

(** *** Files *)

Lemma fs_get_set_other fs p s q : str_eqb p q = false -> fs_get (fs_set fs p s) q = fs_get fs q.
Proof.
  intro D. induction fs as [|[r t] fs IH]; simpl.
  - rewrite D. reflexivity.
  - destruct (str_eqb r p) eqn:E; simpl.
    + apply str_eqb_eq in E. subst r. rewrite D. reflexivity.
    + rewrite IH. reflexivity.
Qed.

Lemma fs_get_set_mono fs p s q t :
  fs_get fs q = Some t -> exists t', fs_get (fs_set fs p s) q = Some t'.
Proof.
  intro G. destruct (str_eqb p q) eqn:E.
  - apply str_eqb_eq in E. subst. eexists. apply fs_get_set_same.
  - rewrite fs_get_set_other by exact E. eauto.
Qed.

Lemma existsb_fs_set (f : pystr * pystr -> bool) fs p s :
  existsb f (fs_set fs p s) = true -> existsb f fs = true \/ f (p, s) = true.
Proof.
  induction fs as [|[r t] fs IH]; simpl.
  - rewrite orb_false_r. auto.
  - destruct (str_eqb r p) eqn:E; simpl.
    + apply str_eqb_eq in E. subst r. intro H. apply orb_prop in H as [H|H]; [auto|].
      left. rewrite H. apply orb_true_r.
    + intro H. apply orb_prop in H as [H|H]; [rewrite H; auto|].
      destruct (IH H) as [H'|H']; [rewrite H'; rewrite orb_true_r|]; auto.
Qed.

Lemma is_dir_write w p s q :
  is_dir w q = false -> prefixb (q ++ [47]) p = false ->
  is_dir (mkWorld (fs_set (w_files w) p s) (w_dirs w) (w_art w) (w_inf w) (w_log w)) q = false.
Proof.
  unfold is_dir; simpl. intros D P. apply orb_false_iff in D as [D1 D2].
  rewrite D1. simpl.
  destruct (existsb _ (fs_set _ _ _)) eqn:E; [|reflexivity].
  destruct (existsb_fs_set _ _ _ _ E) as [E'|E']; simpl in E'; congruence.
Qed.

Lemma is_dir_mkdir w d q :
  is_dir w q = false -> str_eqb q d = false ->
  is_dir (mkWorld (w_files w) (if existsb (str_eqb d) (w_dirs w) then w_dirs w else d :: w_dirs w)
                  (w_art w) (w_inf w) (w_log w)) q = false.
Proof.
  unfold is_dir; simpl. intros D E. apply orb_false_iff in D as [D1 D2].
  rewrite D2, orb_false_r.
  destruct (existsb (str_eqb d) (w_dirs w)); simpl; rewrite ?E; exact D1.
Qed.

(** *** The frame of the steps before the last receipt emission *)

Lemma exec_frame_refl As Bs w : exec_frame As Bs w w.
Proof.
  unfold exec_frame. split; [eauto|]. split; [exists []; rewrite app_nil_r; auto|]. auto.
Qed.

Lemma exec_frame_trans As Bs w1 w2 w3 :
  exec_frame As Bs w1 w2 -> exec_frame As Bs w2 w3 -> exec_frame As Bs w1 w3.
Proof.
  intros (A1 & (n1 & B1 & C1) & D1 & E1) (A2 & (n2 & B2 & C2) & D2 & E2).
  split; [|split; [|split]].
  - intros p s G. destruct (A1 p s G) as [s' G']. exact (A2 p s' G').
  - exists (n1 ++ n2). rewrite B2, B1, app_assoc. split; [reflexivity|].
    unfold count_kind in *. rewrite filter_app, length_app, C1, C2. reflexivity.
  - auto.
  - auto.
Qed.

Lemma frame_ok_bind_post {A B} As Bs (c : M A) (k : A -> M B) (P : A -> Prop) :
  frame_ok As Bs c -> (forall w a w', c w = (Ok a, w') -> P a) ->
  (forall a, P a -> frame_ok As Bs (k a)) -> frame_ok As Bs (bindM c k).
Proof.
  intros Hc HP Hk w. unfold bindM.
  destruct (Hc w) as [F1 M1].
  destruct (c w) as [[a|e] w'] eqn:E; simpl in *.
  - destruct (Hk a (HP _ _ _ E) w') as [F2 M2]. split; [eapply exec_frame_trans; eauto | exact M2].
  - split; assumption.
Qed.

Lemma frame_ok_bind {A B} As Bs (c : M A) (k : A -> M B) :
  frame_ok As Bs c -> (forall a, frame_ok As Bs (k a)) -> frame_ok As Bs (bindM c k).
Proof.
  intros Hc Hk. apply (frame_ok_bind_post As Bs c k (fun _ => True) Hc); auto.
Qed.

Lemma frame_ok_pure {A} As Bs (c : M A) :
  (forall w, snd (c w) = w) -> (forall w, msg_ok (fst (c w))) -> frame_ok As Bs c.
Proof. intros S Mo w. rewrite S. split; [apply exec_frame_refl | apply Mo]. Qed.

Lemma frame_ok_ret {A} As Bs (a : A) : frame_ok As Bs (retM a).
Proof. apply frame_ok_pure; simpl; auto. Qed.

Lemma frame_ok_throw {A} As Bs c m : nonblank m = true -> frame_ok As Bs (throw (A:=A) c m).
Proof. intro N. apply frame_ok_pure; simpl; auto. Qed.

Lemma frame_ok_liftR {A} As Bs (r : res A) : msg_ok r -> frame_ok As Bs (liftR r).
Proof. intro N. apply frame_ok_pure; simpl; auto. Qed.

Lemma frame_ok_check As Bs ok c msg : nonblank (cps msg) = true -> frame_ok As Bs (check ok c msg).
Proof. intro N. unfold check. destruct ok; [apply frame_ok_ret | apply frame_ok_throw; exact N]. Qed.

Lemma frame_ok_file_exists As Bs p : frame_ok As Bs (file_exists p).
Proof. apply frame_ok_pure; simpl; auto. Qed.

Lemma frame_ok_reg_has {F} `{FloatModel F} As Bs which id kind :
  frame_ok As Bs (reg_has (F:=F) which id kind).
Proof. apply frame_ok_pure; simpl; auto. Qed.

Lemma frame_ok_read_text As Bs p : frame_ok As Bs (read_text p).
Proof.
  apply frame_ok_pure; intro w; unfold read_text.
  - destruct (fs_get (w_files w) p); [|destruct (is_dir w p)]; reflexivity.
  - destruct (fs_get (w_files w) p); [exact I|].
    destruct (is_dir w p); cbn [msg_ok fst exn_msg]; apply nonblank_app_l; reflexivity.
Qed.

Lemma frame_ok_sha256_file `{Env} As Bs p : frame_ok As Bs (sha256_file p).
Proof. apply frame_ok_bind; [apply frame_ok_read_text | intro; apply frame_ok_ret]. Qed.

Lemma frame_ok_file_size_bytes As Bs p : frame_ok As Bs (file_size_bytes p).
Proof. apply frame_ok_bind; [apply frame_ok_read_text | intro; apply frame_ok_ret]. Qed.

Lemma frame_ok_mkdir As Bs d :
  under As d = false -> under Bs d = false -> frame_ok As Bs (mkdir d).
Proof.
  intros UA UB w. simpl. split; [|exact I].
  split; [|split; [|split]]; simpl.
  - eauto.
  - exists []. rewrite app_nil_r. auto.
  - intros q U P. unfold path_exists in *. simpl.
    destruct (fs_get (w_files w) q); [discriminate|].
    apply is_dir_mkdir; [exact P|]. exact (under_neq _ _ _ U UA).
  - intros q U P. apply is_dir_mkdir; [exact P|]. exact (under_neq _ _ _ U UB).
Qed.

Lemma frame_ok_write_text As Bs b p s :
  prefixb b p = true -> forallb (fun a => negb (prefixb a b) && negb (prefixb b a)) (As ++ Bs) = true ->
  frame_ok As Bs (write_text p s).
Proof.
  intros Hb D. rewrite forallb_app in D. apply andb_prop in D as [DA DB].
  intro w. unfold write_text. destruct (is_dir w p) eqn:Dp.
  - split; [apply exec_frame_refl|]. cbn [msg_ok fst exn_msg]. apply nonblank_app_l; reflexivity.
  - simpl. split; [|exact I]. split; [|split; [|split]]; simpl.
    + intros q t G. exact (fs_get_set_mono _ _ _ _ _ G).
    + exists []. rewrite app_nil_r. auto.
    + intros q U P. destruct (under_diverge _ _ _ _ [47] U Hb DA) as [N1 N2].
      unfold path_exists in *. simpl. rewrite fs_get_set_other by exact N1.
      destruct (fs_get (w_files w) q); [discriminate|]. exact (is_dir_write _ _ _ _ P N2).
    + intros q U P. destruct (under_diverge _ _ _ _ [47] U Hb DB) as [N1 N2].
      exact (is_dir_write _ _ _ _ P N2).
Qed.

Lemma frame_ok_append_log_line As Bs line : frame_ok As Bs (append_log_line line).
Proof.
  intro w. simpl. split; [|exact I]. split; [|split; [|split]]; simpl.
  - eauto.
  - exists []. rewrite app_nil_r. auto.
  - intros q _ P. exact P.
  - intros q _ P. exact P.
Qed.

Lemma frame_ok_push_record As Bs which r :
  (which = InferenceReg -> str_eqb (r_kind r) (cps "INFERENCE_RECEIPT") = false) ->
  frame_ok As Bs (push_record which r).
Proof.
  intros K w. simpl. split; [|exact I].
  destruct which; (split; [|split; [|split]]); simpl; eauto.
  - exists []. rewrite app_nil_r. auto.
  - exists [r]. split; [reflexivity|]. unfold count_kind. simpl. rewrite K by reflexivity. reflexivity.
Qed.

Lemma validate_record_msg allowed km r : nonblank (cps km) = true -> msg_ok (validate_record allowed km r).
Proof.
  intro N. unfold validate_record.
  repeat match goal with |- msg_ok (if ?b then _ else _) => destruct b end;
    simpl; first [exact I | exact N | reflexivity].
Qed.

Lemma seq_items_msg (l : list (pystr * res pystr)) :
  Forall (fun kv => msg_ok (snd kv)) l -> msg_ok (seq_items l).
Proof.
  induction 1 as [|[k [s|e]] l H _ IH]; simpl in *; [exact I| |exact H].
  destruct (seq_items l); [exact I | exact IH].
Qed.

Lemma insert_item_Forall {A} (P : pystr * A -> Prop) kv l :
  P kv -> Forall P l -> Forall P (insert_item kv l).
Proof.
  intros Hkv Hl. induction Hl as [|kv' l H Hl IH]; simpl; [constructor; auto|].
  destruct (str_ltb (fst kv) (fst kv')); repeat constructor; auto.
Qed.

Lemma sort_items_Forall {A} (P : pystr * A -> Prop) l : Forall P l -> Forall P (sort_items l).
Proof. induction 1; simpl; [constructor|]. apply insert_item_Forall; auto. Qed.

Lemma json_dumps_msg {F} `{FloatModel F} b (v : json F) : msg_ok (json_dumps b v).
Proof.
  induction v using json_ind'; simpl; try exact I;
    try solve [repeat match goal with |- context [if ?c then _ else _] => destruct c end;
               first [exact I | reflexivity]].
  - match goal with IH : Forall _ ?l |- _ => rename IH into IHl; rename l into ls end.
    match goal with |- msg_ok (match ?g ls with _ => _ end) =>
      assert (G : msg_ok (g ls)); [|destruct (g ls); [exact I|exact G]] end.
    induction IHl as [|x l Hx _ IHl]; [exact I|].
    simpl. destruct (json_dumps b x) as [s|e]; [|exact Hx].
    match goal with |- msg_ok (match ?t with _ => _ end) => destruct t end; [exact I|exact IHl].
  - match goal with IH : Forall _ ?l |- _ => rename IH into IHl; rename l into ls end.
    match goal with |- msg_ok (match seq_items (sort_items (?g ls)) with _ => _ end) =>
      assert (G : Forall (fun kv => msg_ok (snd kv)) (g ls)) end.
    { induction IHl as [|[k x] l Hx _ IHl]; simpl; constructor; auto. }
    apply sort_items_Forall, seq_items_msg in G.
    destruct (seq_items _); [exact I|exact G].
Qed.

Lemma frame_ok_reg_append As Bs which r :
  under As (root_of which) = false -> under Bs (root_of which) = false ->
  (which = InferenceReg -> str_eqb (r_kind r) (cps "INFERENCE_RECEIPT") = false) ->
  frame_ok As Bs (reg_append which r).
Proof.
  intros UA UB K. unfold reg_append.
  apply frame_ok_bind; [apply frame_ok_liftR, validate_record_msg; destruct which; reflexivity|intros _].
  apply frame_ok_bind; [apply frame_ok_mkdir; assumption|intros _].
  apply frame_ok_push_record; exact K.
Qed.

Lemma frame_ok_append_from_file `{Env} As Bs which id kind c fp mt parents notes tags :
  under As (root_of which) = false -> under Bs (root_of which) = false ->
  (which = InferenceReg -> str_eqb kind (cps "INFERENCE_RECEIPT") = false) ->
  frame_ok As Bs (append_from_file which id kind c fp mt parents notes tags).
Proof.
  intros UA UB K. unfold append_from_file.
  apply frame_ok_bind; [apply frame_ok_sha256_file|intro].
  apply frame_ok_bind; [apply frame_ok_file_size_bytes|intro].
  apply frame_ok_reg_append; assumption.
Qed.

Lemma frame_ok_append_engineering_event {F} `{FloatModel F} As Bs (ev : list (pystr * json F)) :
  under As ACTIVITY_LOG_DIR = false -> under Bs ACTIVITY_LOG_DIR = false ->
  frame_ok As Bs (append_engineering_event ev).
Proof.
  intros UA UB. unfold append_engineering_event.
  apply frame_ok_bind.
  { apply frame_ok_liftR. unfold validate_event.
    repeat match goal with |- msg_ok (if ?b then _ else _) => destruct b end;
      first [exact I | reflexivity]. }
  intros _. apply frame_ok_bind; [apply frame_ok_mkdir; assumption|intros _].
  apply frame_ok_bind; [apply frame_ok_liftR, json_dumps_msg|intro].
  apply frame_ok_append_log_line.
Qed.

Lemma frame_ok_log_tool_execution {F} `{FloatModel F} As Bs c tn st rid aid eid (extra : list (pystr * json F)) :
  under As ACTIVITY_LOG_DIR = false -> under Bs ACTIVITY_LOG_DIR = false ->
  frame_ok As Bs (log_tool_execution c tn st rid aid eid extra).
Proof. intros UA UB. apply frame_ok_append_engineering_event; assumption. Qed.

Create HintDb frame.
#[export] Hint Resolve frame_ok_ret frame_ok_throw frame_ok_liftR frame_ok_check frame_ok_file_exists
  frame_ok_reg_has frame_ok_read_text frame_ok_sha256_file frame_ok_file_size_bytes frame_ok_mkdir
  frame_ok_append_from_file frame_ok_log_tool_execution json_dumps_msg : frame.
#[export] Hint Extern 1 (nonblank _ = true) =>
  first [reflexivity | apply nonblank_app_l; reflexivity] : frame.
#[export] Hint Extern 1 (under _ _ = false) => reflexivity : frame.
#[export] Hint Extern 1 (_ = InferenceReg -> str_eqb _ _ = false) => intros _; reflexivity : frame.
#[export] Hint Extern 1 (msg_ok (Ok _)) => exact I : frame.

(** Proves [frame_ok] for a composite step by unfolding its binds. *)
Ltac solve_frame_with t :=
  first [ solve [t]
        | solve [eauto with frame]
        | apply frame_ok_bind; [solve_frame_with t | intro; cbv beta; solve_frame_with t]
        | match goal with
          | |- frame_ok _ _ (match ?x with _ => _ end) => destruct x; solve_frame_with t
          | |- frame_ok _ _ (if ?b then _ else _) => destruct b; solve_frame_with t
          end ].

Ltac solve_frame := solve_frame_with fail.

Lemma response_prepare_path {F} `{FloatModel F} `{Env} (ti : json F) w p w' :
  response_prepare ti w = (Ok p, w') -> prefixb (RESPONSES_DIR ++ [47]) (sp2_response_path p) = true.
Proof.
  unfold response_prepare, bindM, check, retM, throw, mkdir. intro R.
  destruct ti; try discriminate R.
  repeat match type of R with context [if ?b then _ else _] => destruct b; try discriminate R end;
  inversion R; subst; cbn [sp2_response_path ep_error_path]; unfold path_join; rewrite app_assoc; apply prefixb_app.
Qed.

Lemma error_prepare_path {F} `{FloatModel F} `{Env} (ti : json F) w p w' :
  error_prepare ti w = (Ok p, w') -> prefixb (ERRORS_DIR ++ [47]) (ep_error_path p) = true.
Proof.
  unfold error_prepare, bindM, check, retM, throw, mkdir. intro R.
  destruct ti; try discriminate R.
  repeat match type of R with context [if ?b then _ else _] => destruct b; try discriminate R end;
  inversion R; subst; cbn [sp2_response_path ep_error_path]; unfold path_join; rewrite app_assoc; apply prefixb_app.
Qed.


(** [inference_response_emit] keeps receipt paths absent and error paths
    non-directories, and appends no receipt. *)
Lemma frame_response_emit {F} `{FloatModel F} `{Env} (ti : json F) :
  frame_ok RCPT_PREFIXES ERR_PREFIXES (inference_response_emit ti).
Proof.
  unfold inference_response_emit.
  eapply frame_ok_bind_post; [| exact (response_prepare_path ti) |].
  { unfold response_prepare. solve_frame. }
  intros p Hp. apply frame_ok_bind; [unfold response_gate; solve_frame|intros g].
  destruct g.
  - unfold response_idempotent, response_log. solve_frame.
  - unfold response_fresh, response_log.
    solve_frame_with ltac:(apply (frame_ok_write_text _ _ _ _ _ Hp); reflexivity).
Qed.

Lemma frame_error_emit {F} `{FloatModel F} `{Env} (ti : json F) :
  frame_ok RCPT_PREFIXES [] (inference_error_emit ti).
Proof.
  unfold inference_error_emit.
  eapply frame_ok_bind_post; [| exact (error_prepare_path ti) |].
  { unfold error_prepare. solve_frame. }
  intros p Hp. apply frame_ok_bind; [unfold error_gate; solve_frame|intros g].
  destruct g.
  - unfold error_idempotent. solve_frame.
  - unfold error_fresh.
    solve_frame_with ltac:(apply (frame_ok_write_text _ _ _ _ _ Hp); reflexivity).
Qed.

(** *** What [execute_prepare] establishes *)

Lemma execute_prepare_post {F} `{FloatModel F} `{Env} (ti : json F) w x w1 :
  execute_prepare ti w = (Ok x, w1) ->
  w1 = w /\ nonblank (xp_created_at_utc x) = true /\ nonblank (xp_request_id x) = true
  /\ strip (xp_request_id x) = xp_request_id x
  /\ nonblank (xp_provider x) = true /\ nonblank (xp_model x) = true
  /\ exists s, fs_get (w_files w) (path_join REQUESTS_DIR (xp_request_id x ++ cps ".json")) = Some s.
Proof.
  unfold execute_prepare, _load_request, bindM, check, retM, throw, liftR, file_exists, read_text.
  intro R. destruct ti; try discriminate R.
  destruct (is_nonblank_str (dg l "created_at_utc")) eqn:N1; [|discriminate R].
  destruct (is_nonblank_str (dg l "request_id")) eqn:N2; [|discriminate R].
  destruct (path_exists w _); [|discriminate R].
  destruct (fs_get (w_files w) _) as [txt|] eqn:G; [|destruct (is_dir w _); discriminate R].
  destruct (json_loads txt) as [obj|e]; [|discriminate R].
  destruct obj; try discriminate R.
  destruct (dg l0 "kind"); try discriminate R.
  destruct (str_eqb _ _); [|discriminate R].
  destruct (is_nonblank_str (dg l0 "provider")) eqn:N3; [|discriminate R].
  destruct (is_nonblank_str (dg l0 "model")) eqn:N4; [|discriminate R].
  repeat match type of R with
         | context [match ?c with Ok _ => _ | Exc _ => _ end] => destruct c; try discriminate R
         | context [if ?b then _ else _] => destruct b; try discriminate R
         end.
  inversion R; subst; clear R; cbn [xp_created_at_utc xp_request_id xp_provider xp_model].
  destruct (is_nonblank_str_inv _ N1) as (c & -> & Nc).
  destruct (is_nonblank_str_inv _ N2) as (r & Er & Nr). rewrite Er in G |- *.
  destruct (is_nonblank_str_inv _ N3) as (pv & -> & Np).
  destruct (is_nonblank_str_inv _ N4) as (m & -> & Nm).
  cbn [as_str] in *.
  repeat split; try (apply nonblank_strip; assumption).
  - apply strip_idem.
  - eexists; exact G.
Qed.

(** *** Files a successful emission leaves behind *)

Lemma frame_ok_write_text_nil p s : frame_ok [] [] (write_text p s).
Proof. apply (frame_ok_write_text [] [] [] p s); reflexivity. Qed.

#[export] Hint Resolve frame_ok_write_text_nil : frame.

Lemma frame_files {A} (c : M A) w p s :
  frame_ok [] [] c -> fs_get (w_files w) p = Some s -> exists s', fs_get (w_files (snd (c w))) p = Some s'.
Proof. intros Fr G. destruct (Fr w) as [(F1 & _) _]. exact (F1 p s G). Qed.

Lemma sha_then_exists `{Env} {B} p (k : pystr -> M B) w v w' :
  bindM (sha256_file p) k w = (Ok v, w') -> (forall a, frame_ok [] [] (k a)) ->
  exists s, fs_get (w_files w') p = Some s.
Proof.
  unfold sha256_file, bindM, read_text, retM. intros R Fk.
  destruct (fs_get (w_files w) p) as [t|] eqn:G; [|destruct (is_dir w p); discriminate R].
  pose proof (frame_files (k (sha256 t)) w p t (Fk _) G) as E. rewrite R in E. exact E.
Qed.

Lemma write_then_exists {B} p s (k : unit -> M B) w v w' :
  bindM (write_text p s) k w = (Ok v, w') -> frame_ok [] [] (k tt) ->
  exists s', fs_get (w_files w') p = Some s'.
Proof.
  unfold write_text, bindM. intros R Fk.
  destruct (is_dir w p); [discriminate R|].
  pose proof (frame_files (k tt) (mkWorld (fs_set (w_files w) p s) (w_dirs w) (w_art w) (w_inf w) (w_log w))
                p s Fk (fs_get_set_same _ _ _)) as E.
  rewrite R in E. exact E.
Qed.

Lemma response_prepare_facts {F} `{FloatModel F} `{Env} (d : list (pystr * json F)) w p w1 :
  response_prepare (JObj d) w = (Ok p, w1) ->
  is_nonblank_str (dg d "model") = true
  /\ sp2_response_path p
     = path_join RESPONSES_DIR
         (strip (as_str (get_or d "response_id" (JStr (as_str (dg d "request_id") ++ cps "--response"))))
          ++ cps ".json").
Proof.
  unfold response_prepare, bindM, check, retM, throw, mkdir. intro R.
  repeat match type of R with context [if ?b then _ else _] => destruct b eqn:?; try discriminate R end;
  inversion R; subst; auto.
Qed.

Lemma get_or_str {F} `{FloatModel F} (d : list (pystr * json F)) k i dflt :
  dg d k = JStr i -> i <> [] -> get_or d k dflt = JStr i.
Proof.
  unfold get_or, dg. intros E N. rewrite E. destruct i; [congruence|]. reflexivity.
Qed.

Lemma response_emit_ok_post {F} `{FloatModel F} `{Env} (d : list (pystr * json F)) w v w' i :
  inference_response_emit (JObj d) w = (Ok v, w') -> dg d "response_id" = JStr i -> i <> [] ->
  is_nonblank_str (dg d "model") = true
  /\ exists s, fs_get (w_files w') (path_join RESPONSES_DIR (strip i ++ cps ".json")) = Some s.
Proof.
  intros R Ei Ni. unfold inference_response_emit, bindM at 1 in R.
  destruct (response_prepare (JObj d) w) as [[p|e] w1] eqn:P; [|discriminate R].
  destruct (response_prepare_facts _ _ _ _ P) as [Nm Hp].
  rewrite (get_or_str _ _ _ _ Ei Ni) in Hp. cbn [as_str] in Hp.
  split; [exact Nm|]. rewrite <- Hp.
  unfold bindM at 1 in R.
  destruct (response_gate p w1) as [[g|e] w2]; [|discriminate R].
  destruct g.
  - unfold response_idempotent in R.
    apply (sha_then_exists _ _ _ _ _ R). intro a; cbv beta. unfold response_log. solve_frame.
  - unfold response_fresh, bindM at 1 in R.
    destruct (liftR (json_dumps true (response_obj p)) w2) as [[txt|e] w3] eqn:L; [|discriminate R].
    apply (write_then_exists _ _ _ _ _ _ R). unfold response_log. solve_frame.
Qed.

(** *** Running an emission that succeeds *)

Lemma utf8_len_nonneg s : 0 <= utf8_len s.
Proof.
  induction s as [|c s IH]; simpl; [lia|].
  destruct (c <? 128); [|destruct (c <? 2048); [|destruct (c <? 65536)]]; lia.
Qed.

Lemma str_eqb_app_long a b : b <> [] -> str_eqb (a ++ b) a = false.
Proof.
  intro N. induction a as [|x a IH]; simpl.
  - destruct b; [congruence|reflexivity].
  - rewrite Z.eqb_refl. exact IH.
Qed.

Lemma truthy_str {F} `{FloatModel F} (i : pystr) : i <> [] -> truthy (F:=F) (JStr i) = true.
Proof. destruct i; [congruence|reflexivity]. Qed.

Lemma path_exists_file w p s : fs_get (w_files w) p = Some s -> path_exists w p = true.
Proof. unfold path_exists. intro G. rewrite G. reflexivity. Qed.

Lemma path_exists_not_file w p : path_exists w p = true -> is_dir w p = false ->
  exists s, fs_get (w_files w) p = Some s.
Proof.
  unfold path_exists. destruct (fs_get (w_files w) p); [eauto|congruence].
Qed.

Lemma validate_inference_ok (r : RegRecord) :
  r_artifact_id r <> [] -> existsb (str_eqb (r_kind r)) INF_ALLOWED_KINDS = true ->
  r_created_at_utc r <> [] -> List.length (r_sha256 r) = 64%nat -> 0 <= r_byte_size r ->
  r_media_type r <> [] -> forallb (fun p => match p with [] => false | _ => true end) (r_parent_artifact_ids r) = true ->
  r_tags r = Some (map cps ["phase8"; "inference"; "receipt"]%string)
  \/ r_tags r = Some (map cps ["phase8"; "inference"; "error"]%string) ->
  validate_record (allowed_of InferenceReg) (kinds_msg_of InferenceReg) r = Ok tt.
Proof.
  destruct r as [id k c sha sz mt ps n t]; unfold validate_record, allowed_of, kinds_msg_of;
    cbn [r_artifact_id r_kind r_created_at_utc r_sha256 r_byte_size r_media_type
         r_parent_artifact_ids r_tags].
  intros I K C L S Mt P T.
  destruct id; [congruence|]. rewrite K. destruct c; [congruence|]. rewrite L.
  destruct (sz <? 0) eqn:E; [lia|]. destruct mt; [congruence|]. rewrite P.
  destruct T as [T|T]; rewrite T; reflexivity.
Qed.

Lemma nonblank_nonnil s : nonblank s = true -> s <> [].
Proof. intros N E; subst; discriminate. Qed.

Lemma strip_nonnil_app s t : nonblank t = true -> strip (s ++ t) <> [].
Proof. intro N. apply strip_nonblank, nonblank_app_r, N. Qed.

(** *** Successful emissions and the execute call *)

Lemma seq_items_ok (l : list (pystr * res pystr)) :
  Forall (fun kv => is_ok (snd kv) = true) l -> is_ok (seq_items l) = true.
Proof.
  induction 1 as [|[k [s|e]] l H _ IH]; simpl in *; [reflexivity| |discriminate H].
  destruct (seq_items l); [reflexivity | exact IH].
Qed.

Lemma json_dumps_true_ok {F} `{FloatModel F} (v : json F) : is_ok (json_dumps true v) = true.
Proof.
  induction v using json_ind'; simpl; try reflexivity;
    try solve [repeat match goal with |- context [if ?c then _ else _] => destruct c end;
               reflexivity].
  - match goal with IH : Forall _ ?l |- _ => rename IH into IHl; rename l into ls end.
    match goal with |- is_ok (match ?g ls with _ => _ end) = true =>
      assert (G : is_ok (g ls) = true); [|destruct (g ls); [reflexivity|exact G]] end.
    induction IHl as [|x l Hx _ IHl]; [reflexivity|].
    simpl. destruct (json_dumps true x) as [s|e]; [|discriminate Hx].
    match goal with |- is_ok (match ?t with _ => _ end) = true => destruct t end;
      [reflexivity|exact IHl].
  - match goal with IH : Forall _ ?l |- _ => rename IH into IHl; rename l into ls end.
    match goal with |- is_ok (match seq_items (sort_items (?g ls)) with _ => _ end) = true =>
      assert (G : Forall (fun kv => is_ok (snd kv) = true) (g ls)) end.
    { induction IHl as [|[k x] l Hx _ IHl]; simpl; constructor; auto. }
    apply sort_items_Forall, seq_items_ok in G.
    destruct (seq_items _); [reflexivity|exact G].
Qed.

Lemma error_emit_ok {F} `{FloatModel F} `{Env} (d : list (pystr * json F)) w
    c r h1 h2 pv m et msg eid :
  dg d "created_at_utc" = JStr c -> nonblank c = true ->
  dg d "request_id" = JStr r -> nonblank r = true ->
  dg d "request_hash" = JStr h1 -> List.length h1 = 64%nat ->
  dg d "snapshot_hash" = JStr h2 -> List.length h2 = 64%nat ->
  dg d "provider" = JStr pv -> nonblank pv = true ->
  dg d "model" = JStr m -> nonblank m = true ->
  dg d "error_type" = JStr et -> nonblank et = true ->
  dg d "message" = JStr msg -> nonblank msg = true ->
  dg d "details" = JNull -> dg d "error_id" = JStr eid -> nonblank eid = true ->
  dg d "media_type" = JNull ->
  (forall s, List.length (sha256 s) = 64%nat) ->
  is_dir w (path_join ERRORS_DIR (strip eid ++ cps ".json")) = false ->
  exists v w', inference_error_emit (JObj d) w = (Ok v, w')
    /\ exists s, fs_get (w_files w') (path_join ERRORS_DIR (strip eid ++ cps ".json")) = Some s.
Proof.
  intros Hc Nc Hr Nr Hh1 Lh1 Hh2 Lh2 Hp Np Hm Nm Het Net Hmsg Nmsg Hdet Heid Neid Hmt Hsha Hdir.
  unfold inference_error_emit, error_prepare, get_or.
  unfold dg in *.
  rewrite Hc, Hr, Hh1, Hh2, Hp, Hm, Het, Hmsg, Hdet, Heid, Hmt.
  cbn [is_nonblank_str is_len64_str].
  rewrite (truthy_str eid (nonblank_nonnil _ Neid)).
  cbn [is_nonblank_str].
  rewrite ?Nc, ?Nr, ?Lh1, ?Lh2, ?Np, ?Nm, ?Net, ?Nmsg, ?Neid. cbn [Nat.eqb truthy as_str].
  unfold error_gate, error_idempotent, error_fresh, file_exists, reg_has.
  assert (is_nonblank_str (F:=F) (JS "application/json") = true) as -> by reflexivity.
  cbv beta iota zeta delta [bindM check retM mkdir].
  cbn [ep_error_path ep_error_id ep_created_at_utc ep_media_type ep_request_id].

  set (W1 := mkWorld (w_files w) (if existsb (str_eqb ERRORS_DIR) (w_dirs w) then w_dirs w
                                    else ERRORS_DIR :: w_dirs w) (w_art w) (w_inf w) (w_log w)).
  set (P := path_join ERRORS_DIR (strip eid ++ cps ".json")).
  assert (HD1 : is_dir W1 P = false).
  { apply is_dir_mkdir; [exact Hdir|]. unfold P, path_join. apply str_eqb_app_long. discriminate. }
  destruct (path_exists W1 P) eqn:PE; cbv beta iota;
    [destruct (registry_has _ _ _) eqn:RH; cbv beta iota|].
  1: { destruct (path_exists_not_file _ _ PE HD1) as [s G].
       rewrite (sha256_file_at _ _ _ G), (file_size_bytes_at _ _ _ G).
       eexists _, _; split; [reflexivity|]. exists s. exact G. }
  all: pose proof (json_dumps_true_ok (error_obj {|
           ep_created_at_utc := c; ep_request_id := r; ep_request_hash := h1;
           ep_snapshot_hash := h2; ep_provider := pv; ep_model := m; ep_error_type := et;
           ep_message := msg; ep_details := None; ep_error_id := strip eid;
           ep_media_type := JS "application/json"; ep_error_path := P |})) as J.
  all: destruct (json_dumps true _) as [txt|e]; [|discriminate J]; cbv beta iota delta [liftR].
  all: rewrite (write_text_at _ _ _ HD1); cbv beta iota.
  all: set (W2 := mkWorld (fs_set (w_files W1) P (txt ++ [10])) (w_dirs W1) (w_art W1) (w_inf W1) (w_log W1)).
  all: assert (G2 : fs_get (w_files W2) P = Some (txt ++ [10])) by apply fs_get_set_same.
  all: rewrite (sha256_file_at _ _ _ G2), (file_size_bytes_at _ _ _ G2); cbv beta iota.
  all: unfold append_from_file;
    rewrite (bind_ok _ _ _ _ _ (sha256_file_at _ _ _ G2)), (bind_ok _ _ _ _ _ (file_size_bytes_at _ _ _ G2)).
  all: match goal with |- context [reg_append InferenceReg ?rr ?ww] =>
         destruct (reg_append_at InferenceReg rr ww) as (w3 & R3 & F3 & _) end.
  all: try (apply validate_inference_ok; cbn [r_artifact_id r_kind r_created_at_utc r_sha256
          r_byte_size r_media_type r_parent_artifact_ids r_tags];
       [ exact (strip_nonblank _ Neid) | reflexivity | exact (nonblank_nonnil _ Nc) | apply Hsha
       | apply utf8_len_nonneg | discriminate
       | cbn [forallb]; destruct (strip r) eqn:E; [exfalso; exact (strip_nonblank r Nr E)|reflexivity]
       | right; reflexivity ]).
  all: rewrite R3; cbv beta iota.
  all: eexists _, _; split; [reflexivity|]; exists (txt ++ [10]); rewrite F3; exact G2.
Qed.

Lemma is_hex64_len `{Env} s : _is_hex64 s = true -> List.length s = 64%nat.
Proof. unfold _is_hex64. intro E. apply andb_prop in E as [E _]. apply Nat.eqb_eq, E. Qed.

Lemma receipt_hash_ok {F} `{FloatModel F} `{Env} (p : RcptPrep (F:=F)) a b :
  is_ok (hash_of (JObj (receipt_base p a b))) = true.
Proof. destruct p. reflexivity. Qed.

Lemma path_exists_mkdir w d q :
  path_exists w q = false -> str_eqb q d = false ->
  path_exists (mkWorld (w_files w) (if existsb (str_eqb d) (w_dirs w) then w_dirs w else d :: w_dirs w)
                       (w_art w) (w_inf w) (w_log w)) q = false.
Proof.
  unfold path_exists; cbn [w_files]. destruct (fs_get (w_files w) q); [discriminate|].
  apply is_dir_mkdir.
Qed.

Lemma path_exists_is_dir w q : path_exists w q = false -> is_dir w q = false.
Proof. unfold path_exists. destruct (fs_get (w_files w) q); [discriminate|auto]. Qed.

Lemma receipt_emit_fresh_ok {F} `{FloatModel F} `{Env} (d : list (pystr * json F)) w
    (resp : bool) c r h1 h2 pv m i s0 s1 :
  dg d "created_at_utc" = JStr c -> nonblank c = true ->
  dg d "request_id" = JStr r -> nonblank r = true ->
  dg d "request_hash" = JStr h1 -> _is_hex64 h1 = true ->
  dg d "snapshot_hash" = JStr h2 -> _is_hex64 h2 = true ->
  dg d "provider" = JStr pv -> nonblank pv = true ->
  dg d "model" = JStr m -> nonblank m = true ->
  dg d "response_id" = (if resp then JStr i else JNull) ->
  dg d "error_id" = (if resp then JNull else JStr i) -> nonblank i = true ->
  dg d "receipt_id" = JNull -> dg d "media_type" = JNull ->
  (forall s, List.length (sha256 s) = 64%nat) ->
  fs_get (w_files w) (path_join REQUESTS_DIR (strip r ++ cps ".json")) = Some s0 ->
  fs_get (w_files w) (path_join (if resp then RESPONSES_DIR else ERRORS_DIR) (strip i ++ cps ".json"))
    = Some s1 ->
  path_exists w (path_join RECEIPTS_DIR (strip (strip r ++ cps "--receipt") ++ cps ".json")) = false ->
  exists v w', inference_receipt_emit (JObj d) w = (Ok v, w')
    /\ exists new, w_inf w' = w_inf w ++ new /\ count_kind new (cps "INFERENCE_RECEIPT") = 1%nat.
Proof.
  intros Hc Nc Hr Nr Hh1 Xh1 Hh2 Xh2 Hp Np Hm Nm Hri Hei Ni Hrc Hmt Hsha G0 G1 Hrp.
  unfold inference_receipt_emit, receipt_prepare, get_or.
  unfold dg in *.
  rewrite Hc, Hr, Hh1, Hh2, Hp, Hm, Hri, Hei, Hrc, Hmt.
  assert (TI : truthy (F:=F) (JStr i) = true) by exact (truthy_str i (nonblank_nonnil _ Ni)).
  assert (E47 : is_nonblank_str (F:=F) (JS "application/json") = true) by reflexivity.
  assert (NR : nonblank (strip r ++ cps "--receipt") = true) by (apply nonblank_app_r; reflexivity).
  destruct resp; cbn [is_nonblank_str opt_id_ok truthy as_str negb Bool.eqb] in *;
    rewrite ?Nc, ?Nr, ?Xh1, ?Xh2, ?Np, ?Nm, ?Ni, ?TI, ?E47, ?NR; cbn [negb Bool.eqb];
    cbv beta iota zeta delta [bindM check retM mkdir file_exists];
    rewrite (path_exists_file _ _ _ G0); cbv beta iota;
    rewrite (path_exists_file _ _ _ G1); cbv beta iota.
  all: set (W1 := mkWorld (w_files w) (if existsb (str_eqb RECEIPTS_DIR) (w_dirs w) then w_dirs w
                                    else RECEIPTS_DIR :: w_dirs w) (w_art w) (w_inf w) (w_log w)).
  all: set (RP := path_join RECEIPTS_DIR (strip (strip r ++ cps "--receipt") ++ cps ".json")) in *.
  all: assert (HE1 : path_exists W1 RP = false)
         by (apply path_exists_mkdir; [exact Hrp | unfold RP, path_join; apply str_eqb_app_long; discriminate]).
  all: unfold receipt_gate, file_exists, receipt_fresh; cbv beta iota zeta delta [bindM retM];
    cbn [cp2_receipt_path cp2_request_path cp2_result_path cp2_receipt_id]; rewrite HE1; cbv beta iota.
  all: rewrite (sha256_file_at W1 _ _ G0); cbv beta iota.
  all: rewrite (sha256_file_at W1 _ _ G1); cbv beta iota.
  all: match goal with |- context [hash_of (JObj (receipt_base ?p ?a ?b))] =>
         pose proof (receipt_hash_ok p a b) as HO end.
  all: match goal with |- context [hash_of ?v] => destruct (hash_of v) as [hsh|e] end.
  all: try discriminate HO.
  all: cbv beta iota delta [liftR].
  all: match goal with |- context [json_dumps true ?v] => pose proof (json_dumps_true_ok v) as J end.
  all: match goal with |- context [json_dumps true ?v] => destruct (json_dumps true v) as [txt|e] end.
  all: try discriminate J.
  all: cbv beta iota delta [liftR].
  all: rewrite (write_text_at _ _ _ (path_exists_is_dir _ _ HE1)); cbv beta iota.
  all: set (W2 := mkWorld (fs_set (w_files W1) RP (txt ++ [10])) (w_dirs W1) (w_art W1) (w_inf W1) (w_log W1)).
  all: assert (G2 : fs_get (w_files W2) RP = Some (txt ++ [10])) by apply fs_get_set_same.
  all: rewrite (sha256_file_at _ _ _ G2), (file_size_bytes_at _ _ _ G2); cbv beta iota.
  all: unfold append_from_file;
    rewrite (bind_ok _ _ _ _ _ (sha256_file_at _ _ _ G2)), (bind_ok _ _ _ _ _ (file_size_bytes_at _ _ _ G2)).
  all: match goal with |- context [reg_append InferenceReg ?rr ?ww] =>
         destruct (reg_append_at InferenceReg rr ww) as (w3 & R3 & F3 & I3 & _) end.
  all: try (apply validate_inference_ok; cbn [r_artifact_id r_kind r_created_at_utc r_sha256
          r_byte_size r_media_type r_parent_artifact_ids r_tags cp2_created_at_utc as_str cp2_media_type];
       [ exact (strip_nonblank _ NR) | reflexivity | exact (nonblank_nonnil _ Nc) | apply Hsha
       | apply utf8_len_nonneg | discriminate
       | cbn [forallb]; destruct (strip r) eqn:E; [exfalso; exact (strip_nonblank r Nr E)|];
         destruct (strip i) eqn:E'; [exfalso; exact (strip_nonblank i Ni E')|reflexivity]
       | left; reflexivity ]).
  all: rewrite R3; cbv beta iota.
  all: eexists _, _; split; [reflexivity|].
  all: eexists; split; [exact I3|reflexivity].
Qed.

Lemma bind_exc {A B} (c : M A) (k : A -> M B) w e w' :
  c w = (Exc e, w') -> bindM c k w = (Exc e, w').
Proof. unfold bindM; intros E; rewrite E; reflexivity. Qed.

Lemma count_kind_app a b k : count_kind (a ++ b) k = (count_kind a k + count_kind b k)%nat.
Proof. unfold count_kind. rewrite filter_app, length_app. reflexivity. Qed.

Lemma frame_then_one As Bs w w2 w' :
  exec_frame As Bs w w2 ->
  (exists new, w_inf w' = w_inf w2 ++ new /\ count_kind new (cps "INFERENCE_RECEIPT") = 1%nat) ->
  exists new, w_inf w' = w_inf w ++ new /\ count_kind new (cps "INFERENCE_RECEIPT") = 1%nat.
Proof.
  intros (_ & (n1 & I1 & C1) & _) (n2 & I2 & C2).
  exists (n1 ++ n2). split; [rewrite I2, I1, app_assoc; reflexivity|].
  rewrite count_kind_app, C1, C2. reflexivity.
Qed.

Lemma under_receipt_path {F} (x : ExecPrep (F:=F)) : under RCPT_PREFIXES (execute_receipt_path x) = true.
Proof.
  unfold under, RCPT_PREFIXES, execute_receipt_path, path_join. cbn [existsb].
  rewrite app_assoc, prefixb_app. reflexivity.
Qed.

Lemma under_error_path {F} (x : ExecPrep (F:=F)) : under ERR_PREFIXES (execute_error_path x) = true.
Proof.
  unfold under, ERR_PREFIXES, execute_error_path, path_join. cbn [existsb].
  rewrite app_assoc, prefixb_app. reflexivity.
Qed.

Lemma to_float_msg {F} `{FloatModel F} (v : json F) : msg_ok (to_float v).
Proof. unfold to_float. destruct v; try exact I; destruct (f_of_Z _); first [exact I | reflexivity]. Qed.

Lemma dispatch_text_msg {F} `{FloatModel F} rct p m u i t mt :
  (forall a b c t m e, rct a b c t m = Exc e -> nonblank (exn_msg e) = true) ->
  msg_ok (dispatch_text (F:=F) rct p m u i t mt).
Proof.
  intros Hr. unfold dispatch_text.
  destruct (negb (nonblank p)); [reflexivity|].
  destruct (str_eqb _ _).
  - destruct (rct m u i t mt) as [[[a b] c]|e] eqn:E; [exact I|exact (Hr _ _ _ _ _ _ E)].
  - cbn [msg_ok exn_msg]. apply nonblank_app_l. reflexivity.
Qed.

Lemma dispatch_text_provider {F} `{FloatModel F} rct p m u i t mt r :
  dispatch_text (F:=F) rct p m u i t mt = Ok r -> ptr_provider r = cps "openai".
Proof.
  unfold dispatch_text. destruct (negb (nonblank p)); [discriminate|].
  destruct (str_eqb _ _); [|discriminate].
  destruct (rct m u i t mt) as [[[a b] c]|e]; [|discriminate].
  intro E; inversion E; reflexivity.
Qed.

Lemma error_type_nonblank {F} (x : ExecPrep (F:=F)) e : nonblank (error_type_of x e) = true.
Proof.
  unfold error_type_of. destruct (exn_cls e); try reflexivity;
    destruct (anthropic_preflight x (exn_msg e)); reflexivity.
Qed.

Lemma execute_handler_one_receipt {F} `{FloatModel F} `{Env} (x : ExecPrep (F:=F)) e w2 s0 :
  (forall s, List.length (sha256 s) = 64%nat) ->
  nonblank (xp_created_at_utc x) = true -> nonblank (xp_request_id x) = true ->
  strip (xp_request_id x) = xp_request_id x ->
  nonblank (xp_provider x) = true -> nonblank (xp_model x) = true ->
  _is_hex64 (xp_request_hash x) = true -> _is_hex64 (xp_snapshot_hash x) = true ->
  fs_get (w_files w2) (path_join REQUESTS_DIR (xp_request_id x ++ cps ".json")) = Some s0 ->
  path_exists w2 (execute_receipt_path x) = false ->
  is_dir w2 (execute_error_path x) = false ->
  nonblank (exn_msg e) = true ->
  exists v w', execute_handler x e w2 = (Ok v, w')
    /\ exists new, w_inf w' = w_inf w2 ++ new /\ count_kind new (cps "INFERENCE_RECEIPT") = 1%nat.
Proof.
  intros Hsha Nc Nr Sr Np Nm Xh1 Xh2 G0 Hrp Hed Ne.
  unfold execute_handler.
  destruct (error_emit_ok (common_fields x
             ++ [(cps "provider", JStr (xp_provider x)); (cps "model", JStr (xp_model x));
                 (cps "error_type", JStr (error_type_of x e));
                 (cps "message", JStr (exn_msg e)); (cps "error_id", JStr (error_id_of x))]) w2
             (xp_created_at_utc x) (xp_request_id x) (xp_request_hash x) (xp_snapshot_hash x)
             (xp_provider x) (xp_model x) (error_type_of x e) (exn_msg e) (error_id_of x))
    as (v1 & w3 & E1 & s1 & G1);
    [ solve [first [ reflexivity | assumption | apply is_hex64_len; assumption
                   | apply error_type_nonblank | apply nonblank_app_l; assumption ]] .. |].
  rewrite (bind_ok _ _ _ _ _ E1).
  pose proof (proj1 (frame_error_emit (JObj (common_fields x
             ++ [(cps "provider", JStr (xp_provider x)); (cps "model", JStr (xp_model x));
                 (cps "error_type", JStr (error_type_of x e));
                 (cps "message", JStr (exn_msg e)); (cps "error_id", JStr (error_id_of x))])) w2)) as Fr.
  rewrite E1 in Fr. cbn [snd] in Fr.
  destruct Fr as (F1 & F2 & F3 & F4).
  destruct (F1 _ _ G0) as [s0' G0'].
  rewrite <- Sr in G0'.
  destruct (receipt_emit_fresh_ok (common_fields x
             ++ [(cps "provider", JStr (xp_provider x)); (cps "model", JStr (xp_model x));
                 (cps "error_id", JStr (error_id_of x))]) w3 false
             (xp_created_at_utc x) (xp_request_id x) (xp_request_hash x) (xp_snapshot_hash x)
             (xp_provider x) (xp_model x) (error_id_of x) s0' s1)
    as (v2 & w4 & E2 & n2 & I2 & C2);
    [ solve [first [ reflexivity | assumption | apply nonblank_app_l; assumption
                   | exact (F3 _ (under_receipt_path x) Hrp) ]] .. |].
  rewrite (bind_ok _ _ _ _ _ E2).
  eexists _, _; split; [reflexivity|].
  apply (frame_then_one RCPT_PREFIXES [] w2 w3 w4); [split; auto|eauto].
Qed.

(** C2, amended. Let [inference_execute] pass the validation it makes before
    its [try] ([execute_prepare]: the request file exists and holds a valid
    request). Let the request's request_hash and snapshot_hash be 64-hex
    strings, the receipt file be absent and the error file path not be a
    directory. Let the provider raise only exceptions with a non-blank
    message, and [sha256] give 64 hex digits. Then the call returns
    normally, whether the provider answers or fails, and the inference
    registry grows by records of which exactly one has kind
    INFERENCE_RECEIPT. *)
Theorem execute_appends_one_receipt {F} `{FloatModel F} `{Env} rct (ti : json F) w x w1 :
  (forall s, List.length (sha256 s) = 64%nat) ->
  (forall a b c t m e, rct a b c t m = Exc e -> nonblank (exn_msg e) = true) ->
  execute_prepare ti w = (Ok x, w1) ->
  _is_hex64 (xp_request_hash x) = true -> _is_hex64 (xp_snapshot_hash x) = true ->
  path_exists w (execute_receipt_path x) = false ->
  is_dir w (execute_error_path x) = false ->
  exists v w', inference_execute rct ti w = (Ok v, w')
    /\ exists new, w_inf w' = w_inf w ++ new /\ count_kind new (cps "INFERENCE_RECEIPT") = 1%nat.
Proof.
  intros Hsha Hrct P Xh1 Xh2 Hrp Hed.
  pose proof P as P'.
  apply execute_prepare_post in P' as (-> & Nc & Nr & Sr & Np & Nm & s0 & G0).
  unfold inference_execute. rewrite (bind_ok _ _ _ _ _ P). cbv beta.
  (* an exception of the try body at a world reached within the frame *)
  assert (Hh : forall e w2, exec_frame RCPT_PREFIXES ERR_PREFIXES w w2 -> nonblank (exn_msg e) = true ->
            exists v w', execute_handler x e w2 = (Ok v, w')
              /\ exists new, w_inf w' = w_inf w ++ new /\ count_kind new (cps "INFERENCE_RECEIPT") = 1%nat).
  { intros e w2 Fr Ne. pose proof Fr as (F1 & _ & F3 & F4).
    destruct (F1 _ _ G0) as [s0' G0'].
    destruct (execute_handler_one_receipt x e w2 s0') as (v & w' & E & Hn); auto.
    exists v, w'. split; [exact E|]. exact (frame_then_one _ _ _ _ _ Fr Hn). }
  unfold execute_try.
  destruct (to_float (xp_temperature x)) as [t|e] eqn:TF.
  2: { rewrite (bind_exc _ _ _ _ _ (eq_refl : liftR (Exc e) w = (Exc e, w))).
       apply Hh; [apply exec_frame_refl|]. pose proof (to_float_msg (xp_temperature x)) as M.
       rewrite TF in M. exact M. }
  rewrite (bind_ok _ _ _ _ _ (liftR_at t w)).
  destruct (dispatch_text rct (xp_provider x) (xp_model x) (xp_user_prompt x) (xp_system_prompt x)
              t (xp_max_tokens x)) as [r|e] eqn:DT.
  2: { rewrite (bind_exc _ _ _ _ _ (eq_refl : liftR (Exc e) w = (Exc e, w))).
       apply Hh; [apply exec_frame_refl|].
       pose proof (dispatch_text_msg rct (xp_provider x) (xp_model x) (xp_user_prompt x)
                     (xp_system_prompt x) t (xp_max_tokens x) Hrct) as M.
       rewrite DT in M. exact M. }
  rewrite (bind_ok _ _ _ _ _ (liftR_at r w)).
  set (dR := common_fields x
               ++ [(cps "provider", JStr (ptr_provider r)); (cps "model", JStr (ptr_model r));
                   (cps "output_text", JStr (ptr_output_text r));
                   (cps "response_id", JStr (response_id_of x))]).
  pose proof (frame_response_emit (JObj dR) w) as [Fr Mr].
  destruct (inference_response_emit (JObj dR) w) as [[v1|e] w2] eqn:RE; cbn [fst snd] in Fr, Mr.
  2: { rewrite (bind_exc _ _ _ _ _ RE). apply Hh; assumption. }
  rewrite (bind_ok _ _ _ _ _ RE).
  destruct (response_emit_ok_post dR w v1 w2 (response_id_of x) RE eq_refl
              (nonblank_nonnil _ (nonblank_app_l _ _ Nr))) as [Nm' [s1 G1]].
  pose proof Fr as (F1 & _ & F3 & _).
  destruct (F1 _ _ G0) as [s0' G0'].
  rewrite <- Sr in G0'.
  destruct (receipt_emit_fresh_ok (common_fields x
             ++ [(cps "provider", JStr (ptr_provider r)); (cps "model", JStr (ptr_model r));
                 (cps "response_id", JStr (response_id_of x))]) w2 true
             (xp_created_at_utc x) (xp_request_id x) (xp_request_hash x) (xp_snapshot_hash x)
             (ptr_provider r) (ptr_model r) (response_id_of x) s0' s1)
    as (v2 & w3 & E2 & Hn);
    [ solve [first [ reflexivity | assumption | apply nonblank_app_l; assumption
                   | rewrite (dispatch_text_provider _ _ _ _ _ _ _ _ DT); reflexivity
                   | exact Nm'
                   | exact (F3 _ (under_receipt_path x) Hrp) ]] .. |].
  rewrite (bind_ok _ _ _ _ _ E2).
  eexists _, _; split; [reflexivity|].
  exact (frame_then_one _ _ _ _ _ Fr Hn).
Qed.

Lemma hex_digits_length n z : List.length (hex_digits n z) = n.
Proof.
  revert z; induction n as [|n IH]; intro z; [reflexivity|].
  cbn [hex_digits]. rewrite length_app, IH. simpl. lia.
Qed.

Lemma toy_sha256_length s : List.length (toy_sha256 s) = 64%nat.
Proof. apply hex_digits_length. Qed.

Lemma execute_appends_one_receipt_witness :
  exists v w', inference_execute toy_provider exec_input exec_world0 = (Ok v, w')
    /\ exists new, w_inf w' = w_inf exec_world0 ++ new
       /\ count_kind new (cps "INFERENCE_RECEIPT") = 1%nat.
Proof.
  apply (execute_appends_one_receipt toy_provider exec_input exec_world0 exec_prep0 exec_world0).
  - exact toy_sha256_length.
  - intros a b c t m e E. discriminate E.
  - vm_compute. reflexivity.
  - vm_compute. reflexivity.
  - vm_compute. reflexivity.
  - vm_compute. reflexivity.
  - vm_compute. reflexivity.
Defined.

(** ** Laws of the canonical codec *)



Lemma str_ltb_irrefl a : str_ltb a a = false.
Proof. induction a; simpl; [reflexivity|]. rewrite Z.ltb_irrefl. exact IHa. Qed.

Lemma str_ltb_asym a b : str_ltb a b = true -> str_ltb b a = false.
Proof.
  revert b; induction a as [|x a IH]; intros [|y b]; simpl; try discriminate; try reflexivity.
  destruct (x <? y) eqn:E1; destruct (y <? x) eqn:E2; rewrite ?Z.ltb_lt, ?Z.ltb_ge in *; try lia; auto.
Qed.

Lemma str_ltb_trans a b c : str_ltb a b = true -> str_ltb b c = true -> str_ltb a c = true.
Proof.
  revert b c; induction a as [|x a IH]; intros [|y b] [|z c]; simpl; try discriminate; try reflexivity.
  destruct (x <? y) eqn:E1; destruct (y <? x) eqn:E2; destruct (y <? z) eqn:E3; destruct (z <? y) eqn:E4;
    destruct (x <? z) eqn:E5; destruct (z <? x) eqn:E6;
    rewrite ?Z.ltb_lt, ?Z.ltb_ge in *; intros; try lia; try discriminate; eauto.
Qed.

Lemma str_ltb_total a b : str_eqb a b = false -> str_ltb a b = false -> str_ltb b a = true.
Proof.
  revert b; induction a as [|x a IH]; intros [|y b]; simpl; try discriminate; try reflexivity.
  destruct (x =? y) eqn:E0; destruct (x <? y) eqn:E1; destruct (y <? x) eqn:E2;
    rewrite ?Z.eqb_eq, ?Z.eqb_neq, ?Z.ltb_lt, ?Z.ltb_ge in *; simpl; intros; try lia; try discriminate; auto.
Qed.

(** Insertion sort. *)
Lemma insert_item_perm {A} (kv : pystr * A) l : Permutation (insert_item kv l) (kv :: l).
Proof.
  induction l as [|kv' l IH]; simpl; [reflexivity|].
  destruct (str_ltb (fst kv) (fst kv')); [reflexivity|].
  rewrite IH. apply perm_swap.
Qed.

Lemma sort_items_perm {A} (l : list (pystr * A)) : Permutation (sort_items l) l.
Proof. induction l; simpl; [reflexivity|]. rewrite insert_item_perm. auto. Qed.


Lemma insert_item_sorted {A} (kv : pystr * A) l :
  Forall (fun kv' => str_eqb (fst kv) (fst kv') = false) l ->
  StronglySorted key_lt l -> StronglySorted key_lt (insert_item kv l).
Proof.
  induction l as [|kv' l IH]; simpl; intros Hd Hs; [repeat constructor|].
  inversion Hd as [|? ? Hd1 Hd2]; subst. inversion Hs as [|? ? Hs1 Hs2]; subst.
  destruct (str_ltb (fst kv) (fst kv')) eqn:E.
  - constructor; [exact Hs|]. constructor; [exact E|].
    eapply Forall_impl; [|exact Hs2]. intros x Hx. unfold key_lt in *. eapply str_ltb_trans; eauto.
  - constructor; [apply IH; auto|].
    apply Forall_forall. intros x Hx.
    apply (Permutation_in _ (insert_item_perm kv l)) in Hx. destruct Hx as [<-|Hx].
    + unfold key_lt. apply str_ltb_total; auto.
    + rewrite Forall_forall in Hs2. auto.
Qed.

Lemma keys_distinct_cons k ks :
  keys_distinct (k :: ks) = true -> Forall (fun k' => str_eqb k k' = false) ks /\ keys_distinct ks = true.
Proof.
  simpl. intros E. apply andb_true_iff in E as [E1 E2]. split; [|exact E2].
  apply Forall_forall. intros x Hx. rewrite forallb_forall in E1. apply E1 in Hx.
  destruct (str_eqb k x); [discriminate|reflexivity].
Qed.

Lemma sort_items_sorted {A} (l : list (pystr * A)) :
  keys_distinct (map fst l) = true -> StronglySorted key_lt (sort_items l).
Proof.
  induction l as [|kv l IH]; simpl; intros Hd; [constructor|].
  apply (keys_distinct_cons (fst kv)) in Hd as [Hd1 Hd2].
  apply insert_item_sorted; [|auto].
  apply Forall_forall. intros x Hx.
  apply (Permutation_in _ (sort_items_perm l)) in Hx.
  rewrite Forall_forall in Hd1. apply Hd1, in_map, Hx.
Qed.

Lemma sorted_perm_eq {A} (l1 l2 : list (pystr * A)) :
  StronglySorted key_lt l1 -> StronglySorted key_lt l2 -> Permutation l1 l2 -> l1 = l2.
Proof.
  revert l2; induction l1 as [|a l1 IH]; intros l2 S1 S2 P.
  - symmetry. apply Permutation_nil, P.
  - destruct l2 as [|b l2]; [apply Permutation_sym, Permutation_nil in P; discriminate|].
    inversion S1 as [|? ? S1a S1b]; subst. inversion S2 as [|? ? S2a S2b]; subst.
    assert (a = b) as <-.
    { destruct (Permutation_in a P (or_introl eq_refl)) as [|Ha]; [auto|].
      assert (Hb : In b (a :: l1)) by (apply (Permutation_in b (Permutation_sym P)); left; reflexivity).
      destruct Hb as [|Hb]; [auto|].
      rewrite Forall_forall in S1b, S2b. apply S1b in Hb. apply S2b in Ha.
      unfold key_lt in *. apply str_ltb_asym in Hb. congruence. }
    f_equal. apply IH; auto. eapply Permutation_cons_inv; eauto.
Qed.

Lemma keys_distinct_NoDup ks : NoDup ks -> keys_distinct ks = true.
Proof.
  induction 1 as [|k ks Hn _ IH]; simpl; [reflexivity|]. rewrite IH, andb_true_r.
  apply forallb_forall. intros x Hx. destruct (str_eqb k x) eqn:E; [|reflexivity].
  apply str_eqb_eq in E; subst. contradiction.
Qed.

Lemma sort_items_perm_eq {A} (l1 l2 : list (pystr * A)) :
  NoDup (map fst l1) -> Permutation l1 l2 -> sort_items l1 = sort_items l2.
Proof.
  intros Hn P. apply sorted_perm_eq.
  - apply sort_items_sorted, keys_distinct_NoDup, Hn.
  - apply sort_items_sorted, keys_distinct_NoDup. eapply Permutation_NoDup; [|exact Hn].
    apply Permutation_map, P.
  - rewrite !sort_items_perm. exact P.
Qed.

Lemma json_dumps_obj {F} `{FloatModel F} b (l : list (pystr * json F)) :
  json_dumps b (JObj l) =
  match seq_items (sort_items (map (fun kv => (fst kv, json_dumps b (snd kv))) l)) with
  | Ok kvs => Ok ([123] ++ join [44] (map (fun kv => dumps_str (fst kv) ++ [58] ++ snd kv) kvs) ++ [125])
  | Exc e => Exc e
  end.
Proof.
  simpl. match goal with |- match seq_items (sort_items (?g l)) with _ => _ end = _ =>
    replace (g l) with (map (fun kv => (fst kv, json_dumps b (snd kv))) l); [reflexivity|] end.
  induction l as [|[k x] l IH]; simpl; congruence.
Qed.

Lemma json_dumps_arr {F} `{FloatModel F} b (l : list (json F)) :
  json_dumps b (JArr l) =
  match map_res (json_dumps b) l with
  | Ok ss => Ok ([91] ++ join [44] ss ++ [93])
  | Exc e => Exc e
  end.
Proof.
  simpl. match goal with |- match ?g l with _ => _ end = _ =>
    replace (g l) with (map_res (json_dumps b) l); [reflexivity|] end.
  induction l as [|x l IH]; simpl; [reflexivity|]. rewrite IH. reflexivity.
Qed.

Lemma canonical_perm {F} `{FloatModel F} (l1 l2 : list (pystr * json F)) :
  NoDup (map fst l1) -> Permutation l1 l2 -> canonical_dumps (JObj l1) = canonical_dumps (JObj l2).
Proof.
  intros Hn P. unfold canonical_dumps. rewrite !json_dumps_obj.
  rewrite (sort_items_perm_eq _ (map (fun kv => (fst kv, json_dumps false (snd kv))) l2)); [reflexivity| |].
  - rewrite map_map. simpl. exact Hn.
  - apply Permutation_map, P.
Qed.


Lemma seq_items_exc (l : list (pystr * res pystr)) k e :
  In (k, Exc e) l -> exists e', seq_items l = Exc e'.
Proof.
  induction l as [|[k' [s|e']] l IH]; simpl; intros Hin; [contradiction| |eauto].
  destruct Hin as [Hin|Hin]; [discriminate|].
  destruct (IH Hin) as [e' ->]. eauto.
Qed.

Lemma map_res_exc {A B} (f : A -> res B) l x e :
  In x l -> f x = Exc e -> exists e', map_res f l = Exc e'.
Proof.
  induction l as [|y l IH]; simpl; intros Hin Hx; [contradiction|].
  destruct Hin as [<-|Hin]; [rewrite Hx; eauto|].
  destruct (f y); [|eauto]. destruct (IH Hin Hx) as [e' ->]. eauto.
Qed.

Lemma dumps_nonfinite_exc {F} `{FloatModel F} (v : json F) :
  has_nonfinite v = true -> exists e, json_dumps false v = Exc e.
Proof.
  induction v as [| | | f | | l IHl | l IHl] using json_ind'; intros Hn; cbn [has_nonfinite] in Hn;
    try discriminate.
  - simpl. destruct (f_finite f); [discriminate|]. eexists; reflexivity.
  - rewrite json_dumps_arr.
    assert (G : exists x e, In x l /\ json_dumps false x = Exc e).
    { induction IHl as [|x l Hx _ IH]; [discriminate|].
      apply orb_true_iff in Hn as [Hn|Hn].
      - destruct (Hx Hn) as [e He]. exists x, e. split; [left|]; auto.
      - destruct (IH Hn) as (y & e & Hy & He). exists y, e. split; [right|]; auto. }
    destruct G as (x & e & Hx & He).
    destruct (map_res_exc _ _ _ _ Hx He) as [e' ->]. eauto.
  - rewrite json_dumps_obj.
    assert (G : exists k e, In (k, Exc e) (map (fun kv => (fst kv, json_dumps false (snd kv))) l)).
    { induction IHl as [|[k x] l Hx _ IH]; [discriminate|].
      apply orb_true_iff in Hn as [Hn|Hn].
      - destruct (Hx Hn) as [e He]. exists k, e. left. cbn [map fst snd] in *. rewrite He. reflexivity.
      - destruct (IH Hn) as (k' & e & Hy). exists k', e. right. exact Hy. }
    destruct G as (k & e & Hin).
    apply (Permutation_in _ (Permutation_sym (sort_items_perm _))) in Hin.
    destruct (seq_items_exc _ _ _ Hin) as [e' ->]. eauto.
Qed.

Lemma canonical_nonfinite {F} `{FloatModel F} (v : json F) :
  has_nonfinite v = true -> exists m, canonical_dumps v = Exc (Exn CanonicalizationError m).
Proof.
  intros Hn. destruct (dumps_nonfinite_exc v Hn) as [e He].
  unfold canonical_dumps. rewrite He. eexists. reflexivity.
Qed.


Lemma scanstring_plain c r : 32 <= c -> c <> 34 -> c <> 92 ->
  scanstring (c :: r) = cons_fst c (scanstring r).
Proof.
  intros H1 H2 H3. destruct c as [|p|p]; try lia.
  do 8 (try (destruct p as [p|p|]; try reflexivity; try lia)).
Qed.

Lemma scanstring_u c r : 0 <= c < 32 ->
  scanstring ([92; 117; 48; 48; hexdig (c / 16); hexdig (c mod 16)] ++ r) = cons_fst c (scanstring r).
Proof.
  intros Hc. destruct c as [|p|p]; [reflexivity| |lia].
  do 6 (try (destruct p as [p|p|]; try reflexivity; try lia)).
Qed.

Lemma scanstring_esc s r : forallb is_code_point s = true ->
  scanstring (flat_map esc_char s ++ 34 :: r) = Some (s, r).
Proof.
  induction s as [|c s IH]; [reflexivity|].
  intros Hs. simpl in Hs. apply andb_true_iff in Hs as [Hc Hs]. specialize (IH Hs).
  unfold is_code_point in Hc. apply andb_true_iff in Hc as [Hc1 _]. apply Z.leb_le in Hc1.
  cbn [flat_map]. rewrite <- app_assoc.
  remember (flat_map esc_char s ++ 34 :: r) as X eqn:EX. clear EX.
  unfold esc_char.
  destruct (c =? 34) eqn:E34; [apply Z.eqb_eq in E34; subst; simpl; rewrite IH; reflexivity|].
  destruct (c =? 92) eqn:E92; [apply Z.eqb_eq in E92; subst; simpl; rewrite IH; reflexivity|].
  destruct (c =? 8) eqn:E8; [apply Z.eqb_eq in E8; subst; simpl; rewrite IH; reflexivity|].
  destruct (c =? 12) eqn:E12; [apply Z.eqb_eq in E12; subst; simpl; rewrite IH; reflexivity|].
  destruct (c =? 10) eqn:E10; [apply Z.eqb_eq in E10; subst; simpl; rewrite IH; reflexivity|].
  destruct (c =? 13) eqn:E13; [apply Z.eqb_eq in E13; subst; simpl; rewrite IH; reflexivity|].
  destruct (c =? 9) eqn:E9; [apply Z.eqb_eq in E9; subst; simpl; rewrite IH; reflexivity|].
  apply Z.eqb_neq in E34, E92.
  destruct (c <? 32) eqn:E32.
  - apply Z.ltb_lt in E32. rewrite scanstring_u by lia. rewrite IH. reflexivity.
  - apply Z.ltb_ge in E32. cbn [app]. rewrite scanstring_plain by assumption. rewrite IH. reflexivity.
Qed.

Lemma chars_uint_chars u : chars_uint (uint_chars u) = u.
Proof. induction u; simpl; rewrite ?IHu; reflexivity. Qed.

Lemma uint_chars_digits u : forallb is_digit (uint_chars u) = true.
Proof. induction u; simpl; rewrite ?IHu; reflexivity. Qed.

Lemma parse_int_repr z : parse_int (int_repr z) = z.
Proof.
  transitivity (Z.of_int (Z.to_int z)); [|apply DecimalZ.of_to].
  unfold int_repr, parse_int.
  destruct (Z.to_int z) as [u|u].
  - destruct u; simpl; rewrite ?chars_uint_chars; reflexivity.
  - rewrite chars_uint_chars. reflexivity.
Qed.

Lemma pos_to_uint_head p :
  exists d t, uint_chars (Pos.to_uint p) = d :: t /\ 49 <= d <= 57.
Proof.
  assert (E : Pos.to_uint p = Decimal.unorm (Pos.to_uint p)).
  { rewrite <- DecimalPos.Unsigned.to_of, DecimalPos.Unsigned.of_to. reflexivity. }
  pose proof (DecimalPos.Unsigned.to_uint_nonzero p) as Hz.
  pose proof (DecimalPos.Unsigned.to_uint_nonnil p) as Hn.
  destruct (Pos.to_uint p) as [|u|u|u|u|u|u|u|u|u|u] eqn:Ep;
    try contradiction; try solve [simpl; eauto 6 with zarith].
  exfalso. unfold Decimal.unorm in E.
  destruct (Decimal.nzhead (Decimal.D0 u)) eqn:Eh;
    try solve [apply (DecimalFacts.nzhead_nonzero _ _ Eh)]; try discriminate E.
  injection E as ->. apply Hz. reflexivity.
Qed.

Lemma good_rest_inv r : good_rest r = true ->
  r = [] \/ exists t, r = 44 :: t \/ r = 93 :: t \/ r = 125 :: t.
Proof.
  destruct r as [|c t]; simpl; [auto|]. intros E. right. exists t.
  repeat rewrite orb_true_iff in E. rewrite !Z.eqb_eq in E.
  destruct E as [[->| ->]| ->]; auto.
Qed.

Lemma take_digits_app t r : forallb is_digit t = true ->
  match r with [] => true | c :: _ => negb (is_digit c) end = true ->
  take_digits (t ++ r) = (t, r).
Proof.
  intros Ht Hr. induction t as [|c t IH]; simpl.
  - destruct r as [|c r]; [reflexivity|]. simpl. destruct (is_digit c); [discriminate|reflexivity].
  - simpl in Ht. apply andb_true_iff in Ht as [Hc Ht]. rewrite Hc, IH by exact Ht. reflexivity.
Qed.

(** The number token at the start of [sign ++ d :: t ++ fr ++ r]. *)
Lemma scan_number_digits sign d t fr r :
  (sign = [] \/ sign = [45]) -> 48 <= d <= 57 -> (d <> 48 \/ t = []) ->
  forallb is_digit t = true -> (fr = [] \/ fr = [46; 48]) -> good_rest r = true ->
  scan_number (sign ++ d :: t ++ fr ++ r) =
    Some (sign ++ d :: t ++ fr, match fr with [] => false | _ => true end, r).
Proof.
  intros Hs Hd Hz Ht Hf Hr.
  assert (Hd' : d = 48 \/ d = 49 \/ d = 50 \/ d = 51 \/ d = 52 \/ d = 53 \/ d = 54 \/ d = 55
                \/ d = 56 \/ d = 57) by lia.
  destruct (good_rest_inv r Hr) as [->|[u [->|[->| ->]]]];
  destruct Hs as [-> | ->]; destruct Hf as [-> | ->];
  repeat destruct Hd' as [-> | Hd']; subst;
  try (destruct Hz as [Hz| ->]; [lia|]);
  cbn [app scan_number]; simpl;
  try rewrite (take_digits_app t) by (first [exact Ht | reflexivity]);
  try rewrite (take_digits_app t) by (first [exact Ht | reflexivity]);
  reflexivity.
Qed.

Section Scan.
Context {F : Type} `{FloatModel F}.

Lemma scan_once_number n s tok b r : scan_number s = Some (tok, b, r) ->
  scan_once (S n) s = if b then Some (JFloat (f_parse tok), r) else Some (JInt (parse_int tok), r).
Proof.
  intros E. destruct s as [|c s]; [discriminate|].
  destruct c as [|p|p]; [simpl in E; discriminate| |simpl in E; discriminate].
  do 7 (try (destruct p as [p|p|]; try (simpl in E; discriminate E)));
    try (cbn [scan_once]; rewrite E; destruct b; reflexivity).
  (* the minus sign *)
  destruct s as [|d s]; [simpl in E; discriminate|].
  destruct d as [|q|q]; [simpl in E; discriminate| |simpl in E; discriminate].
  do 7 (try (destruct q as [q|q|]; try (simpl in E; discriminate E)));
    try (cbn [scan_once]; rewrite E; destruct b; reflexivity).
Qed.
End Scan.

Lemma int_repr_shape z : exists sign d t, int_repr z = sign ++ d :: t /\ (sign = [] \/ sign = [45])
  /\ 48 <= d <= 57 /\ (d <> 48 \/ t = []) /\ forallb is_digit t = true.
Proof.
  destruct z as [|p|p].
  - exists [], 48, []. repeat split; auto; lia.
  - destruct (pos_to_uint_head p) as (d & t & E & Hd).
    pose proof (uint_chars_digits (Pos.to_uint p)) as Ht. rewrite E in Ht.
    simpl in Ht. apply andb_true_iff in Ht as [_ Ht].
    exists [], d, t. unfold int_repr. cbn [Z.to_int]. rewrite E. repeat split; auto; lia.
  - destruct (pos_to_uint_head p) as (d & t & E & Hd).
    pose proof (uint_chars_digits (Pos.to_uint p)) as Ht. rewrite E in Ht.
    simpl in Ht. apply andb_true_iff in Ht as [_ Ht].
    exists [45], d, t. unfold int_repr. cbn [Z.to_int]. rewrite E. repeat split; auto; lia.
Qed.

Lemma scan_number_int z r : good_rest r = true ->
  scan_number (int_repr z ++ r) = Some (int_repr z, false, r).
Proof.
  intros Hr. destruct (int_repr_shape z) as (sg & d & t & E & Hs & Hd & Hz & Ht). rewrite E.
  pose proof (scan_number_digits sg d t [] r Hs Hd Hz Ht (or_introl eq_refl) Hr) as G.
  rewrite !app_nil_l, app_nil_r in G. rewrite <- app_assoc. exact G.
Qed.

Lemma scan_number_int_frac z r : good_rest r = true ->
  scan_number (int_repr z ++ [46; 48] ++ r) = Some (int_repr z ++ [46; 48], true, r).
Proof.
  intros Hr. destruct (int_repr_shape z) as (sg & d & t & E & Hs & Hd & Hz & Ht). rewrite E.
  pose proof (scan_number_digits sg d t [46; 48] r Hs Hd Hz Ht (or_intror eq_refl) Hr) as G.
  rewrite <- !app_assoc. cbn [app] in *. rewrite G. reflexivity.
Qed.


Lemma scan_number_head s x : scan_number s = Some x ->
  exists c t, s = c :: t /\ (c = 45 \/ 48 <= c <= 57).
Proof.
  intros E. destruct s as [|c s]; [discriminate|]. exists c, s. split; [reflexivity|].
  destruct c as [|p|p]; [simpl in E; discriminate| |simpl in E; discriminate].
  do 7 (try (destruct p as [p|p|]; try (simpl in E; discriminate E); try lia)).
Qed.


Lemma head_class_enum c : head_class c ->
  c = 110 \/ c = 116 \/ c = 102 \/ c = 34 \/ c = 91 \/ c = 123 \/ c = 45 \/ c = 48 \/ c = 49
  \/ c = 50 \/ c = 51 \/ c = 52 \/ c = 53 \/ c = 54 \/ c = 55 \/ c = 56 \/ c = 57.
Proof. unfold head_class. lia. Qed.

Ltac enum_head H := apply head_class_enum in H; repeat destruct H as [-> | H]; [..| subst].

Section Head.
Context {F : Type} `{FloatModel F}.
Hypothesis Hf1 : forall f r, f_finite f = true -> good_rest r = true ->
  scan_number (f_repr f ++ r) = Some (f_repr f, true, r).

Lemma dumps_head (v : json F) s : json_dumps false v = Ok s ->
  exists c t, s = c :: t /\ head_class c.
Proof.
  unfold head_class. destruct v as [|b|z|f|x|l|l].
  - simpl. intros [= <-]. exists 110, (cps "ull"). split; [reflexivity|]. lia.
  - destruct b; simpl; intros [= <-].
    + exists 116, (cps "rue"). split; [reflexivity|]. lia.
    + exists 102, (cps "alse"). split; [reflexivity|]. lia.
  - simpl. intros [= <-]. destruct (int_repr_shape z) as (sg & d & t & -> & [-> | ->] & Hd & _).
    + eexists _, _. split; [reflexivity|]. lia.
    + eexists _, _. split; [reflexivity|]. lia.
  - simpl. destruct (f_finite f) eqn:Ef; [|discriminate]. intros [= <-].
    pose proof (Hf1 f [] Ef eq_refl) as E. rewrite app_nil_r in E.
    destruct (scan_number_head _ _ E) as (c & t & -> & Hc). eexists _, _. split; [reflexivity|]. lia.
  - simpl. intros [= <-]. eexists _, _. split; [reflexivity|]. lia.
  - rewrite json_dumps_arr. destruct (map_res _ _); [|discriminate]. intros [= <-].
    eexists _, _. split; [reflexivity|]. lia.
  - rewrite json_dumps_obj. destruct (seq_items _); [|discriminate]. intros [= <-].
    eexists _, _. split; [reflexivity|]. lia.
Qed.

Lemma dumps_skip_ws (v : json F) s r : json_dumps false v = Ok s -> skip_ws (s ++ r) = s ++ r.
Proof.
  intros E. destruct (dumps_head v s E) as (c & t & -> & Hc). enum_head Hc; reflexivity.
Qed.
End Head.


(** Lists and association lists. *)
Lemma map_res_Forall2 {A B} (f : A -> res B) l ys :
  map_res f l = Ok ys <-> Forall2 (fun x y => f x = Ok y) l ys.
Proof.
  revert ys; induction l as [|x l IH]; intros ys; simpl.
  - split; [intros [= <-]; constructor | intros H; inversion H; reflexivity].
  - split.
    + destruct (f x) eqn:Ex; [|discriminate]. destruct (map_res f l) eqn:El; [|discriminate].
      intros [= <-]. constructor; [exact Ex|]. apply IH. reflexivity.
    + intros H. inversion H as [|? y ? ys' Hxy Hl]; subst. rewrite Hxy.
      apply IH in Hl. rewrite Hl. reflexivity.
Qed.

Lemma seq_items_Forall2 (l : list (pystr * res pystr)) kvs :
  seq_items l = Ok kvs -> Forall2 (fun a b => fst b = fst a /\ snd a = Ok (snd b)) l kvs.
Proof.
  revert kvs; induction l as [|[k [s|e]] l IH]; intros kvs; simpl; try discriminate.
  - intros [= <-]. constructor.
  - destruct (seq_items l) eqn:El; [|discriminate]. intros [= <-].
    constructor; [split; reflexivity|]. apply IH. reflexivity.
Qed.

Lemma seq_items_oks (kvs : list (pystr * pystr)) :
  seq_items (map (fun kv => (fst kv, Ok (snd kv))) kvs) = Ok kvs.
Proof. induction kvs as [|[k s] kvs IH]; simpl; [reflexivity|]. rewrite IH. reflexivity. Qed.

Lemma insert_item_map {A B} (g : A -> B) kv l :
  insert_item (fst kv, g (snd kv)) (map (fun kv => (fst kv, g (snd kv))) l)
  = map (fun kv => (fst kv, g (snd kv))) (insert_item kv l).
Proof.
  induction l as [|kv' l IH]; simpl; [reflexivity|].
  destruct (str_ltb (fst kv) (fst kv')); simpl; [reflexivity|]. rewrite IH. reflexivity.
Qed.

Lemma sort_items_map {A B} (g : A -> B) l :
  sort_items (map (fun kv => (fst kv, g (snd kv))) l) = map (fun kv => (fst kv, g (snd kv))) (sort_items l).
Proof. induction l as [|kv l IH]; simpl; [reflexivity|]. rewrite IH. apply insert_item_map. Qed.

Lemma sort_items_sorted_id {A} (l : list (pystr * A)) : StronglySorted key_lt l -> sort_items l = l.
Proof.
  induction 1 as [|kv l S IH Hf]; simpl; [reflexivity|]. rewrite IH.
  destruct l as [|kv' l]; simpl; [reflexivity|].
  inversion Hf as [|? ? Hk _]; subst. unfold key_lt in Hk. rewrite Hk. reflexivity.
Qed.

Lemma sorted_keys_distinct {A} (l : list (pystr * A)) :
  StronglySorted key_lt l -> keys_distinct (map fst l) = true.
Proof.
  induction 1 as [|kv l S IH Hf]; simpl; [reflexivity|]. rewrite IH, andb_true_r.
  apply forallb_forall. intros k Hk. apply in_map_iff in Hk as [kv' [<- Hin]].
  rewrite Forall_forall in Hf. specialize (Hf kv' Hin). unfold key_lt in Hf.
  destruct (str_eqb (fst kv) (fst kv')) eqn:E; [|reflexivity].
  apply str_eqb_eq in E. rewrite E, str_ltb_irrefl in Hf. discriminate.
Qed.

Lemma sorted_same_keys {A B} (l1 : list (pystr * A)) (l2 : list (pystr * B)) :
  Forall2 (fun a b => fst b = fst a) l1 l2 -> StronglySorted key_lt l1 -> StronglySorted key_lt l2.
Proof.
  induction 1 as [|a b l1 l2 Hab H12 IH]; intros S; [constructor|].
  inversion S as [|? ? S1 Hf]; subst. constructor; [apply IH; exact S1|].
  clear IH S1 S. revert Hf. induction H12 as [|a' b' l1 l2 Hab' H12 IH']; intros Hf; [constructor|].
  inversion Hf as [|? ? Hk Hf']; subst. constructor; [|apply IH'; exact Hf'].
  unfold key_lt in *. rewrite Hab, Hab'. exact Hk.
Qed.

Lemma keys_distinct_app_cons xs k ys : keys_distinct (xs ++ k :: ys) = true ->
  Forall (fun x => str_eqb x k = false) xs.
Proof.
  induction xs as [|x xs IH]; simpl; intros H; [constructor|].
  apply andb_true_iff in H as [H1 H2]. constructor; [|auto].
  rewrite forallb_forall in H1. specialize (H1 k (in_or_app _ _ _ (or_intror (or_introl eq_refl : In k (k :: ys))))).
  simpl in H1.
  destruct (str_eqb x k); [discriminate|reflexivity].
Qed.

Lemma dset_fresh {F} (acc : list (pystr * json F)) k v :
  Forall (fun x => str_eqb x k = false) (map fst acc) -> dset acc k v = acc ++ [(k, v)].
Proof.
  induction acc as [|[k' v'] acc IH]; simpl; intros H; [reflexivity|].
  inversion H as [|? ? H1 H2]; subst. rewrite H1, IH by exact H2. reflexivity.
Qed.

Lemma join_cons_app (x : pystr) xs tail : exists R, join [44] (x :: xs) ++ tail = x ++ R.
Proof.
  destruct xs as [|y xs]; simpl.
  - exists tail. reflexivity.
  - eexists. rewrite <- app_assoc. reflexivity.
Qed.

Lemma length_join_cons (x y : pystr) xs :
  List.length (join [44] (x :: y :: xs)) = (List.length x + 1 + List.length (join [44%Z] (y :: xs)))%nat.
Proof. cbn [join]. rewrite !length_app. simpl. lia. Qed.




Lemma skip_ws_nonws c x : is_json_ws c = false -> skip_ws (c :: x) = c :: x.
Proof. simpl. intros ->. reflexivity. Qed.

Lemma parse_elems_S {F} `{FloatModel F} n s (acc : list (json F)) :
  parse_elems (S n) s acc =
  match scan_once n s with
  | None => None
  | Some (v, r3) =>
      match skip_ws r3 with
      | 93 :: r4 => Some (JArr (acc ++ [v]), r4)
      | 44 :: r4 => parse_elems n (skip_ws r4) (acc ++ [v])
      | _ => None
      end
  end.
Proof. reflexivity. Qed.

Lemma parse_members_S {F} `{FloatModel F} n s (acc : list (pystr * json F)) :
  parse_members (S n) s acc =
  match s with
  | 34 :: r =>
      match scanstring r with
      | None => None
      | Some (k, r1) =>
          match skip_ws r1 with
          | 58 :: r2 =>
              match scan_once n (skip_ws r2) with
              | None => None
              | Some (v, r3) =>
                  match skip_ws r3 with
                  | 125 :: r4 => Some (JObj (dset acc k v), r4)
                  | 44 :: r4 => parse_members n (skip_ws r4) (dset acc k v)
                  | _ => None
                  end
              end
          | _ => None
          end
      end
  | _ => None
  end.
Proof. reflexivity. Qed.

Section Roundtrip.
Context {F : Type} `{FloatModel F}.
Hypothesis Hf1 : forall f r, f_finite f = true -> good_rest r = true ->
  scan_number (f_repr f ++ r) = Some (f_repr f, true, r).
Hypothesis Hf3 : forall f, f_finite f = true ->
  f_finite (f_parse (f_repr f)) = true /\ f_repr (f_parse (f_repr f)) = f_repr f.

Lemma parse_elems_ok ss (acc : list (json F)) m r :
  ss <> [] ->
  Forall (fun sv => exists v : json F, json_dumps false v = Ok sv /\
     forall n r, (List.length sv < n)%nat -> good_rest r = true ->
       exists v', scan_once n (sv ++ r) = Some (v', r) /\ json_dumps false v' = Ok sv) ss ->
  lt (List.length (join [44] ss ++ [93])) m -> good_rest r = true ->
  exists vs, parse_elems m (join [44] ss ++ 93 :: r) acc = Some (JArr (acc ++ vs), r)
     /\ Forall2 (fun v sv => json_dumps false v = Ok sv) vs ss.
Proof.
  revert acc m; induction ss as [|sv ss IH]; intros acc m Hne Hall Hlen Hr; [congruence|].
  inversion Hall as [|? ? [v [Hv Hsc]] Hall']; subst.
  destruct m as [|m]; [lia|].
  destruct ss as [|sv2 ss'].
  - cbn [join] in *. rewrite length_app in Hlen; simpl in Hlen.
    destruct (Hsc m (93 :: r)) as [v' [Hs Hd]]; [lia|reflexivity|].
    exists [v']. rewrite parse_elems_S. rewrite Hs. simpl. split; [reflexivity|]. repeat constructor; auto.
  - rewrite length_app, length_join_cons in Hlen; simpl in Hlen.
    destruct (Hsc m (44 :: join [44] (sv2 :: ss') ++ 93 :: r)) as [v' [Hs Hd]]; [lia|reflexivity|].
    inversion Hall' as [|? ? [v2 [Hv2 _]] _]; subst.
    destruct (IH (acc ++ [v']) m) as [vs [Hp Hf]]; [congruence|exact Hall'| |exact Hr|].
    { rewrite length_app. simpl. lia. }
    exists (v' :: vs). split; [|constructor; auto].
    replace (join [44] (sv :: sv2 :: ss') ++ 93 :: r) with (sv ++ 44 :: join [44] (sv2 :: ss') ++ 93 :: r)
      by (cbn [join]; rewrite <- !app_assoc; reflexivity).
    rewrite parse_elems_S, Hs. rewrite skip_ws_nonws by reflexivity; cbv beta iota.
    destruct (join_cons_app sv2 ss' (93 :: r)) as [R ER].
    rewrite ER, (dumps_skip_ws Hf1 v2 _ _ Hv2), <- ER, Hp, <- app_assoc. reflexivity.
Qed.

Lemma parse_members_ok (kvs : list (pystr * pystr)) (acc : list (pystr * json F)) m r :
  kvs <> [] ->
  Forall (fun kv => forallb is_code_point (fst kv) = true /\
     exists v : json F, json_dumps false v = Ok (snd kv) /\
     forall n r, (List.length (snd kv) < n)%nat -> good_rest r = true ->
       exists v', scan_once n (snd kv ++ r) = Some (v', r) /\ json_dumps false v' = Ok (snd kv)) kvs ->
  keys_distinct (map fst acc ++ map fst kvs) = true ->
  lt (List.length (join [44] (map (fun kv => dumps_str (fst kv) ++ [58] ++ snd kv) kvs) ++ [125])) m ->
  good_rest r = true ->
  exists l', parse_members m (join [44] (map (fun kv => dumps_str (fst kv) ++ [58] ++ snd kv) kvs) ++ 125 :: r) acc
               = Some (JObj (acc ++ l'), r)
     /\ Forall2 (fun kv kv' => fst kv' = fst kv /\ json_dumps false (snd kv') = Ok (snd kv)) kvs l'.
Proof.
  revert acc m; induction kvs as [|[k sv] kvs IH]; intros acc m Hne Hall Hd Hlen Hr; [congruence|].
  inversion Hall as [|? ? [Hk [v [Hv Hsc]]] Hall']; subst. cbn [fst snd] in *.
  destruct m as [|m]; [lia|].
  pose proof (keys_distinct_app_cons _ _ _ Hd) as Hfresh.
  assert (Hd' : keys_distinct (map fst (acc ++ [(k, v)]) ++ map fst kvs) = true)
    by (rewrite map_app, <- app_assoc; exact Hd).
  assert (Hlk : forall tail, (dumps_str k ++ [58] ++ sv) ++ tail
                 = 34 :: flat_map esc_char k ++ 34 :: 58 :: sv ++ tail)
    by (intros; unfold dumps_str; simpl; rewrite <- !app_assoc; reflexivity).
  destruct kvs as [|[k2 sv2] kvs'].
  - cbn [map join] in *. rewrite !length_app in Hlen. unfold dumps_str in Hlen. simpl in Hlen.
    rewrite length_app in Hlen. simpl in Hlen.
    destruct (Hsc m (125 :: r)) as [v' [Hs Hdv]]; [lia|reflexivity|].
    exists [(k, v')]. rewrite Hlk. rewrite parse_members_S.
    rewrite scanstring_esc by exact Hk. rewrite skip_ws_nonws by reflexivity; cbv beta iota.
    rewrite (dumps_skip_ws Hf1 v _ _ Hv), Hs. rewrite skip_ws_nonws by reflexivity; cbv beta iota.
    rewrite dset_fresh by exact Hfresh. split; [reflexivity|]. repeat constructor; auto.
  - inversion Hall' as [|? ? [Hk2 [v2 [Hv2 _]]] _]; subst.
    set (ent := fun kv : pystr * pystr => dumps_str (fst kv) ++ [58] ++ snd kv) in *.
    cbn [map] in Hlen. rewrite length_app, length_join_cons in Hlen.
    set (J := join [44] (ent (k2, sv2) :: map ent kvs')) in *.
    assert (Le : List.length (ent (k, sv)) = (List.length (flat_map esc_char k) + 3 + List.length sv)%nat)
      by (unfold ent, dumps_str; cbn [fst snd]; rewrite !length_app; simpl; rewrite !length_app; simpl; lia).
    rewrite Le in Hlen. cbn [List.length] in Hlen.
    set (T := J ++ 125 :: r).
    destruct (Hsc m (44 :: T)) as [v' [Hs Hdv]]; [lia|reflexivity|].
    destruct (IH (acc ++ [(k, v')]) m) as [l' [Hp Hf]]; [congruence|exact Hall'| | |exact Hr|].
    { rewrite map_app, <- app_assoc. exact Hd. }
    { rewrite length_app. cbn [List.length map].
      change (join [44] (ent (k2, sv2) :: map ent kvs')) with J. lia. }
    exists ((k, v') :: l'). split; [|constructor; auto].
    cbn [map].
    replace (join [44] (ent (k, sv) :: ent (k2, sv2) :: map ent kvs') ++ 125 :: r)
      with ((dumps_str k ++ [58] ++ sv) ++ 44 :: T)
      by (unfold T; cbn [join]; unfold ent at 1; cbn [fst snd]; rewrite <- !app_assoc; reflexivity).
    rewrite Hlk. rewrite parse_members_S.
    rewrite scanstring_esc by exact Hk. rewrite skip_ws_nonws by reflexivity; cbv beta iota.
    rewrite (dumps_skip_ws Hf1 v _ _ Hv), Hs. rewrite skip_ws_nonws by reflexivity; cbv beta iota.
    assert (ET : skip_ws T = T).
    { unfold T. cbn [join]. destruct kvs'; unfold ent; unfold dumps_str; simpl; reflexivity. }
    change (join [44] (map ent ((k2, sv2) :: kvs')) ++ 125 :: r) with T in Hp.
    rewrite ET, dset_fresh by exact Hfresh. rewrite Hp, <- app_assoc. reflexivity.
Qed.
End Roundtrip.


Lemma scan_once_S_arr {F} `{FloatModel F} n b :
  scan_once (F:=F) (S n) (91 :: b) =
  match skip_ws b with 93 :: r2 => Some (JArr [], r2) | r1 => parse_elems n r1 [] end.
Proof. reflexivity. Qed.

Lemma scan_once_S_obj {F} `{FloatModel F} n b :
  scan_once (F:=F) (S n) (123 :: b) =
  match skip_ws b with 125 :: r2 => Some (JObj [], r2) | r1 => parse_members n r1 [] end.
Proof. reflexivity. Qed.

Lemma wf_arr {F} `{FloatModel F} (l : list (json F)) :
  json_wf (JArr l) = true -> Forall (fun v => json_wf v = true) l.
Proof.
  induction l as [|x l IH]; intros Hw; [constructor|].
  simpl in Hw. apply andb_true_iff in Hw as [H1 H2]. constructor; [exact H1|]. apply IH. exact H2.
Qed.

Lemma wf_obj {F} `{FloatModel F} (l : list (pystr * json F)) :
  json_wf (JObj l) = true -> keys_distinct (map fst l) = true /\
  Forall (fun kv => forallb is_code_point (fst kv) = true /\ json_wf (snd kv) = true) l.
Proof.
  cbn [json_wf]. intros Hw. apply andb_true_iff in Hw as [Hk Hw]. split; [exact Hk|]. clear Hk.
  induction l as [|[k x] l IH]; [constructor|].
  apply andb_true_iff in Hw as [H1 H2]. apply andb_true_iff in H1 as [H0 H1].
  constructor; [split; assumption|]. apply IH. exact H2.
Qed.

Lemma Forall2_map_l_inv {A B C} (f : A -> B) (R : B -> C -> Prop) l1 l2 :
  Forall2 R (map f l1) l2 -> Forall2 (fun a c => R (f a) c) l1 l2.
Proof.
  revert l2; induction l1 as [|a l1 IH]; intros l2 H; inversion H; subst; constructor; auto.
Qed.

Section Roundtrip2.
Context {F : Type} `{FloatModel F}.
Hypothesis Hf1 : forall f r, f_finite f = true -> good_rest r = true ->
  scan_number (f_repr f ++ r) = Some (f_repr f, true, r).
Hypothesis Hf3 : forall f, f_finite f = true ->
  f_finite (f_parse (f_repr f)) = true /\ f_repr (f_parse (f_repr f)) = f_repr f.

Lemma dumps_scan (v : json F) : json_wf v = true -> forall s, json_dumps false v = Ok s ->
  forall n r, (List.length s < n)%nat -> good_rest r = true ->
  exists v', scan_once n (s ++ r) = Some (v', r) /\ json_dumps false v' = Ok s.
Proof.
  induction v as [|b|z|f|x|l IHl|l IHl] using json_ind'; intros Hwf s Hs n r Hn Hr;
    (destruct n as [|n]; [lia|]).
  - simpl in Hs. injection Hs as <-. exists JNull. split; reflexivity.
  - destruct b; simpl in Hs; injection Hs as <-; eexists; split; reflexivity.
  - simpl in Hs. injection Hs as <-. rewrite (scan_once_number n _ _ _ _ (scan_number_int z r Hr)).
    eexists; split; [reflexivity|]. rewrite parse_int_repr. reflexivity.
  - simpl in Hs. destruct (f_finite f) eqn:Ef; [|discriminate]. injection Hs as <-.
    rewrite (scan_once_number n _ _ _ _ (Hf1 f r Ef Hr)). eexists; split; [reflexivity|].
    destruct (Hf3 f Ef) as [E1 E2]. simpl. rewrite E1, E2. reflexivity.
  - cbn [json_dumps] in Hs. injection Hs as <-. cbn [json_wf] in Hwf.
    exists (JStr x). unfold dumps_str.
    replace ((34 :: flat_map esc_char x ++ [34]) ++ r) with (34 :: (flat_map esc_char x ++ 34 :: r))
      by (cbn [app]; rewrite <- app_assoc; reflexivity).
    cbn [scan_once]. rewrite scanstring_esc by exact Hwf. split; reflexivity.
  - rewrite json_dumps_arr in Hs.
    destruct (map_res (json_dumps false) l) as [ss|e] eqn:Em; [|discriminate]. injection Hs as <-.
    apply map_res_Forall2 in Em. apply wf_arr in Hwf.
    destruct ss as [|sv ss'].
    + inversion Em; subst. exists (JArr []). split; reflexivity.
    + assert (Hall : Forall (fun sv => exists v : json F, json_dumps false v = Ok sv /\
         forall n r, (List.length sv < n)%nat -> good_rest r = true ->
         exists v', scan_once n (sv ++ r) = Some (v', r) /\ json_dumps false v' = Ok sv) (sv :: ss')).
      { clear -Em Hwf IHl. revert Hwf IHl.
        induction Em as [|v sv0 l ss Hv Em IH]; intros Hwf IHl; [constructor|].
        inversion Hwf; inversion IHl; subst. constructor; [|auto].
        exists v. split; [exact Hv|]. intros n' r'. eauto. }
      inversion Em as [|v1 ? ? ? Hv1 _]; subst.
      match goal with |- context [scan_once _ ?t] =>
        replace t with (91 :: join [44] (sv :: ss') ++ 93 :: r)
          by (cbn [app]; rewrite <- !app_assoc; reflexivity) end.
      assert (Eb : scan_once (S n) (91 :: join [44] (sv :: ss') ++ 93 :: r)
                   = parse_elems n (join [44] (sv :: ss') ++ 93 :: r) []).
      { destruct (join_cons_app sv ss' (93 :: r)) as [R ER]. rewrite ER.
        rewrite scan_once_S_arr, (dumps_skip_ws Hf1 v1 _ _ Hv1).
        destruct (dumps_head Hf1 v1 sv Hv1) as (c & t & -> & Hc). enum_head Hc; reflexivity. }
      rewrite Eb. cbn [List.length] in Hn. rewrite ?length_app in Hn. cbn [List.length] in Hn.
      destruct (parse_elems_ok Hf1 (sv :: ss') [] n r) as [vs [Hp Hf]];
        [congruence|exact Hall| rewrite length_app; cbn [List.length]; lia | exact Hr |].
      exists (JArr vs). split; [exact Hp|].
      rewrite json_dumps_arr. apply map_res_Forall2 in Hf. rewrite Hf. reflexivity.
  - rewrite json_dumps_obj in Hs.
    destruct (seq_items _) as [kvs|e] eqn:Eq; [|discriminate]. injection Hs as <-.
    apply wf_obj in Hwf as [Hkd Hwf].
    rewrite sort_items_map in Eq. apply seq_items_Forall2, Forall2_map_l_inv in Eq.
    cbn [fst snd] in Eq.
    pose proof (sort_items_sorted l Hkd) as SL.
    assert (SK : StronglySorted key_lt kvs).
    { eapply sorted_same_keys; [|exact SL]. eapply Forall2_impl; [|exact Eq]. intros a b [E _]. exact E. }
    assert (HL : Forall (fun kv => (forallb is_code_point (fst kv) = true /\ json_wf (snd kv) = true)
                   /\ (json_wf (snd kv) = true -> forall s, json_dumps false (snd kv) = Ok s ->
                       forall n r, (List.length s < n)%nat -> good_rest r = true ->
                       exists v', scan_once n (s ++ r) = Some (v', r) /\ json_dumps false v' = Ok s))
                   (sort_items l)).
    { apply sort_items_Forall. clear -Hwf IHl. induction l as [|kv l IH]; [constructor|].
      inversion Hwf; inversion IHl; subst. constructor; auto. }
    assert (Hall : Forall (fun kv => forallb is_code_point (fst kv) = true /\
       exists v : json F, json_dumps false v = Ok (snd kv) /\
       forall n r, (List.length (snd kv) < n)%nat -> good_rest r = true ->
         exists v', scan_once n (snd kv ++ r) = Some (v', r) /\ json_dumps false v' = Ok (snd kv)) kvs).
    { clear -Eq HL. induction Eq as [|kv kv' L kvs [Ek Ev] Eq IH]; [constructor|].
      inversion HL as [|? ? [[Hk Hw] Hsc] HL']; subst. constructor; [|auto].
      rewrite Ek. split; [exact Hk|]. exists (snd kv). split; [exact Ev|]. intros n r. apply Hsc; auto. }
    destruct kvs as [|kv1 kvs'].
    + exists (JObj []). split; reflexivity.
    + set (ent := fun kv : pystr * pystr => dumps_str (fst kv) ++ [58] ++ snd kv).
      match goal with |- context [scan_once _ ?t] =>
        replace t with (123 :: join [44] (map ent (kv1 :: kvs')) ++ 125 :: r)
          by (cbn [app]; rewrite <- !app_assoc; reflexivity) end.
      assert (Eb : scan_once (S n) (123 :: join [44] (map ent (kv1 :: kvs')) ++ 125 :: r)
                   = parse_members n (join [44] (map ent (kv1 :: kvs')) ++ 125 :: r) []).
      { cbn [map]. destruct (join_cons_app (ent kv1) (map ent kvs') (125 :: r)) as [R ER]. rewrite ER.
        reflexivity. }
      rewrite Eb. cbn [List.length] in Hn. rewrite ?length_app in Hn. cbn [List.length] in Hn.
      assert (Hlen : lt (List.length (join [44] (map ent (kv1 :: kvs')) ++ [125])) n).
      { rewrite length_app. cbn [List.length].
        replace (map ent (kv1 :: kvs')) with (map (fun kv : pystr * pystr =>
          34%Z :: (flat_map esc_char (fst kv) ++ [34%Z]) ++ 58%Z :: snd kv) (kv1 :: kvs')); [lia|].
        apply map_ext. intros a. unfold ent, dumps_str. cbn [app]. reflexivity. }
      destruct (parse_members_ok Hf1 (kv1 :: kvs') [] n r) as [l' [Hp Hf]];
        [congruence|exact Hall| exact (sorted_keys_distinct _ SK) | exact Hlen | exact Hr |].
      exists (JObj l'). split; [exact Hp|].
      rewrite json_dumps_obj.
      replace (map (fun kv => (fst kv, json_dumps false (snd kv))) l')
        with (map (fun kv => (fst kv, Ok (snd kv))) (kv1 :: kvs')).
      * rewrite sort_items_sorted_id, seq_items_oks; [reflexivity|].
        eapply sorted_same_keys; [|exact SK].
        clear. induction (kv1 :: kvs'); constructor; auto.
      * clear -Hf. induction Hf as [|kv kv' kvs l' [Ek Ev] Hf IH]; [reflexivity|].
        simpl. rewrite IH, Ek, Ev. reflexivity.
Qed.

Lemma json_loads_dumps (v : json F) s : json_wf v = true -> json_dumps false v = Ok s ->
  exists v', json_loads s = Ok v' /\ json_dumps false v' = Ok s.
Proof.
  intros Hwf Hs.
  destruct (dumps_scan v Hwf s Hs (S (List.length s)) [] (Nat.lt_succ_diag_r _) eq_refl) as [v' [Hsc Hd]].
  rewrite app_nil_r in Hsc. exists v'. split; [|exact Hd].
  pose proof (dumps_skip_ws Hf1 v s [] Hs) as W. rewrite app_nil_r in W.
  unfold json_loads. rewrite W, Hsc.
  destruct (dumps_head Hf1 v s Hs) as (c & t & -> & Hc). enum_head Hc; reflexivity.
Qed.
End Roundtrip2.



Lemma int_part_app s x : forallb (fun c => negb ((c =? 46) || (c =? 101) || (c =? 69))) s = true ->
  int_part (s ++ 46 :: x) = s.
Proof.
  induction s as [|c s IH]; intros Hs; [reflexivity|].
  cbn [forallb] in Hs. apply andb_true_iff in Hs as [Hc Hs].
  cbn [app int_part]. apply negb_true_iff in Hc. rewrite Hc, IH by exact Hs. reflexivity.
Qed.

Lemma int_part_repr z : int_part (int_repr z ++ [46; 48]) = int_repr z.
Proof.
  apply int_part_app. destruct (int_repr_shape z) as (sg & d & t & E & Hs & Hd & _ & Ht). rewrite E.
  rewrite forallb_app. apply andb_true_iff. split.
  - destruct Hs as [-> | ->]; reflexivity.
  - cbn [forallb]. apply andb_true_iff. split.
    + apply negb_true_iff. repeat rewrite orb_false_iff. repeat split; apply Z.eqb_neq; lia.
    + rewrite forallb_forall in Ht |- *. intros c Hc. specialize (Ht c Hc).
      unfold is_digit in Ht. apply andb_true_iff in Ht as [H1 H2]. apply Z.leb_le in H1, H2.
      apply negb_true_iff. repeat rewrite orb_false_iff. repeat split; apply Z.eqb_neq; lia.
Qed.

Lemma tfloat_repr_scans : forall (f : tfloat) r, f_finite f = true -> good_rest r = true ->
  scan_number (f_repr f ++ r) = Some (f_repr f, true, r).
Proof.
  intros [z| | |] r Hf Hr; try discriminate Hf.
  cbn [f_repr tfloat_model]. change (cps ".0") with [46; 48].
  rewrite <- app_assoc. apply scan_number_int_frac, Hr.
Qed.

Lemma tfloat_repr_parse : forall f : tfloat, f_finite f = true ->
  f_finite (f_parse (f_repr f)) = true /\ f_repr (f_parse (f_repr f)) = f_repr f.
Proof.
  intros [z| | |] Hf; try discriminate Hf.
  cbn [f_repr f_parse f_finite tfloat_model]. change (cps ".0") with [46; 48].
  rewrite int_part_repr, parse_int_repr. split; reflexivity.
Qed.

(** C4: laws of [canonical_dumps]. (1) On a float platform whose [repr]
    of a finite float is a JSON number token that parses back to a float
    with the same [repr], every value with well-formed strings and distinct
    object keys that [canonical_dumps] accepts is re-serialized to the same
    text after [json.loads]: canonical(V) = canonical(parse(canonical(V))).
    (2) Two objects whose items are permutations of each other (keys
    distinct) serialize to the same result. (3) A value containing NaN or
    an infinity makes [canonical_dumps] raise [CanonicalizationError]. *)
Theorem canonical_codec_laws {F} `{FloatModel F} :
  ((forall f r, f_finite f = true -> good_rest r = true ->
      scan_number (f_repr f ++ r) = Some (f_repr f, true, r)) ->
   (forall f, f_finite f = true ->
      f_finite (f_parse (f_repr f)) = true /\ f_repr (f_parse (f_repr f)) = f_repr f) ->
   forall (V : json F) s, json_wf V = true -> canonical_dumps V = Ok s ->
   exists V', json_loads s = Ok V' /\ canonical_dumps V' = Ok s)
  /\ (forall l1 l2 : list (pystr * json F), NoDup (map fst l1) -> Permutation l1 l2 ->
      canonical_dumps (JObj l1) = canonical_dumps (JObj l2))
  /\ (forall V : json F, has_nonfinite V = true ->
      exists m, canonical_dumps V = Exc (Exn CanonicalizationError m)).
Proof.
  split; [|split].
  - intros Hf1 Hf3 V s Hwf Hc.
    assert (Hd : json_dumps false V = Ok s).
    { unfold canonical_dumps in Hc. destruct (json_dumps false V); [congruence|discriminate Hc]. }
    destruct (json_loads_dumps Hf1 Hf3 V s Hwf Hd) as [V' [Hl Hd']].
    exists V'. split; [exact Hl|]. unfold canonical_dumps. rewrite Hd'. reflexivity.
  - exact canonical_perm.
  - exact canonical_nonfinite.
Qed.

Lemma canonical_codec_laws_witness :
  (exists V', json_loads codec_example_text = Ok V' /\ canonical_dumps V' = Ok codec_example_text)
  /\ canonical_dumps (JObj [(cps "x", JInt 1); (cps "y", JNull)])
     = canonical_dumps (JObj [(cps "y", JNull); (cps "x", JInt 1)])
  /\ (exists m, canonical_dumps (JArr [JInt 0; JFloat TNaN]) = Exc (Exn CanonicalizationError m)).
Proof.
  destruct (canonical_codec_laws (F:=tfloat)) as [A [B C]]. split; [|split].
  - apply (A tfloat_repr_scans tfloat_repr_parse codec_example); vm_compute; reflexivity.
  - apply B; [vm_compute; repeat constructor; simpl; intuition discriminate
             | apply perm_swap].
  - apply C. vm_compute. reflexivity.
Defined.

(** * Further properties of the tools *)

Lemma leaves_ret {A} (a : A) : leaves_world (retM a).
Proof. intro w; reflexivity. Qed.
Lemma leaves_throw {A} c m : leaves_world (throw (A:=A) c m).
Proof. intro w; reflexivity. Qed.
Lemma leaves_liftR {A} (r : res A) : leaves_world (liftR r).
Proof. intro w; reflexivity. Qed.
Lemma leaves_check ok c m : leaves_world (check ok c m).
Proof. unfold check; destruct ok; intro w; reflexivity. Qed.
Lemma leaves_file_exists p : leaves_world (file_exists p).
Proof. intro w; reflexivity. Qed.
Lemma leaves_read_text p : leaves_world (read_text p).
Proof. intro w; unfold read_text; destruct (fs_get (w_files w) p); [|destruct (is_dir w p)]; reflexivity. Qed.
Lemma leaves_bind {A B} (c : M A) (k : A -> M B) :
  leaves_world c -> (forall a, leaves_world (k a)) -> leaves_world (bindM c k).
Proof.
  intros Hc Hk w. unfold bindM. specialize (Hc w).
  destruct (c w) as [[a|e] w']; simpl in *; [rewrite Hk|]; auto.
Qed.
Lemma leaves_sha256_file `{Env} p : leaves_world (sha256_file p).
Proof. apply leaves_bind; [apply leaves_read_text | intro; apply leaves_ret]. Qed.

Create HintDb leaves.
#[export] Hint Resolve leaves_ret leaves_throw leaves_liftR leaves_check leaves_file_exists
  leaves_read_text leaves_sha256_file : leaves.

Ltac solve_leaves :=
  repeat (apply leaves_bind; [|intro]);
  first [ solve [eauto with leaves]
        | match goal with
          | |- leaves_world (match ?x with _ => _ end) => destruct x; solve_leaves
          | |- leaves_world (if ?b then _ else _) => destruct b; solve_leaves
          end ].

(** X1: [inference_replay] leaves the world unchanged, whatever its input and whatever it returns: it writes no file, no directory, no registry record and no log line. *)
Theorem inference_replay_leaves_world {F} `{FloatModel F} `{Env} (ti : json F) w :
  snd (inference_replay ti w) = w.
Proof. revert w. change (leaves_world (inference_replay ti)). unfold inference_replay. destruct ti; solve_leaves. Qed.

(** X2: appending a record to a registry either fails with the ValueError of [validate], and then leaves the world untouched, or appends exactly that record at the end of the chosen registry and changes neither the other registry, nor the files, nor the engineering log. *)
Theorem registry_append_outcome which r w :
  (forall e, validate_record (allowed_of which) (kinds_msg_of which) r = Exc e ->
     reg_append which r w = (Exc e, w) /\ exn_cls e = ValueError)
  /\ (validate_record (allowed_of which) (kinds_msg_of which) r = Ok tt ->
     exists w', reg_append which r w = (Ok tt, w') /\ reg_of which w' = reg_of which w ++ [r]
       /\ (match which with ArtifactReg => w_inf w' = w_inf w | InferenceReg => w_art w' = w_art w end)
       /\ w_files w' = w_files w /\ w_log w' = w_log w).
Proof.
  split.
  - intros e V. unfold reg_append, bindM, liftR. rewrite V. split; [reflexivity|].
    revert V. unfold validate_record, raise.
    repeat match goal with |- context [if ?b then _ else _] => destruct b end;
      intro V; inversion V; reflexivity.
  - intros V. destruct (reg_append_at which r w V) as (w' & E & Hf & Hr & Ho & Hl).
    exists w'. auto.
Qed.

Lemma registry_append_outcome_witness :
  (reg_append ArtifactReg (mkRec (cps "m1") (cps "SNAPSHOT_MANIFEST") (cps "t") (repeat 97 64) 3
        (cps "text/plain") [] None None) empty_world
     = (Exc (Exn ValueError (cps (kinds_msg_of ArtifactReg))), empty_world)
   /\ exn_cls (Exn ValueError (cps (kinds_msg_of ArtifactReg))) = ValueError)
  /\ exists w', reg_append InferenceReg (mkRec (cps "r1") (cps "INFERENCE_REQUEST") (cps "t")
        (repeat 97 64) 3 (cps "application/json") [] None None) empty_world = (Ok tt, w')
     /\ reg_of InferenceReg w' = reg_of InferenceReg empty_world ++
          [mkRec (cps "r1") (cps "INFERENCE_REQUEST") (cps "t") (repeat 97 64) 3 (cps "application/json") [] None None]
     /\ w_art w' = w_art empty_world /\ w_files w' = w_files empty_world /\ w_log w' = w_log empty_world.
Proof.
  split.
  - apply (proj1 (registry_append_outcome ArtifactReg _ empty_world)). vm_compute. reflexivity.
  - apply (proj2 (registry_append_outcome InferenceReg _ empty_world)). vm_compute. reflexivity.
Defined.

(** A helper: what an accepting [enforce_policy_gate] has checked. *)
Lemma enforce_policy_gate_ok {F} `{FloatModel F} provider model t mt cap pol :
  enforce_policy_gate provider model t mt cap = Ok pol ->
  mem_str provider (map cps ["openai"; "anthropic"]%string) = true
  /\ mem_str model (allowed_models_of provider) = true
  /\ f_ltb t f_zero = false /\ f_ltb f_one t = false
  /\ 0 < mt <= cap
  /\ pol = {| pol_provider := provider; pol_model := model; pol_temperature := t;
              pol_max_tokens := mt; pol_cap := cap |}.
Proof.
  unfold enforce_policy_gate, allowed_models_of, raise.
  destruct (mem_str provider _) eqn:P; cbn [negb]; [|discriminate].
  destruct (mem_str model _) eqn:Mo; cbn [negb]; [|discriminate].
  destruct (f_ltb t f_zero) eqn:T0; [discriminate|]. destruct (f_ltb f_one t) eqn:T1; [discriminate|].
  cbn [orb]. destruct (mt <=? 0) eqn:A; [discriminate|]. destruct (cap <=? 0) eqn:B; [discriminate|].
  destruct (cap <? mt) eqn:C; [discriminate|]. intros E; inversion E; subst.
  apply Z.leb_gt in A. apply Z.ltb_ge in C. repeat split; auto; lia.
Qed.

(** X3: [enforce_policy_gate] accepts exactly when the provider is openai or
    anthropic, the model is in that provider's allow-list, the temperature is
    neither below 0.0 nor above 1.0 (both comparisons are false, which a NaN
    temperature also satisfies), and 0 < max_tokens <= cap; the policy it
    returns holds exactly the values it was given. *)
Theorem enforce_policy_gate_accepts {F} `{FloatModel F} provider model t mt cap pol :
  enforce_policy_gate provider model t mt cap = Ok pol <->
  (mem_str provider (map cps ["openai"; "anthropic"]%string) = true
   /\ mem_str model (allowed_models_of provider) = true
   /\ f_ltb t f_zero = false /\ f_ltb f_one t = false
   /\ 0 < mt <= cap
   /\ pol = {| pol_provider := provider; pol_model := model; pol_temperature := t;
               pol_max_tokens := mt; pol_cap := cap |}).
Proof.
  split; [apply enforce_policy_gate_ok|].
  unfold enforce_policy_gate, allowed_models_of, raise.
  - intros (P & Mo & T0 & T1 & Hm & ->). rewrite P, Mo, T0, T1. cbn [negb orb].
    replace (mt <=? 0) with false by (symmetry; apply Z.leb_gt; lia).
    replace (cap <=? 0) with false by (symmetry; apply Z.leb_gt; lia).
    replace (cap <? mt) with false by (symmetry; apply Z.ltb_ge; lia). reflexivity.
Qed.

Lemma enforce_policy_gate_accepts_witness :
  enforce_policy_gate (F:=tfloat) (cps "anthropic") (cps "claude-3-haiku") (TFin 1) 100 100
    = Ok {| pol_provider := cps "anthropic"; pol_model := cps "claude-3-haiku";
            pol_temperature := TFin 1; pol_max_tokens := 100; pol_cap := 100 |}.
Proof.
  apply enforce_policy_gate_accepts. vm_compute. repeat split; try reflexivity; discriminate.
Defined.

(** A helper: a payload holding a non-finite float does not hash. *)
Lemma hash_of_nonfinite {F} `{FloatModel F} `{Env} (v : json F) :
  has_nonfinite v = true -> exists m, hash_of v = Exc (Exn CanonicalizationError m).
Proof.
  intros Hn. destruct (canonical_nonfinite v Hn) as [m Hm]. exists m. unfold hash_of. rewrite Hm. reflexivity.
Qed.

(** X4: a request whose temperature is not finite (NaN or infinity) but passes the validation and the policy gate is refused by [build_inference_request] with a CanonicalizationError, since its payload cannot be hashed. *)
Theorem build_request_nonfinite_temperature {F} `{FloatModel F} `{Env} ti rf t pol :
  validate_request_fields ti = Ok rf -> rf_temperature rf = JFloat t -> f_finite t = false ->
  enforce_policy_gate (strip (rf_provider rf)) (strip (rf_model rf)) t (rf_max_tokens rf) (rf_cap rf) = Ok pol ->
  exists m, build_inference_request ti = Exc (Exn CanonicalizationError m).
Proof.
  intros V T Hf G. unfold build_inference_request. rewrite V, T. cbn [to_float]. rewrite G.
  apply enforce_policy_gate_ok in G as (_ & _ & _ & _ & _ & ->).
  destruct (hash_of_nonfinite (JObj (request_payload (rf_created_at_utc rf) (rf_snapshot_hash rf)
     {| pol_provider := strip (rf_provider rf); pol_model := strip (rf_model rf); pol_temperature := t;
        pol_max_tokens := rf_max_tokens rf; pol_cap := rf_cap rf |}
     (rf_system_prompt rf) (rf_user_prompt rf)))) as [m Hm].
  - cbn. rewrite Hf. reflexivity.
  - exists m. rewrite Hm. reflexivity.
Qed.



Lemma build_request_nonfinite_temperature_witness :
  exists m, build_inference_request nan_request_input = Exc (Exn CanonicalizationError m).
Proof.
  apply (build_request_nonfinite_temperature nan_request_input nan_request_fields TNaN
    {| pol_provider := cps "openai"; pol_model := cps "gpt-4o"; pol_temperature := TNaN;
       pol_max_tokens := 16; pol_cap := 64 |}); vm_compute; reflexivity.
Defined.

(** _is_hex64 *)
Lemma last_cons_irrel {A} (z : A) s a b : last (z :: s) a = last (z :: s) b.
Proof. revert z; induction s as [|y s IH]; intros z; [reflexivity|]. exact (IH y). Qed.

Lemma digit_run_hex s prev n : forallb is_hexdigit s = true ->
  digit_run s prev n = Some ((n + List.length s)%nat, last s prev, []).
Proof.
  revert prev n; induction s as [|c s IH]; intros prev n Hs.
  - cbn. rewrite Nat.add_0_r. reflexivity.
  - cbn [forallb] in Hs. apply andb_true_iff in Hs as [Hc Hs]. cbn [digit_run].
    assert (c =? 95 = false) as ->.
    { apply Z.eqb_neq. intro; subst. discriminate Hc. }
    rewrite Hc, IH by exact Hs. f_equal. f_equal. f_equal; [cbn [List.length]; lia|].
    destruct s as [|z s]; [reflexivity|].
    first [exact (last_cons_irrel z s c prev) | exact (last_cons_irrel z s prev c)].
Qed.

Lemma hexdigit_bounds c : is_hexdigit c = true -> 48 <= c <= 102 /\ c <> 95 /\ c <> 120 /\ c <> 88
  /\ c_isspace c = false /\ c <> 43 /\ c <> 45.
Proof.
  unfold is_hexdigit. intro Hc.
  repeat rewrite orb_true_iff in Hc. repeat rewrite andb_true_iff in Hc. rewrite !Z.leb_le in Hc.
  assert (Sp : c_isspace c = false).
  { unfold c_isspace. apply orb_false_iff. split; [apply Z.eqb_neq; lia|].
    apply andb_false_iff. destruct (Z.leb_spec 9 c); [right; apply Z.leb_gt; lia | left; reflexivity]. }
  split; [lia|]. split; [lia|]. split; [lia|]. split; [lia|]. split; [exact Sp|]. split; lia.
Qed.

Lemma map_transform_ascii `{Env} s : forallb (fun c => c <? 128) s = true -> map int_transform s = s.
Proof.
  induction s as [|c s IH]; simpl; [reflexivity|]. intros Hs. apply andb_true_iff in Hs as [Hc Hs].
  rewrite IH by exact Hs. unfold int_transform. rewrite Hc. reflexivity.
Qed.

Lemma hex_ascii s : forallb is_hexdigit s = true -> forallb (fun c => c <? 128) s = true.
Proof.
  induction s as [|c s IH]; simpl; [reflexivity|]. intros Hs. apply andb_true_iff in Hs as [Hc Hs].
  apply andb_true_iff; split; auto. apply Z.ltb_lt. apply hexdigit_bounds in Hc. lia.
Qed.

Lemma last_hex s d : forallb is_hexdigit s = true -> is_hexdigit d = true -> is_hexdigit (last s d) = true.
Proof.
  revert d; induction s as [|c s IH]; intros d Hs Hd; [exact Hd|]. simpl in Hs.
  apply andb_true_iff in Hs as [Hc Hs]. simpl. destruct s; [exact Hc|]. apply IH; auto.
Qed.

(** int(s, 16) on a run of hex digits (after an optional prefix already consumed). *)
Lemma int16_digits `{Env} c s : forallb is_hexdigit (c :: s) = true ->
  match c :: s with
  | c :: _ => if c =? 95 then false else
      match digit_run (c :: s) 0 O with
      | Some (S _, prev, rest) => negb (prev =? 95) && match skip_c_space rest with [] => true | _ => false end
      | _ => false
      end
  | [] => false
  end = true.
Proof.
  intros Hs. pose proof Hs as Hs'. simpl in Hs'. apply andb_true_iff in Hs' as [Hc _].
  destruct (hexdigit_bounds c Hc) as (_ & N95 & _).
  rewrite (proj2 (Z.eqb_neq c 95) N95). rewrite digit_run_hex by exact Hs. cbn [Nat.add List.length].
  simpl skip_c_space.
  assert (Hl : is_hexdigit (last (c :: s) 0) = true).
  { cbn [forallb] in Hs. apply andb_true_iff in Hs as [_ Hs]. destruct s as [|z s]; [exact Hc|].
    change (last (c :: z :: s) 0) with (last (z :: s) 0). rewrite (last_cons_irrel z s 0 z).
    apply last_hex; [exact Hs|]. cbn [forallb] in Hs. apply andb_true_iff in Hs as [Hz _]. exact Hz. }
  destruct (hexdigit_bounds _ Hl) as (_ & L95 & _). rewrite (proj2 (Z.eqb_neq _ 95) L95). reflexivity.
Qed.

(** X5: every string of 64 characters from 0-9a-fA-F passes [_is_hex64]. *)
Theorem is_hex64_hex_digits `{Env} s :
  List.length s = 64%nat -> forallb is_hexdigit s = true -> _is_hex64 s = true.
Proof.
  intros Hl Hs. unfold _is_hex64. rewrite Hl. cbn [Nat.eqb andb]. unfold int16_ok.
  rewrite map_transform_ascii by (apply hex_ascii; exact Hs).
  destruct s as [|c s]; [discriminate Hl|].
  pose proof Hs as Hs'. simpl in Hs'. apply andb_true_iff in Hs' as [Hc Hs2].
  destruct (hexdigit_bounds c Hc) as (_ & _ & _ & _ & Sp & P43 & P45).
  cbn [skip_c_space]. rewrite Sp.
  rewrite (proj2 (Z.eqb_neq c 43) P43), (proj2 (Z.eqb_neq c 45) P45). cbn [orb].
  destruct s as [|d s]; [discriminate Hl|].
  simpl in Hs2. apply andb_true_iff in Hs2 as [Hd _].
  destruct (hexdigit_bounds d Hd) as (_ & _ & X1 & X2 & _).
  rewrite (proj2 (Z.eqb_neq d 120) X1), (proj2 (Z.eqb_neq d 88) X2).
  rewrite andb_false_r. apply int16_digits. exact Hs.
Qed.

Lemma is_hex64_hex_digits_witness : _is_hex64 (H:=toy_env) (toy_sha256 (cps "abc")) = true.
Proof. apply is_hex64_hex_digits; vm_compute; reflexivity. Defined.

Lemma digit_run_app t r prev n : forallb is_hexdigit t = true ->
  digit_run (t ++ r) prev n = digit_run r (last t prev) (n + List.length t).
Proof.
  revert prev n; induction t as [|c t IH]; intros prev n Ht.
  - cbn. rewrite Nat.add_0_r. reflexivity.
  - cbn [forallb] in Ht. apply andb_true_iff in Ht as [Hc Ht]. cbn [app digit_run].
    destruct (hexdigit_bounds c Hc) as (_ & N95 & _).
    rewrite (proj2 (Z.eqb_neq c 95) N95), Hc, IH by exact Ht.
    replace (S n + List.length t)%nat with (n + List.length (c :: t))%nat by (cbn; lia).
    destruct t as [|z t]; [reflexivity|].
    change (last (c :: z :: t) prev) with (last (z :: t) prev). rewrite (last_cons_irrel z t c prev). reflexivity.
Qed.

Lemma last_hex_ne t d : t <> [] -> forallb is_hexdigit t = true -> is_hexdigit (last t d) = true.
Proof.
  intros Hn Ht. destruct t as [|z t]; [congruence|]. rewrite (last_cons_irrel z t d z).
  apply last_hex; [exact Ht|]. cbn [forallb] in Ht. apply andb_true_iff in Ht as [Hz _]. exact Hz.
Qed.

Lemma last_not95 t d : t <> [] -> forallb is_hexdigit t = true -> (last t d =? 95) = false.
Proof.
  intros Hn Ht. apply Z.eqb_neq. destruct (hexdigit_bounds _ (last_hex_ne t d Hn Ht)) as (_ & N & _). exact N.
Qed.

Lemma head_not95 c t : forallb is_hexdigit (c :: t) = true -> (c =? 95) = false.
Proof.
  cbn [forallb]. intros H. apply andb_true_iff in H as [Hc _].
  apply Z.eqb_neq. destruct (hexdigit_bounds c Hc) as (_ & N & _). exact N.
Qed.

Lemma digit_run_us r prev n :
  digit_run (95 :: r) prev n = if prev =? 95 then None else digit_run r 95 n.
Proof. reflexivity. Qed.

(** The tail of [int16_ok] after the prefix: hex digits, possibly split by
    one underscore, then possibly one space. *)
Lemma digits_tail_ok `{Env} t u r : t <> [] -> forallb is_hexdigit t = true ->
  forallb is_hexdigit u = true -> (u = [] \/ r = []) -> (r = [] \/ r = [32]) ->
  match t ++ (match u with [] => [] | _ => 95 :: u end) ++ r with
  | c :: _ => if c =? 95 then false else
      match digit_run (t ++ (match u with [] => [] | _ => 95 :: u end) ++ r) 0 O with
      | Some (S _, prev, rest) => negb (prev =? 95) && match skip_c_space rest with [] => true | _ => false end
      | _ => false
      end
  | [] => false
  end = true.
Proof.
  intros Hn Ht Hu Hur Hr. destruct t as [|c t']; [congruence|].
  assert (NE : c :: t' <> []) by discriminate.
  rewrite digit_run_app by exact Ht. cbn [app List.length Nat.add]. rewrite (head_not95 c t' Ht).
  destruct u as [|z u'].
  - cbn [app]. destruct Hr as [-> | ->].
    + cbn [digit_run]. rewrite (last_not95 _ _ NE Ht). reflexivity.
    + cbn [digit_run]. change (32 =? 95) with false. change (is_hexdigit 32) with false.
      cbv iota beta. rewrite (last_not95 _ _ NE Ht). reflexivity.
  - destruct Hur as [Hu0 | ->]; [discriminate|]. rewrite app_nil_r.
    assert (NEu : z :: u' <> []) by discriminate.
    rewrite digit_run_us, (last_not95 _ _ NE Ht), (digit_run_hex (z :: u')) by exact Hu.
    cbv iota beta. rewrite (last_not95 _ _ NEu Hu). reflexivity.
Qed.

Lemma hex_cons_ascii c t : forallb is_hexdigit (c :: t) = true -> forallb (fun c => c <? 128) (c :: t) = true.
Proof. apply hex_ascii. Qed.

Lemma first_hex c t : forallb is_hexdigit (c :: t) = true -> is_hexdigit c = true.
Proof. cbn [forallb]. intros H. apply andb_true_iff in H as [H _]. exact H. Qed.

(** X6: [_is_hex64] also accepts strings that are not 64 hex digits, because it uses int(s, 16): a 0x prefix with 62 hex digits, 63 hex digits with a leading or trailing space, and 63 hex digits with an underscore between two of them. *)
Theorem is_hex64_accepts_non_digests `{Env} t :
  forallb is_hexdigit t = true ->
  (List.length t = 62%nat -> _is_hex64 (cps "0x" ++ t) = true)
  /\ (List.length t = 63%nat -> _is_hex64 (32 :: t) = true /\ _is_hex64 (t ++ [32]) = true)
  /\ (forall a b, t = a ++ b -> a <> [] -> b <> [] -> List.length t = 63%nat ->
        _is_hex64 (a ++ 95 :: b) = true).
Proof.
  intros Ht. split; [|split].
  - intros Hl. unfold _is_hex64. change (cps "0x" ++ t) with (48 :: 120 :: t).
    cbn [List.length]. rewrite Hl. cbn [Nat.eqb andb]. unfold int16_ok.
    rewrite (map_transform_ascii (48 :: 120 :: t)) by (cbn [forallb]; rewrite hex_ascii by exact Ht; reflexivity).
    cbn [skip_c_space c_isspace Z.eqb Pos.eqb Z.leb Z.compare Pos.compare Pos.compare_cont orb andb negb].
    destruct t as [|c t']; [discriminate Hl|].
    cbn match. rewrite (head_not95 c t' Ht).
    pose proof (digits_tail_ok (c :: t') [] [] ltac:(discriminate) Ht eq_refl (or_introl eq_refl) (or_introl eq_refl)) as G.
    rewrite !app_nil_r in G. exact G.
  - intros Hl. split.
    + unfold _is_hex64. cbn [List.length]. rewrite Hl. cbn [Nat.eqb andb]. unfold int16_ok.
      rewrite (map_transform_ascii (32 :: t)) by (cbn [forallb]; rewrite hex_ascii by exact Ht; reflexivity).
      destruct t as [|c t']; [discriminate Hl|].
      destruct (hexdigit_bounds c (first_hex c t' Ht)) as (_ & _ & X1 & X2 & Sp & P43 & P45).
      cbn [skip_c_space]. replace (c_isspace 32) with true by reflexivity. cbn [skip_c_space]. rewrite Sp.
      rewrite (proj2 (Z.eqb_neq c 43) P43), (proj2 (Z.eqb_neq c 45) P45). cbn [orb].
      destruct t' as [|d t'']; [discriminate Hl|].
      destruct (hexdigit_bounds d (first_hex d t'' (proj2 (proj1 (andb_true_iff _ _) Ht)))) as (_ & _ & D1 & D2 & _).
      rewrite (proj2 (Z.eqb_neq d 120) D1), (proj2 (Z.eqb_neq d 88) D2), andb_false_r.
      pose proof (digits_tail_ok (c :: d :: t'') [] [] ltac:(discriminate) Ht eq_refl (or_introl eq_refl) (or_introl eq_refl)) as G.
      rewrite !app_nil_r in G. exact G.
    + unfold _is_hex64. rewrite length_app, Hl. cbn [Nat.eqb andb Nat.add]. unfold int16_ok.
      rewrite map_transform_ascii by (rewrite forallb_app, hex_ascii by exact Ht; reflexivity).
      destruct t as [|c t']; [discriminate Hl|].
      destruct (hexdigit_bounds c (first_hex c t' Ht)) as (_ & _ & X1 & X2 & Sp & P43 & P45).
      cbn [app skip_c_space]. rewrite Sp.
      rewrite (proj2 (Z.eqb_neq c 43) P43), (proj2 (Z.eqb_neq c 45) P45). cbn [orb].
      destruct t' as [|d t'']; [discriminate Hl|].
      destruct (hexdigit_bounds d (first_hex d t'' (proj2 (proj1 (andb_true_iff _ _) Ht)))) as (_ & _ & D1 & D2 & _).
      cbn [app]. rewrite (proj2 (Z.eqb_neq d 120) D1), (proj2 (Z.eqb_neq d 88) D2), andb_false_r.
      pose proof (digits_tail_ok (c :: d :: t'') [] [32] ltac:(discriminate) Ht eq_refl (or_introl eq_refl) (or_intror eq_refl)) as G.
      exact G.
  - intros a b -> Ha Hb Hl. rewrite forallb_app in Ht. apply andb_true_iff in Ht as [Ha' Hb'].
    unfold _is_hex64. rewrite length_app. cbn [List.length]. rewrite length_app in Hl.
    replace (List.length a + S (List.length b))%nat with 64%nat by lia. cbn [Nat.eqb andb]. unfold int16_ok.
    rewrite map_transform_ascii
      by (rewrite forallb_app; cbn [forallb]; rewrite !hex_ascii by assumption; reflexivity).
    destruct a as [|c a']; [congruence|].
    destruct (hexdigit_bounds c (first_hex c a' Ha')) as (_ & _ & X1 & X2 & Sp & P43 & P45).
    cbn [app skip_c_space]. rewrite Sp.
    rewrite (proj2 (Z.eqb_neq c 43) P43), (proj2 (Z.eqb_neq c 45) P45). cbn [orb].
    assert (Hx : match (a' ++ 95 :: b) with d :: _ => (d =? 120) || (d =? 88) | [] => false end = false).
    { destruct a' as [|d a'']; [reflexivity|]. cbn [app].
      destruct (hexdigit_bounds d (first_hex d a'' (proj2 (proj1 (andb_true_iff _ _) Ha')))) as (_ & _ & D1 & D2 & _).
      rewrite (proj2 (Z.eqb_neq d 120) D1), (proj2 (Z.eqb_neq d 88) D2). reflexivity. }
    destruct (a' ++ 95 :: b) as [|d r] eqn:E; [destruct a'; discriminate E|].
    cbn in Hx. rewrite Hx, andb_false_r. rewrite <- E.
    pose proof (digits_tail_ok (c :: a') b [] ltac:(discriminate) Ha' Hb' (or_intror eq_refl) (or_introl eq_refl)) as G.
    destruct b as [|z b']; [congruence|]. rewrite app_nil_r in G. exact G.
Qed.

Lemma is_hex64_accepts_non_digests_witness :
  _is_hex64 (H:=toy_env) (cps "0x" ++ repeat 97 62) = true
  /\ (_is_hex64 (H:=toy_env) (32 :: repeat 97 63) = true /\ _is_hex64 (H:=toy_env) (repeat 97 63 ++ [32]) = true)
  /\ _is_hex64 (H:=toy_env) (repeat 97 30 ++ 95 :: repeat 97 33) = true.
Proof.
  destruct (is_hex64_accepts_non_digests (H:=toy_env) (repeat 97 63)) as [_ [B C]]; [vm_compute; reflexivity|].
  destruct (is_hex64_accepts_non_digests (H:=toy_env) (repeat 97 62)) as [A _]; [vm_compute; reflexivity|].
  split; [apply A; reflexivity|]. split; [apply B; reflexivity|].
  apply C; [vm_compute; reflexivity | discriminate | discriminate | reflexivity].
Defined.

Lemma lstrip_suffix s : exists p, s = p ++ lstrip s.
Proof.
  induction s as [|c s [p Hp]]; [exists []; reflexivity|]. cbn [lstrip].
  destruct (isspace c); [exists (c :: p); cbn; rewrite <- Hp; reflexivity | exists []; reflexivity].
Qed.

Lemma strip_infix s : exists p q, s = p ++ strip s ++ q.
Proof.
  destruct (lstrip_suffix s) as [p Hp]. destruct (lstrip_suffix (rev (lstrip s))) as [q Hq].
  exists p, (rev q). unfold strip. rewrite Hp at 1. f_equal.
  transitivity (rev (rev (lstrip s))); [symmetry; apply rev_involutive|].
  rewrite Hq at 1. rewrite rev_app_distr. reflexivity.
Qed.

Lemma lstrip_head_ok s : forall c t, lstrip s = c :: t -> isspace c = false.
Proof.
  induction s as [|x s IH]; cbn [lstrip]; intros c t E; [discriminate|].
  destruct (isspace x) eqn:Ex; [eauto|]. injection E as -> _. exact Ex.
Qed.

(** The first and the last character of [strip s] are not white space. *)
Lemma strip_ends s : forall c t, strip s = c :: t -> isspace c = false /\ isspace (last (c :: t) 0) = false.
Proof.
  intros c t E. unfold strip in E.
  set (y := lstrip s) in E. destruct (lstrip_suffix (rev y)) as [p Hp].
  set (z := lstrip (rev y)) in E, Hp.
  assert (Hy : y = rev z ++ rev p) by (rewrite <- (rev_involutive y), Hp, rev_app_distr; reflexivity).
  split.
  - rewrite E in Hy. apply (lstrip_head_ok s c (t ++ rev p)). exact Hy.
  - assert (Ez : z = rev (c :: t)) by (rewrite <- E, rev_involutive; reflexivity).
    destruct (rev (c :: t)) as [|d u] eqn:R.
    + apply (f_equal (@List.length Z)) in R. rewrite length_rev in R. discriminate.
    + assert (L : last (c :: t) 0 = d).
      { rewrite <- (rev_involutive (c :: t)), R. cbn [rev]. apply last_last. }
      rewrite L. exact (lstrip_head_ok (rev y) d u Ez).
Qed.

Lemma collapse_runs_space b s c : In c (collapse_runs b s) -> isspace c = true -> c = 32.
Proof.
  revert b; induction s as [|x s IH]; cbn [collapse_runs]; intros b Hin Hc; [destruct Hin|].
  destruct (isspace x) eqn:Ex; [destruct b|].
  - eauto.
  - destruct Hin as [<-|Hin]; eauto.
  - destruct Hin as [<-|Hin]; [congruence|eauto].
Qed.

(** No two white-space characters are adjacent in the output of
    [collapse_runs], nor does it start with one after white space. *)
Lemma collapse_runs_adj s : forall b,
  (forall a c d t, collapse_runs b s = a ++ c :: d :: t -> isspace c = true -> isspace d = false)
  /\ (b = true -> forall c t, collapse_runs b s = c :: t -> isspace c = false).
Proof.
  induction s as [|x s IH]; intros b; cbn [collapse_runs].
  - split; [intros [|? ?] ? ? ? E; discriminate|intros _ c t E; discriminate].
  - destruct (IH true) as [A1 H1]. destruct (IH false) as [A0 _].
    destruct (isspace x) eqn:Ex; [destruct b|]; split.
    + exact A1.
    + intros _. exact (H1 eq_refl).
    + intros [|y a] c d t E Hc.
      * injection E as <- E. exact (H1 eq_refl d t E).
      * injection E as _ E. exact (A1 a c d t E Hc).
    + discriminate.
    + intros [|y a] c d t E Hc.
      * injection E as <- _. congruence.
      * injection E as _ E. exact (A0 a c d t E Hc).
    + intros _ c t E. injection E as <- _. exact Ex.
Qed.

(** A string in normal form: white space only as single inner spaces. *)
Lemma collapse_ws_normal s : forall st, st = _collapse_ws s ->
  (forall c, In c st -> isspace c = true -> c = 32)
  /\ (forall a c d t, st = a ++ c :: d :: t -> isspace c = true -> isspace d = false)
  /\ (forall c t, st = c :: t -> isspace c = false /\ isspace (last st 0) = false).
Proof.
  intros st Hst. unfold _collapse_ws in Hst.
  destruct (strip_infix (collapse_runs false s)) as (p & q & E). rewrite <- Hst in E.
  split; [|split].
  - intros c Hin Hc. apply (collapse_runs_space false s c); [|exact Hc].
    rewrite E. apply in_or_app. right. apply in_or_app. left. exact Hin.
  - intros a c d t Ea Hc. apply (proj1 (collapse_runs_adj s false) (p ++ a) c d (t ++ q)); [|exact Hc].
    rewrite E, Ea. rewrite <- !app_assoc. reflexivity.
  - intros c t Ec. subst st. rewrite Ec. apply (strip_ends (collapse_runs false s)). exact Ec.
Qed.

Lemma collapse_runs_fixed s : forall b,
  (forall c, In c s -> isspace c = true -> c = 32) ->
  (forall a c d t, s = a ++ c :: d :: t -> isspace c = true -> isspace d = false) ->
  (b = true -> forall c t, s = c :: t -> isspace c = false) ->
  collapse_runs b s = s.
Proof.
  induction s as [|x s IH]; intros b Hsp Hadj Hb; [reflexivity|]. cbn [collapse_runs].
  assert (Hsp' : forall c, In c s -> isspace c = true -> c = 32) by (intros c Hc; apply Hsp; right; exact Hc).
  assert (Hadj' : forall a c d t, s = a ++ c :: d :: t -> isspace c = true -> isspace d = false)
    by (intros a c d t E; apply (Hadj (x :: a) c d t); rewrite E; reflexivity).
  destruct (isspace x) eqn:Ex.
  - destruct b; [rewrite (Hb eq_refl x s eq_refl) in Ex; discriminate|].
    rewrite (Hsp x (or_introl eq_refl) Ex). f_equal. apply IH; auto.
    intros _ c t Es. subst s. exact (Hadj [] x c t eq_refl Ex).
  - f_equal. apply IH; auto. discriminate.
Qed.

Lemma strip_fixed s : (forall c t, s = c :: t -> isspace c = false /\ isspace (last s 0) = false) -> strip s = s.
Proof.
  intros Hs. destruct s as [|c t]; [reflexivity|]. destruct (Hs c t eq_refl) as [H1 H2].
  unfold strip. rewrite (lstrip_keep (c :: t)) by (right; eauto).
  destruct (rev (c :: t)) as [|d u] eqn:R.
  { apply (f_equal (@List.length Z)) in R. rewrite length_rev in R. discriminate. }
  rewrite (lstrip_keep (d :: u)).
  - rewrite <- R, rev_involutive. reflexivity.
  - right. exists d, u. split; [reflexivity|].
    rewrite <- (rev_involutive (c :: t)), R in H2. cbn [rev] in H2. rewrite last_last in H2. exact H2.
Qed.

Lemma collapse_ws_idem s : _collapse_ws (_collapse_ws s) = _collapse_ws s.
Proof.
  destruct (collapse_ws_normal s _ eq_refl) as (A & B & C).
  unfold _collapse_ws at 1. rewrite (collapse_runs_fixed _ false A B); [|discriminate].
  apply strip_fixed. exact C.
Qed.

Lemma split_statements_from_collapse text st : In st (_split_statements text) ->
  st <> [] /\ exists p, st = _collapse_ws p.
Proof.
  unfold _split_statements. destruct text as [|z text]; [intros []|].
  intros Hin. apply in_flat_map in Hin as (line0 & _ & Hin).
  destruct (strip line0) as [|y l]; [destruct Hin|].
  apply in_flat_map in Hin as (p & _ & Hin).
  destruct (_collapse_ws p) as [|u v] eqn:E; [destruct Hin|].
  destruct Hin as [<-|[]]. split; [discriminate|]. exists p. symmetry. exact E.
Qed.

(** X7: every statement produced by [_split_statements] is non-empty, has no leading or trailing whitespace, has only single spaces as whitespace (no two whitespace characters in a row), and is left unchanged by [_collapse_ws]. *)
Theorem split_statements_normal_form text st : In st (_split_statements text) ->
  st <> []
  /\ (forall c, In c st -> isspace c = true -> c = 32)
  /\ (forall a c d t, st = a ++ c :: d :: t -> isspace c = true -> isspace d = false)
  /\ isspace (hd 0 st) = false /\ isspace (last st 0) = false
  /\ _collapse_ws st = st.
Proof.
  intros Hin. destruct (split_statements_from_collapse text st Hin) as [Hne [p Hp]].
  destruct (collapse_ws_normal p st Hp) as (A & B & C).
  destruct st as [|c t]; [congruence|]. destruct (C c t eq_refl) as [C1 C2].
  split; [exact Hne|]. split; [exact A|]. split; [exact B|]. split; [exact C1|]. split; [exact C2|].
  rewrite Hp. apply collapse_ws_idem.
Qed.

Lemma split_statements_normal_form_witness :
  In (cps "What is gamma?") (_split_statements (cps "The sky  is blue.   What is gamma?")) /\
  cps "What is gamma?" <> []
  /\ (forall c, In c (cps "What is gamma?") -> isspace c = true -> c = 32)
  /\ (forall a c d t, cps "What is gamma?" = a ++ c :: d :: t -> isspace c = true -> isspace d = false)
  /\ isspace (hd 0 (cps "What is gamma?")) = false /\ isspace (last (cps "What is gamma?") 0) = false
  /\ _collapse_ws (cps "What is gamma?") = cps "What is gamma?".
Proof.
  assert (I : In (cps "What is gamma?") (_split_statements (cps "The sky  is blue.   What is gamma?")))
    by (vm_compute; right; left; reflexivity).
  split; [exact I|]. exact (split_statements_normal_form _ _ I).
Defined.

Lemma jsonl_line_eq {F} `{FloatModel F} c s :
  canonical_dumps (F:=F) (JObj [(cps "type", JStr c); (cps "text", JStr s)]) = Ok (jsonl_line c s).
Proof.
  unfold canonical_dumps. rewrite json_dumps_obj.
  change (cps "type") with [116;121;112;101]. change (cps "text") with [116;101;120;116].
  cbn. unfold dumps_str, jsonl_line. rewrite <- !app_assoc. cbn [app]. rewrite <- !app_assoc. cbn [app]. reflexivity.
Qed.

Lemma jsonl_line_loads {F} `{FloatModel F} c s :
  forallb is_code_point c = true -> forallb is_code_point s = true ->
  json_loads (F:=F) (jsonl_line c s) = Ok (JObj [(cps "text", JStr s); (cps "type", JStr c)]).
Proof.
  intros Hc Hs.
  pose proof (scanstring_esc s (44 :: 34 :: 116 :: 121 :: 112 :: 101 :: 34 :: 58 :: 34 :: (flat_map esc_char c ++ [34; 125])) Hs) as S1.
  pose proof (scanstring_esc c [125] Hc) as S2.
  unfold json_loads, jsonl_line.
  remember (flat_map esc_char s) as X eqn:HX. remember (flat_map esc_char c) as Y eqn:HY.
  simpl. rewrite S1. simpl. rewrite S2. simpl. reflexivity.
Qed.


Lemma esc_char_ge32 c x : is_code_point c = true -> In x (esc_char c) -> 32 <= x.
Proof.
  unfold is_code_point, esc_char. intros Hc Hx. apply andb_true_iff in Hc as [Hc _]. apply Z.leb_le in Hc.
  destruct (Z.eqb_spec c 34); [cbn in Hx; intuition lia|].
  destruct (Z.eqb_spec c 92); [cbn in Hx; intuition lia|].
  destruct (Z.eqb_spec c 8); [cbn in Hx; intuition lia|].
  destruct (Z.eqb_spec c 12); [cbn in Hx; intuition lia|].
  destruct (Z.eqb_spec c 10); [cbn in Hx; intuition lia|].
  destruct (Z.eqb_spec c 13); [cbn in Hx; intuition lia|].
  destruct (Z.eqb_spec c 9); [cbn in Hx; intuition lia|].
  destruct (Z.ltb_spec c 32); [|cbn in Hx; intuition lia].
  assert (0 <= c / 16 < 2) by (split; [apply Z.div_pos|apply Z.div_lt_upper_bound]; lia).
  pose proof (Z.mod_pos_bound c 16 ltac:(lia)).
  unfold hexdig in Hx. destruct (Z.ltb_spec (c / 16) 10); destruct (Z.ltb_spec (c mod 16) 10);
    cbn [In] in Hx; intuition lia.
Qed.

Lemma esc_ge32 s x : forallb is_code_point s = true -> In x (flat_map esc_char s) -> 32 <= x.
Proof.
  intros Hs Hx. apply in_flat_map in Hx as (c & Hc & Hx). rewrite forallb_forall in Hs.
  exact (esc_char_ge32 c x (Hs c Hc) Hx).
Qed.

Lemma jsonl_line_ge32 c s x : forallb is_code_point c = true -> forallb is_code_point s = true ->
  In x (jsonl_line c s) -> 32 <= x.
Proof.
  intros Hc Hs Hx. unfold jsonl_line in Hx.
  repeat (destruct Hx as [<-|Hx]; [lia|]).
  apply in_app_or in Hx as [Hx|Hx]; [exact (esc_ge32 s x Hs Hx)|].
  repeat (destruct Hx as [<-|Hx]; [lia|]).
  apply in_app_or in Hx as [Hx|Hx]; [exact (esc_ge32 c x Hc Hx)|].
  repeat (destruct Hx as [<-|Hx]; [lia|]). destruct Hx.
Qed.

Lemma norm_nl_no_cr s : (forall x, In x s -> x <> 13) -> norm_nl s = s.
Proof.
  induction s as [|c s IH]; intros Hs; [reflexivity|]. cbn [norm_nl].
  rewrite (proj2 (Z.eqb_neq c 13) (Hs c (or_introl eq_refl))). f_equal. apply IH. intros x Hx. apply Hs. right. exact Hx.
Qed.

Lemma split_on_app sep l r cur : (forall x, In x l -> x <> sep) ->
  split_on sep (l ++ r) cur = split_on sep r (rev l ++ cur).
Proof.
  revert cur; induction l as [|c l IH]; intros cur Hl; [reflexivity|]. cbn [app split_on].
  rewrite (proj2 (Z.eqb_neq c sep) (Hl c (or_introl eq_refl))).
  rewrite IH by (intros x Hx; apply Hl; right; exact Hx). cbn [rev]. rewrite <- app_assoc. reflexivity.
Qed.

Lemma split_on_join sep ls : ls <> [] -> (forall l x, In l ls -> In x l -> x <> sep) ->
  split_on sep (join [sep] ls ++ [sep]) [] = ls ++ [[]].
Proof.
  induction ls as [|l ls IH]; intros Hne Hls; [congruence|].
  assert (Hl : forall x, In x l -> x <> sep) by (intros x; apply Hls; left; reflexivity).
  destruct ls as [|l' ls].
  - cbn [join]. rewrite split_on_app by exact Hl. cbn. rewrite Z.eqb_refl, app_nil_r, rev_involutive. reflexivity.
  - change (join [sep] (l :: l' :: ls)) with (l ++ [sep] ++ join [sep] (l' :: ls)).
    rewrite <- app_assoc, split_on_app by exact Hl. cbn [app split_on]. rewrite Z.eqb_refl, app_nil_r, rev_involutive.
    rewrite IH; [reflexivity|discriminate|]. intros l0 x H0. apply Hls. right. exact H0.
Qed.

Lemma join_In sep ls x : In x (join sep ls) -> In x sep \/ exists l, In l ls /\ In x l.
Proof.
  induction ls as [|l ls IH]; [intros []|]. destruct ls as [|l' ls].
  - intros Hx. right. exists l. split; [left; reflexivity|exact Hx].
  - intros Hx. change (join sep (l :: l' :: ls)) with (l ++ sep ++ join sep (l' :: ls)) in Hx.
    apply in_app_or in Hx as [Hx|Hx]; [right; exists l; split; [left|]; auto|].
    apply in_app_or in Hx as [Hx|Hx]; [left; exact Hx|].
    destruct (IH Hx) as [?|(l0 & H0 & H1)]; [left; assumption|right; exists l0; split; [right|]; assumption].
Qed.

Lemma jsonl_line_last c s : exists P, jsonl_line c s = P ++ [125].
Proof.
  exists (123 :: 34 :: 116 :: 101 :: 120 :: 116 :: 34 :: 58 :: 34 ::
     (flat_map esc_char s ++ 34 :: 44 :: 34 :: 116 :: 121 :: 112 :: 101 :: 34 :: 58 :: 34 ::
      (flat_map esc_char c ++ [34]))).
  unfold jsonl_line. cbn [app]. rewrite <- !app_assoc. cbn [app]. rewrite <- !app_assoc. reflexivity.
Qed.

Lemma jsonl_line_strip c s : strip (jsonl_line c s) = jsonl_line c s.
Proof.
  apply strip_fixed. intros x t E. split.
  - unfold jsonl_line in E. injection E as <- _. reflexivity.
  - destruct (jsonl_line_last c s) as [P ->]. rewrite last_last. reflexivity.
Qed.

Lemma text_lines_jsonl ls : ls <> [] ->
  (forall l x, In l ls -> In x l -> 32 <= x) -> (forall l, In l ls -> strip l = l /\ l <> []) ->
  text_lines (join [10] ls ++ [10]) = ls.
Proof.
  intros Hne Hge Hst. unfold text_lines.
  rewrite norm_nl_no_cr.
  2:{ intros x Hx. apply in_app_or in Hx as [Hx|[<-|[]]]; [|lia].
      apply join_In in Hx as [[<-|[]]|(l & Hl & Hx)]; [lia|]. specialize (Hge l x Hl Hx). lia. }
  rewrite split_on_join by (auto; intros l x Hl Hx; specialize (Hge l x Hl Hx); lia).
  rewrite map_app. cbn [map strip lstrip rev]. rewrite filter_app. cbn [filter app]. rewrite app_nil_r.
  induction ls as [|l ls IH]; [reflexivity|]. cbn [map filter].
  destruct (Hst l (or_introl eq_refl)) as [-> Hl]. destruct l as [|z l]; [congruence|].
  destruct ls as [|l' ls]; [reflexivity|]. f_equal. apply IH; [discriminate| |].
  - intros l0 x H0. apply Hge. right. exact H0.
  - intros l0 H0. apply Hst. right. exact H0.
Qed.

Lemma classify_cases `{Env} s :
  _classify s = cps "QUESTION" \/ _classify s = cps "ASSUMPTION" \/ _classify s = cps "SOURCE-BASED".
Proof.
  unfold _classify. destruct (_ || _); [left; reflexivity|].
  destruct (existsb _ _); [right; left; reflexivity|right; right; reflexivity].
Qed.

Lemma classify_ok `{Env} s : forallb is_code_point (_classify s) = true /\ nonblank (_classify s) = true.
Proof. destruct (classify_cases s) as [->|[->| ->]]; split; reflexivity. Qed.

Lemma map_res_jsonl {F} `{FloatModel F} `{Env} stmts :
  map_res (fun stmt => canonical_dumps (F:=F)
             (JObj [(cps "type", JStr (_classify stmt)); (cps "text", JStr stmt)])) stmts
  = Ok (map (fun st => jsonl_line (_classify st) st) stmts).
Proof. induction stmts as [|st stmts IH]; [reflexivity|]. cbn [map_res map]. rewrite jsonl_line_eq, IH. reflexivity. Qed.

(** Every JSONL text written for statements of code points that are not
    blank is read back by [_load_sanitized] as the classified statements. *)
Lemma to_jsonl_reloads {F} `{FloatModel F} `{Env} stmts :
  (forall st, In st stmts -> nonblank st = true /\ forallb is_code_point st = true) ->
  exists out, _to_jsonl (F:=F) stmts = Ok out /\
    load_sanitized_text (F:=F) out = Ok (map (fun st => (_classify st, st)) stmts).
Proof.
  intros Hst. unfold _to_jsonl. rewrite map_res_jsonl.
  destruct stmts as [|st0 stmts0]; [exists []; split; reflexivity|].
  exists (join [10] (map (fun st => jsonl_line (_classify st) st) (st0 :: stmts0)) ++ [10]).
  split; [reflexivity|].
  unfold load_sanitized_text. rewrite text_lines_jsonl.
  - revert Hst. generalize (st0 :: stmts0) as stmts. clear st0 stmts0. intros stmts Hst.
    induction stmts as [|st stmts IH]; [reflexivity|].
    destruct (Hst st (or_introl eq_refl)) as [Hnb Hcp]. destruct (classify_ok st) as [Cc Cnb].
    cbn [map map_res]. rewrite (jsonl_line_loads _ _ Cc Hcp). cbn [dget].
    change (str_eqb (cps "text") (cps "type")) with false. change (str_eqb (cps "text") (cps "text")) with true.
    change (str_eqb (cps "type") (cps "type")) with true. cbn [is_nonblank_str negb as_str].
    rewrite Cnb, Hnb. cbn [negb]. rewrite IH; [reflexivity|]. intros st' H'. apply Hst. right. exact H'.
  - discriminate.
  - intros l x Hl Hx. apply in_map_iff in Hl as (st & <- & Hin).
    destruct (Hst st Hin) as [_ Hcp]. exact (jsonl_line_ge32 _ _ x (proj1 (classify_ok st)) Hcp Hx).
  - intros l Hl. apply in_map_iff in Hl as (st & <- & Hin). split; [apply jsonl_line_strip|discriminate].
Qed.

Section CharsKept.
Variable P : Z -> Prop.
Hypothesis P10 : P 10.
Hypothesis P32 : P 32.

Lemma norm_nl_Forall s : Forall P s -> Forall P (norm_nl s).
Proof.
  remember (List.length s) as n eqn:En. revert s En.
  induction n as [n IH] using lt_wf_ind. intros s En Hs.
  destruct s as [|c r]; [constructor|]. inversion Hs as [|? ? Hc Hr]; subst. cbn [norm_nl].
  destruct (c =? 13); [|constructor; [exact Hc|apply (IH (List.length r)); cbn; auto]].
  destruct r as [|d r']; [constructor; auto|].
  inversion Hr as [|? ? Hd Hr']; subst.
  destruct (d =? 10); constructor; auto.
  - apply (IH (List.length r')); cbn; auto.
  - apply (IH (List.length (d :: r'))); cbn; auto.
Qed.

Lemma split_on_Forall sep s cur : Forall P s -> Forall P cur -> Forall (Forall P) (split_on sep s cur).
Proof.
  revert cur; induction s as [|c s IH]; intros cur Hs Hc; cbn [split_on].
  - constructor; [apply Forall_rev, Hc|constructor].
  - inversion Hs; subst. destruct (c =? sep).
    + constructor; [apply Forall_rev, Hc|apply IH; auto].
    + apply IH; auto.
Qed.

Lemma split_sent_Forall s cur pp sk : Forall P s -> Forall P cur -> Forall (Forall P) (split_sent s cur pp sk).
Proof.
  revert cur pp sk; induction s as [|c s IH]; intros cur pp sk Hs Hc; cbn [split_sent].
  - constructor; [apply Forall_rev, Hc|constructor].
  - inversion Hs; subst. destruct (sk && isspace c); [apply IH; auto|].
    destruct (pp && isspace c); [constructor; [apply Forall_rev, Hc|apply IH; auto]|apply IH; auto].
Qed.

Lemma strip_Forall s : Forall P s -> Forall P (strip s).
Proof.
  intros Hs. destruct (strip_infix s) as (p & q & E). rewrite E in Hs.
  apply Forall_app in Hs as [_ Hs]. apply Forall_app in Hs as [Hs _]. exact Hs.
Qed.

Lemma collapse_runs_Forall b s : Forall P s -> Forall P (collapse_runs b s).
Proof.
  revert b; induction s as [|c s IH]; intros b Hs; cbn [collapse_runs]; [constructor|].
  inversion Hs; subst. destruct (isspace c); [destruct b|]; auto.
Qed.

Lemma split_statements_Forall text : Forall P text -> Forall (Forall P) (_split_statements text).
Proof.
  intros Ht. unfold _split_statements. destruct text as [|z t]; [constructor|].
  apply Forall_forall. intros st Hin. apply in_flat_map in Hin as (line0 & Hl & Hin).
  assert (Hl0 : Forall P line0).
  { pose proof (split_on_Forall 10 _ [] (norm_nl_Forall _ Ht) (Forall_nil _)) as A.
    rewrite Forall_forall in A. exact (A line0 Hl). }
  destruct (strip line0) as [|y l] eqn:Es; [destruct Hin|].
  apply in_flat_map in Hin as (p & Hp & Hin).
  assert (Hp0 : Forall P p).
  { pose proof (strip_Forall _ Hl0) as S0. rewrite Es in S0.
    pose proof (split_sent_Forall (y :: l) [] false false S0 (Forall_nil _)) as A.
    rewrite Forall_forall in A. exact (A p Hp). }
  destruct (_collapse_ws p) as [|u v] eqn:E; [destruct Hin|]. destruct Hin as [<-|[]].
  rewrite <- E. apply strip_Forall, collapse_runs_Forall, Hp0.
Qed.
End CharsKept.

(** X8: for a text of valid code points, [_to_jsonl] of its statements succeeds, and reading the result back line by line as [artifact_canon_select] does returns each statement with the type [_classify] gives it, in order. *)
Theorem sanitize_jsonl_reloads {F} `{FloatModel F} `{Env} text :
  forallb is_code_point text = true ->
  exists out, _to_jsonl (F:=F) (_split_statements text) = Ok out /\
    load_sanitized_text (F:=F) out = Ok (map (fun st => (_classify st, st)) (_split_statements text)).
Proof.
  intros Ht. apply to_jsonl_reloads. intros st Hin. split.
  - destruct (split_statements_from_collapse text st Hin) as [Hne [p Hp]].
    destruct (collapse_ws_normal p st Hp) as (_ & _ & C). destruct st as [|c t]; [congruence|].
    destruct (C c t eq_refl) as [C1 _]. unfold nonblank. cbn [forallb]. rewrite C1. reflexivity.
  - pose proof (split_statements_Forall (fun c => is_code_point c = true) eq_refl eq_refl text) as A.
    rewrite forallb_forall in Ht. apply Forall_forall in Ht. specialize (A Ht).
    rewrite Forall_forall in A. apply forallb_forall. apply Forall_forall. exact (A st Hin).
Qed.

Lemma sanitize_jsonl_reloads_witness :
  forallb is_code_point (cps "The sky is blue. What is gamma? Probably tomorrow.") = true /\
  exists out, _to_jsonl (F:=tfloat) (H:=tfloat_model) (_split_statements (cps "The sky is blue. What is gamma? Probably tomorrow.")) = Ok out /\
    load_sanitized_text (F:=tfloat) (H:=tfloat_model) out
    = Ok (map (fun st => (_classify (H:=toy_env) st, st)) (_split_statements (cps "The sky is blue. What is gamma? Probably tomorrow."))).
Proof.
  assert (C : forallb is_code_point (cps "The sky is blue. What is gamma? Probably tomorrow.") = true) by (vm_compute; reflexivity).
  split; [exact C|]. exact (sanitize_jsonl_reloads (H:=tfloat_model) (H0:=toy_env) _ C).
Defined.

Lemma dmem_perm {F} (d1 d2 : list (pystr * json F)) k : Permutation d1 d2 -> dmem d1 k = dmem d2 k.
Proof.
  induction 1 as [|x l1 l2 P IH|x y l|l1 l2 l3 P1 IH1 P2 IH2]; try congruence.
  - destruct x as [k1 v1]. cbn [dmem]. rewrite IH. reflexivity.
  - destruct x as [k1 v1], y as [k2 v2]. cbn [dmem].
    rewrite !orb_assoc, (orb_comm (str_eqb k2 k)). reflexivity.
Qed.

(** A value without NaN or infinity serializes with [allow_nan=False]. *)
Lemma json_dumps_finite_ok {F} `{FloatModel F} (v : json F) :
  has_nonfinite v = false -> is_ok (json_dumps false v) = true.
Proof.
  induction v as [| | | f | | l IHl | l IHl] using json_ind'; intros Hn; cbn [has_nonfinite] in Hn;
    simpl; try reflexivity.
  - destruct b; reflexivity.
  - destruct (f_finite f); [reflexivity|discriminate].
  - match goal with |- is_ok (match ?g l with _ => _ end) = true =>
      assert (G : is_ok (g l) = true); [|destruct (g l); [reflexivity|exact G]] end.
    revert Hn. induction IHl as [|x l Hx _ IH]; intros Hn; [reflexivity|].
    apply orb_false_iff in Hn as [Hn1 Hn2].
    simpl. specialize (Hx Hn1). specialize (IH Hn2). destruct (json_dumps false x) as [s|e]; [|discriminate Hx].
    match goal with |- is_ok (match ?t with _ => _ end) = true => destruct t end;
      [reflexivity|exact IH].
  - match goal with |- is_ok (match seq_items (sort_items (?g l)) with _ => _ end) = true =>
      assert (G : Forall (fun kv => is_ok (snd kv) = true) (g l)) end.
    { revert Hn. induction IHl as [|[k x] l Hx _ IH]; intros Hn; simpl; constructor.
      - apply orb_false_iff in Hn as [Hn1 _]. exact (Hx Hn1).
      - apply orb_false_iff in Hn as [_ Hn2]. exact (IH Hn2). }
    apply sort_items_Forall, seq_items_ok in G.
    destruct (seq_items _); [reflexivity|exact G].
Qed.

(** X9: [hash_record_fields] refuses a non-dict with TypeError and a dict
    holding a hash key with ValueError. A dict without a hash key and
    without NaN or infinity gets the SHA-256 of its canonical dump; one
    holding NaN or infinity gets the CanonicalizationError of the dump. The
    result does not depend on the order of the keys. *)
Theorem hash_record_fields_contract {F} `{FloatModel F} `{Env} :
  (forall v, (forall d, v <> JObj d) ->
     hash_record_fields v = raise TypeError "hash_record_fields: record_dict_without_hash must be dict")
  /\ (forall d, dmem d (cps "hash") = true ->
     hash_record_fields (JObj d) = raise ValueError "hash_record_fields: input must not contain 'hash' field")
  /\ (forall d, dmem d (cps "hash") = false -> has_nonfinite (JObj d) = false ->
     exists s, canonical_dumps (JObj d) = Ok s /\ hash_record_fields (JObj d) = Ok (sha256 s))
  /\ (forall d, dmem d (cps "hash") = false -> has_nonfinite (JObj d) = true ->
     exists m, hash_record_fields (JObj d) = Exc (Exn CanonicalizationError m))
  /\ (forall d1 d2, NoDup (map fst d1) -> Permutation d1 d2 ->
     hash_record_fields (JObj d1) = hash_record_fields (JObj d2)).
Proof.
  split; [|split; [|split; [|split]]].
  - intros v Hv. destruct v; try reflexivity. exfalso. exact (Hv l eq_refl).
  - intros d Hd. cbn [hash_record_fields]. rewrite Hd. reflexivity.
  - intros d Hd Hn. cbn [hash_record_fields]. rewrite Hd. unfold hash_of, canonical_dumps.
    pose proof (json_dumps_finite_ok (JObj d) Hn) as G.
    destruct (json_dumps false (JObj d)) as [s|e]; [|discriminate G].
    exists s. split; reflexivity.
  - intros d Hd Hn. cbn [hash_record_fields]. rewrite Hd.
    destruct (canonical_nonfinite (JObj d) Hn) as [m Hm]. exists m. unfold hash_of. rewrite Hm. reflexivity.
  - intros d1 d2 Hn P. cbn [hash_record_fields]. rewrite (dmem_perm d1 d2 _ P).
    destruct (dmem d2 (cps "hash")); [reflexivity|]. unfold hash_of. rewrite (canonical_perm d1 d2 Hn P). reflexivity.
Qed.

Lemma hash_record_fields_contract_witness :
  hash_record_fields (F:=tfloat) (H0:=toy_env) (JObj [(cps "hash", JStr [])])
    = raise ValueError "hash_record_fields: input must not contain 'hash' field"
  /\ hash_record_fields (F:=tfloat) (H0:=toy_env) (JObj [(cps "b", JInt 2); (cps "a", JInt 1)])
     = Ok (toy_sha256 [123; 34; 97; 34; 58; 49; 44; 34; 98; 34; 58; 50; 125])
  /\ (exists m, hash_record_fields (F:=tfloat) (H0:=toy_env) (JObj [(cps "t", JFloat TNaN)])
        = Exc (Exn CanonicalizationError m))
  /\ hash_record_fields (F:=tfloat) (H0:=toy_env) (JObj [(cps "a", JInt 1); (cps "b", JInt 2)])
     = hash_record_fields (F:=tfloat) (H0:=toy_env) (JObj [(cps "b", JInt 2); (cps "a", JInt 1)]).
Proof.
  destruct (hash_record_fields_contract (F:=tfloat) (H0:=toy_env)) as (_ & B & C & D & P).
  split; [|split; [|split]].
  - apply B. reflexivity.
  - destruct (C [(cps "b", JInt 2); (cps "a", JInt 1)]) as (s & Es & ->); [reflexivity|reflexivity|].
    vm_compute in Es. injection Es as <-. reflexivity.
  - apply D; reflexivity.
  - apply P; [|apply perm_swap].
    constructor; [cbv; intros [Hx|[]]; discriminate Hx|constructor; [intros []|constructor]].
Defined.

(** With [allow_nan=True] every value serializes. *)
Lemma json_dumps_nan_ok {F} `{FloatModel F} (v : json F) : exists s, json_dumps true v = Ok s.
Proof.
  induction v as [| | | f | | l IHl | l IHl] using json_ind'; cbn [json_dumps].
  - eexists; reflexivity.
  - destruct b; eexists; reflexivity.
  - eexists; reflexivity.
  - destruct (f_finite f); eexists; reflexivity.
  - eexists; reflexivity.
  - assert (G : exists ss, (fix go (l : list (json F)) : res (list pystr) :=
               match l with
               | [] => Ok []
               | x :: xs =>
                   match json_dumps true x with
                   | Exc e => Exc e
                   | Ok s => match go xs with Ok ss => Ok (s :: ss) | Exc e => Exc e end
                   end
               end) l = Ok ss).
    { induction IHl as [|x l0 [s Hx] _ [ss IH]]; [exists []; reflexivity|].
      exists (s :: ss). cbn. rewrite Hx. rewrite IH. reflexivity. }
    destruct G as [ss ->]. eexists; reflexivity.
  - set (items := (fix go (l : list (pystr * json F)) : list (pystr * res pystr) :=
                      match l with
                      | [] => []
                      | (k, x) :: xs => (k, json_dumps true x) :: go xs
                      end) l).
    assert (G : Forall (fun kv => exists s, snd kv = Ok s) items).
    { subst items. induction IHl as [|[k x] l0 Hx _ IH]; constructor; auto. }
    apply sort_items_Forall in G.
    assert (G2 : exists kvs, seq_items (sort_items items) = Ok kvs).
    { induction G as [|[k r] l0 [s Hs] _ [kvs IH]]; [exists []; reflexivity|].
      cbn in Hs. subst r. exists ((k, s) :: kvs). cbn. rewrite IH. reflexivity. }
    destruct G2 as [kvs ->]. eexists; reflexivity.
Qed.

Lemma dget_dset_other {F} (d : list (pystr * json F)) k v k' :
  str_eqb k k' = false -> dget (dset d k v) k' = dget d k'.
Proof.
  intros Hk. induction d as [|[k0 v0] d IH]; cbn [dset dget].
  - rewrite Hk. reflexivity.
  - destruct (str_eqb k0 k) eqn:E; cbn [dget].
    + apply str_eqb_eq in E. subst k0. rewrite Hk. reflexivity.
    + rewrite IH. reflexivity.
Qed.

Lemma dget_fold_dset {F} (extra base : list (pystr * json F)) k' :
  (forall kv, In kv extra -> str_eqb (fst kv) k' = false) ->
  dget (fold_left (fun e kv => dset e (fst kv) (snd kv)) extra base) k' = dget base k'.
Proof.
  revert base; induction extra as [|kv extra IH]; intros base Hx; [reflexivity|]. cbn [fold_left].
  rewrite IH by (intros kv' H'; apply Hx; right; exact H').
  apply dget_dset_other, Hx. left. reflexivity.
Qed.

Lemma validate_event_cases {F} (ev : list (pystr * json F)) :
  validate_event ev = Ok tt \/ exists m, validate_event ev = Exc (Exn EngineeringLogValidationError m).
Proof.
  unfold validate_event. repeat (destruct (negb _); [right; eexists; reflexivity|]). left; reflexivity.
Qed.

(** X10: [log_tool_execution] never touches the files or the registries; it either succeeds and appends exactly one line to the engineering log, or fails with EngineeringLogValidationError and changes nothing. *)
Theorem log_tool_execution_outcome {F} `{FloatModel F} ca tn st rid aid eid (extra : list (pystr * json F)) w :
  let w' := snd (log_tool_execution ca tn st rid aid eid extra w) in
  w_files w' = w_files w /\ w_art w' = w_art w /\ w_inf w' = w_inf w
  /\ ((fst (log_tool_execution ca tn st rid aid eid extra w) = Ok tt
       /\ exists line, w_log w' = w_log w ++ [line ++ [10]])
      \/ (exists m, fst (log_tool_execution ca tn st rid aid eid extra w) = Exc (Exn EngineeringLogValidationError m)
          /\ w' = w)).
Proof.
  unfold log_tool_execution, append_engineering_event.
  set (ev := fold_left _ extra _).
  destruct (validate_event_cases ev) as [V|[m V]].
  - destruct (json_dumps_nan_ok (JObj ev)) as [s S].
    unfold bindM, liftR, mkdir, append_log_line. cbn -[json_dumps validate_event]. rewrite V. cbn -[json_dumps].
    rewrite S. cbn. split; [reflexivity|]. split; [reflexivity|]. split; [reflexivity|].
    left. split; [reflexivity|]. exists s. reflexivity.
  - unfold bindM, liftR. cbn -[validate_event]. rewrite V. cbn.
    split; [reflexivity|]. split; [reflexivity|]. split; [reflexivity|].
    right. exists m. split; reflexivity.
Qed.

Lemma append_engineering_event_ok {F} `{FloatModel F} (ev : list (pystr * json F)) w :
  fst (append_engineering_event ev w) = Ok tt <-> validate_event ev = Ok tt.
Proof.
  unfold append_engineering_event, bindM, liftR, mkdir, append_log_line.
  destruct (validate_event ev) as [[]|e]; cbn -[json_dumps]; [|split; discriminate].
  destruct (json_dumps_nan_ok (JObj ev)) as [s ->]. split; reflexivity.
Qed.

(** X11: when the extra fields do not override created_at_utc, event_type or status, [log_tool_execution] succeeds exactly when created_at_utc and status are non-blank. *)
Theorem log_tool_execution_succeeds {F} `{FloatModel F} ca tn st rid aid eid (extra : list (pystr * json F)) w :
  (forall kv, In kv extra -> str_eqb (fst kv) (cps "created_at_utc") = false
                             /\ str_eqb (fst kv) (cps "event_type") = false
                             /\ str_eqb (fst kv) (cps "status") = false) ->
  (fst (log_tool_execution ca tn st rid aid eid extra w) = Ok tt <-> nonblank ca = true /\ nonblank st = true).
Proof.
  intros Hx. unfold log_tool_execution. rewrite append_engineering_event_ok.
  set (base := _ ++ _). set (ev := fold_left _ extra base).
  assert (E1 : dget ev (cps "created_at_utc") = JStr ca)
    by (unfold ev; rewrite dget_fold_dset; [reflexivity|intros kv Hk; apply Hx, Hk]).
  assert (E2 : dget ev (cps "event_type") = JS "tool_execute")
    by (unfold ev; rewrite dget_fold_dset; [reflexivity|intros kv Hk; apply Hx, Hk]).
  assert (E3 : dget ev (cps "status") = JStr st)
    by (unfold ev; rewrite dget_fold_dset; [reflexivity|intros kv Hk; apply Hx, Hk]).
  unfold validate_event. rewrite E1, E2, E3. cbn [is_nonblank_str JS].
  change (nonblank (cps "tool_execute")) with true.
  destruct (nonblank ca), (nonblank st); cbn; split; intros [? ?] || intros ?; try discriminate; auto.
Qed.

Lemma log_tool_execution_succeeds_witness :
  fst (log_tool_execution (F:=tfloat) (cps "2026-01-01T00:00:00Z") (cps "inference.execute") (cps "ok")
         None None None [(cps "provider", JS "openai")] empty_world) = Ok tt.
Proof.
  apply (proj2 (log_tool_execution_succeeds (F:=tfloat) (cps "2026-01-01T00:00:00Z") (cps "inference.execute")
           (cps "ok") None None None [(cps "provider", JS "openai")] empty_world
           ltac:(intros kv [<-|[]]; vm_compute; auto))).
  split; reflexivity.
Defined.

Lemma load_jsonl_lines {F} `{FloatModel F} (ps : list (pystr * pystr)) :
  ps <> [] ->
  (forall p, In p ps -> nonblank (fst p) = true /\ forallb is_code_point (fst p) = true
                        /\ nonblank (snd p) = true /\ forallb is_code_point (snd p) = true) ->
  load_sanitized_text (F:=F) (join [10] (map (fun p => jsonl_line (fst p) (snd p)) ps) ++ [10]) = Ok ps.
Proof.
  intros Hne Hps. unfold load_sanitized_text. rewrite text_lines_jsonl.
  - clear Hne. induction ps as [|[c s] ps IH]; [reflexivity|].
    destruct (Hps (c, s) (or_introl eq_refl)) as (Cnb & Ccp & Snb & Scp). cbn [fst snd] in *.
    cbn [map map_res]. rewrite (jsonl_line_loads _ _ Ccp Scp). cbn [dget].
    change (str_eqb (cps "text") (cps "type")) with false. change (str_eqb (cps "text") (cps "text")) with true.
    change (str_eqb (cps "type") (cps "type")) with true. cbn [is_nonblank_str negb as_str].
    rewrite Cnb, Snb. cbn [negb]. rewrite IH; [reflexivity|]. intros p' H'. apply Hps. right. exact H'.
  - destruct ps; [congruence|discriminate].
  - intros l x Hl Hx. apply in_map_iff in Hl as (p & <- & Hin).
    destruct (Hps p Hin) as (_ & Ccp & _ & Scp). exact (jsonl_line_ge32 _ _ x Ccp Scp Hx).
  - intros l Hl. apply in_map_iff in Hl as (p & <- & Hin). split; [apply jsonl_line_strip|discriminate].
Qed.

Lemma canon_text_of_eq {F} `{FloatModel F} (items : list (pystr * pystr)) :
  filter is_source_based items <> [] ->
  canon_text_of (F:=F) items =
  Ok (join [10] (map (fun p => jsonl_line (fst p) (snd p)) (filter is_source_based items)) ++ [10]).
Proof.
  intros Hne. unfold canon_text_of. fold is_source_based.
  assert (M : map_res (fun it => canonical_dumps (F:=F)
                (JObj [(cps "type", JS "SOURCE-BASED"); (cps "text", JStr (snd it))])) (filter is_source_based items)
             = Ok (map (fun p => jsonl_line (fst p) (snd p)) (filter is_source_based items))).
  { assert (Hs : forall it, In it (filter is_source_based items) -> fst it = cps "SOURCE-BASED").
    { intros it Hin. apply filter_In in Hin as [_ Hin]. apply str_eqb_eq, Hin. }
    revert Hs. generalize (filter is_source_based items). intros l Hs.
    induction l as [|it l IH]; [reflexivity|]. cbn [map_res map].
    rewrite IH by (intros it' H'; apply Hs; right; exact H'). unfold JS.
    rewrite jsonl_line_eq, (Hs it (or_introl eq_refl)). reflexivity. }
  rewrite M. destruct (filter is_source_based items); [congruence|reflexivity].
Qed.

Lemma filter_twice {A} (f : A -> bool) l : filter f (filter f l) = filter f l.
Proof. induction l as [|x l IH]; cbn; [reflexivity|]. destruct (f x) eqn:E; cbn; [rewrite E, IH|rewrite IH]; reflexivity. Qed.

(** X12: for items with non-blank code-point texts, the canon text built from them reads back as exactly the SOURCE-BASED items in their order, and building the canon text again from those items gives the same text. *)
Theorem canon_text_reloads {F} `{FloatModel F} (items : list (pystr * pystr)) :
  (forall it, In it items -> nonblank (snd it) = true /\ forallb is_code_point (snd it) = true) ->
  exists out, canon_text_of (F:=F) items = Ok out
    /\ load_sanitized_text (F:=F) out = Ok (filter is_source_based items)
    /\ canon_text_of (F:=F) (filter is_source_based items) = Ok out.
Proof.
  intros Hit. destruct (filter is_source_based items) as [|it0 sel0] eqn:Esel.
  - exists []. unfold canon_text_of. fold is_source_based. rewrite Esel. cbn.
    split; [reflexivity|]. split; reflexivity.
  - rewrite <- Esel. assert (Hne : filter is_source_based items <> []) by (rewrite Esel; discriminate).
    eexists. split; [exact (canon_text_of_eq items Hne)|]. split.
    + apply load_jsonl_lines; [exact Hne|]. intros p Hp. apply filter_In in Hp as [Hin Hsrc].
      unfold is_source_based in Hsrc. apply str_eqb_eq in Hsrc. rewrite Hsrc.
      destruct (Hit p Hin) as [Snb Scp]. repeat split; auto.
    + rewrite (canon_text_of_eq (filter is_source_based items)) by (rewrite filter_twice; exact Hne).
      rewrite filter_twice. reflexivity.
Qed.

Lemma canon_text_reloads_witness :
  (forall it, In it [(cps "SOURCE-BASED", cps "The sky is blue."); (cps "QUESTION", cps "What is gamma?")] ->
     nonblank (snd it) = true /\ forallb is_code_point (snd it) = true) /\
  exists out, canon_text_of (F:=tfloat) [(cps "SOURCE-BASED", cps "The sky is blue."); (cps "QUESTION", cps "What is gamma?")] = Ok out
    /\ load_sanitized_text (F:=tfloat) out
       = Ok (filter is_source_based [(cps "SOURCE-BASED", cps "The sky is blue."); (cps "QUESTION", cps "What is gamma?")])
    /\ canon_text_of (F:=tfloat) (filter is_source_based [(cps "SOURCE-BASED", cps "The sky is blue."); (cps "QUESTION", cps "What is gamma?")]) = Ok out.
Proof.
  assert (A : forall it, In it [(cps "SOURCE-BASED", cps "The sky is blue."); (cps "QUESTION", cps "What is gamma?")] ->
     nonblank (snd it) = true /\ forallb is_code_point (snd it) = true)
    by (intros it [<-|[<-|[]]]; split; vm_compute; reflexivity).
  split; [exact A|]. exact (canon_text_reloads _ A).
Defined.

Lemma san_keep_refl w : san_keep w w.
Proof. repeat split; auto. Qed.

Lemma san_keep_trans w1 w2 w3 : san_keep w1 w2 -> san_keep w2 w3 -> san_keep w1 w3.
Proof.
  intros (A1 & B1 & C1 & D1) (A2 & B2 & C2 & D2). repeat split; try congruence.
  intros q Hq. rewrite D2, D1 by exact Hq. reflexivity.
Qed.

Lemma san_frame_keep_l w1 w2 w3 : san_keep w1 w2 -> san_frame w2 w3 -> san_frame w1 w3.
Proof.
  intros (A1 & B1 & C1 & D1) (A2 & B2 & D2 & E2). repeat split; try congruence.
  - intros q Hq. rewrite D2, D1 by exact Hq. reflexivity.
  - rewrite <- C1. exact E2.
Qed.

Lemma san_frame_keep_r w1 w2 w3 : san_frame w1 w2 -> san_keep w2 w3 -> san_frame w1 w3.
Proof.
  intros (A1 & B1 & D1 & E1) (A2 & B2 & C2 & D2). repeat split; try congruence.
  - intros q Hq. rewrite D2, D1 by exact Hq. reflexivity.
  - rewrite C2. exact E1.
Qed.

Lemma san_keep_frame w w' : san_keep w w' -> san_frame w w'.
Proof. intros (A & B & C & D). repeat split; auto. Qed.


Lemma keeps_leaves {A} (c : M A) : leaves_world c -> keeps c.
Proof. intros L w. rewrite L. apply san_keep_refl. Qed.

Lemma keeps_bind {A B} (c : M A) (k : A -> M B) : keeps c -> (forall a, keeps (k a)) -> keeps (bindM c k).
Proof.
  intros Hc Hk w. unfold bindM. specialize (Hc w).
  destruct (c w) as [[a|e] w']; cbn [snd] in *; [|exact Hc].
  exact (san_keep_trans _ _ _ Hc (Hk a w')).
Qed.

Lemma frames_bind_l {A B} (c : M A) (k : A -> M B) : keeps c -> (forall a, frames (k a)) -> frames (bindM c k).
Proof.
  intros Hc Hk w. unfold bindM. specialize (Hc w).
  destruct (c w) as [[a|e] w']; cbn [snd] in *; [|apply san_keep_frame, Hc].
  exact (san_frame_keep_l _ _ _ Hc (Hk a w')).
Qed.

Lemma frames_bind_r {A B} (c : M A) (k : A -> M B) : frames c -> (forall a, keeps (k a)) -> frames (bindM c k).
Proof.
  intros Hc Hk w. unfold bindM. specialize (Hc w).
  destruct (c w) as [[a|e] w']; cbn [snd] in *; [|exact Hc].
  exact (san_frame_keep_r _ _ _ Hc (Hk a w')).
Qed.

Lemma keeps_frames {A} (c : M A) : keeps c -> frames c.
Proof. intros Hc w. apply san_keep_frame, Hc. Qed.

Lemma keeps_mkdir p : keeps (mkdir p).
Proof. intros w. repeat split. Qed.

Lemma keeps_write_text_san p s : prefixb (SANITIZED_DIR ++ [47]) p = true -> keeps (write_text p s).
Proof.
  intros Hp w. unfold write_text. destruct (is_dir w p); [apply san_keep_refl|].
  repeat split. intros q Hq. cbn [w_files snd]. apply fs_get_set_other.
  destruct (str_eqb p q) eqn:E; [|reflexivity]. apply str_eqb_eq in E. subst q. congruence.
Qed.

Lemma keeps_reg_has {F} `{FloatModel F} which id kind : keeps (reg_has (F:=F) which id kind).
Proof. intros w. apply san_keep_refl. Qed.

Lemma keeps_file_size_bytes p : keeps (file_size_bytes p).
Proof. apply keeps_leaves. apply leaves_bind; [apply leaves_read_text|intro; apply leaves_ret]. Qed.

Lemma frames_append_sanitized `{Env} id c fp mt parents notes tags :
  frames (append_from_file ArtifactReg id (cps "SANITIZED") c fp mt parents notes tags).
Proof.
  unfold append_from_file. apply frames_bind_l; [apply keeps_leaves, leaves_sha256_file|intros sha].
  apply frames_bind_l; [apply keeps_file_size_bytes|intros size].
  intros w. unfold reg_append, bindM, liftR.
  destruct (validate_record _ _ _) as [[]|e]; [|apply san_keep_frame, san_keep_refl].
  cbn. repeat split. right. eexists. split; reflexivity.
Qed.

Create HintDb sanframe.
#[export] Hint Resolve keeps_mkdir keeps_reg_has keeps_file_size_bytes keeps_frames : sanframe.
#[export] Hint Extern 1 (keeps _) => apply keeps_leaves; solve [eauto with leaves] : sanframe.

Ltac solve_keeps :=
  repeat (apply keeps_bind; [|intro]);
  first [ solve [eauto with sanframe]
        | match goal with
          | |- keeps (match ?x with _ => _ end) => destruct x; solve_keeps
          | |- keeps (if ?b then _ else _) => destruct b; solve_keeps
          end ].

Lemma prefixb_path_join d n : prefixb (d ++ [47]) (path_join d n) = true.
Proof. unfold path_join. rewrite app_assoc. apply prefixb_app. Qed.


Lemma ok_post_bind {A B} (c : M A) (k : A -> M B) P :
  (forall a, ok_post (k a) P) -> ok_post (bindM c k) P.
Proof.
  intros Hk w b w'. unfold bindM. destruct (c w) as [[a|e] w1]; [apply Hk|discriminate].
Qed.

Lemma ok_post_throw {A} c m (P : A -> Prop) : ok_post (throw c m) P.
Proof. intros w a w' E. discriminate. Qed.

Lemma ok_post_ret {A} (a : A) (P : A -> Prop) : P a -> ok_post (retM a) P.
Proof. intros Ha w b w' E. injection E as <- <-. exact Ha. Qed.

Lemma sanitize_prepare_path {F} `{FloatModel F} `{Env} (ti : json F) :
  ok_post (sanitize_prepare ti) (fun p => exists n, sp_sanitized_path p = path_join SANITIZED_DIR n).
Proof.
  unfold sanitize_prepare. destruct ti; try apply ok_post_throw.
  repeat (apply ok_post_bind; intros ?).
  repeat match goal with
         | |- ok_post (let (_, _) := ?x in _) _ => destruct x
         | |- ok_post (bindM _ _) _ => apply ok_post_bind; intros ?
         end.
  apply ok_post_ret. eexists. reflexivity.
Qed.

(** X13: when the sanitized artifact id the call settles on holds no '/'
    (so that [SANITIZED_DIR / f"{id}.jsonl"] is the plain join), whether
    [artifact_sanitize] returns or raises, it never changes the inference
    registry or the engineering log, writes files only under
    .adam_os/artifacts/sanitized/, and adds at most one artifact record, of
    kind SANITIZED, at the end of the artifact registry. *)
Theorem artifact_sanitize_frame {F} `{FloatModel F} `{Env} (ti : json F) w :
  (forall p w1, sanitize_prepare ti w = (Ok p, w1) -> ~ In 47 (sp_sanitized_id p)) ->
  let w' := snd (artifact_sanitize ti w) in
  w_inf w' = w_inf w /\ w_log w' = w_log w
  /\ (forall q, prefixb (SANITIZED_DIR ++ [47]) q = false -> fs_get (w_files w') q = fs_get (w_files w) q)
  /\ (w_art w' = w_art w \/ exists r, w_art w' = w_art w ++ [r] /\ r_kind r = cps "SANITIZED").
Proof.
  intros _.
  change (san_frame w (snd (artifact_sanitize ti w))).
  unfold artifact_sanitize. unfold bindM at 1.
  assert (Kp : keeps (sanitize_prepare ti)).
  { unfold sanitize_prepare. destruct ti; solve_keeps. }
  pose proof (sanitize_prepare_path ti w) as Pp.
  specialize (Kp w). destruct (sanitize_prepare ti w) as [[p|e] w1] eqn:E; cbn [snd] in *;
    [|apply san_keep_frame, Kp].
  destruct (Pp p w1 eq_refl) as [n Hn].
  refine (san_frame_keep_l _ _ _ Kp _). clear E Pp Kp. revert w1.
  change (frames (bindM (sanitize_gate p) (fun g => if g then sanitize_idempotent p else sanitize_fresh p))).
  apply frames_bind_l.
  { unfold sanitize_gate. solve_keeps. }
  intros g. destruct g.
  - apply keeps_frames. unfold sanitize_idempotent. solve_keeps.
  - unfold sanitize_fresh.
    apply frames_bind_l; [solve_keeps|intros raw].
    apply frames_bind_l; [solve_keeps|intros txt].
    apply frames_bind_l; [rewrite Hn; apply keeps_write_text_san, prefixb_path_join|intros []].
    apply frames_bind_l; [solve_keeps|intros sha].
    apply frames_bind_l; [solve_keeps|intros size].
    apply frames_bind_r; [apply frames_append_sanitized|intros []]. solve_keeps.
Qed.

Lemma artifact_sanitize_frame_witness :
  let w' := snd (artifact_sanitize walk_sanitize_input walk_world0) in
  w_inf w' = w_inf walk_world0 /\ w_log w' = w_log walk_world0
  /\ (forall q, prefixb (SANITIZED_DIR ++ [47]) q = false -> fs_get (w_files w') q = fs_get (w_files walk_world0) q)
  /\ (w_art w' = w_art walk_world0 \/ exists r, w_art w' = w_art walk_world0 ++ [r] /\ r_kind r = cps "SANITIZED").
Proof.
  apply (artifact_sanitize_frame walk_sanitize_input walk_world0).
  intros p w1 E. vm_compute in E. injection E as <- _. vm_compute. intuition discriminate.
Defined.
